(* ===== verification/_CoqProject ===== *)
-Q . S2P
Prelude.v
JobState.v
Approvals.v
ApprovalsProofs.v
ApprovalsTheorems.v
JobQueue.v
JobQueueProofs.v
JobQueueTheorems.v
JobWorker.v
JobWorkerTheorems.v
RoleCatalog.v
RoleCatalogProofs.v
RoleCatalogTheorems.v
RedisState.v
RedisStateTheorems.v
Revocation.v
RevocationTheorems.v
PolicyConditions.v
PolicyConditionsTheorems.v
DelegationGrants.v
DelegationGrantsProofs.v
DelegationGrantsTheorems.v
GoText.v
EventEnvelope.v
EventRelay.v
EventRelayProofs.v
EventRelayOrder.v
EventRelayDrain.v
EventReplay.v
EventWebhooks.v
EventRelayTheorems.v
ModuleScopes.v
ModuleScopesProofs.v
ModuleGrants.v
ModuleGrantsProofs.v
ModuleAuthority.v
ModuleAuthorityProofs.v
ModuleAuthorityTheorems.v
ModuleSurface.v
ModuleSurfaceProofs.v
ModuleSurfaceTheorems.v
ModuleApprovals.v
NetAddr.v
RateLimit.v
RateLimitProofs.v
RateLimitTheorems.v
Sessions.v
SessionTokens.v
SessionsProofs.v
SessionSystem.v
SessionsTheorems.v
