(* ===== verification/Prelude.v ===== *)
(** * Verification of the saas-starter module

    The repository is a multi-tenant SaaS backend: the accounts service
    (src/module/services/accounts/code, Go, over PostgreSQL and Redis) and the auth
    gateway in front of it (src/module/services/auth-gateway/code).  This library
    models the parts of both whose correctness is a matter of state, order and
    time, and proves what they promise.

    ** The parts and how they interact

    A person who signs in gets an access token and a refresh token, whose session is a row
    of a family that every refresh continues; the triggers of the database and the sign-outs
    end families, and markers in Redis end the access tokens of an ended one
    ([Sessions], [SessionTokens]).  A request enters through the gateway, whose access check asks whether its token
    was revoked ([Revocation]); the markers it reads are written by the accounts
    service to the Redis both share ([RedisState], which also holds single-use
    nonces and rate-limit counters).  Before it is forwarded it is metered by the
    gateway's own limiter, whose counters are in that Redis or in memory ([RateLimit]).  Work that outlives a request is a job: a
    producer enqueues it in the transaction of its mutation, a polling worker claims
    it under a lease and concludes it ([JobState], [JobQueue], [JobWorker]).  A
    sensitive action asks for approval ([Approvals]); an approved request resumes
    its action by enqueueing a job.  An agent without authority asks for a
    delegation grant ([DelegationGrants]).  Roles come from a catalog document that
    an importer reconciles with the database ([RoleCatalog]), and method policies
    carry attribute conditions ([PolicyConditions]).

    Facts travel as domain events: a producer publishes an envelope in its
    transaction, a relay fans each event out to the subscriptions as jobs of their
    queues and to tenants' webhooks, and a consumer claims it like any job
    ([EventEnvelope], [EventRelay]).  Composed modules act on the host under a grant
    derived from an administrator's envelope and a signed manifest, narrowed by what
    each organization consented to, and every call of theirs passes one decision that
    re-reads that authority ([ModuleScopes], [ModuleGrants], [ModuleAuthority]); the
    calls themselves enqueue and claim jobs, publish and subscribe to events and open
    approvals ([ModuleSurface]).

    ** The files

    - Prelude: results, transactions, 64-bit integers, time, strings as bytes, the
      order of SQL's ORDER BY, list lemmas and the tactics all files use.
    - JobState: pkg/jobs/state.go and producer.go, the messages of jobs.proto and
      the producer interface [JobProducer] (store.go) with the outbox table as its
      instance.
    - Approvals, ApprovalsProofs, ApprovalsTheorems: pkg/business/approvals.go over
      pkg/infra/postgres_approvals.go.  The database is a record of tables; every
      operation is a transaction on it; [spec_step] of ApprovalsProofs is the
      abstract machine that the engine refines.
    - JobQueue, JobQueueProofs, JobQueueTheorems: pkg/infra/postgres_jobs.go,
      postgres_job_producer.go and postgres_job_operations.go with the functions and
      triggers of store/migrations/1_baseline.up.sql that they run.  A job is seen
      as its row, its attempts and its transitions.
    - JobWorker, JobWorkerTheorems: pkg/jobs/worker.go as a client of the store
      interface [Store]; the queue is an instance.  A batch is an interleaving of
      the goroutines of its jobs.
    - RoleCatalog, RoleCatalogProofs, RoleCatalogTheorems: pkg/rolecatalog and
      pkg/infra/postgres_role_catalog.go.
    - RedisState, RedisStateTheorems: pkg/redisstate.  [State] is the interface,
      [StateLaws] what an implementation owes; the in-memory one is an instance, and
      the theorems about markers, nonces and budgets hold for every instance.
    - Revocation, RevocationTheorems: the gateway's revocation.go and the revocation
      part of ext_authz.go, over the same [State]; [Revoker] is the interface of the
      access check, with both implementations of the code as instances.
    - PolicyConditions, PolicyConditionsTheorems: pkg/policy/condition.
    - DelegationGrants, DelegationGrantsProofs, DelegationGrantsTheorems:
      pkg/business/delegation_grants.go over pkg/infra/postgres_delegation_grants.go
      and the server of pkg/adapters/delegation_rpcs.go.
    - GoText: decimals, RFC 3339 instants, base64 and UTF-8 of Go's standard library.
    - EventEnvelope: pkg/events/transport.go, pkg/eventcatalog/lookup.go and the
      attribute form of an envelope; EventRelay: pkg/infra/postgres_events.go,
      postgres_webhook_relay.go and publish_domain_event of store/migrations, over the
      queue of JobQueue.  EventRelayProofs has the class [WebhookDispatcher], what the
      relay asks of a dispatcher; EventWebhooks shows that the outbound one is an
      instance.  EventRelayOrder, EventRelayDrain, EventReplay and EventRelayTheorems
      hold the theorems on order, draining, replay and the rest.
    - ModuleScopes, ModuleScopesProofs: the scope lists of pkg/business
      module_operation_audience.go and module_read_audience.go; [permits] says what a
      list allows.  ModuleGrants, ModuleGrantsProofs: grants, consents, their
      intersection and derivation (module_capabilities.go, installation_scope.go,
      executable_artifacts.go, module_principal_reconcile.go); [Permission] lists what
      a module can be allowed.  ModuleAuthority, ModuleAuthorityProofs,
      ModuleAuthorityTheorems: the decision (module_envelope.go,
      module_manifest_grant.go, module_capability_enforcement.go,
      module_hop_binding.go, pkg/infra/postgres_module_authority.go) and the trigger
      that numbers installation rows.
    - ModuleSurface: the handlers of module_capabilities.go for jobs, events and
      approvals, over postgres_events_subscriptions.go.  ModuleSurfaceProofs inverts
      them ([Atomic] is what a failing call owes), ModuleSurfaceTheorems has what they
      confine, ModuleApprovals composes them with the approval engine.

    - NetAddr: addresses and prefixes of Go's net/netip and the host of a host:port.
      RateLimit, RateLimitProofs, RateLimitTheorems: the gateway's ratelimit.go with the
      route policy and the start-up checks it is called with.  [rateLimitBackend] is the
      interface of the counters and [BackendLaws] what one owes; the counters in memory
      and those in any [State] of RedisState are instances.

    - Sessions: pkg/auth/pg/session_store.go, client_session_store.go and scoped_roles.go
      with the errors and the policy of pkg/auth, the statements of
      pkg/infra/postgres_sessions.go and the triggers that revoke sessions.
      SessionTokens: pkg/auth/ed25519/minter.go and the sign-outs of pkg/business;
      [TokenRevoker] is the interface of the markers, with the no-op one and those in any
      [State] as instances.  SessionsProofs says what one operation does to the rows
      ([effect]), SessionSystem puts the operations together as steps ([step], over a
      [World] that remembers what was drawn) with the invariant of every reachable store
      and what follows a row through any run ([kept_by_steps]), and SessionsTheorems has
      the theorems.

    A definition has the name of the function, method or statement it models; where
    Go has a method and a store has the same name, a suffix tells them apart.

    ** How the code is modelled

    A Go function that may fail is a function into [result]; a transaction is a
    [tx], which threads the tables and, on failure, leaves them as they were
    ([run_tx]).  What a call reads from outside (clocks, generated ids, the audit
    wiring, what other transactions commit in between) is an argument.  A system of
    many callers is a step relation over transactions, and a theorem about every
    reachable state is an induction over its runs.  Rows that a statement locks or
    guards make each statement one step; where the code reads in one statement and
    writes in a later one without a lock, the steps are separate, which is where the
    counterexamples come from.  Integers are [Z] with their wrap-around written out
    (int64 through [wrap64], uint32 through [wrapu32]); times are nanoseconds.

    Code outside the repository is a parameter: JSON encoding, SHA-256, the time-zone
    database, protobuf validation, the minting of tokens, the order in which Go
    ranges over a map, and every Redis that keeps [StateLaws].  Hypotheses on them
    are in the statements that need them, and each such theorem has a witness at a
    concrete instance.

    ** What the theorems show

    - Approvals: the engine refines the abstract machine; the quorum is exact in
      every reachable database; an approved request resumes exactly once; terminal
      requests are final; enough allowed approvals do approve; the audit trail says
      what the state says; a reviewed decision binds what was shown.
    - Jobs: every row, its attempts and its transitions agree; leases fence their
      old holders; ordering keys are first in, first out (and fail to be when a
      producer starts first and commits late); a claim returns the first claimable
      jobs; retries respect their budget; enqueueing is idempotent; the SQL and the
      Go state machines are the same.
    - Worker: what a batch reports is in the database for good; a batch accounts for
      each of its jobs; durable failures are safe to show; the backoff is capped.
    - Role catalog: an import with nothing committed beside it reconciles the tables with
      the catalog, a second one does nothing, without force it takes no assignment away in a quiet database,
      every change is audited, and parsing is canonical.
    - Redis: revocation markers stick, nonces are single use, a rate limit grants
      exactly its budget, all to the last whole millisecond, which is what PEXPIRE
      keeps.
    - Gateway: its cache is bounded, a strict check fails closed, and a revoked token
      is refused from a bounded time after its revocation on; that time is the cache's
      lifetime plus the latency of a lookup, not the lifetime alone.
    - Rate limiting: over any lawful backend, failing or not, no readable header buys an
      address more authentication attempts than its budget on a route that fails closed; a minute's bucket serves exactly its
      budget; a deployed gateway starts only with a shared store and a trusted hop; and
      three ways in which the search for the caller answers something else.
    - Sessions: in every store that any sequence of sign-ins, refreshes, organization
      switches, client sign-ins, sign-outs, authority changes and prunings leads to, a
      family has one live row and a person a bounded number of devices; no refresh moves
      the end of a sign-in, changes whose it is or raises its assurance; a refreshed token
      carries the authority of the moment; a replayed token ends every session of its
      owner; a lapsed session ends its family; and after a sign-out, where the check fails
      closed on a shared Redis, neither the refresh tokens nor the access tokens of the
      family made a millisecond earlier are accepted.
    - Conditions: validation accepts exactly the well-formed conditions, these always
      evaluate, and evaluation admits exactly what meets every condition.
    - Delegation: a grant is decided once, a pattern approves at most its uses and
      only what it matches, a request is one row; and an approval, once given, mints a
      new token at every repetition of its request.
    - Events: with one relay, the jobs of an ordered subscription come in publish order
      per partition, whatever fan-outs fail; the backlog ends, given drains whose first
      batch commits and finds no row locked; a replay over tables that stay put ends and
      passes over every matching event once; a webhook stays in the event's tenant; an
      envelope arrives as it was published; an id names one fact; two relays can break
      the order.
    - Module authority: the scope checks mean inclusion and intersection of what is
      allowed; a module holds exactly what grant and consent both allow, in each of the
      four lists of the operation bindings that are left; a derived grant is bounded by
      envelope and manifest in the same lists; a positive decision rests on current rows
      at the sealed revision; authority withdrawn by a changed scope, receipt or exposure
      or by revocation never returns; and a hop that writes is called stale when its
      binding declares a lookup on that kind and no headless list.
    - Module surface: every call but the replay, which commits page by page, is decided
      first and fails whole; what a module enqueues, claims and publishes stays on granted
      queues and namespaces and in its organization; the relay carries no internal and no
      platform event to it whatever rows it holds, and the subscriptions it made were
      admitted under a catalog in force; an approval it opens resumes only onto a granted
      queue of its organization.

    ** Bounds and termination

    Nearly every definition is a structural recursion or none.  Three loops carry
    fuel: a relay drain runs at most relayMaxBatchesPerDrain (20) batches of 100 events,
    as the code's own loop does; a replay pages 500 events at a time, and one page more
    than the matching events fill is enough (replay_reaches_everything); the bisection
    of slices.BinarySearch is given the length of the slice, and as many rounds as the
    interval is long are enough (bisect_fuel).  The counters that could wrap are bounded
    in the statements (fewer than 2^63 - 1 increments of one Redis key; use_count below
    2^31, where PostgreSQL refuses).  Reading an IPv6 address has one unit of fuel per
    group of sixteen bits, as the code's loop ends after eight.

    New families and refresh tokens are assumed not to repeat an earlier one ([fresh] of
    SessionSystem), which is what random ids, random tokens and SHA-256 are for.  A marker
    lives to its last whole millisecond, so a sign-out reaches the tokens made at least a
    millisecond before it.

    The order of relayed events assumes one relay and that the sequence numbers of a
    partition follow its commits, which the advisory lock of publish_domain_event gives.
    The fact an event id names is compared by a digest, assumed to tell two envelopes
    apart.

    ** Not modelled

    Logging, tracing, metrics and best-effort notifications have no effect on the
    modelled state and are left out.  Connection failures of PostgreSQL appear only
    where the code distinguishes them.  Row-level security is not a separate layer:
    every modelled statement names its organization or its user, which the policies
    enforce once more, or runs above them.  UUIDs are strings in canonical spelling.  Of the
    CHECK constraints of job_messages all are kept but the size of the attributes' text; the
    number a job is inserted under is drawn in the same step as the insert, so numbers are
    dense and follow the order of the steps, where a sequence leaves gaps; and the trigger
    that projects the job of an installation onto the installation's row (migrations 36 and
    64) writes no table of the queue and is left out.  Of the events, the CloudEvents JSON
    codec, the worker's loop and the registration and sending of webhooks are left out.
    Of module authority, the reconciler's pass that verifies manifests and publishes the
    registry, installing itself, and the locks that hold authority from a decision to
    its effect (a decision and its effect are one step here) are left out; of the module
    surface, notifications, the audit surface, subject visibility, the placing of records
    and the fetching of blobs.  Of sessions, a transaction is one step: that a revocation
    waiting for a rotation at READ COMMITTED misses the successor's row is beyond it, and so
    are the deletion of users and the parsing of a presented token.  Of the rest
    of the repository, permissions and layered access, tenancy, entitlements,
    identity providers, the OAuth server and MFA, datasources, the key service, HTTP plumbing of the gateway and
    generated code are not modelled; the reasons are the size of their SQL,
    cryptography and remote services, and generated text. *)
From Stdlib Require Export ZArith Lia.
From stdpp Require Export base gmap strings list sorting.

(** ** Notation scope of the development *)
Declare Scope saas_scope.
Delimit Scope saas_scope with saas.
#[global] Open Scope saas_scope.

(** ** Fallible computations

    A Go function that returns [(T, error)] becomes a function into
    [result E T].  The error comes first so that [result E] is a monad. *)
Inductive result (E A : Type) : Type :=
| Ok (value : A)
| Err (error : E).
Arguments Ok {E A} value.
Arguments Err {E A} error.

#[export] Instance result_ret {E} : MRet (result E) := fun A a => Ok a.
#[export] Instance result_bind {E} : MBind (result E) := fun A B f r =>
  match r with Ok a => f a | Err e => Err e end.
#[export] Instance result_fmap {E} : FMap (result E) := fun A B f r =>
  match r with Ok a => Ok (f a) | Err e => Err e end.
#[export] Instance result_eq_dec {E A} `{EqDecision E, EqDecision A} :
  EqDecision (result E A).
Proof. solve_decision. Defined.

Definition is_ok {E A} (r : result E A) : bool :=
  match r with Ok _ => true | Err _ => false end.

(** [if cond { return err }] *)
Notation "'guard!' b 'else' e ; k" := (if b then k else Err e)
  (at level 10, b at level 100, e at level 100, k at level 200) : saas_scope.

(** ** Transactions

    A database transaction reads and writes a state [S] and may fail.  On
    failure [run_tx] restores the state the transaction started from, which is
    what a rollback does. *)
Definition tx (S E A : Type) : Type := S -> result E (A * S).

#[export] Instance tx_ret {S E} : MRet (tx S E) := fun A a s => Ok (a, s).
#[export] Instance tx_bind {S E} : MBind (tx S E) := fun A B f m s =>
  match m s with Ok (a, s') => f a s' | Err e => Err e end.

Definition tx_fail {S E A} (e : E) : tx S E A := fun _ => Err e.
Definition tx_get {S E} : tx S E S := fun s => Ok (s, s).
Definition tx_put {S E} (s : S) : tx S E unit := fun _ => Ok (tt, s).
Definition tx_lift {S E A} (r : result E A) : tx S E A := fun s =>
  match r with Ok a => Ok (a, s) | Err e => Err e end.

Definition run_tx {S E A} (m : tx S E A) (s : S) : result E A * S :=
  match m s with Ok (a, s') => (Ok a, s') | Err e => (Err e, s) end.

Section TxLaws.
Context {S E : Type}.

Lemma tx_bind_ok {A B} (m : tx S E A) (f : A -> tx S E B) s b s2 :
  (m ≫= f) s = Ok (b, s2) <->
  exists a s1, m s = Ok (a, s1) /\ f a s1 = Ok (b, s2).
Proof.
  unfold mbind, tx_bind. destruct (m s) as [[a s1]|e]; split.
  - eauto.
  - by intros (? & ? & [= <- <-] & ?).
  - done.
  - by intros (? & ? & ? & ?).
Qed.

Lemma tx_bind_err {A B} (m : tx S E A) (f : A -> tx S E B) s e :
  (m ≫= f) s = Err e <->
  m s = Err e \/ exists a s1, m s = Ok (a, s1) /\ f a s1 = Err e.
Proof.
  unfold mbind, tx_bind. destruct (m s) as [[a s1]|e']; split.
  - intros H. right. by exists a, s1.
  - by intros [?|(? & ? & [= <- <-] & ?)].
  - intros [= ->]. by left.
  - by intros [[= ->]|(? & ? & ? & ?)].
Qed.

Lemma tx_bind_run {A B} (m : tx S E A) (f : A -> tx S E B) s a s1 :
  m s = Ok (a, s1) -> (m ≫= f) s = f a s1.
Proof. intros H. unfold mbind, tx_bind. by rewrite H. Qed.

Lemma run_tx_rollback {A} (m : tx S E A) s e s' :
  run_tx m s = (Err e, s') -> s' = s.
Proof. unfold run_tx. by destruct (m s) as [[? ?]|?]; intros [=]. Qed.

Lemma run_tx_commit {A} (m : tx S E A) s a s' :
  run_tx m s = (Ok a, s') <-> m s = Ok (a, s').
Proof. unfold run_tx. destruct (m s) as [[? ?]|?]; split; intros [=]; by subst. Qed.
End TxLaws.

(** ** Machine integers

    Go's [int] and [int64] are 64 bits wide here (every target of the build is
    a 64-bit one), [int32]/[uint32] 32 bits wide; arithmetic wraps around. *)
Local Open Scope Z_scope.

Definition int64_max : Z := 2^63 - 1.
Definition int64_min : Z := - 2^63.
Definition in_int64 (z : Z) : Prop := int64_min <= z <= int64_max.
Definition wrap64 (z : Z) : Z := (z + 2^63) mod 2^64 - 2^63.
Definition wrap32 (z : Z) : Z := (z + 2^31) mod 2^32 - 2^31.
Definition wrapu32 (z : Z) : Z := z mod 2^32.

Lemma wrap64_range z : in_int64 (wrap64 z).
Proof.
  unfold in_int64, wrap64, int64_min, int64_max.
  pose proof (Z.mod_pos_bound (z + 2^63) (2^64)). lia.
Qed.

Lemma wrap64_id z : in_int64 z -> wrap64 z = z.
Proof.
  unfold in_int64, wrap64, int64_min, int64_max. intros H.
  rewrite Z.mod_small; lia.
Qed.

(** ** Time

    [time.Time] is the number of nanoseconds since the Unix epoch and
    [time.Duration] a number of nanoseconds.  Instants are unbounded: Go keeps
    them in 64-bit seconds, far beyond any instant a caller can name. *)
Abbreviation instant := Z (only parsing).
Abbreviation duration := Z (only parsing).

Definition nanosecond : duration := 1.
Definition millisecond : duration := 1000000.
Definition second : duration := 1000000000.
Definition minute : duration := 60 * second.
Definition hour : duration := 60 * minute.

(** The zero [time.Time], 1 January of the year 1 UTC. *)
Definition zero_time : instant := - 62135596800 * second.
Definition time_is_zero (t : instant) : bool := t =? zero_time.
Definition time_before (t u : instant) : bool := t <? u.
Definition time_after (t u : instant) : bool := u <? t.
Definition time_add (t : instant) (d : duration) : instant := t + d.
(** [t.Unix()]: whole seconds, rounded down. *)
Definition time_unix (t : instant) : Z := t / second.
(** [t.Truncate(d)]: [t] rounded down to a multiple of [d] since the zero time. *)
Definition time_truncate (t : instant) (d : duration) : instant :=
  if d <=? 0 then t else t - (t - zero_time) mod d.
(** [d.Milliseconds()]: whole milliseconds, rounded toward zero. *)
Definition duration_milliseconds (d : duration) : Z := Z.quot d millisecond.

(** A timestamptz column keeps microseconds. *)
Definition timestamptz (t : instant) : instant := t / 1000 * 1000.

Lemma time_truncate_bounds t d :
  0 < d -> time_truncate t d <= t < time_truncate t d + d.
Proof.
  intros Hd. unfold time_truncate.
  destruct (Z.leb_spec d 0); [lia|].
  pose proof (Z.mod_pos_bound (t - zero_time) d Hd). lia.
Qed.

Lemma time_truncate_minute t :
  time_truncate t minute = (t / minute) * minute.
Proof.
  unfold time_truncate.
  replace (t - zero_time) with (t + 1035593280 * minute)
    by (unfold zero_time, minute, second; lia).
  change (minute <=? 0) with false. cbn iota.
  rewrite Z.mod_add by (unfold minute, second; lia).
  pose proof (Z.div_mod t minute ltac:(done)). lia.
Qed.

(** ** Lexicographic order

    ORDER BY over several integer columns. *)
Fixpoint lex_le (x y : list Z) : Prop :=
  match x, y with
  | [], _ => True
  | _ :: _, [] => False
  | a :: x, b :: y => a < b \/ (a = b /\ lex_le x y)
  end.
#[export] Instance lex_le_dec : RelDecision lex_le.
Proof.
  intros x. induction x as [|a x IH]; intros [|b y]; cbn; [apply _..|].
  pose proof (IH y). unfold Decision in *. destruct (Z_lt_dec a b); [left; tauto|].
  destruct (Z.eq_dec a b) as [->|]; [|right; tauto].
  destruct (IH y); [left|right]; tauto.
Defined.
#[export] Instance lex_le_total : Total lex_le.
Proof.
  intros x. induction x as [|a x IH]; intros [|b y]; cbn; auto.
  destruct (IH y), (Z.lt_trichotomy a b) as [?|[?|?]]; auto 10.
Qed.
#[export] Instance lex_le_trans : Transitive lex_le.
Proof.
  intros x. induction x as [|a x IH]; intros [|b y] [|c z]; cbn; try tauto.
  intros [?|[-> ?]] [?|[-> ?]]; try (left; lia). right. eauto.
Qed.

(** ** Option and list helpers shared by the components *)
Definition option_or {A} (o : option A) (d : A) : A := default d o.

(** [slices.Contains] and the hand-written [contains] loops. *)
Fixpoint contains_string (xs : list string) (v : string) : bool :=
  match xs with
  | [] => false
  | x :: xs' => if decide (x = v) then true else contains_string xs' v
  end.

Lemma contains_string_spec xs v : contains_string xs v = true <-> v ∈ xs.
Proof.
  induction xs as [|x xs IH]; cbn.
  - split; [done|]. intros H. by apply elem_of_nil in H.
  - case_decide; rewrite elem_of_cons; naive_solver.
Qed.

Lemma contains_string_false xs v : contains_string xs v = false <-> v ∉ xs.
Proof.
  rewrite <- contains_string_spec. by destruct (contains_string xs v).
Qed.

(** ** Go strings are bytes

    [strings.TrimSpace]: the white space of Unicode, byte by byte in UTF-8, goes
    from both ends. *)
Definition bytes_of (s : string) : list N := map Ascii.N_of_ascii (String.list_ascii_of_string s).
Definition of_bytes (l : list N) : string :=
  String.string_of_list_ascii (map Ascii.ascii_of_N l).

Definition ascii_space (b : N) : bool := (b =? 32)%N || ((9 <=? b)%N && (b <=? 13)%N).
Definition space2 (b c : N) : bool := (b =? 194)%N && ((c =? 133)%N || (c =? 160)%N).
Definition space3 (b c d : N) : bool :=
  ((b =? 225)%N && (c =? 154)%N && (d =? 128)%N)
  || ((b =? 226)%N && (c =? 128)%N
      && (((128 <=? d)%N && (d <=? 138)%N) || (d =? 168)%N || (d =? 169)%N || (d =? 175)%N))
  || ((b =? 226)%N && (c =? 129)%N && (d =? 159)%N)
  || ((b =? 227)%N && (c =? 128)%N && (d =? 128)%N).

(** [turned]: the bytes come last first. *)
Fixpoint trim_bytes (turned : bool) (l : list N) : list N :=
  match l with
  | [] => []
  | b :: l1 =>
      if ascii_space b then trim_bytes turned l1
      else match l1 with
      | [] => l
      | c :: l2 =>
          if (if turned then space2 c b else space2 b c) then trim_bytes turned l2
          else match l2 with
          | [] => l
          | d :: l3 =>
              if (if turned then space3 d c b else space3 b c d) then trim_bytes turned l3 else l
          end
      end
  end.
Definition TrimSpace (s : string) : string :=
  of_bytes (rev (trim_bytes true (rev (trim_bytes false (bytes_of s))))).

(** [strings.IndexByte] and the part before it. *)
Fixpoint before_byte (c : Ascii.ascii) (s : string) : string :=
  match s with
  | EmptyString => EmptyString
  | String a rest => if Ascii.eqb a c then EmptyString else String a (before_byte c rest)
  end.

Lemma filter_none {A} (P : A -> Prop) `{forall x, Decision (P x)} (l : list A) :
  (forall x, x ∈ l -> ~ P x) -> filter P l = [].
Proof.
  induction l as [|x l IH]; intros Hn; [done|].
  rewrite filter_cons, decide_False by (apply Hn; by left).
  apply IH. intros y Hy. apply Hn. by right.
Qed.

Lemma Forall2_impl_in_l {A B} (P Q : A -> B -> Prop) l k :
  Forall2 P l k -> (forall x y, x ∈ l -> P x y -> Q x y) -> Forall2 Q l k.
Proof.
  induction 1 as [|x y l k Hxy _ IH]; intros H; constructor.
  - apply H; [by left|done].
  - apply IH. intros x' y' Hx'. apply H. by right.
Qed.

(** Sorting and cutting commute with order. *)
Lemma sorted_take {A} (R : A -> A -> Prop) n (l : list A) : Sorted R l -> Sorted R (take n l).
Proof.
  intros H. revert n. induction H as [|x l Hs IH Hx]; intros [|n]; cbn; constructor; auto.
  destruct Hx; destruct n; constructor; done.
Qed.

(** The rows ORDER BY and LIMIT leave out. *)
Lemma take_sorted_rest {A} (R : relation A) `{!Transitive R} n (l : list A) x :
  Sorted R l -> x ∈ l -> x ∉ take n l ->
  length (take n l) = n /\ forall y, y ∈ take n l -> R y x.
Proof.
  intros Hs Hx Hn. rewrite <- (take_drop n l) in Hx, Hs.
  apply elem_of_app in Hx as [|Hx]; [done|]. split.
  - apply list_elem_of_lookup in Hx as [i Hi]. rewrite lookup_drop in Hi.
    apply lookup_lt_Some in Hi. rewrite length_take. lia.
  - apply Sorted_StronglySorted in Hs; [|done]. intros y Hy.
    clear -Hs Hy Hx. induction (take n l) as [|z k IH]; [by apply elem_of_nil in Hy|].
    cbn in Hs. apply StronglySorted_inv in Hs as [Hs Hf].
    apply elem_of_cons in Hy as [->|Hy]; [|by apply IH].
    rewrite Forall_forall in Hf. apply Hf, elem_of_app. by right.
Qed.

(** ORDER BY [R] LIMIT [n] over the rows [P] selects. *)
Lemma limit_elem {A} (R : relation A) `{!RelDecision R} n (P : A -> Prop) `{forall x, Decision (P x)}
    (l : list A) x :
  x ∈ take n (merge_sort R (filter P l)) -> P x /\ x ∈ l.
Proof.
  intros Hm. apply elem_of_take in Hm as (i & Hl & _).
  apply list_elem_of_lookup_2 in Hl. rewrite merge_sort_Permutation in Hl.
  by rewrite list_elem_of_filter in Hl.
Qed.

Lemma limit_rest {A} (R : relation A) `{!RelDecision R, !Total R, !Transitive R} n (P : A -> Prop)
    `{forall x, Decision (P x)} (l : list A) x :
  P x -> x ∈ l -> x ∉ take n (merge_sort R (filter P l)) ->
  length (take n (merge_sort R (filter P l))) = n /\
  forall y, y ∈ take n (merge_sort R (filter P l)) -> R y x.
Proof.
  intros HP Hx Hn. apply take_sorted_rest; [done|by apply Sorted_merge_sort| |done].
  rewrite merge_sort_Permutation. by apply list_elem_of_filter.
Qed.

Lemma limit_sorted {A} (R : relation A) `{!RelDecision R, !Total R, !Transitive R} n (P : A -> Prop)
    `{forall x, Decision (P x)} (l : list A) :
  StronglySorted R (take n (merge_sort R (filter P l))).
Proof. apply Sorted_StronglySorted; [done|]. by apply sorted_take, Sorted_merge_sort. Qed.

Lemma limit_nodup {A B} (f : A -> B) (R : relation A) `{!RelDecision R} n (P : A -> Prop)
    `{forall x, Decision (P x)} (l : list A) :
  NoDup (map f l) -> NoDup (map f (take n (merge_sort R (filter P l)))).
Proof.
  intros Hn. rewrite <- firstn_map. eapply sublist_NoDup; [|apply sublist_take].
  rewrite (merge_sort_Permutation R). clear -Hn. induction l as [|x l IH]; [done|].
  cbn in Hn. apply NoDup_cons in Hn as [Hx Hn]. rewrite filter_cons. case_decide; [|by apply IH].
  cbn. apply NoDup_cons. split; [|by apply IH]. contradict Hx.
  apply list_elem_of_fmap in Hx as (y & Hy & Hin). apply list_elem_of_fmap. exists y.
  split; [done|]. by apply list_elem_of_filter in Hin as [_ ?].
Qed.

(** ** Tactics and hints *)
Create HintDb saas discriminated.
#[export] Hint Resolve wrap64_range : saas.

(** Case analysis on every [match] and [if] of the goal and the hypotheses. *)
Ltac case_all :=
  repeat first [case_match | case_decide | progress simplify_eq/=].

(** Turn boolean tests on [Z], [nat] and [N] into propositions. *)
Ltac bool_to_prop :=
  repeat match goal with
  | H : (_ && _)%bool = true |- _ => apply andb_true_iff in H as [? ?]
  | H : (_ || _)%bool = false |- _ => apply orb_false_iff in H as [? ?]
  | H : negb _ = true |- _ => apply negb_true_iff in H
  | H : negb _ = false |- _ => apply negb_false_iff in H
  | H : (_ <=? _)%Z = true |- _ => apply Z.leb_le in H
  | H : (_ <=? _)%Z = false |- _ => apply Z.leb_gt in H
  | H : (_ <? _)%Z = true |- _ => apply Z.ltb_lt in H
  | H : (_ <? _)%Z = false |- _ => apply Z.ltb_ge in H
  | H : (_ =? _)%Z = true |- _ => apply Z.eqb_eq in H
  | H : (_ =? _)%Z = false |- _ => apply Z.eqb_neq in H
  end.

(** Run a transaction forwards: peel binds off a successful run. *)
Ltac tx_inv :=
  repeat match goal with
  | H : (_ ≫= _) _ = Ok _ |- _ =>
      apply tx_bind_ok in H as (? & ? & ? & ?)
  | H : mret _ _ = Ok _ |- _ => cbv [mret tx_ret] in H; simplify_eq
  | H : tx_fail _ _ = Ok _ |- _ => discriminate H
  | H : tx_get _ = Ok _ |- _ => cbv [tx_get] in H; simplify_eq
  | H : tx_put _ _ = Ok _ |- _ => cbv [tx_put] in H; simplify_eq
  end.

(** What is distinct by one key is distinct by a key that determines it. *)
Lemma NoDup_map_finer {A B C} (f : A -> B) (g : A -> C) (l : list A) :
  NoDup (map f l) -> (forall x y, x ∈ l -> y ∈ l -> g x = g y -> f x = f y) ->
  NoDup (map g l).
Proof.
  induction l as [|x l IH]; intros Hn Hfg; simpl; [constructor|].
  apply NoDup_cons in Hn as [Hx Hn]. apply NoDup_cons. split.
  - intros Hin. apply list_elem_of_fmap in Hin as (y & He & Hy). apply Hx.
    apply list_elem_of_fmap. exists y. split; [|done].
    apply Hfg; [apply list_elem_of_here|by right|done].
  - apply IH; [done|]. intros y z Hy Hz. apply Hfg; by right.
Qed.

Lemma NoDup_map_inj_in {A B} (f : A -> B) (l : list A) x y :
  NoDup (map f l) -> x ∈ l -> y ∈ l -> f x = f y -> x = y.
Proof.
  intros Hn Hx Hy He. apply list_elem_of_lookup in Hx as [i Hi], Hy as [j Hj].
  assert (i = j); [|by simplify_eq].
  eapply NoDup_lookup; [exact Hn| |]; rewrite list_lookup_fmap.
  - by rewrite Hi.
  - rewrite Hj. simpl. by rewrite He.
Qed.
