(* ===== verification/JobState.v ===== *)
(** The durable job vocabulary and its state machine
    (accounts/code/pkg/jobs/state.go), the producer's half of the jobs platform
    (producer.go, module_authority.go) and the producer interface through which
    other components append work.

    The protobuf enums are open: a wire number the schema does not name is kept,
    so each enum has a constructor for such a number. *)
From S2P Require Import Prelude.

(** ** The enums of saas.jobs.v1 *)
Inductive JobDirection : Type :=
| JOB_DIRECTION_UNSPECIFIED
| JOB_DIRECTION_INBOX
| JOB_DIRECTION_OUTBOX
| JOB_DIRECTION_UNKNOWN (number : Z).

Inductive JobState : Type :=
| JOB_STATE_UNSPECIFIED
| JOB_STATE_PENDING
| JOB_STATE_PROCESSING
| JOB_STATE_RETRYING
| JOB_STATE_SUCCEEDED
| JOB_STATE_DEAD_LETTER
| JOB_STATE_CANCELED
| JOB_STATE_UNKNOWN (number : Z).

#[export] Instance JobDirection_eq_dec : EqDecision JobDirection.
Proof. solve_decision. Defined.
#[export] Instance JobState_eq_dec : EqDecision JobState.
Proof. solve_decision. Defined.

Inductive StateError : Type :=
| ErrInvalidInitialState (s : JobState)
| ErrInvalidTransition (from to : JobState)
| ErrUnknownDirection (d : JobDirection)
| ErrUnknownDirectionName (d : string)
| ErrUnknownState (s : JobState)
| ErrUnknownStateName (s : string).

(** ** Database spellings *)
Definition DatabaseDirection (direction : JobDirection) : result StateError string :=
  match direction with
  | JOB_DIRECTION_INBOX => Ok "inbox"
  | JOB_DIRECTION_OUTBOX => Ok "outbox"
  | _ => Err (ErrUnknownDirection direction)
  end.

Definition ParseDatabaseDirection (direction : string) : result StateError JobDirection :=
  if decide (direction = "inbox") then Ok JOB_DIRECTION_INBOX
  else if decide (direction = "outbox") then Ok JOB_DIRECTION_OUTBOX
  else Err (ErrUnknownDirectionName direction).

Definition DatabaseState (state : JobState) : result StateError string :=
  match state with
  | JOB_STATE_PENDING => Ok "pending"
  | JOB_STATE_PROCESSING => Ok "processing"
  | JOB_STATE_RETRYING => Ok "retrying"
  | JOB_STATE_SUCCEEDED => Ok "succeeded"
  | JOB_STATE_DEAD_LETTER => Ok "dead_letter"
  | JOB_STATE_CANCELED => Ok "canceled"
  | _ => Err (ErrUnknownState state)
  end.

Definition ParseDatabaseState (state : string) : result StateError JobState :=
  if decide (state = "pending") then Ok JOB_STATE_PENDING
  else if decide (state = "processing") then Ok JOB_STATE_PROCESSING
  else if decide (state = "retrying") then Ok JOB_STATE_RETRYING
  else if decide (state = "succeeded") then Ok JOB_STATE_SUCCEEDED
  else if decide (state = "dead_letter") then Ok JOB_STATE_DEAD_LETTER
  else if decide (state = "canceled") then Ok JOB_STATE_CANCELED
  else Err (ErrUnknownStateName state).

(** ** The state machine *)
Definition ValidateInitialState (state : JobState) : result StateError unit :=
  if decide (state = JOB_STATE_PENDING) then Ok tt
  else Err (ErrInvalidInitialState state).

Definition CanTransition (from to : JobState) : bool :=
  match from with
  | JOB_STATE_PENDING =>
      bool_decide (to = JOB_STATE_PROCESSING) || bool_decide (to = JOB_STATE_CANCELED)
  | JOB_STATE_PROCESSING =>
      bool_decide (to = JOB_STATE_RETRYING) || bool_decide (to = JOB_STATE_SUCCEEDED)
      || bool_decide (to = JOB_STATE_DEAD_LETTER) || bool_decide (to = JOB_STATE_CANCELED)
  | JOB_STATE_RETRYING =>
      bool_decide (to = JOB_STATE_PROCESSING) || bool_decide (to = JOB_STATE_CANCELED)
  | _ => false
  end.

Definition ValidateTransition (from to : JobState) : result StateError unit :=
  if CanTransition from to then Ok tt else Err (ErrInvalidTransition from to).

Definition IsTerminal (state : JobState) : bool :=
  bool_decide (state = JOB_STATE_SUCCEEDED)
  || bool_decide (state = JOB_STATE_DEAD_LETTER)
  || bool_decide (state = JOB_STATE_CANCELED).

(** One legal durable change, and the states a job can be in: those reached from
    the state [ValidateInitialState] admits by changes [ValidateTransition]
    admits. *)
Definition job_step (s t : JobState) : Prop := ValidateTransition s t = Ok tt.
Definition job_initial (s : JobState) : Prop := ValidateInitialState s = Ok tt.
Definition job_reachable (t : JobState) : Prop :=
  exists s, job_initial s /\ rtc job_step s t.

Lemma job_step_iff s t : job_step s t <-> CanTransition s t = true.
Proof. unfold job_step, ValidateTransition. by destruct (CanTransition s t). Qed.

Lemma job_initial_iff s : job_initial s <-> s = JOB_STATE_PENDING.
Proof. unfold job_initial, ValidateInitialState. by case_decide. Qed.

(** Each state, with what it may become. *)
Ltac job_states :=
  repeat match goal with
  | H : job_step _ _ |- _ => apply job_step_iff in H
  | |- job_step _ _ => apply job_step_iff
  end; unfold CanTransition, IsTerminal in *;
  repeat case_bool_decide; simplify_eq/=; try done.

Lemma terminal_no_step s t : IsTerminal s = true -> ~ job_step s t.
Proof. intros Ht Hs. destruct s; job_states. Qed.

Lemma step_from_known s t : job_step s t -> exists name, DatabaseState s = Ok name.
Proof. intros Hs. destruct s; job_states; eauto. Qed.

Lemma step_to_known s t : job_step s t -> exists name, DatabaseState t = Ok name.
Proof. intros Hs. destruct s, t; job_states; eauto. Qed.

Lemma nonterminal_can_cancel s name :
  DatabaseState s = Ok name -> IsTerminal s = false -> job_step s JOB_STATE_CANCELED.
Proof. intros Hn Ht. destruct s; job_states. Qed.

Lemma finish_from_processing s t :
  job_step s t -> t = JOB_STATE_SUCCEEDED \/ t = JOB_STATE_DEAD_LETTER \/
  t = JOB_STATE_RETRYING -> s = JOB_STATE_PROCESSING.
Proof. intros Hs. destruct s, t; job_states; naive_solver. Qed.

(** ** Jobs a producer appends (saas.jobs.v1.NewJob) *)
Inductive JobScope : Type :=
| JobScope_OrganizationId (id : string)
| JobScope_SubjectId (id : string)
| JobScope_Global.
#[export] Instance JobScope_eq_dec : EqDecision JobScope.
Proof. solve_decision. Defined.

Record JobOrderingKey : Type := {
  key_namespace : string;
  key_components : list string;
}.

Record NewJob : Type := {
  job_direction : JobDirection;
  job_scope : JobScope;
  job_queue : string;
  job_topic : string;
  job_source : string;
  job_idempotency_key : string;
  job_ordering : option JobOrderingKey;
  job_schema_version : Z;
  job_payload : string;
  job_content_type : string;
  job_attributes : gmap string string;
  job_priority : Z;
  job_max_attempts : Z;
  job_available_at : option instant;
}.

(** The idempotency identity of a job: the columns the store's unique index
    covers. *)
Definition job_identity (j : NewJob) : JobDirection * JobScope * string * string * string :=
  (job_direction j, job_scope j, job_queue j, job_source j, job_idempotency_key j).

(** What a component that appends work may rely on: an accepted enqueue either
    appends the job, when no stored job has its identity, or leaves the store as
    it was, when one has. *)
Class JobProducer : Type := {
  enqueue_job : NewJob -> list NewJob -> result string (list NewJob);
  enqueue_job_appends : forall j box box',
    enqueue_job j box = Ok box' ->
    (forall j', j' ∈ box -> job_identity j' <> job_identity j) ->
    box' = box ++ [j];
  enqueue_job_duplicate : forall j box box',
    enqueue_job j box = Ok box' ->
    (exists j', j' ∈ box /\ job_identity j' = job_identity j) ->
    box' = box;
}.

Lemma enqueue_job_cases `{JobProducer} j box box' :
  enqueue_job j box = Ok box' ->
  (box' = box ++ [j] /\ forall j', j' ∈ box -> job_identity j' <> job_identity j) \/
  (box' = box /\ exists j', j' ∈ box /\ job_identity j' = job_identity j).
Proof.
  intros He.
  destruct (decide (Exists (fun j' => job_identity j' = job_identity j) box)) as [Hx|Hx].
  - right. apply Exists_exists in Hx. split; [|done]. by eapply enqueue_job_duplicate.
  - left. assert (Hn : forall j', j' ∈ box -> job_identity j' <> job_identity j).
    { intros j' Hj' Heq. apply Hx, Exists_exists. eauto. }
    split; [|done]. by eapply enqueue_job_appends.
Qed.

(** The store's INSERT ... ON CONFLICT DO NOTHING, followed by the fingerprint
    comparison that refuses a key reused for a different request. *)
Section OutboxStore.
Variable fingerprint : NewJob -> string.

Definition outbox_enqueue (j : NewJob) (box : list NewJob) : result string (list NewJob) :=
  match list_find (fun j' => job_identity j' = job_identity j) box with
  | None => Ok (box ++ [j])
  | Some (_, stored) =>
      if decide (fingerprint stored = fingerprint j) then Ok box
      else Err "jobs: idempotency key reused with a different request"
  end.

Program Definition outbox_producer : JobProducer := {|
  enqueue_job := outbox_enqueue;
|}.
Next Obligation.
  unfold outbox_enqueue. intros j box box' He Hn.
  destruct (list_find _ _) as [[i j']|] eqn:Hf; [|by simplify_eq].
  apply list_find_Some in Hf as (Hl & Hi & _).
  exfalso. eapply Hn; [by eapply list_elem_of_lookup_2|done].
Qed.
Next Obligation.
  unfold outbox_enqueue. intros j box box' He (j' & Hj & Hi).
  destruct (list_find _ _) as [[i js]|] eqn:Hf; [by case_decide; simplify_eq|].
  apply list_find_None in Hf. rewrite Forall_forall in Hf.
  exfalso. by eapply Hf.
Qed.
End OutboxStore.
