(* ===== verification/Approvals.v ===== *)
(** The approval engine: accounts/code/pkg/business/approvals.go over the tables
    of accounts/code/pkg/infra/postgres_approvals.go, with the resume job of
    business/module_capabilities.go and the audit record of business/audit.go.

    The database is a value: the approval_requests rows by primary key, the
    append-only approval_decisions log, the delegation grants a decision may
    reference, the audit spine and the job outbox.  Every engine operation is a
    transaction on it.  The head row lock (SELECT ... FOR UPDATE) makes the
    transactions of one request run one after the other, so a run of the engine
    is a sequence of such transactions.

    JSON documents, their encoding and SHA-256 are opaque: [Json],
    [json_marshal] and [sha256_hex]. *)
From S2P Require Import Prelude JobState.

(** ** Types *)
Inductive ApprovalState : Type :=
| ApprovalPending
| ApprovalApproved
| ApprovalDenied
| ApprovalExpired
| ApprovalEscalated
| ApprovalCancelled.
#[export] Instance ApprovalState_eq_dec : EqDecision ApprovalState.
Proof. solve_decision. Defined.

(** approval_decisions.decision is text; the engine admits two of its values. *)
Abbreviation ApprovalDecisionKind := string (only parsing).
Definition DecisionApprove : ApprovalDecisionKind := "approve".
Definition DecisionDeny : ApprovalDecisionKind := "deny".

Inductive StoreErrorType : Type :=
| ErrTypeNotFound | ErrTypeConflict | ErrTypePermission | ErrTypeInternal
| ErrTypeValidation.
#[export] Instance StoreErrorType_eq_dec : EqDecision StoreErrorType.
Proof. solve_decision. Defined.

(** A [StoreError] with its type, or an error without one; the text says which
    return statement it came from. *)
Inductive ApprovalError : Type :=
| StoreError (kind : StoreErrorType) (cause : string)
| PlainError (cause : string).

Record ApprovalPolicy : Type := {
  ApproverSet : list string;
  AllowSelf : bool;
  DecidePermission : string;
}.

Section Engine.
Context {Json : Type}.
Context (json_marshal : Json -> result string string).
Context (sha256_hex : string -> string).

Record ResumeRef : Type := {
  rr_mode : string;
  rr_job_kind : string;
  rr_payload : Json;
  rr_queue : string;
  rr_topic : string;
}.

Record ApprovalRequest : Type := {
  ar_id : string;
  ar_org : string;
  ar_resource : string;
  ar_action : string;
  ar_subject : Json;
  ar_requested_by : string;
  ar_quorum : Z;
  ar_policy : ApprovalPolicy;
  ar_state : ApprovalState;
  ar_resume : ResumeRef;
  ar_expires_at : option instant;
  ar_escalate_at : option instant;
  ar_decision_reason : string;
  ar_decided_at : option instant;
  ar_created_at : instant;
  ar_updated_at : instant;
}.

Record ApprovalDecision : Type := {
  ad_id : string;
  ad_request : string;
  ad_org : string;
  ad_decider : string;
  ad_decision : ApprovalDecisionKind;
  ad_reason : string;
  ad_delegation_grant : string;
  ad_decided_at : instant;
}.

Definition IsTerminal_request (r : ApprovalRequest) : bool :=
  match ar_state r with
  | ApprovalApproved | ApprovalDenied | ApprovalExpired | ApprovalCancelled => true
  | ApprovalPending | ApprovalEscalated => false
  end.

Definition IsDecidable (r : ApprovalRequest) : bool :=
  bool_decide (ar_state r = ApprovalPending)
  || bool_decide (ar_state r = ApprovalEscalated).

(** ** The audit spine *)
Inductive EventType : Type :=
| EventApprovalAsked | EventApprovalApproved | EventApprovalDenied
| EventApprovalTimeout | EventApprovalEscalated | EventApprovalCancelled
| EventApprovalDecisionRecorded.

#[export] Instance EventType_eq_dec : EqDecision EventType.
Proof. solve_decision. Defined.

Record AuditEntry : Type := {
  ae_actor : string;
  ae_actor_type : string;
  ae_event : EventType;
  ae_resource : string;
  ae_resource_id : string;
  ae_org : string;
  ae_payload : list (string * string);
}.

(** How the service was wired: no audit at all, an emitter that cannot write on
    the caller's transaction, or one that can (and may refuse an entry). *)
Inductive AuditWiring : Type :=
| NoAudit
| AuditWithoutTx
| AuditTx (refuses : AuditEntry -> option string).

(** ** The database *)
Record Db : Type := {
  requests : gmap string ApprovalRequest;
  decisions : list ApprovalDecision;
  grants : gset string;
  audit_log : list AuditEntry;
  outbox : list NewJob;
}.

Abbreviation M := (tx Db ApprovalError).

Definition set_requests (f : gmap string ApprovalRequest -> gmap string ApprovalRequest)
    (d : Db) : Db :=
  {| requests := f (requests d); decisions := decisions d; grants := grants d;
     audit_log := audit_log d; outbox := outbox d |}.
Definition add_decision (x : ApprovalDecision) (d : Db) : Db :=
  {| requests := requests d; decisions := decisions d ++ [x]; grants := grants d;
     audit_log := audit_log d; outbox := outbox d |}.
Definition add_audit (e : AuditEntry) (d : Db) : Db :=
  {| requests := requests d; decisions := decisions d; grants := grants d;
     audit_log := audit_log d ++ [e]; outbox := outbox d |}.
Definition set_outbox (box : list NewJob) (d : Db) : Db :=
  {| requests := requests d; decisions := decisions d; grants := grants d;
     audit_log := audit_log d; outbox := box |}.

(** The wiring of the service, and what one call reads from the world:
    [time.Now()], the transaction's CURRENT_TIMESTAMP and [NewIDString()]. *)
Record Service : Type := {
  audit : AuditWiring;
  moduleProducer : option JobProducer;
}.
Record World : Type := {
  now : instant;
  tx_now : instant;
  new_id : string;
}.

Section Call.
Context (s : Service) (w : World).

Definition emitEntryTx (e : AuditEntry) : M unit :=
match audit s with
| AuditTx refuses =>
    match refuses e with
    | Some cause => tx_fail (PlainError cause)
    | None => fun d => Ok (tt, add_audit e d)
    end
| AuditWithoutTx =>
    tx_fail (PlainError "audit: emitter cannot write on the caller's transaction")
| NoAudit => mret tt
end.

Definition emitTx (actor actor_type : string) (event : EventType)
  (resource resource_id org : string) (payload : list (string * string)) : M unit :=
match audit s with
| NoAudit => mret tt
| _ => emitEntryTx
    {| ae_actor := actor; ae_actor_type := actor_type; ae_event := event;
       ae_resource := resource; ae_resource_id := resource_id; ae_org := org;
       ae_payload := payload |}
end.

(** ** The store (postgres_approvals.go) *)
Definition InsertApprovalRequest (r : ApprovalRequest) : M unit := fun d =>
match requests d !! ar_id r with
| Some _ => Err (PlainError "insert approval request")      (* PRIMARY KEY (id) *)
| None =>
    (* CHECK (quorum >= 1), and what an integer column holds *)
    if ((ar_quorum r <? 1) || (2 ^ 31 <=? ar_quorum r))%Z
    then Err (PlainError "insert approval request")
    else Ok (tt, set_requests <[ar_id r :=
      {| ar_id := ar_id r; ar_org := ar_org r; ar_resource := ar_resource r;
         ar_action := ar_action r; ar_subject := ar_subject r;
         ar_requested_by := ar_requested_by r; ar_quorum := ar_quorum r;
         ar_policy := ar_policy r; ar_state := ar_state r;
         ar_resume := ar_resume r; ar_expires_at := ar_expires_at r;
         ar_escalate_at := ar_escalate_at r; ar_decision_reason := "";
         ar_decided_at := None; ar_created_at := tx_now w;
         ar_updated_at := tx_now w |}]> d)
end.

(** SELECT ... WHERE id = $1 AND org_id = $2, with or without FOR UPDATE. *)
Definition getApprovalRequest (id org : string) : M ApprovalRequest := fun d =>
match requests d !! id with
| Some r =>
    if decide (ar_org r = org) then Ok (r, d)
    else Err (StoreError ErrTypeNotFound "approval request not found")
| None => Err (StoreError ErrTypeNotFound "approval request not found")
end.
Definition GetApprovalRequest := getApprovalRequest.
Definition LockApprovalRequest := getApprovalRequest.

(** A duplicate (request_id, decider), or a duplicate primary key, is the unique
  violation 23505; a grant the table does not hold breaks its foreign key. *)
Definition InsertDecision (x : ApprovalDecision) : M unit := fun d =>
if decide (Exists (fun y => ad_id y = ad_id x \/
    (ad_request y = ad_request x /\ ad_decider y = ad_decider x)) (decisions d))
then Err (StoreError ErrTypeConflict "decider already decided")
else if decide (ad_decision x = DecisionApprove \/ ad_decision x = DecisionDeny)
then
  if decide (ad_delegation_grant x = "" \/ ad_delegation_grant x ∈ grants d)
  then Ok (tt, add_decision x d)
  else Err (PlainError "insert approval decision")
else Err (PlainError "insert approval decision").

(** The rows SELECT count of approvals ranges over, and their number. *)
Definition approve_rows (id org : string) (ds : list ApprovalDecision)
  : list ApprovalDecision :=
filter (fun y => ad_request y = id /\ ad_org y = org /\
                 ad_decision y = DecisionApprove) ds.

Definition CountApprovals (id org : string) : M Z := fun d =>
Ok (Z.of_nat (length (approve_rows id org (decisions d))), d).

Definition update_row (to : ApprovalState) (reason : string) (setDecided : bool)
  (r : ApprovalRequest) : ApprovalRequest :=
{| ar_id := ar_id r; ar_org := ar_org r; ar_resource := ar_resource r;
   ar_action := ar_action r; ar_subject := ar_subject r;
   ar_requested_by := ar_requested_by r; ar_quorum := ar_quorum r;
   ar_policy := ar_policy r; ar_state := to;
   ar_resume := ar_resume r; ar_expires_at := ar_expires_at r;
   ar_escalate_at := ar_escalate_at r; ar_decision_reason := reason;
   ar_decided_at := if setDecided then Some (tx_now w) else ar_decided_at r;
   ar_created_at := ar_created_at r; ar_updated_at := tx_now w |}.

Definition UpdateApprovalState (id org : string) (to : ApprovalState)
  (reason : string) (setDecided : bool) : M unit := fun d =>
match requests d !! id with
| Some r =>
    if decide (ar_org r = org)
    then Ok (tt, set_requests <[id := update_row to reason setDecided r]> d)
    else Err (StoreError ErrTypeNotFound "approval request not found in org")
| None => Err (StoreError ErrTypeNotFound "approval request not found in org")
end.

(** ORDER BY decided_at, id. *)
Definition decision_le (x y : ApprovalDecision) : Prop :=
(ad_decided_at x < ad_decided_at y)%Z \/
(ad_decided_at x = ad_decided_at y /\ String.le (ad_id x) (ad_id y)).
#[local] Instance decision_le_dec : RelDecision decision_le.
Proof. intros x y. unfold decision_le. apply _. Defined.

(** The SELECT leaves the delegation grant out. *)
Definition scan_decision (y : ApprovalDecision) : ApprovalDecision :=
{| ad_id := ad_id y; ad_request := ad_request y; ad_org := ad_org y; ad_decider := ad_decider y;
   ad_decision := ad_decision y; ad_reason := ad_reason y; ad_delegation_grant := "";
   ad_decided_at := ad_decided_at y |}.
Definition ListApprovalDecisions (id org : string) : M (list ApprovalDecision) :=
fun d => Ok (map scan_decision (merge_sort decision_le
  (filter (fun y => ad_org y = org /\ ad_request y = id) (decisions d))), d).

(** ORDER BY created_at DESC, id DESC. *)
Definition newest_first (x y : ApprovalRequest) : Prop :=
(ar_created_at y < ar_created_at x)%Z \/
(ar_created_at x = ar_created_at y /\ String.le (ar_id y) (ar_id x)).
#[local] Instance newest_first_dec : RelDecision newest_first.
Proof. intros x y. unfold newest_first. apply _. Defined.

(** [state] filters when it is given; [pageToken] keeps the ids below it. *)
Definition store_ListApprovalRequests (org : string) (state : option ApprovalState)
  (pageSize : nat) (pageToken : string) : M (list ApprovalRequest * string) := fun d =>
let rows := merge_sort newest_first
  (filter (fun r => ar_org r = org
      /\ (state = None \/ state = Some (ar_state r))
      /\ (pageToken = "" \/ (String.le (ar_id r) pageToken /\ ar_id r <> pageToken)))
    (map snd (map_to_list (requests d)))) in
let out := take (S pageSize) rows in
if (pageSize <? length out)%nat
then Ok ((take pageSize out,
          match out !! (pageSize - 1)%nat with Some r => ar_id r | None => "" end), d)
else Ok ((out, ""), d).

(** ** The engine (approvals.go) *)
Definition resolvedQuorum (q : Z) : Z := if (q =? 0)%Z then 1 else q.

Record CreateApprovalRequestInput : Type := {
ci_org : string;
ci_resource : string;
ci_action : string;
ci_subject : Json;
ci_requested_by : string;
ci_quorum : Z;
ci_policy : ApprovalPolicy;
ci_resume : ResumeRef;
ci_expires_at : option instant;
ci_escalate_at : option instant;
}.

(** The distinct deciders of the pinned approver set who may decide. *)
Definition eligible (p : ApprovalPolicy) (requested_by : string) : gset string :=
list_to_set (filter (fun a => ~ (AllowSelf p = false /\ a = requested_by))
                    (ApproverSet p)).

Definition validate (in_ : CreateApprovalRequestInput) : result string unit :=
if decide (ci_org in_ = "") then Err "approval: org_id required"
else if decide (ci_resource in_ = "" \/ ci_action in_ = "")
then Err "approval: resource and action required"
else if decide (ci_requested_by in_ = "") then Err "approval: requested_by required"
else if (ci_quorum in_ <? 0)%Z then Err "approval: quorum must be >= 0"
else match ApproverSet (ci_policy in_) with
     | [] => Ok tt
     | _ =>
       if (Z.of_nat (size (eligible (ci_policy in_) (ci_requested_by in_)))
             <? resolvedQuorum (ci_quorum in_))%Z
       then Err "approval: quorum exceeds eligible distinct approvers"
       else Ok tt
     end.

Definition CreateApprovalRequest (in_ : CreateApprovalRequestInput) : M string :=
match validate in_ with
| Err cause => tx_fail (StoreError ErrTypeValidation cause)
| Ok _ =>
    let r :=
      {| ar_id := new_id w; ar_org := ci_org in_; ar_resource := ci_resource in_;
         ar_action := ci_action in_; ar_subject := ci_subject in_;
         ar_requested_by := ci_requested_by in_;
         ar_quorum := resolvedQuorum (ci_quorum in_); ar_policy := ci_policy in_;
         ar_state := ApprovalPending; ar_resume := ci_resume in_;
         ar_expires_at := ci_expires_at in_; ar_escalate_at := ci_escalate_at in_;
         ar_decision_reason := ""; ar_decided_at := None;
         ar_created_at := zero_time; ar_updated_at := zero_time |} in
    InsertApprovalRequest r;;
    emitTx (ci_requested_by in_) "user" EventApprovalAsked "approval_request"
      (ar_id r) (ci_org in_)
      [("resource", ci_resource in_); ("action", ci_action in_)];;
    mret (ar_id r)
end.

Record DecideInput : Type := {
di_expected_subject_hash : string;
di_decider : string;
di_decision : ApprovalDecisionKind;
di_reason : string;
di_delegation_grant : string;
}.

Record DecideOutcome : Type := {
do_state : ApprovalState;
do_approved : bool;
do_approvals : Z;
do_quorum : Z;
}.

Definition validateDecideInput (org : string) (in_ : DecideInput)
  : result ApprovalError unit :=
if decide (org = "") then Err (PlainError "org_id required")
else if decide (di_decider in_ = "") then Err (PlainError "decider required")
else if decide (di_decision in_ <> DecisionApprove /\ di_decision in_ <> DecisionDeny)
then Err (PlainError "decision must be approve or deny")
else Ok tt.

Definition ApprovalSubjectHash (subject : Json) : result string string :=
match json_marshal subject with
| Err cause => Err cause
| Ok raw => Ok (sha256_hex raw)
end.

(** The payload stamps the outcome; [resume_payload] is its JSON encoding. *)
Context (resume_payload : ApprovalRequest -> string -> string -> result string string).

Definition resume_key (id : string) : string := "approval-resume:" +:+ id.

Definition resume_job (req : ApprovalRequest) (payload : string) : NewJob :=
{| job_direction := JOB_DIRECTION_OUTBOX;
   job_scope := JobScope_OrganizationId (ar_org req);
   job_queue := rr_queue (ar_resume req);
   job_topic := if decide (rr_topic (ar_resume req) = "") then "approval.resumed"
                else rr_topic (ar_resume req);
   job_source := "approvals";
   job_idempotency_key := resume_key (ar_id req);
   job_ordering := None;
   job_schema_version := 1;
   job_payload := payload;
   job_content_type := "application/json";
   job_attributes := ∅;
   job_priority := 0;
   job_max_attempts := 24;
   job_available_at := None |}.

Definition enqueueApprovalResume (req : ApprovalRequest) (decision decider : string)
  : M unit :=
if decide (rr_queue (ar_resume req) = "") then mret tt
else match moduleProducer s with
| None => tx_fail (PlainError "approval declares resume queue but the module producer is not wired")
| Some producer => fun d =>
    match resume_payload req decision decider with
    | Err cause => Err (PlainError cause)
    | Ok payload =>
        match @enqueue_job producer (resume_job req payload) (outbox d) with
        | Err cause => Err (PlainError cause)
        | Ok box => Ok (tt, set_outbox box d)
        end
    end
end.

(** [past o t]: the deadline [o] is set and [t] is not before it. *)
Definition past (o : option instant) (t : instant) : bool :=
match o with Some e => negb (time_before t e) | None => false end.

(** The checks [decideLocked] makes before it writes anything. *)
Definition decide_guards (req : ApprovalRequest) (in_ : DecideInput)
  : result ApprovalError unit :=
match
  if decide (di_expected_subject_hash in_ = "") then Ok tt
  else match ApprovalSubjectHash (ar_subject req) with
       | Err cause => Err (StoreError ErrTypeInternal cause)
       | Ok shown =>
           if decide (di_expected_subject_hash in_ = shown) then Ok tt
           else Err (StoreError ErrTypeConflict "subject does not match the subject reviewed")
       end
with
| Err e => Err e
| Ok _ =>
  if negb (IsDecidable req)
  then Err (StoreError ErrTypeConflict "approval is not decidable")
  else if past (ar_expires_at req) (now w)
  then Err (StoreError ErrTypeConflict "decision window has expired")
  else if decide (AllowSelf (ar_policy req) = false /\
                  di_decider in_ = ar_requested_by req)
  then Err (StoreError ErrTypePermission "requester cannot decide their own approval")
  else if decide (ApproverSet (ar_policy req) <> [] /\
                  contains_string (ApproverSet (ar_policy req)) (di_decider in_) = false)
  then Err (StoreError ErrTypePermission "decider is not in the approver set")
  else Ok tt
end.

Definition decideLocked (req : ApprovalRequest) (in_ : DecideInput) : M DecideOutcome :=
let id := ar_id req in
let org := ar_org req in
tx_lift (decide_guards req in_);;
InsertDecision
  {| ad_id := new_id w; ad_request := id; ad_org := org;
     ad_decider := di_decider in_; ad_decision := di_decision in_;
     ad_reason := di_reason in_; ad_delegation_grant := di_delegation_grant in_;
     ad_decided_at := tx_now w |};;
emitTx (di_decider in_) "user" EventApprovalDecisionRecorded "approval_request"
  id org [("decision", di_decision in_)];;
if decide (di_decision in_ = DecisionDeny) then
  UpdateApprovalState id org ApprovalDenied (di_reason in_) true;;
  emitTx (di_decider in_) "user" EventApprovalDenied "approval_request" id org [];;
  mret {| do_state := ApprovalDenied; do_approved := false;
          do_approvals := 0; do_quorum := ar_quorum req |}
else
  count ← CountApprovals id org;
  if (ar_quorum req <=? count)%Z then
    UpdateApprovalState id org ApprovalApproved "" true;;
    enqueueApprovalResume req (di_decision in_) (di_decider in_);;
    emitTx (di_decider in_) "user" EventApprovalApproved "approval_request" id org
      [("resource", ar_resource req); ("action", ar_action req)];;
    mret {| do_state := ApprovalApproved; do_approved := true;
            do_approvals := count; do_quorum := ar_quorum req |}
  else
    mret {| do_state := ar_state req; do_approved := false;
            do_approvals := count; do_quorum := ar_quorum req |}.

Definition Decide (org id : string) (in_ : DecideInput) : M DecideOutcome :=
tx_lift (validateDecideInput org in_);;
req ← LockApprovalRequest id org;
decideLocked req in_.

Definition CancelApprovalRequest (org id reason : string) : M unit :=
if decide (org = "") then tx_fail (PlainError "org_id required")
else
  req ← LockApprovalRequest id org;
  if negb (IsDecidable req)
  then tx_fail (StoreError ErrTypeConflict "approval is not cancellable")
  else
    UpdateApprovalState id org ApprovalCancelled reason false;;
    emitTx "system" "system" EventApprovalCancelled "approval_request" id org
      [("reason", reason)].

Definition ListApprovalRequests (org : string) (state : option ApprovalState)
  (pageSize : Z) (pageToken : string) : M (list ApprovalRequest * string) :=
let size := if ((pageSize <=? 0)%Z || (200 <? pageSize)%Z)%bool then 50%Z else pageSize in
store_ListApprovalRequests org state (Z.to_nat size) pageToken.

Definition SweepApprovalRequest (org id : string) (sweep_now : instant)
  : M ApprovalState :=
if decide (org = "") then tx_fail (PlainError "org_id required")
else
  req ← LockApprovalRequest id org;
  if negb (IsDecidable req) then mret (ar_state req)
  else if past (ar_expires_at req) sweep_now then
    UpdateApprovalState id org ApprovalExpired "expired: no quorum before deadline" false;;
    emitTx "system" "system" EventApprovalTimeout "approval_request" id org [];;
    mret ApprovalExpired
  else if bool_decide (ar_state req = ApprovalPending)
          && past (ar_escalate_at req) sweep_now then
    UpdateApprovalState id org ApprovalEscalated "escalated: no quorum before escalate_at" false;;
    emitTx "system" "system" EventApprovalEscalated "approval_request" id org [];;
    mret ApprovalEscalated
  else mret (ar_state req).

Record ApprovalReview : Type := {
rv_request : ApprovalRequest;
rv_subject_hash : string;
rv_decisions : list ApprovalDecision;
}.

Definition approvalVisibleTo (req : ApprovalRequest) (actor : string) : bool :=
negb (bool_decide (actor = "")) &&
(bool_decide (ar_requested_by req = actor)
 || contains_string (ApproverSet (ar_policy req)) actor).

Definition approvalNotFound : ApprovalError :=
StoreError ErrTypeNotFound "approval not found".

Definition approvalReviewOf (req : ApprovalRequest) : M ApprovalReview :=
match ApprovalSubjectHash (ar_subject req) with
| Err cause => tx_fail (StoreError ErrTypeInternal cause)
| Ok hash =>
    ds ← ListApprovalDecisions (ar_id req) (ar_org req);
    mret {| rv_request := req; rv_subject_hash := hash; rv_decisions := ds |}
end.

Definition ReviewApproval (org id actor : string) : M ApprovalReview :=
if decide (org = "" \/ actor = "")
then tx_fail (StoreError ErrTypeValidation "org_id and actor required")
else
  req ← GetApprovalRequest id org;
  if negb (approvalVisibleTo req actor) then tx_fail approvalNotFound
  else approvalReviewOf req.

Definition DecideReviewedApproval (org id : string) (in_ : DecideInput)
  : M ApprovalReview :=
tx_lift (validateDecideInput org in_);;
if decide (di_expected_subject_hash in_ = "")
then tx_fail (StoreError ErrTypeValidation "the reviewed subject hash is required")
else
  req ← LockApprovalRequest id org;
  if negb (approvalVisibleTo req (di_decider in_)) then tx_fail approvalNotFound
  else
    decideLocked req in_;;
    after ← GetApprovalRequest id org;
    approvalReviewOf after.

End Call.

(** ** Runs of the engine

    One committed transaction of the engine, under any wiring and at any
    time. *)
Context (resume_payload : ApprovalRequest -> string -> string -> result string string).

Inductive engine_step (s : Service) : Db -> Db -> Prop :=
| step_create w in_ a d d' :
    CreateApprovalRequest s w in_ d = Ok (a, d') -> engine_step s d d'
| step_decide w org id in_ a d d' :
    Decide s w resume_payload org id in_ d = Ok (a, d') -> engine_step s d d'
| step_decide_reviewed w org id in_ a d d' :
    DecideReviewedApproval s w resume_payload org id in_ d = Ok (a, d') ->
    engine_step s d d'
| step_cancel w org id reason a d d' :
    CancelApprovalRequest s w org id reason d = Ok (a, d') -> engine_step s d d'
| step_sweep w org id t a d d' :
    SweepApprovalRequest s w org id t d = Ok (a, d') -> engine_step s d d'.

Definition empty_db (g : gset string) : Db :=
  {| requests := ∅; decisions := []; grants := g; audit_log := []; outbox := [] |}.

Definition reachable (s : Service) (d : Db) : Prop :=
  exists g, rtc (engine_step s) (empty_db g) d.
End Engine.
