(* ===== verification/ApprovalsProofs.v ===== *)
(** What the approval engine guarantees: every committed transaction is one move
    of a small abstract machine ([spec_step]), and in every database the engine
    can reach the quorum arithmetic, the separation of duties, the resume job and
    the audit trail agree with the state of each request. *)
From S2P Require Import Prelude JobState Approvals.

Section Proofs.
Context {Json : Type}.
Context (json_marshal : Json -> result string string).
Context (sha256_hex : string -> string).
Context (resume_payload : @ApprovalRequest Json -> string -> string -> result string string).
Context (s : Service).

Abbreviation Db := (@Db Json).
Abbreviation ApprovalRequest := (@ApprovalRequest Json).
Abbreviation engine := (engine_step json_marshal sha256_hex resume_payload s).

(** ** The abstract machine *)
Definition log_entry (e : AuditEntry) (d : Db) : Db :=
  match audit s with NoAudit => d | _ => add_audit e d end.

(** Who may vote on a request: separation of duties and the pinned set. *)
Definition may_decide (r : ApprovalRequest) (a : string) : Prop :=
  (AllowSelf (ar_policy r) = false -> a <> ar_requested_by r) /\
  (ApproverSet (ar_policy r) <> [] -> a ∈ ApproverSet (ar_policy r)).

Definition open (r : ApprovalRequest) : Prop :=
  ar_state r = ApprovalPending \/ ar_state r = ApprovalEscalated.

Definition votes (id : string) (k : string) (d : Db) : list ApprovalDecision :=
  filter (fun y => ad_request y = id /\ ad_decision y = k) (decisions d).

Definition fresh_vote (d : Db) (r : ApprovalRequest) (x : ApprovalDecision) : Prop :=
  ad_request x = ar_id r /\ ad_org x = ar_org r /\ may_decide r (ad_decider x) /\
  (forall y, y ∈ decisions d ->
     ~ (ad_request y = ad_request x /\ ad_decider y = ad_decider x)).

Definition entry_of (ev : EventType) (id : string) (e : AuditEntry) : Prop :=
  ae_event e = ev /\ ae_resource_id e = id.

(** [r'] is [r] moved to another state. *)
Definition moved (to : ApprovalState) (r r' : ApprovalRequest) : Prop :=
  exists w reason decided, r' = update_row w to reason decided r.

(** The resume job of [r], when it declares a queue. *)
Inductive resumes (r : ApprovalRequest) : list NewJob -> list NewJob -> Prop :=
| resumes_none box : rr_queue (ar_resume r) = "" -> resumes r box box
| resumes_new box p :
    rr_queue (ar_resume r) <> "" ->
    (forall j, j ∈ box -> job_identity j <> job_identity (resume_job r p)) ->
    resumes r box (box ++ [resume_job r p])
| resumes_known box p :
    rr_queue (ar_resume r) <> "" ->
    (exists j, j ∈ box /\ job_identity j = job_identity (resume_job r p)) ->
    resumes r box box.

Inductive spec_step : Db -> Db -> Prop :=
| spec_idle d : spec_step d d
| spec_open d r e :
    requests d !! ar_id r = None -> (1 <= ar_quorum r)%Z ->
    ar_state r = ApprovalPending -> entry_of EventApprovalAsked (ar_id r) e ->
    spec_step d (log_entry e (set_requests <[ar_id r := r]> d))
| spec_vote d id r x e :
    requests d !! id = Some r -> open r -> fresh_vote d r x ->
    ad_decision x = DecisionApprove ->
    (Z.of_nat (length (approve_rows (ar_id r) (ar_org r) (decisions d ++ [x])))
      < ar_quorum r)%Z ->
    entry_of EventApprovalDecisionRecorded (ar_id r) e ->
    spec_step d (log_entry e (add_decision x d))
| spec_approve d id r r' x e1 e2 box :
    requests d !! id = Some r -> open r -> fresh_vote d r x ->
    ad_decision x = DecisionApprove ->
    (ar_quorum r <=
      Z.of_nat (length (approve_rows (ar_id r) (ar_org r) (decisions d ++ [x]))))%Z ->
    moved ApprovalApproved r r' -> resumes r (outbox d) box ->
    entry_of EventApprovalDecisionRecorded (ar_id r) e1 ->
    entry_of EventApprovalApproved (ar_id r) e2 ->
    spec_step d (log_entry e2 (set_outbox box (set_requests <[ar_id r := r']>
                   (log_entry e1 (add_decision x d)))))
| spec_deny d id r r' x e1 e2 :
    requests d !! id = Some r -> open r -> fresh_vote d r x ->
    ad_decision x = DecisionDeny -> moved ApprovalDenied r r' ->
    entry_of EventApprovalDecisionRecorded (ar_id r) e1 ->
    entry_of EventApprovalDenied (ar_id r) e2 ->
    spec_step d (log_entry e2 (set_requests <[ar_id r := r']>
                   (log_entry e1 (add_decision x d))))
| spec_close d id r r' to ev e :
    requests d !! id = Some r -> open r -> moved to r r' ->
    ((to = ApprovalCancelled /\ ev = EventApprovalCancelled) \/
     (to = ApprovalExpired /\ ev = EventApprovalTimeout) \/
     (to = ApprovalEscalated /\ ev = EventApprovalEscalated /\
      ar_state r = ApprovalPending)) ->
    entry_of ev id e ->
    spec_step d (log_entry e (set_requests <[id := r']> d)).

(** ** What each operation does when it succeeds *)
Lemma emitTx_ok actor kind ev res id org pl (d d' : Db) a :
  emitTx s actor kind ev res id org pl d = Ok (a, d') ->
  exists e, d' = log_entry e d /\ entry_of ev id e.
Proof.
  unfold emitTx, emitEntryTx, log_entry. destruct (audit s); intros H.
  - cbv [mret tx_ret] in H. simplify_eq.
    exists (Build_AuditEntry actor kind ev res id org pl). done.
  - done.
  - case_match; [done|]. simplify_eq. by eexists.
Qed.

Lemma getApprovalRequest_ok id org (d d' : Db) r :
  getApprovalRequest id org d = Ok (r, d') ->
  d' = d /\ requests d !! id = Some r /\ ar_org r = org.
Proof. unfold getApprovalRequest. case_all; by intros; simplify_eq. Qed.

Lemma UpdateApprovalState_ok w id org to reason b (d d' : Db) a :
  UpdateApprovalState w id org to reason b d = Ok (a, d') ->
  exists r, requests d !! id = Some r /\
    d' = set_requests <[id := update_row w to reason b r]> d.
Proof. unfold UpdateApprovalState. case_all; intros; simplify_eq; eauto. Qed.

Lemma InsertDecision_ok x (d d' : Db) a :
  InsertDecision x d = Ok (a, d') ->
  d' = add_decision x d /\
  (ad_decision x = DecisionApprove \/ ad_decision x = DecisionDeny) /\
  (forall y, y ∈ decisions d ->
     ~ (ad_request y = ad_request x /\ ad_decider y = ad_decider x)).
Proof.
  unfold InsertDecision. case_decide as Hx; [done|].
  case_all; intros; simplify_eq. split_and!; try done.
  intros y Hy Hb. apply Hx, Exists_exists. eauto.
Qed.

Lemma enqueueApprovalResume_ok r k a (d d' : Db) u :
  enqueueApprovalResume s resume_payload r k a d = Ok (u, d') ->
  exists box, d' = set_outbox box d /\ resumes r (outbox d) box.
Proof.
  unfold enqueueApprovalResume. case_decide as Hq; intros H.
  - cbv [mret tx_ret] in H. simplify_eq. exists (outbox d').
    split; [by destruct d'|by constructor].
  - destruct (moduleProducer s) as [p|]; [|done].
    destruct (resume_payload r k a) as [pl|]; [|done].
    destruct (enqueue_job _ _) as [box|] eqn:He; [|done]. simplify_eq.
    exists box. split; [done|].
    destruct (enqueue_job_cases _ _ _ He) as [[-> Hn]|[-> Hk]].
    + by constructor.
    + by eapply resumes_known.
Qed.

Lemma IsDecidable_open r : IsDecidable r = true <-> open r.
Proof. unfold IsDecidable, open. by rewrite orb_true_iff, !bool_decide_eq_true. Qed.

Lemma decide_guards_ok w r in_ u :
  decide_guards json_marshal sha256_hex w r in_ = Ok u ->
  open r /\ may_decide r (di_decider in_) /\ past (ar_expires_at r) (now w) = false /\
  (di_expected_subject_hash in_ <> "" ->
   ApprovalSubjectHash json_marshal sha256_hex (ar_subject r) =
     Ok (di_expected_subject_hash in_)).
Proof.
  unfold decide_guards, may_decide. intros H.
  case_match eqn:Hh; [|done].
  destruct (IsDecidable r) eqn:Hd; [|done]. apply IsDecidable_open in Hd. cbn in H.
  destruct (past _ _); [done|].
  case_decide as Hself; [done|]. case_decide as Hset; [done|].
  split_and!; try done.
  - intros Ha Hb. by apply Hself.
  - intros Hne. apply contains_string_spec.
    destruct (contains_string _ _) eqn:Hc; [done|]. exfalso. by apply Hset.
  - intros Hne. rewrite decide_False in Hh by done.
    destruct (ApprovalSubjectHash _ _ _) as [h|]; [|done]. case_decide; by simplify_eq.
Qed.

Lemma log_entry_requests e d : requests (log_entry e d) = requests d.
Proof. unfold log_entry. by destruct (audit s). Qed.
Lemma log_entry_decisions e d : decisions (log_entry e d) = decisions d.
Proof. unfold log_entry. by destruct (audit s). Qed.
Lemma log_entry_outbox e d : outbox (log_entry e d) = outbox d.
Proof. unfold log_entry. by destruct (audit s). Qed.

Lemma decideLocked_spec w r in_ id (d d' : Db) o :
  requests d !! id = Some r -> ar_id r = id ->
  decideLocked json_marshal sha256_hex s w resume_payload r in_ d = Ok (o, d') ->
  spec_step d d'.
Proof.
  intros Hr Hid H. unfold decideLocked in H. subst id.
  apply tx_bind_ok in H as (u & d0 & Hg & H).
  unfold tx_lift in Hg. destruct (decide_guards _ _ _ _ _) as [u'|] eqn:Hgu; [|done].
  simplify_eq. apply decide_guards_ok in Hgu as (Hopen & Hmay & _ & _).
  apply tx_bind_ok in H as (? & d1 & Hi & H).
  apply InsertDecision_ok in Hi as (-> & Hk & Hfresh). cbn in Hk.
  set (v := Build_ApprovalDecision _ _ _ _ _ _ _ _) in *.
  apply tx_bind_ok in H as (? & d2 & He & H).
  apply emitTx_ok in He as (e1 & -> & He1).
  assert (Hf : fresh_vote d0 r v) by done.
  case_decide as Hdeny.
  - apply tx_bind_ok in H as (? & d3 & Hu & H).
    apply UpdateApprovalState_ok in Hu as (r0 & Hr0 & ->).
    rewrite log_entry_requests in Hr0. cbn in Hr0. simplify_eq.
    apply tx_bind_ok in H as (? & d4 & He & H).
    apply emitTx_ok in He as (e2 & -> & He2).
    cbv [mret tx_ret] in H. simplify_eq.
    eapply spec_deny; try done. by eexists _, _, _.
  - destruct Hk as [Hk|]; [|done].
    apply tx_bind_ok in H as (c & d3 & Hc & H).
    unfold CountApprovals in Hc. simplify_eq.
    rewrite log_entry_decisions in *. cbn [decisions add_decision] in *.
    destruct (Z.leb_spec (ar_quorum r)
      (Z.of_nat (length (approve_rows (ar_id r) (ar_org r) (decisions d0 ++ [v]))))) as [Hq|Hq].
    + apply tx_bind_ok in H as (? & d3 & Hu & H).
      apply UpdateApprovalState_ok in Hu as (r0 & Hr0 & ->).
      rewrite log_entry_requests in Hr0. cbn in Hr0. simplify_eq.
      apply tx_bind_ok in H as (? & d4 & Hj & H).
      apply enqueueApprovalResume_ok in Hj as (box & -> & Hbox).
      cbn in Hbox. rewrite log_entry_outbox in Hbox. cbn in Hbox.
      apply tx_bind_ok in H as (? & d5 & He & H).
      apply emitTx_ok in He as (e2 & -> & He2).
      cbv [mret tx_ret] in H. simplify_eq.
      eapply spec_approve; try done. by eexists _, _, _.
    + cbv [mret tx_ret] in H. simplify_eq. by eapply spec_vote.
Qed.

Lemma approvalReviewOf_ok r (d d' : Db) v :
  approvalReviewOf json_marshal sha256_hex r d = Ok (v, d') ->
  d' = d /\ rv_request v = r /\
  ApprovalSubjectHash json_marshal sha256_hex (ar_subject r) = Ok (rv_subject_hash v).
Proof.
  unfold approvalReviewOf. destruct (ApprovalSubjectHash _ _ _) as [h|]; [|done].
  intros H. apply tx_bind_ok in H as (ds & d1 & Hl & H).
  unfold ListApprovalDecisions in Hl. cbv [mret tx_ret] in H. by simplify_eq.
Qed.

Lemma CreateApprovalRequest_spec w in_ (d d' : Db) id :
  CreateApprovalRequest s w in_ d = Ok (id, d') -> spec_step d d'.
Proof.
  unfold CreateApprovalRequest. destruct (validate in_); [|done]. intros H.
  apply tx_bind_ok in H as (u & d1 & Hi & H).
  apply tx_bind_ok in H as (u' & d2 & He & H).
  apply emitTx_ok in He as (e & -> & He).
  cbv [mret tx_ret] in H. simplify_eq.
  unfold InsertApprovalRequest in Hi. cbn in Hi.
  destruct (requests d !! new_id w) eqn:Hn; [done|].
  destruct (Z.ltb_spec (resolvedQuorum (ci_quorum in_)) 1); [done|]. cbn [orb] in Hi.
  destruct (_ <=? _)%Z in Hi; [done|]. simplify_eq.
  by apply spec_open.
Qed.

(** ** The invariant *)
Definition keyed (d : Db) : Prop :=
  forall id r, requests d !! id = Some r -> ar_id r = id.

Lemma engine_step_spec d d' : keyed d -> engine d d' -> spec_step d d'.
Proof.
  intros Hkey Hs. destruct Hs as [w in_ a d d' H|w org id in_ a d d' H
    |w org id in_ a d d' H|w org id reason a d d' H|w org id t a d d' H].
  - by eapply CreateApprovalRequest_spec.
  - unfold Decide in H. apply tx_bind_ok in H as (? & d1 & Hv & H).
    unfold tx_lift in Hv. destruct (validateDecideInput _ _); [|done]. simplify_eq.
    apply tx_bind_ok in H as (r & d2 & Hl & H).
    apply getApprovalRequest_ok in Hl as (-> & Hr & _).
    by eapply decideLocked_spec; [|apply Hkey|].
  - unfold DecideReviewedApproval in H. apply tx_bind_ok in H as (? & d1 & Hv & H).
    unfold tx_lift in Hv. destruct (validateDecideInput _ _); [|done]. simplify_eq.
    case_decide; [done|].
    apply tx_bind_ok in H as (r & d2 & Hl & H).
    apply getApprovalRequest_ok in Hl as (-> & Hr & _). case_match; [done|].
    apply tx_bind_ok in H as (o & d3 & Hd & H).
    apply tx_bind_ok in H as (r' & d4 & Hg & H).
    apply getApprovalRequest_ok in Hg as (-> & _ & _).
    apply approvalReviewOf_ok in H as (-> & _ & _).
    by eapply decideLocked_spec; [|apply Hkey|].
  - unfold CancelApprovalRequest in H. case_decide; [done|].
    apply tx_bind_ok in H as (r & d2 & Hl & H).
    apply getApprovalRequest_ok in Hl as (-> & Hr & _).
    destruct (IsDecidable r) eqn:Ho; [|done]. apply IsDecidable_open in Ho.
    apply tx_bind_ok in H as (? & d3 & Hu & H).
    apply UpdateApprovalState_ok in Hu as (r0 & Hr0 & ->). simplify_eq.
    apply emitTx_ok in H as (e & -> & He).
    eapply (spec_close _ id r _ ApprovalCancelled); [done|done|by eexists _, _, _|by eauto|done].
  - unfold SweepApprovalRequest in H. case_decide; [done|].
    apply tx_bind_ok in H as (r & d2 & Hl & H).
    apply getApprovalRequest_ok in Hl as (-> & Hr & _).
    destruct (IsDecidable r) eqn:Ho; cbn [negb] in H;
      [apply IsDecidable_open in Ho|cbv [mret tx_ret] in H; simplify_eq; constructor].
    destruct (past (ar_expires_at r) t);
      [|destruct (_ && _) eqn:Hesc;
        [|cbv [mret tx_ret] in H; simplify_eq; constructor]].
    + apply tx_bind_ok in H as (? & d3 & Hu & H).
      apply UpdateApprovalState_ok in Hu as (r0 & Hr0 & ->). simplify_eq.
      apply tx_bind_ok in H as (? & d4 & He & H).
      apply emitTx_ok in He as (e & -> & He). cbv [mret tx_ret] in H. simplify_eq.
      eapply (spec_close _ id r _ ApprovalExpired); [done|done|by eexists _, _, _|by eauto|done].
    + apply andb_true_iff in Hesc as [Hp%bool_decide_eq_true _].
      apply tx_bind_ok in H as (? & d3 & Hu & H).
      apply UpdateApprovalState_ok in Hu as (r0 & Hr0 & ->). simplify_eq.
      apply tx_bind_ok in H as (? & d4 & He & H).
      apply emitTx_ok in He as (e & -> & He). cbv [mret tx_ret] in H. simplify_eq.
      eapply (spec_close _ id r _ ApprovalEscalated); [done|done|by eexists _, _, _|by eauto 10|done].
Qed.

(** The head fields a transition keeps. *)
Definition same_head (r r' : ApprovalRequest) : Prop :=
  ar_id r' = ar_id r /\ ar_org r' = ar_org r /\ ar_quorum r' = ar_quorum r /\
  ar_policy r' = ar_policy r /\ ar_requested_by r' = ar_requested_by r /\
  ar_resume r' = ar_resume r /\ ar_subject r' = ar_subject r.

Lemma moved_same to r r' : moved to r r' -> same_head r r' /\ ar_state r' = to.
Proof. by intros (w & reason & b & ->). Qed.

Lemma same_head_may r r' a : same_head r r' -> may_decide r a <-> may_decide r' a.
Proof. unfold may_decide. by intros (_ & _ & _ & -> & -> & _). Qed.

Lemma same_head_job r r' p : same_head r r' -> resume_job r' p = resume_job r p.
Proof. unfold resume_job. by intros (-> & -> & _ & _ & _ & -> & _). Qed.

Abbreviation Reqs := (gmap string ApprovalRequest).

Definition votes_inv (rs : Reqs) (ds : list ApprovalDecision) : Prop :=
  NoDup (map (fun x => (ad_request x, ad_decider x)) ds) /\
  forall x, x ∈ ds -> exists r, rs !! ad_request x = Some r /\
    ad_org x = ar_org r /\ may_decide r (ad_decider x) /\
    (ad_decision x = DecisionApprove \/ ad_decision x = DecisionDeny).

Lemma votes_inv_open rs ds id r :
  rs !! id = None -> votes_inv rs ds -> votes_inv (<[id := r]> rs) ds.
Proof.
  intros Hn [Hu Hv]. split; [done|]. intros x Hx.
  destruct (Hv x Hx) as (r0 & Hr0 & Hrest). exists r0. split; [|done].
  rewrite lookup_insert_ne; congruence.
Qed.

Lemma votes_inv_move rs ds id r r' :
  rs !! id = Some r -> same_head r r' -> votes_inv rs ds ->
  votes_inv (<[id := r']> rs) ds.
Proof.
  intros Hr Hs [Hu Hv]. split; [done|]. intros x Hx.
  destruct (Hv x Hx) as (r0 & Hr0 & Horg & Hm & Hk).
  destruct (decide (id = ad_request x)) as [->|Hne].
  - simplify_eq. exists r'. rewrite lookup_insert_eq. split_and!; try done.
    + by destruct Hs as (_ & -> & _).
    + by apply (same_head_may _ _ _ Hs).
  - exists r0. by rewrite lookup_insert_ne.
Qed.

Lemma votes_inv_vote rs d id r x :
  requests d = rs -> rs !! id = Some r -> ar_id r = id -> fresh_vote d r x ->
  (ad_decision x = DecisionApprove \/ ad_decision x = DecisionDeny) ->
  votes_inv rs (decisions d) -> votes_inv rs (decisions d ++ [x]).
Proof.
  intros <- Hr <- (Hid & Horg & Hm & Hfresh) Hk [Hu Hv]. split.
  - rewrite map_app, NoDup_app. split_and!; [done| |apply NoDup_singleton].
    intros q (y & -> & Hy)%list_elem_of_fmap Hq.
    apply list_elem_of_singleton in Hq. eapply Hfresh; [done|]. by simplify_eq.
  - intros y [Hy| ->%list_elem_of_singleton]%elem_of_app; [by apply Hv|].
    exists r. by rewrite Hid.
Qed.

(** ** The tally *)
Definition tally (st : ApprovalState) (q approves denies : nat) : Prop :=
  match st with
  | ApprovalApproved => approves = q /\ denies = 0
  | ApprovalDenied => approves < q /\ denies = 1
  | _ => approves < q /\ denies = 0
  end.

Definition votes_on (id k : string) (ds : list ApprovalDecision) : nat :=
  length (filter (fun y => ad_request y = id /\ ad_decision y = k) ds).

Lemma votes_on_snoc id k ds x :
  votes_on id k (ds ++ [x]) =
  (votes_on id k ds +
    if bool_decide (ad_request x = id /\ ad_decision x = k) then 1 else 0)%nat.
Proof.
  unfold votes_on. rewrite filter_app, length_app. f_equal.
  rewrite filter_cons, filter_nil. case_bool_decide; by case_decide.
Qed.

Lemma approve_rows_votes id org ds :
  (forall y, y ∈ ds -> ad_request y = id -> ad_org y = org) ->
  length (approve_rows id org ds) = votes_on id DecisionApprove ds.
Proof.
  unfold approve_rows, votes_on. induction ds as [|y ds IH]; intros Hy; [done|].
  rewrite !filter_cons.
  specialize (IH ltac:(intros; apply Hy; [by right|done])).
  specialize (Hy y ltac:(by left)).
  repeat case_decide; cbn; naive_solver.
Qed.

Definition tally_inv (rs : Reqs) (ds : list ApprovalDecision) : Prop :=
  forall id r, rs !! id = Some r ->
    (1 <= ar_quorum r)%Z /\
    tally (ar_state r) (Z.to_nat (ar_quorum r))
      (votes_on id DecisionApprove ds) (votes_on id DecisionDeny ds).

Lemma votes_on_none rs ds id k :
  votes_inv rs ds -> rs !! id = None -> votes_on id k ds = 0.
Proof.
  intros [_ Hv] Hn. unfold votes_on.
  destruct (filter _ ds) as [|y l] eqn:Hf; [done|].
  assert (y ∈ filter (fun y => ad_request y = id /\ ad_decision y = k) ds) as Hy
    by (rewrite Hf; left).
  apply list_elem_of_filter in Hy as [[<- _] Hy].
  destruct (Hv y Hy) as (r & Hr & _). congruence.
Qed.

Lemma tally_inv_open rs ds id r :
  votes_inv rs ds -> rs !! id = None -> (1 <= ar_quorum r)%Z ->
  ar_state r = ApprovalPending -> tally_inv rs ds -> tally_inv (<[id := r]> rs) ds.
Proof.
  intros Hv Hn Hq Hst Ht id0 r0.
  destruct (decide (id = id0)) as [<-|Hne];
    [rewrite lookup_insert_eq|rewrite lookup_insert_ne by done; apply Ht].
  intros [= <-]. rewrite Hst, !(votes_on_none rs) by done. cbn. lia.
Qed.

Lemma tally_open_inv st q a n :
  st = ApprovalPending \/ st = ApprovalEscalated -> tally st q a n -> a < q /\ n = 0.
Proof. by intros [-> | ->]. Qed.

(** A vote [x] on the open request [id], which moves to [r']. *)
Lemma tally_inv_vote rs ds id r r' x :
  rs !! id = Some r -> open r -> ad_request x = id ->
  ar_quorum r' = ar_quorum r ->
  tally (ar_state r') (Z.to_nat (ar_quorum r))
    (votes_on id DecisionApprove (ds ++ [x])) (votes_on id DecisionDeny (ds ++ [x])) ->
  tally_inv rs ds -> tally_inv (<[id := r']> rs) (ds ++ [x]).
Proof.
  intros Hr Ho Hx Hq Ht Hinv id0 r0.
  destruct (decide (id = id0)) as [<-|Hne].
  - rewrite lookup_insert_eq. intros [= <-]. rewrite Hq. split; [|done].
    by apply (Hinv id r).
  - rewrite lookup_insert_ne by done. intros H0.
    rewrite !votes_on_snoc, !bool_decide_eq_false_2 by naive_solver.
    rewrite !Nat.add_0_r. by apply Hinv.
Qed.

Lemma tally_inv_close rs ds id r r' :
  rs !! id = Some r -> open r -> ar_quorum r' = ar_quorum r ->
  ar_state r' <> ApprovalApproved -> ar_state r' <> ApprovalDenied ->
  tally_inv rs ds -> tally_inv (<[id := r']> rs) ds.
Proof.
  intros Hr Ho Hq Ha Hd Hinv id0 r0.
  destruct (decide (id = id0)) as [<-|Hne];
    [rewrite lookup_insert_eq|rewrite lookup_insert_ne by done; apply Hinv].
  intros [= <-]. destruct (Hinv id r Hr) as [H1 Ht]. rewrite Hq. split; [done|].
  apply tally_open_inv in Ht; [|done]. by destruct (ar_state r').
Qed.

(** ** The resume jobs *)
Definition queued (r : ApprovalRequest) : Prop := rr_queue (ar_resume r) <> "".

Definition jobs_inv (rs : Reqs) (box : list NewJob) : Prop :=
  (forall j, j ∈ box -> exists r p, rs !! ar_id r = Some r /\
     ar_state r = ApprovalApproved /\ queued r /\ j = resume_job r p) /\
  NoDup (map job_idempotency_key box) /\
  (forall id r, rs !! id = Some r -> ar_state r = ApprovalApproved -> queued r ->
     exists p, resume_job r p ∈ box).

Lemma resume_key_inj id id' : resume_key id = resume_key id' -> id = id'.
Proof. unfold resume_key. intros H. by simplify_eq/=. Qed.

(** No job of an open request is in the box. *)
Lemma jobs_inv_fresh rs box id r :
  rs !! id = Some r -> ar_id r = id -> open r -> jobs_inv rs box ->
  resume_key id ∉ map job_idempotency_key box.
Proof.
  intros Hr Hid Ho (Hj & _) (j & Hk & Hin)%list_elem_of_fmap.
  destruct (Hj j Hin) as (r0 & p & Hr0 & Ha & _ & ->). cbn in Hk.
  apply resume_key_inj in Hk. rewrite <- Hk, Hr in Hr0. injection Hr0 as <-.
  by destruct Ho as [Ho|Ho]; rewrite Ho in Ha.
Qed.

Lemma jobs_inv_set rs box id r' :
  (forall r, rs !! id = Some r -> open r) ->
  ar_state r' <> ApprovalApproved \/ ~ queued r' ->
  jobs_inv rs box -> jobs_inv (<[id := r']> rs) box.
Proof.
  intros Hopen Hna (Hj & Hu & Hres). split_and!; [|done|].
  - intros j Hin. destruct (Hj j Hin) as (r0 & p & Hr0 & Ha & Hq & ->).
    exists r0, p. split; [|done]. rewrite lookup_insert_ne; [done|]. intros ->.
    specialize (Hopen r0 Hr0). destruct Hopen as [Ho|Ho]; by rewrite Ho in Ha.
  - intros id0 r0 Hr0 Ha Hq. destruct (decide (id = id0)) as [->|Hne].
    + rewrite lookup_insert_eq in Hr0. simplify_eq. by destruct Hna.
    + rewrite lookup_insert_ne in Hr0 by done. by eapply Hres.
Qed.

Lemma jobs_inv_approve rs box box' id r r' :
  rs !! id = Some r -> ar_id r = id -> open r -> moved ApprovalApproved r r' ->
  resumes r box box' -> jobs_inv rs box -> jobs_inv (<[id := r']> rs) box'.
Proof.
  intros Hr Hid Ho Hm Hbox Hinv.
  apply moved_same in Hm as [Hsame Hst].
  pose proof (jobs_inv_fresh _ _ _ _ Hr Hid Ho Hinv) as Hfresh.
  assert (Hqq : queued r' <-> queued r).
  { unfold queued. by destruct Hsame as (_ & _ & _ & _ & _ & -> & _). }
  destruct Hbox as [box Hq|box p Hq Hnew|box p Hq (j & Hin & Hk)].
  - apply jobs_inv_set; [intros ? ?; by simplify_eq|right; rewrite Hqq; intros Hne; by apply Hne|done].
  - destruct Hinv as (Hj & Hu & Hres). split_and!.
    + intros j [Hin| ->%list_elem_of_singleton]%elem_of_app.
      * destruct (Hj j Hin) as (r0 & p0 & Hr0 & Ha & Hq0 & ->).
        exists r0, p0. split; [|done]. rewrite lookup_insert_ne; [done|]. intros ->.
        simplify_eq. by destruct Ho as [Ho|Ho]; rewrite Ho in Ha.
      * exists r', p. rewrite (same_head_job r r') by done.
        destruct Hsame as (Hid' & _). rewrite Hid', Hid, lookup_insert_eq.
        split_and!; try done. by apply Hqq.
    + rewrite map_app. apply NoDup_app. split_and!; [done| |apply NoDup_singleton].
      intros k Hk ->%list_elem_of_singleton. cbn in Hk. by rewrite Hid in Hk.
    + intros id0 r0 Hr0 Ha Hq0. destruct (decide (id = id0)) as [<-|Hne].
      * rewrite lookup_insert_eq in Hr0. simplify_eq. exists p.
        rewrite (same_head_job r r0) by done. apply elem_of_app. right. by left.
      * rewrite lookup_insert_ne in Hr0 by done.
        destruct (Hres _ _ Hr0 Ha Hq0) as [p0 Hp0]. exists p0. apply elem_of_app. by left.
  - exfalso. apply Hfresh, list_elem_of_fmap. exists j. split; [|done].
    unfold job_identity in Hk. cbn in Hk. rewrite Hid in Hk. congruence.
Qed.

(** ** Reachable databases *)
Record db_inv (d : Db) : Prop := {
  inv_keyed : keyed d;
  inv_votes : votes_inv (requests d) (decisions d);
  inv_tally : tally_inv (requests d) (decisions d);
  inv_jobs : jobs_inv (requests d) (outbox d);
}.

Lemma keyed_set d id r :
  keyed d -> ar_id r = id -> forall id' r', <[id := r]> (requests d) !! id' = Some r' ->
  ar_id r' = id'.
Proof.
  intros Hk Hid id' r'. destruct (decide (id = id')) as [<-|Hne].
  - rewrite lookup_insert_eq. by intros [= <-].
  - rewrite lookup_insert_ne by done. apply Hk.
Qed.

Lemma db_inv_empty g : db_inv (empty_db g).
Proof.
  constructor; unfold keyed, tally_inv; cbn.
  - intros id r. by rewrite lookup_empty.
  - split; [constructor|]. by intros x Hx%elem_of_nil.
  - intros id r. by rewrite lookup_empty.
  - split_and!; [by intros j Hj%elem_of_nil|constructor|].
    intros id r. by rewrite lookup_empty.
Qed.

(** The tallies after an approving and after a denying vote [x] on [r]. *)
Lemma tally_after d r x :
  db_inv d -> requests d !! ar_id r = Some r -> open r -> fresh_vote d r x ->
  let a := votes_on (ar_id r) DecisionApprove (decisions d) in
  (a < Z.to_nat (ar_quorum r)) /\ (1 <= ar_quorum r)%Z /\
  (ad_decision x = DecisionApprove ->
    length (approve_rows (ar_id r) (ar_org r) (decisions d ++ [x])) = S a /\
    votes_on (ar_id r) DecisionApprove (decisions d ++ [x]) = S a /\
    votes_on (ar_id r) DecisionDeny (decisions d ++ [x]) = 0) /\
  (ad_decision x = DecisionDeny ->
    votes_on (ar_id r) DecisionApprove (decisions d ++ [x]) = a /\
    votes_on (ar_id r) DecisionDeny (decisions d ++ [x]) = 1).
Proof.
  intros [Hk [_ Hv] Ht _] Hr Ho (Hid & Horg & _) a.
  destruct (Ht _ _ Hr) as [Hq Hst]. apply tally_open_inv in Hst as [Hlt Hz]; [|done].
  rewrite approve_rows_votes.
  2:{ intros y [Hy| ->%list_elem_of_singleton]%elem_of_app Hye; [|done].
      destruct (Hv y Hy) as (r0 & Hr0 & -> & _). rewrite Hye in Hr0. by simplify_eq. }
  rewrite !votes_on_snoc, Hz, !Hid. fold a.
  split_and!; try done; intros ->; [split_and!|split]; try done; cbn;
    rewrite ?bool_decide_eq_true_2, ?bool_decide_eq_false_2 by naive_solver; lia.
Qed.

Ltac db_fields :=
  rewrite ?log_entry_requests, ?log_entry_decisions, ?log_entry_outbox; cbn
    [requests decisions outbox set_requests set_outbox add_decision];
  rewrite ?log_entry_requests, ?log_entry_decisions, ?log_entry_outbox; cbn
    [requests decisions outbox set_requests set_outbox add_decision].
Lemma spec_step_inv d d' : db_inv d -> spec_step d d' -> db_inv d'.
Proof.
  intros Hinv Hs. pose proof Hinv as [Hk Hv Ht Hj].
  destruct Hs as [|d r e Hn Hq Hst _|d id r x e Hr Ho Hf Hx Hlt _
    |d id r r' x e1 e2 box Hr Ho Hf Hx Hge Hm Hb _ _
    |d id r r' x e1 e2 Hr Ho Hf Hx Hm _ _|d id r r' to ev e Hr Ho Hm Hto _].
  - done.
  - constructor; unfold keyed; db_fields.
    + by apply keyed_set.
    + by apply votes_inv_open.
    + by apply tally_inv_open.
    + apply jobs_inv_set; [intros ? ?; congruence|left; by rewrite Hst|done].
  - assert (ar_id r = id) as <- by by apply Hk.
    destruct (tally_after d r x Hinv Hr Ho Hf) as (Ha & Hq & Happ & _).
    destruct (Happ Hx) as (Hc & Hc' & Hz). rewrite Hc in Hlt.
    constructor; unfold keyed; db_fields; try done.
    + by eapply votes_inv_vote; eauto.
    + rewrite <- (insert_id _ _ _ Hr). eapply tally_inv_vote; eauto; [apply Hf|].
      rewrite Hc', Hz. destruct Ho as [-> | ->]; cbn; lia.
  - assert (ar_id r = id) as <- by by apply Hk.
    destruct (tally_after d r x Hinv Hr Ho Hf) as (Ha & Hq & Happ & _).
    destruct (Happ Hx) as (Hc & Hc' & Hz). rewrite Hc in Hge.
    destruct (moved_same _ _ _ Hm) as [Hsame Hst].
    constructor; unfold keyed; db_fields.
    + apply keyed_set; [done|apply Hsame].
    + eapply votes_inv_move; eauto. by eapply votes_inv_vote; eauto.
    + eapply tally_inv_vote; eauto; [apply Hf|apply Hsame|].
      rewrite Hc', Hz, Hst. cbn. lia.
    + by eapply jobs_inv_approve.
  - assert (ar_id r = id) as <- by by apply Hk.
    destruct (tally_after d r x Hinv Hr Ho Hf) as (Ha & Hq & _ & Hden).
    destruct (Hden Hx) as (Hc & Hz).
    destruct (moved_same _ _ _ Hm) as [Hsame Hst].
    constructor; unfold keyed; db_fields.
    + apply keyed_set; [done|apply Hsame].
    + eapply votes_inv_move; eauto. by eapply votes_inv_vote; eauto.
    + eapply tally_inv_vote; eauto; [apply Hf|apply Hsame|].
      rewrite Hc, Hz, Hst. by cbn.
    + apply jobs_inv_set; [intros ? ?; by simplify_eq|left; by rewrite Hst|done].
  - destruct (moved_same _ _ _ Hm) as [Hsame Hst].
    assert (to <> ApprovalApproved /\ to <> ApprovalDenied) as [Hna Hnd]
      by (by destruct Hto as [[-> _]|[[-> _]|[-> _]]]).
    constructor; unfold keyed; db_fields.
    + apply keyed_set; [done|]. destruct Hsame as (-> & _). by apply Hk.
    + by eapply votes_inv_move.
    + eapply tally_inv_close; eauto; [apply Hsame|by rewrite Hst|by rewrite Hst].
    + apply jobs_inv_set; [intros ? ?; by simplify_eq|left; by rewrite Hst|done].
Qed.

Lemma engine_step_inv d d' : db_inv d -> engine d d' -> db_inv d'.
Proof. intros Hi Hs. eapply spec_step_inv, engine_step_spec; eauto. apply Hi. Qed.

Lemma reachable_inv d :
  reachable json_marshal sha256_hex resume_payload s d -> db_inv d.
Proof.
  intros (g & Hrtc). assert (db_inv (empty_db g)) as H0 by apply db_inv_empty.
  revert H0. induction Hrtc; eauto using engine_step_inv.
Qed.
End Proofs.
