(* ===== verification/ApprovalsTheorems.v ===== *)
(** The properties of the approval engine, with the concrete runs that witness
    them. *)
From S2P Require Import Prelude JobState Approvals ApprovalsProofs.

(** ** The audit trail *)
Section AuditTrail.
Context {Json : Type}.
Context (json_marshal : Json -> result string string).
Context (sha256_hex : string -> string).
Context (resume_payload : @ApprovalRequest Json -> string -> string -> result string string).
Context (s : Service).

Definition events (ev : EventType) (id : string) (log : list AuditEntry) : nat :=
  length (filter (fun e => ae_event e = ev /\ ae_resource_id e = id) log).

(** How many entries of each kind the rows call for. *)
Definition in_state (r : option (@ApprovalRequest Json)) (st : ApprovalState) : nat :=
  match r with
  | Some r => if decide (ar_state r = st) then 1 else 0
  | None => 0
  end.
Definition expected (ev : EventType) (id : string) (d : @Db Json) : nat :=
  match ev with
  | EventApprovalAsked => if requests d !! id is Some _ then 1 else 0
  | EventApprovalDecisionRecorded =>
      length (filter (fun x => ad_request x = id) (decisions d))
  | EventApprovalApproved => in_state (requests d !! id) ApprovalApproved
  | EventApprovalDenied => in_state (requests d !! id) ApprovalDenied
  | EventApprovalTimeout => in_state (requests d !! id) ApprovalExpired
  | EventApprovalCancelled => in_state (requests d !! id) ApprovalCancelled
  | EventApprovalEscalated => 0
  end.
Definition audit_inv (d : @Db Json) : Prop :=
  forall ev id, ev <> EventApprovalEscalated ->
    events ev id (audit_log d) = expected ev id d.

Lemma events_snoc ev id log e ev' id' :
  entry_of ev' id' e ->
  events ev id (log ++ [e]) =
  (events ev id log +
    if decide (ev' = ev) then if decide (id' = id) then 1 else 0 else 0)%nat.
Proof.
  intros [<- <-]. unfold events. rewrite filter_app, length_app. f_equal.
  rewrite filter_cons, filter_nil. repeat case_decide; naive_solver.
Qed.

Lemma decisions_of_snoc id (ds : list ApprovalDecision) x :
  length (filter (fun y => ad_request y = id) (ds ++ [x])) =
  (length (filter (fun y => ad_request y = id) ds) +
    if decide (ad_request x = id) then 1 else 0)%nat.
Proof.
  rewrite filter_app, length_app. f_equal. rewrite filter_cons, filter_nil.
  by case_decide.
Qed.

Lemma add_log e (d : @Db Json) : audit s <> NoAudit -> log_entry s e d = add_audit e d.
Proof. unfold log_entry. by destruct (audit s). Qed.

Lemma audit_inv_step d d' :
  audit s <> NoAudit -> db_inv d -> audit_inv d -> spec_step s d d' -> audit_inv d'.
Proof.
  intros Ha Hinv H Hs. unfold audit_inv.
  destruct Hs as [|d r e Hn Hq Hst He|d id r x e Hr Ho Hf Hx Hlt He
    |d id r r' x e1 e2 box Hr Ho Hf Hx Hge Hm Hb He1 He2
    |d id r r' x e1 e2 Hr Ho Hf Hx Hm He1 He2|d id r r' to ev0 e Hr Ho Hm Hto He];
    rewrite ?add_log by done; intros ev key Hev; specialize (H ev key Hev);
    try (assert (ar_id r = id) as <- by (by apply Hinv));
    try (destruct Hf as (Hxr & _)); try (apply moved_same in Hm as [_ Hm]);
    cbn [audit_log add_audit set_requests set_outbox add_decision];
    rewrite ?(events_snoc _ _ _ _ _ _ He), ?(events_snoc _ _ _ _ _ _ He2),
      ?(events_snoc _ _ _ _ _ _ He1);
    [done|..]; rewrite H; clear H;
    (destruct (decide (ar_id r = key)) as [<-|Hne]; destruct ev);
    cbn [expected requests decisions set_requests set_outbox add_decision add_audit];
    rewrite ?decisions_of_snoc, ?lookup_insert_eq, ?lookup_insert_ne by done;
    rewrite ?Hn, ?Hr; cbn [in_state]; rewrite ?Hst, ?Hm, ?Hxr;
    try (repeat case_decide; first [lia|congruence]).
  all: try (destruct Ho as [Ho|Ho]; rewrite ?Ho;
    repeat case_decide; first [lia|congruence]).
  all: destruct Hto as [[-> ->]|[[-> ->]|[-> [-> _]]]];
    destruct Ho as [Ho|Ho]; rewrite ?Ho; repeat case_decide; first [lia|congruence].
Qed.
End AuditTrail.

(** ** Liveness of an open request *)
Section Liveness.
Context {Json : Type}.
Context (json_marshal : Json -> result string string).
Context (sha256_hex : string -> string).
Context (resume_payload : @ApprovalRequest Json -> string -> string -> result string string).
Context (s : Service).

(** One approving call: who, and what the call reads from the world. *)
Definition approval_of (a : string) : DecideInput :=
  {| di_expected_subject_hash := ""; di_decider := a; di_decision := DecisionApprove;
     di_reason := ""; di_delegation_grant := "" |}.

(** The calls of several deciders, one transaction each. *)
Fixpoint approve_in_turn (org id : string) (calls : list (World * string))
    (d : @Db Json) : result ApprovalError (@Db Json) :=
  match calls with
  | [] => Ok d
  | (w, a) :: calls =>
      match Decide json_marshal sha256_hex s w resume_payload org id (approval_of a) d with
      | Ok (_, d') => approve_in_turn org id calls d'
      | Err e => Err e
      end
  end.

(** What the environment must do for the engine to make progress. *)
Record environment_ok (r : @ApprovalRequest Json) : Prop := {
  env_audit : audit s = NoAudit \/ audit s = AuditTx (fun _ => None);
  env_payload : forall k a, exists p, resume_payload r k a = Ok p;
  env_producer : queued r -> exists p, moduleProducer s = Some p /\
    forall j box, (forall j', j' ∈ box -> job_identity j' <> job_identity j) ->
      exists box', @enqueue_job p j box = Ok box';
}.

(** A call by someone who may vote, has not, in time, with a fresh row id. *)
Definition good_call (r : @ApprovalRequest Json) (d : @Db Json) (c : World * string) : Prop :=
  c.2 <> "" /\ may_decide r c.2 /\ past (ar_expires_at r) (now c.1) = false /\
  forall y, y ∈ decisions d -> ad_id y <> new_id c.1 /\
    ~ (ad_request y = ar_id r /\ ad_decider y = c.2).

Lemma emitTx_accepts actor kind ev res id org pl (d : @Db Json) :
  (audit s = NoAudit \/ audit s = AuditTx (fun _ => None)) ->
  exists d', emitTx s actor kind ev res id org pl d = Ok (tt, d') /\
    requests d' = requests d /\ decisions d' = decisions d /\ outbox d' = outbox d /\
    grants d' = grants d.
Proof. unfold emitTx, emitEntryTx. intros [-> | ->]; eexists; split_and!; done. Qed.

Lemma decide_guards_pass r d w a :
  open r -> good_call r d (w, a) ->
  decide_guards json_marshal sha256_hex w r (approval_of a) = Ok tt.
Proof.
  intros Ho (_ & [Hself Hset] & Hexp & _). cbn in Hself, Hset, Hexp.
  unfold decide_guards. cbn [di_expected_subject_hash approval_of di_decider].
  rewrite decide_True by done.
  rewrite (proj2 (IsDecidable_open r) Ho). cbn [negb]. rewrite Hexp.
  rewrite decide_False by (intros [? ?]; by apply Hself).
  rewrite decide_False; [done|]. intros [Hne Hc].
  apply contains_string_false in Hc. by apply Hc, Hset.
Qed.

Definition vote_of (r : @ApprovalRequest Json) (w : World) (a : string) : ApprovalDecision :=
  {| ad_id := new_id w; ad_request := ar_id r; ad_org := ar_org r; ad_decider := a;
     ad_decision := DecisionApprove; ad_reason := ""; ad_delegation_grant := "";
     ad_decided_at := tx_now w |}.

Lemma InsertDecision_fresh r d w a :
  good_call r d (w, a) -> InsertDecision (vote_of r w a) d = Ok (tt, add_decision (vote_of r w a) d).
Proof.
  intros (_ & _ & _ & Hfresh). unfold InsertDecision.
  rewrite decide_False.
  2:{ intros (y & Hy & Hc)%Exists_exists. destruct (Hfresh y Hy) as [H1 H2]. naive_solver. }
  rewrite decide_True by (by left). by rewrite decide_True by (by left).
Qed.

Lemma enqueue_accepts r (d : @Db Json) k a :
  environment_ok r -> resume_key (ar_id r) ∉ map job_idempotency_key (outbox d) ->
  exists d', enqueueApprovalResume s resume_payload r k a d = Ok (tt, d') /\
    requests d' = requests d /\ decisions d' = decisions d.
Proof.
  intros [_ Hpay Hprod] Hfresh. unfold enqueueApprovalResume.
  case_decide as Hq; [by eexists|].
  destruct (Hprod Hq) as (p & -> & Henq). destruct (Hpay k a) as [pl ->].
  destruct (Henq (resume_job r pl) (outbox d)) as [box ->]; [|by eexists].
  intros j Hj Hk. apply Hfresh, list_elem_of_fmap. exists j. split; [|done].
  unfold job_identity in Hk. cbn in Hk. congruence.
Qed.

(** One approving call on an open request succeeds, and decides it exactly when
    the vote completes the quorum. *)
Lemma decide_one d id r w a :
  db_inv d -> requests d !! id = Some r -> open r -> ar_org r <> "" ->
  environment_ok r -> good_call r d (w, a) ->
  exists o d', Decide json_marshal sha256_hex s w resume_payload (ar_org r) id
      (approval_of a) d = Ok (o, d') /\
    decisions d' = decisions d ++ [vote_of r w a] /\
    if (ar_quorum r <=? Z.of_nat (S (votes_on id DecisionApprove (decisions d))))%Z
    then exists r', requests d' !! id = Some r' /\ ar_state r' = ApprovalApproved
    else requests d' = requests d.
Proof.
  intros Hinv Hr Ho Horg Henv Hgood.
  assert (ar_id r = id) as Hid by (by apply Hinv). subst id.
  pose proof Hgood as (Hne & Hmay & _ & Hfr). cbn in Hne, Hmay.
  assert (Hfv : fresh_vote d r (vote_of r w a)).
  { split_and!; try done. intros y Hy. apply Hfr, Hy. }
  destruct (tally_after sha256_hex resume_payload d r _ Hinv Hr Ho Hfv) as (_ & _ & Happ & _).
  destruct (Happ eq_refl) as (Hcount & _).
  pose proof (jobs_inv_fresh _ _ _ _ Hr eq_refl Ho (inv_jobs _ Hinv)) as Hbox.
  unfold Decide, tx_lift at 1, validateDecideInput. cbn [di_decider di_decision approval_of].
  rewrite decide_False, decide_False, decide_False by naive_solver.
  erewrite tx_bind_run by done.
  erewrite (tx_bind_run (LockApprovalRequest _ _)).
  2:{ unfold LockApprovalRequest, getApprovalRequest. by rewrite Hr, decide_True. }
  unfold decideLocked. erewrite tx_bind_run.
  2:{ unfold tx_lift. by rewrite (decide_guards_pass _ _ _ _ Ho Hgood). }
  erewrite tx_bind_run by (by apply InsertDecision_fresh).
  destruct (emitTx_accepts a "user" EventApprovalDecisionRecorded "approval_request"
    (ar_id r) (ar_org r) [("decision", DecisionApprove)]
    (add_decision (vote_of r w a) d) (env_audit _ Henv)) as (d1 & He1 & Hr1 & Hd1 & Hb1 & _).
  erewrite tx_bind_run by exact He1. cbn [di_decision approval_of].
  rewrite decide_False by done. erewrite tx_bind_run by done.
  rewrite Hd1. cbn [decisions add_decision] in *. rewrite Hcount.
  case_match eqn:Hq.
  - erewrite tx_bind_run.
    2:{ unfold UpdateApprovalState. rewrite Hr1. cbn [requests add_decision].
        by rewrite Hr, decide_True. }
    destruct (enqueue_accepts r (set_requests <[ar_id r:=update_row w ApprovalApproved "" true r]> d1)
      DecisionApprove a Henv) as (d2 & He2 & Hr2 & Hd2).
    { cbn [outbox set_requests]. by rewrite Hb1. }
    erewrite tx_bind_run by exact He2.
    destruct (emitTx_accepts a "user" EventApprovalApproved "approval_request"
      (ar_id r) (ar_org r) [("resource", ar_resource r); ("action", ar_action r)]
      d2 (env_audit _ Henv)) as (d3 & He3 & Hr3 & Hd3 & _).
    erewrite tx_bind_run by exact He3.
    eexists _, d3. split_and!; [done| |].
    + by rewrite Hd3, Hd2.
    + exists (update_row w ApprovalApproved "" true r). split; [|done].
      rewrite Hr3, Hr2. cbn. by rewrite lookup_insert_eq.
  - eexists _, d1. split_and!; [done|done|by rewrite Hr1].
Qed.
End Liveness.

Lemma votes_nodup {Json} id k (d : @Db Json) :
  NoDup (map (fun x => (ad_request x, ad_decider x)) (decisions d)) ->
  NoDup (map ad_decider (votes id k d)).
Proof.
  unfold votes. induction (decisions d) as [|x ds IH]; [constructor|].
  rewrite map_cons. intros [Hn Hu]%NoDup_cons. rewrite filter_cons. case_decide as Hx; [|by apply IH].
  cbn. apply NoDup_cons. split; [|by apply IH].
  intros (y & Hy & [[Hyr _] Hin]%list_elem_of_filter)%list_elem_of_fmap.
  apply Hn, list_elem_of_fmap. exists y. split; [|done]. destruct Hx. congruence.
Qed.

Lemma length_filter_key {A} (f : A -> string) (l : list A) k :
  NoDup (map f l) ->
  length (filter (fun x => f x = k) l) = if decide (k ∈ map f l) then 1 else 0.
Proof.
  induction l as [|x l IH]; [done|].
  rewrite map_cons. intros [Hn Hu]%NoDup_cons. rewrite filter_cons.
  specialize (IH Hu). destruct (decide (f x = k)) as [<-|Hne].
  - rewrite decide_False in IH by done. cbn. rewrite IH.
    rewrite decide_True; [done|by left].
  - rewrite IH. destruct (decide (k ∈ map f l)) as [Hk|Hk].
    + rewrite decide_True; [done|by right].
    + rewrite decide_False; [done|]. by intros [?|?]%elem_of_cons.
Qed.

(** A step leaves a terminal request, and the votes on it, alone. *)
Lemma terminal_kept {Json} s (d d' : @Db Json) id r :
  db_inv d -> requests d !! id = Some r -> IsTerminal_request r = true ->
  spec_step s d d' ->
  requests d' !! id = Some r /\
  filter (fun x => ad_request x = id) (decisions d') =
  filter (fun x => ad_request x = id) (decisions d).
Proof.
  intros Hinv Hr Hterm Hs.
  assert (Hopen : forall r : @ApprovalRequest Json, IsTerminal_request r = true -> ~ open r).
  { unfold IsTerminal_request, open. intros r0 Ht [Ho|Ho]; by rewrite Ho in Ht. }
  assert (Hother : forall id0 r0, requests d !! id0 = Some r0 -> open r0 -> id0 <> id).
  { intros id0 r0 Hr0 Ho ->. simplify_eq. by eapply Hopen. }
  assert (Hkey := inv_keyed _ Hinv).
  destruct Hs; cbn;
    repeat (rewrite ?log_entry_requests, ?log_entry_decisions; cbn);
    [done|rewrite lookup_insert_ne by congruence; done|..];
    match goal with H : requests d !! ?i = Some ?r0, H' : open ?r0 |- _ =>
      pose proof (Hother _ _ H H'); pose proof (Hkey _ _ H) end;
    rewrite ?lookup_insert_ne by congruence; (split; [done|]); try done;
    rewrite filter_app, filter_cons, filter_nil, decide_False, app_nil_r; try done;
    match goal with H : fresh_vote _ _ _ |- _ => destruct H as (-> & _) end; congruence.
Qed.

(** A vote by one decider leaves the others' calls good. *)
Lemma good_call_later {Json} (r : @ApprovalRequest Json) d d' w a calls :
  Forall (good_call r d) calls -> a ∉ map snd calls ->
  new_id w ∉ map (fun c => new_id (fst c)) calls ->
  decisions d' = decisions d ++ [vote_of r w a] -> Forall (good_call r d') calls.
Proof.
  intros Hg Ha Hw Hd. apply Forall_forall. intros c Hc.
  rewrite Forall_forall in Hg. destruct (Hg c Hc) as (H1 & H2 & H3 & Hf).
  split_and!; try done. rewrite Hd. intros y [Hy| ->%list_elem_of_singleton]%elem_of_app;
    [by apply Hf|]. cbn. split.
  - intros He. apply Hw, list_elem_of_fmap. by exists c.
  - intros [_ He]. apply Ha, list_elem_of_fmap. by exists c.
Qed.

(** A successful decision passed the guards and recorded a new vote. *)
Lemma decideLocked_vote {Json} json_marshal sha256_hex s w resume_payload
    (r : @ApprovalRequest Json) in_ d o d' :
  decideLocked json_marshal sha256_hex s w resume_payload r in_ d = Ok (o, d') ->
  decide_guards json_marshal sha256_hex w r in_ = Ok tt /\
  exists x, x ∈ decisions d' /\ (x ∉ decisions d) /\ ad_decider x = di_decider in_ /\
    ad_decision x = di_decision in_ /\ ad_request x = ar_id r.
Proof.
  unfold decideLocked. intros H. apply tx_bind_ok in H as ([] & d0 & Hg & H).
  unfold tx_lift in Hg. destruct (decide_guards _ _ _ _ _) as [[]|]; [|done]. simplify_eq.
  split; [done|].
  apply tx_bind_ok in H as (? & d1 & Hi & H).
  apply InsertDecision_ok in Hi as (-> & _ & Hfresh).
  set (v := Build_ApprovalDecision _ _ _ _ _ _ _ _) in *. exists v.
  split; [|split; [intros Hv; by apply (Hfresh v Hv)|done]].
  apply tx_bind_ok in H as (? & d2 & He & H). apply emitTx_ok in He as (e1 & -> & _).
  assert (Hin : v ∈ decisions d0 ++ [v]) by (apply elem_of_app; right; by left).
  case_decide.
  - apply tx_bind_ok in H as (? & d3 & Hu & H).
    apply UpdateApprovalState_ok in Hu as (? & _ & ->).
    apply tx_bind_ok in H as (? & d4 & He & H). apply emitTx_ok in He as (? & -> & _).
    cbv [mret tx_ret] in H. simplify_eq.
    by repeat (rewrite ?log_entry_decisions; cbn).
  - apply tx_bind_ok in H as (c & d3 & Hc & H). unfold CountApprovals in Hc. simplify_eq.
    case_match.
    + apply tx_bind_ok in H as (? & d3 & Hu & H).
      apply UpdateApprovalState_ok in Hu as (? & _ & ->).
      apply tx_bind_ok in H as (? & d4 & Hj & H).
      apply enqueueApprovalResume_ok in Hj as (box & -> & _).
      apply tx_bind_ok in H as (? & d5 & He & H). apply emitTx_ok in He as (? & -> & _).
      cbv [mret tx_ret] in H. simplify_eq.
      by repeat (rewrite ?log_entry_decisions; cbn).
    + cbv [mret tx_ret] in H. simplify_eq. by rewrite log_entry_decisions.
Qed.

(** The common tail of a sweep: the row moves, the entry is written. *)
Lemma close_run {Json} s w id org to reason ev (st st' : ApprovalState) (d d' : @Db Json) :
  (UpdateApprovalState w id org to reason false;;
   emitTx s "system" "system" ev "approval_request" id org [];; mret st) d = Ok (st', d') ->
  st' = st /\ exists r, requests d !! id = Some r /\
    requests d' !! id = Some (update_row w to reason false r) /\ ar_org r = org.
Proof.
  intros H. apply tx_bind_ok in H as (? & d1 & Hu & H).
  unfold UpdateApprovalState in Hu. destruct (requests d !! id) as [r|]; [|done].
  case_decide; [|done]. simplify_eq.
  apply tx_bind_ok in H as (? & d2 & He & H). apply emitTx_ok in He as (e & -> & _).
  cbv [mret tx_ret] in H. simplify_eq. split; [done|]. exists r. split_and!; try done.
  rewrite log_entry_requests. cbn. by rewrite lookup_insert_eq.
Qed.

(** ** The properties *)
Section Properties.
Context {Json : Type}.
Context (json_marshal : Json -> result string string).
Context (sha256_hex : string -> string).
Context (resume_payload : @ApprovalRequest Json -> string -> string -> result string string).
Context (s : Service).
Abbreviation reach := (reachable json_marshal sha256_hex resume_payload s).
Abbreviation engine := (engine_step json_marshal sha256_hex resume_payload s).

(** C1. In every database the engine can reach, an approved request carries
    exactly its quorum of approvals, by distinct deciders each of whom the policy
    allows to vote (not the requester, unless the policy says so, and in the
    approver set when one is pinned), and no denial; a denied one carries a
    single denial and fewer approvals than its quorum; any other carries fewer
    approvals than its quorum and no denial. *)
Theorem quorum_is_exact d id r :
  reach d -> requests d !! id = Some r ->
  let voters := map ad_decider (votes id DecisionApprove d) in
  let q := Z.to_nat (ar_quorum r) in
  (1 <= ar_quorum r)%Z /\ NoDup voters /\ (forall a, a ∈ voters -> may_decide r a) /\
  match ar_state r with
  | ApprovalApproved => length voters = q /\ votes id DecisionDeny d = []
  | ApprovalDenied => length voters < q /\ length (votes id DecisionDeny d) = 1
  | _ => length voters < q /\ votes id DecisionDeny d = []
  end.
Proof.
  intros Hreach Hr voters q.
  destruct (reachable_inv _ _ _ _ _ Hreach) as [_ [Hu Hv] Ht _].
  destruct (Ht _ _ Hr) as [Hq Hst]. split; [done|].
  assert (Hz : forall l : list ApprovalDecision, length l = 0 <-> l = [])
    by (intros []; naive_solver).
  assert (Hvoters : votes_on id DecisionApprove (decisions d) = length voters)
    by (unfold voters; by rewrite length_map).
  split_and!.
  - by apply votes_nodup.
  - intros a (x & -> & [[Hx _] Hin]%list_elem_of_filter)%list_elem_of_fmap.
    destruct (Hv x Hin) as (r0 & Hr0 & _ & Hm & _). by simplify_eq.
  - rewrite Hvoters in Hst. destruct (ar_state r); destruct Hst;
      split; try done; by apply Hz.
Qed.
(** C4. In every reachable database an approved request that declares a resume
    queue has exactly one resume job in the outbox, one in any other state has
    none, and every job in the outbox is the resume job of an approved request:
    the side effect of an approval is queued once and only for an approval. *)
Theorem approved_resumes_exactly_once d :
  reach d ->
  (forall id r, requests d !! id = Some r -> queued r ->
    length (filter (fun j => job_idempotency_key j = resume_key id) (outbox d)) =
    if decide (ar_state r = ApprovalApproved) then 1 else 0) /\
  (forall j, j ∈ outbox d -> exists id r p, requests d !! id = Some r /\
    ar_state r = ApprovalApproved /\ queued r /\ j = resume_job r p).
Proof.
  intros Hreach. destruct (reachable_inv _ _ _ _ _ Hreach) as [Hk _ _ (Hj & Hu & Hres)].
  split.
  - intros id r Hr Hq. pose proof (Hk _ _ Hr) as Hid. subst id.
    rewrite (length_filter_key job_idempotency_key) by done.
    repeat case_decide; try done; exfalso.
    + match goal with H : _ ∈ map _ _ |- _ =>
        apply list_elem_of_fmap in H as (j & He & Hin) end.
      destruct (Hj j Hin) as (r0 & p & Hr0 & Ha & _ & ->).
      apply resume_key_inj in He. rewrite <- He, Hr in Hr0. congruence.
    + destruct (Hres _ _ Hr) as [p Hp]; [done..|].
      match goal with H : _ ∉ _ |- _ => apply H end.
      apply list_elem_of_fmap. by exists (resume_job r p).
  - intros j Hin. destruct (Hj j Hin) as (r & p & Hr & Ha & Hq & ->). by exists (ar_id r), r, p.
Qed.

(** C37. A terminal request is final: whatever sequence of engine transactions
    follows, its row and the votes on it stay as they are. *)
Theorem terminal_is_final d d' id r :
  reach d -> requests d !! id = Some r -> IsTerminal_request r = true ->
  rtc engine d d' ->
  requests d' !! id = Some r /\
  filter (fun x => ad_request x = id) (decisions d') =
  filter (fun x => ad_request x = id) (decisions d).
Proof.
  intros Hreach Hr Hterm Hsteps. apply reachable_inv in Hreach.
  induction Hsteps as [|d d1 d2 Hstep _ IH]; [done|].
  destruct (terminal_kept s d d1 id r) as [Hr1 Hv1]; [done|done|done| |].
  { eapply engine_step_spec; [apply Hreach|exact Hstep]. }
  rewrite <- Hv1. apply IH; [by eapply engine_step_inv|done].
Qed.

(** C38. An open request with a reachable quorum gets there: when the deciders
    who have not voted yet, are allowed to and together complete the quorum
    approve one after the other before the deadline, every call succeeds and the
    request ends approved. *)
Theorem approvals_reach_quorum d id r calls :
  reach d -> requests d !! id = Some r -> open r -> ar_org r <> "" ->
  environment_ok resume_payload s r ->
  NoDup (map snd calls) -> NoDup (map (fun c => new_id (fst c)) calls) ->
  Forall (good_call r d) calls ->
  Z.of_nat (length (votes id DecisionApprove d) + length calls) = ar_quorum r ->
  exists d' r', approve_in_turn json_marshal sha256_hex resume_payload s
      (ar_org r) id calls d = Ok d' /\
    requests d' !! id = Some r' /\ ar_state r' = ApprovalApproved.
Proof.
  intros Hreach. apply reachable_inv in Hreach.
  revert d Hreach. induction calls as [|[w a] calls IH];
    intros d Hinv Hr Ho Horg Henv Hdup Hids Hgood Hq.
  { destruct (inv_tally _ Hinv _ _ Hr) as [_ Ht]. apply tally_open_inv in Ht as [Hlt _]; [|done].
    unfold votes_on in Hlt. unfold votes in Hq. cbn in Hq. lia. }
  cbn [map] in Hdup, Hids. apply NoDup_cons in Hdup as [Ha Hdup].
  apply NoDup_cons in Hids as [Hw Hids]. apply Forall_cons in Hgood as [Hg Hgood].
  destruct (decide_one json_marshal sha256_hex resume_payload s d id r w a)
    as (o & d' & Hd & Hdec & Hst); try done.
  cbn [approve_in_turn]. rewrite Hd. unfold votes in Hq.
  change (votes_on id DecisionApprove (decisions d)) with
    (length (filter (fun y => ad_request y = id /\ ad_decision y = DecisionApprove)
      (decisions d))) in Hst.
  cbn [length] in Hq. assert (Hid : ar_id r = id) by (by apply Hinv).
  destruct calls as [|c calls].
  - cbn in Hq. destruct (Z.leb_spec (ar_quorum r)
      (Z.of_nat (S (length (filter (fun y => ad_request y = id /\ ad_decision y = DecisionApprove)
        (decisions d)))))); [|lia].
    destruct Hst as (r' & Hr' & Ha'). by exists d', r'.
  - cbn [length] in Hq. destruct (Z.leb_spec (ar_quorum r)
      (Z.of_nat (S (length (filter (fun y => ad_request y = id /\ ad_decision y = DecisionApprove)
        (decisions d)))))); [lia|].
    apply IH; try done.
    + eapply engine_step_inv; [exact Hinv|]. eapply step_decide, Hd.
    + by rewrite Hst.
    + eapply good_call_later; eauto.
    + unfold votes. rewrite Hdec, filter_app, length_app, filter_cons, filter_nil.
      rewrite decide_True by done. cbn [length]. lia.
Qed.

(** C36. Every committed transaction of the engine, from a reachable database, is
    one move of the abstract machine: nothing, a new pending request, a vote by
    an allowed decider that leaves the request open, the vote that completes the
    quorum (with the state change and the resume job in the same step), a denial,
    or the closing or escalation of an open request. *)
Theorem engine_refines_machine d d' :
  reach d -> engine d d' -> spec_step s d d'.
Proof.
  intros Hreach. apply engine_step_spec. by apply (reachable_inv _ _ _ _ _ Hreach).
Qed.

(** With an audit emitter wired, the audit spine tells the story of the rows:
    in every reachable database each request has one "asked" entry, one
    "decision recorded" entry per vote, and one closing entry exactly when, and
    of the kind, its state says. *)
Theorem audit_matches_state d ev id :
  audit s <> NoAudit -> reach d -> ev <> EventApprovalEscalated ->
  events ev id (audit_log d) = expected ev id d.
Proof.
  intros Ha (g & Hsteps). revert ev id. change (audit_inv d).
  assert (H0 : db_inv (empty_db (Json := Json) g)) by apply db_inv_empty.
  assert (H1 : audit_inv (empty_db (Json := Json) g)).
  { intros ev id Hev. by destruct ev; cbn; rewrite ?lookup_empty. }
  revert H0 H1. induction Hsteps as [|d0 d1 d2 Hs _ IH]; [done|].
  intros H0 H1. apply IH; [by eapply engine_step_inv|].
  assert (Hspec : spec_step s d0 d1) by (eapply engine_step_spec; [apply H0|exact Hs]).
  by eapply audit_inv_step.
Qed.

(** A reviewed decision binds what was reviewed: when it commits, the stored
    request's subject hashes to the hash the decider sent, the decider could see
    the request and was allowed to vote before the deadline, and the returned
    review shows the same subject with the decider's vote among the decisions. *)
Theorem reviewed_decision_binds w org id in_ d v d' :
  DecideReviewedApproval json_marshal sha256_hex s w resume_payload org id in_ d
    = Ok (v, d') ->
  exists r, requests d !! id = Some r /\ ar_org r = org /\
    ApprovalSubjectHash json_marshal sha256_hex (ar_subject r)
      = Ok (di_expected_subject_hash in_) /\
    approvalVisibleTo r (di_decider in_) = true /\
    may_decide r (di_decider in_) /\ open r /\
    past (ar_expires_at r) (now w) = false /\
    requests d' !! id = Some (rv_request v) /\
    exists x, x ∈ decisions d' /\ (x ∉ decisions d) /\ ad_decider x = di_decider in_ /\
      ad_decision x = di_decision in_ /\ ad_request x = ar_id r.
Proof.
  unfold DecideReviewedApproval. intros H.
  apply tx_bind_ok in H as (? & d1 & Hv & H).
  unfold tx_lift in Hv. destruct (validateDecideInput _ _); [|done]. simplify_eq.
  case_decide as Hne; [done|].
  apply tx_bind_ok in H as (r & d2 & Hl & H).
  apply getApprovalRequest_ok in Hl as (-> & Hr & Horg).
  destruct (approvalVisibleTo r (di_decider in_)) eqn:Hvis; [|done].
  apply tx_bind_ok in H as (o & d3 & Hd & H).
  apply tx_bind_ok in H as (r' & d4 & Hg & H).
  apply getApprovalRequest_ok in Hg as (-> & Hr' & _).
  apply approvalReviewOf_ok in H as (-> & -> & _).
  destruct (decideLocked_vote _ _ _ _ _ _ _ _ _ _ Hd) as (Hgu & vt & Hvt).
  apply decide_guards_ok in Hgu as (Ho & Hm & Hexp & Hh).
  exists r. split_and!; try done; [by apply Hh|by exists vt].
Qed.

(** A sweep returns the state the row has afterwards, moves a request only
    past the deadline that the new state names, and is idempotent: a second
    sweep at the same time returns the same state and changes nothing. *)
Theorem sweep_is_idempotent w w' org id t (d : @Db Json) st d' :
  SweepApprovalRequest s w org id t d = Ok (st, d') ->
  SweepApprovalRequest s w' org id t d' = Ok (st, d') /\
  exists r r', requests d !! id = Some r /\ requests d' !! id = Some r' /\
    ar_state r' = st /\
    (d' = d \/
     open r /\ st = ApprovalExpired /\ past (ar_expires_at r) t = true \/
     ar_state r = ApprovalPending /\ st = ApprovalEscalated /\
       past (ar_expires_at r) t = false /\ past (ar_escalate_at r) t = true).
Proof.
  unfold SweepApprovalRequest. case_decide as Horg; [done|]. intros H.
  apply tx_bind_ok in H as (r & d2 & Hl & H).
  pose proof Hl as Hl2. apply getApprovalRequest_ok in Hl2 as (-> & Hr & Ho).
  destruct (IsDecidable r) eqn:Hdec; cbn [negb] in H.
  - destruct (past (ar_expires_at r) t) eqn:Hexp.
    + apply close_run in H as (-> & r0 & Hr0 & Hr1 & Ho0). rewrite Hr in Hr0.
      injection Hr0 as <-.
      split; [|exists r; eexists; split_and!; [done|exact Hr1|done|]].
      * erewrite tx_bind_run.
        2:{ unfold LockApprovalRequest, getApprovalRequest. by rewrite Hr1, decide_True. }
        done.
      * right. left. split_and!; [by apply IsDecidable_open|done|done].
    + destruct (_ && _) eqn:Hesc.
      * apply close_run in H as (-> & r0 & Hr0 & Hr1 & Ho0). rewrite Hr in Hr0.
      injection Hr0 as <-.
        apply andb_true_iff in Hesc as [Hp%bool_decide_eq_true He].
        split; [|exists r; eexists; split_and!; [done|exact Hr1|done|by right; right]].
        erewrite tx_bind_run.
        2:{ unfold LockApprovalRequest, getApprovalRequest. by rewrite Hr1, decide_True. }
        cbn -[past]. by rewrite Hexp.
      * cbv [mret tx_ret] in H. simplify_eq.
        split; [|by exists r, r; auto].
        erewrite tx_bind_run by exact Hl. rewrite Hdec. cbn [negb]. by rewrite Hexp, Hesc.
  - cbv [mret tx_ret] in H. simplify_eq. split; [|by exists r, r; auto].
    erewrite tx_bind_run by exact Hl. by rewrite Hdec.
Qed.
End Properties.

(** ** A concrete run

    A request with a quorum of two and three pinned approvers, opened by "req"
    and approved by "alice" and "bob". *)
Module Run.
Definition marshal (doc : string) : result string string := Ok doc.
Definition sha (raw : string) : string := "sha:" +:+ raw.
Definition payload (_ : @ApprovalRequest string) (_ _ : string) : result string string :=
  Ok "{}".
Definition svc : Service :=
  {| audit := AuditTx (fun _ => None);
     moduleProducer := Some (outbox_producer job_payload) |}.
Definition at_ (t : Z) (fresh : string) : World :=
  {| now := t; tx_now := t; new_id := fresh |}.

Definition input : @CreateApprovalRequestInput string :=
  {| ci_org := "org"; ci_resource := "invoice"; ci_action := "pay"; ci_subject := "{42}";
     ci_requested_by := "req"; ci_quorum := 2;
     ci_policy := {| ApproverSet := ["alice"; "bob"; "carol"; "req"]; AllowSelf := false;
                     DecidePermission := "" |};
     ci_resume := {| rr_mode := "job"; rr_job_kind := "pay"; rr_payload := "";
                     rr_queue := "billing"; rr_topic := "" |};
     ci_expires_at := Some 100%Z; ci_escalate_at := Some 50%Z |}.
Definition reviewed (a : string) : DecideInput :=
  {| di_expected_subject_hash := "sha:{42}"; di_decider := a;
     di_decision := DecisionApprove; di_reason := ""; di_delegation_grant := "" |}.

Definition after {A} (m : tx (@Db string) ApprovalError A) (d : @Db string) : @Db string :=
  match m d with Ok (_, d') => d' | Err _ => d end.
Definition create := CreateApprovalRequest svc (at_ 1 "r1") input.
Definition alice := Decide marshal sha svc (at_ 2 "v1") payload "org" "r1" (approval_of "alice").
Definition bob := DecideReviewedApproval marshal sha svc (at_ 3 "v2") payload "org" "r1"
  (reviewed "bob").
Definition sweep : tx (@Db string) ApprovalError ApprovalState :=
  SweepApprovalRequest svc (at_ 60 "") "org" "r1" 60.

Definition d0 : @Db string := empty_db ∅.
Definition d1 := after create d0.
Definition d2 := after alice d1.
Definition d3 := after bob d2.
Definition d2s := after sweep d2.
Definition r1 : @ApprovalRequest string :=
  default (update_row (at_ 0 "") ApprovalPending "" false
    {| ar_id := "r1"; ar_org := "org"; ar_resource := ""; ar_action := ""; ar_subject := "";
       ar_requested_by := ""; ar_quorum := 0; ar_policy := ci_policy input;
       ar_state := ApprovalPending; ar_resume := ci_resume input; ar_expires_at := None;
       ar_escalate_at := None; ar_decision_reason := ""; ar_decided_at := None;
       ar_created_at := 0; ar_updated_at := 0 |}) (requests d1 !! "r1").
Definition r3 : @ApprovalRequest string := default r1 (requests d3 !! "r1").

Lemma after_ok {A} (m : tx (@Db string) ApprovalError A) d :
  is_ok (m d) = true -> exists a, m d = Ok (a, after m d).
Proof. unfold after. destruct (m d) as [[a d']|]; [eauto|done]. Qed.

Lemma reach_d1 : reachable marshal sha payload svc d1.
Proof.
  exists ∅. eapply rtc_once. destruct (after_ok create d0) as [a Ha]; [by vm_compute|].
  eapply step_create, Ha.
Qed.
Lemma reach_d2 : reachable marshal sha payload svc d2.
Proof.
  destruct reach_d1 as [g H]. exists g. eapply rtc_r; [exact H|].
  destruct (after_ok alice d1) as [a Ha]; [by vm_compute|]. eapply step_decide, Ha.
Qed.
Lemma step_d3 : engine_step marshal sha payload svc d2 d3.
Proof.
  destruct (after_ok bob d2) as [a Ha]; [by vm_compute|]. eapply step_decide_reviewed, Ha.
Qed.
Lemma reach_d3 : reachable marshal sha payload svc d3.
Proof.
  destruct reach_d2 as [g H]. exists g. eapply rtc_r; [exact H|exact step_d3].
Qed.
Lemma found_r1 : requests d1 !! "r1" = Some r1.
Proof. by vm_compute. Qed.
Lemma found_r3 : requests d3 !! "r1" = Some r3.
Proof. by vm_compute. Qed.

Lemma producer_accepts : environment_ok payload svc r1.
Proof.
  constructor; [by right|by eexists|]. intros _. eexists. split; [done|].
  intros j box Hnew. cbn. unfold outbox_enqueue.
  destruct (list_find _ _) as [[i j']|] eqn:Hf; [|by eexists].
  apply list_find_Some in Hf as (Hl & Hi & _). exfalso.
  eapply Hnew; [by eapply list_elem_of_lookup_2|done].
Qed.
Definition calls : list (World * string) := [(at_ 4 "v3", "carol"); (at_ 5 "v4", "alice")].
Lemma good_call_d1 w a :
  (now w < 100)%Z -> a = "alice" \/ a = "carol" -> good_call r1 d1 (w, a).
Proof.
  intros Hw Ha. assert (Hd : decisions d1 = []) by by vm_compute.
  assert (Hp : ar_policy r1 = ci_policy input) by by vm_compute.
  assert (Hq : ar_requested_by r1 = "req") by by vm_compute.
  assert (He : ar_expires_at r1 = Some 100%Z) by by vm_compute.
  unfold good_call, may_decide. rewrite Hd, Hp, Hq, He. clear Hd Hp Hq He. cbn [fst snd]. split_and!.
  - by destruct Ha as [-> | ->].
  - by destruct Ha as [-> | ->].
  - intros _. apply contains_string_spec. by destruct Ha as [-> | ->].
  - cbn. unfold time_before. by rewrite (proj2 (Z.ltb_lt _ _) Hw).
  - by intros y Hy%elem_of_nil.
Qed.
Lemma calls_good : Forall (good_call r1 d1) calls.
Proof.
  apply Forall_cons; split; [apply good_call_d1; [exact eq_refl|by right]|].
  apply Forall_cons; split; [apply good_call_d1; [exact eq_refl|by left]|].
  by apply Forall_nil.
Qed.
End Run.

Lemma quorum_is_exact_witness :
  ar_state Run.r3 = ApprovalApproved /\
  length (votes "r1" DecisionApprove Run.d3) = 2.
Proof.
  split; [by vm_compute|].
  destruct (quorum_is_exact Run.marshal Run.sha Run.payload Run.svc Run.d3 "r1" Run.r3
    Run.reach_d3 Run.found_r3) as (_ & _ & _ & H).
  change (ar_state Run.r3) with ApprovalApproved in H. destruct H as [H _].
  rewrite length_map in H. exact H.
Defined.

Lemma approved_resumes_exactly_once_witness :
  map job_idempotency_key (outbox Run.d3) = ["approval-resume:r1"] /\
  length (filter (fun j => job_idempotency_key j = resume_key "r1") (outbox Run.d3)) = 1.
Proof.
  split; [by vm_compute|].
  destruct (approved_resumes_exactly_once Run.marshal Run.sha Run.payload Run.svc Run.d3
    Run.reach_d3) as [H _].
  rewrite (H "r1" Run.r3 Run.found_r3); [by vm_compute|by vm_compute].
Defined.

Lemma terminal_is_final_witness :
  IsTerminal_request Run.r3 = true /\ requests Run.d3 !! "r1" = Some Run.r3.
Proof.
  assert (Ht : IsTerminal_request Run.r3 = true) by by vm_compute.
  split; [exact Ht|].
  apply (terminal_is_final Run.marshal Run.sha Run.payload Run.svc Run.d3 Run.d3 "r1" Run.r3
    Run.reach_d3 Run.found_r3 Ht). constructor.
Defined.

Lemma approvals_reach_quorum_witness :
  exists d' r', approve_in_turn Run.marshal Run.sha Run.payload Run.svc "org" "r1"
      Run.calls Run.d1 = Ok d' /\
    requests d' !! "r1" = Some r' /\ ar_state r' = ApprovalApproved.
Proof.
  assert (Horg : ar_org Run.r1 = "org") by (vm_compute; reflexivity).
  rewrite <- Horg.
  apply (approvals_reach_quorum Run.marshal Run.sha Run.payload Run.svc Run.d1 "r1" Run.r1
    Run.calls Run.reach_d1 Run.found_r1).
  - left. vm_compute. reflexivity.
  - rewrite Horg. clear. discriminate.
  - exact Run.producer_accepts.
  - clear. by apply (bool_decide_unpack _).
  - clear. by apply (bool_decide_unpack _).
  - exact Run.calls_good.
  - vm_compute. reflexivity.
Defined.

Lemma engine_refines_machine_witness : spec_step Run.svc Run.d2 Run.d3.
Proof.
  exact (engine_refines_machine Run.marshal Run.sha Run.payload Run.svc Run.d2 Run.d3
    Run.reach_d2 Run.step_d3).
Defined.

Lemma audit_matches_state_witness :
  events EventApprovalDecisionRecorded "r1" (audit_log Run.d3) =
  expected EventApprovalDecisionRecorded "r1" Run.d3.
Proof.
  by apply (audit_matches_state Run.marshal Run.sha Run.payload Run.svc Run.d3
    EventApprovalDecisionRecorded "r1" ltac:(done) Run.reach_d3).
Defined.

Lemma reviewed_decision_binds_witness :
  exists v r, Run.bob Run.d2 = Ok (v, Run.d3) /\ requests Run.d2 !! "r1" = Some r /\
    ApprovalSubjectHash Run.marshal Run.sha (ar_subject r) = Ok "sha:{42}".
Proof.
  destruct (Run.after_ok Run.bob Run.d2) as [v Hv]; [by vm_compute|]. exists v.
  destruct (reviewed_decision_binds Run.marshal Run.sha Run.payload Run.svc
    (Run.at_ 3 "v2") "org" "r1" (Run.reviewed "bob") Run.d2 v Run.d3 Hv)
    as (r & Hr & _ & Hh & _).
  exists r. split; [exact Hv|]. split; [exact Hr|exact Hh].
Defined.

Lemma sweep_is_idempotent_witness :
  exists st, Run.sweep Run.d2s = Ok (st, Run.d2s) /\ st = ApprovalEscalated.
Proof.
  destruct (Run.after_ok Run.sweep Run.d2) as [st Hst]; [by vm_compute|]. exists st.
  split; [exact (proj1 (sweep_is_idempotent Run.svc (Run.at_ 60 "") (Run.at_ 60 "")
    "org" "r1" 60 Run.d2 st Run.d2s Hst))|].
  assert (Hv : fst <$> Run.sweep Run.d2 = Ok ApprovalEscalated) by (vm_compute; reflexivity).
  rewrite Hst in Hv. by injection Hv.
Defined.
