(* ===== verification/JobQueue.v ===== *)
(** The durable job queue: accounts/code/pkg/infra/postgres_jobs.go (claim, lease
    recovery, heartbeat, finalization), postgres_job_producer.go (enqueue) and
    ReplayJob of postgres_job_operations.go, with the identity helpers of
    jobs/producer.go and jobs/module_authority.go.

    The database is a value: the job_messages rows by id, the job_attempts rows
    in insertion order, the append-only job_state_transitions and the enqueue
    sequence.  A statement reads and writes that value; the row triggers and CHECK
    constraints of the tables run inside [put_message] and [update_attempts], so a
    statement that breaks them is an error, as it is in the database.  Each store
    method is one transaction.  [NOW()], [clock_timestamp()], the generated UUIDs,
    the rows other transactions have locked (FOR UPDATE SKIP LOCKED passes over
    them) and the answers of the two installation predicates are what the
    transaction reads from the world. *)
From Stdlib Require Import Ascii.
From S2P Require Import Prelude JobState.

Abbreviation Attrs := (gmap string string) (only parsing).

Inductive JobError : Type :=
| ErrInvalidCommand (cause : string)
| ErrIdempotencyConflict
| ErrOrderingKeyTooLong
| ErrTransactionRequired
| ErrLeaseLost
| ErrJobNotFound
| ErrReplayNotAllowed
| ErrJobState (e : StateError)
| ErrDatabase (cause : string)
| ErrJobs (cause : string).

(** ** The tables *)

(** The columns of job_messages no statement updates. *)
Record JobColumns : Type := {
  c_id : string;
  c_direction : string;
  c_scope_kind : string;
  c_organization_id : option string;
  c_subject_id : option string;
  c_queue : string;
  c_topic : string;
  c_source : string;
  c_idempotency_key : string;
  c_request_fingerprint : string;
  c_ordering_key : option string;
  c_schema_version : Z;
  c_payload : string;
  c_content_type : string;
  c_attributes : Attrs;
  c_priority : Z;
  c_max_attempts : Z;
  c_replay_of : option string;
  c_created_at : instant;
  c_enqueue_seq : Z;
}.

Record JobExecutionReference : Type := {
  exec_owner : string;
  exec_kind : string;
  exec_id : string;
}.

Record JobMessage : Type := {
  m_columns : JobColumns;
  m_state : string;
  m_consumer_authority : option Attrs;
  m_attempt_count : Z;
  m_lease_owner : option string;
  m_lease_token : option string;
  m_lease_expires_at : option instant;
  m_heartbeat_at : option instant;
  m_last_error_code : option string;
  m_last_error_message : option string;
  m_available_at : instant;
  m_last_attempt_at : option instant;
  m_completed_at : option instant;
  m_dead_lettered_at : option instant;
  m_execution : option JobExecutionReference;
  m_state_version : Z;
  m_updated_at : instant;
}.

Record JobAttempt : Type := {
  a_id : string;
  a_job_id : string;
  a_attempt_number : Z;
  a_worker_id : string;
  a_lease_token : string;
  a_outcome : option string;
  a_error_code : option string;
  a_error_message : option string;
  a_started_at : instant;
  a_heartbeat_at : instant;
  a_finished_at : option instant;
}.

Record Transition : Type := {
  t_job_id : string;
  t_from : option string;
  t_to : string;
  t_version : Z;
  t_attempt_count : Z;
}.

Record JobDb : Type := {
  messages : gmap string JobMessage;
  attempts : list JobAttempt;
  transitions : list Transition;
  next_seq : Z;
}.

Definition empty_jobs : JobDb :=
  {| messages := ∅; attempts := []; transitions := []; next_seq := 1 |}.

Abbreviation Q := (tx JobDb JobError).

Definition set_messages (ms : gmap string JobMessage) (d : JobDb) : JobDb :=
  {| messages := ms; attempts := attempts d; transitions := transitions d;
     next_seq := next_seq d |}.
Definition set_attempts (l : list JobAttempt) (d : JobDb) : JobDb :=
  {| messages := messages d; attempts := l; transitions := transitions d;
     next_seq := next_seq d |}.
Definition add_transition (x : Transition) (d : JobDb) : JobDb :=
  {| messages := messages d; attempts := attempts d;
     transitions := transitions d ++ [x]; next_seq := next_seq d |}.
Definition bump_seq (d : JobDb) : JobDb :=
  {| messages := messages d; attempts := attempts d; transitions := transitions d;
     next_seq := next_seq d + 1 |}.

(** What one transaction reads from the world. *)
Record JobWorld : Type := {
  jw_now : instant;
  jw_clock : instant;
  jw_token : string -> string;
  jw_attempt_id : string -> string;
  jw_job_id : string;
  jw_locked : gset string;
  jw_module_current : Attrs -> bool;
  jw_step_current : string -> Attrs -> bool;
  jw_held : option (gmap string Attrs);
}.

(** ** Triggers and constraints *)
Definition is_terminal (state : string) : bool :=
  bool_decide (state = "succeeded") || bool_decide (state = "dead_letter")
  || bool_decide (state = "canceled").

Definition is_active (state : string) : bool :=
  bool_decide (state = "pending") || bool_decide (state = "processing")
  || bool_decide (state = "retrying").

Definition job_state_transition_is_valid (from_state to_state : string) : bool :=
  if decide (from_state = "pending") then
    bool_decide (to_state = "processing") || bool_decide (to_state = "canceled")
  else if decide (from_state = "processing") then
    bool_decide (to_state = "retrying") || bool_decide (to_state = "succeeded")
    || bool_decide (to_state = "dead_letter") || bool_decide (to_state = "canceled")
  else if decide (from_state = "retrying") then
    bool_decide (to_state = "processing") || bool_decide (to_state = "canceled")
  else false.

(** The CHECK constraints between the columns a statement updates. *)
Definition attempts_check (m : JobMessage) : bool :=
  (0 <=? m_attempt_count m)%Z && (1 <=? c_max_attempts (m_columns m))%Z
  && (c_max_attempts (m_columns m) <=? 100)%Z
  && (m_attempt_count m <=? c_max_attempts (m_columns m))%Z
  && (negb (bool_decide (m_state m ∈ ["processing"; "retrying"; "succeeded"; "dead_letter"]))
      || (0 <? m_attempt_count m)%Z)
  && (negb (bool_decide (m_state m = "pending")) || (m_attempt_count m =? 0)%Z)
  && (negb (bool_decide (m_state m = "retrying"))
      || (m_attempt_count m <? c_max_attempts (m_columns m))%Z).

Definition is_some {A} (o : option A) : bool :=
  match o with Some _ => true | None => false end.

(** The patterns of the constraints: [^[a-z][a-z0-9<extra>]{0,n}$]. *)
Definition ascii_between (lo hi : nat) (c : ascii) : bool :=
  (lo <=? nat_of_ascii c)%nat && (nat_of_ascii c <=? hi)%nat.
Definition named_with (extra : string) (n : nat) (s : string) : bool :=
  match String.list_ascii_of_string s with
  | [] => false
  | c :: rest =>
      ascii_between 97 122 c && (length rest <=? n)%nat
      && forallb (fun c => ascii_between 97 122 c || ascii_between 48 57 c
                           || bool_decide (c ∈ String.list_ascii_of_string extra)) rest
  end.
(** [length] of a text: its characters, which are the bytes that continue none. *)
Definition char_length (s : string) : Z :=
  Z.of_nat (length (filter (fun c => ascii_between 128 191 c = false) (String.list_ascii_of_string s))).
Definition octet_length (s : string) : Z := Z.of_nat (String.length s).
Definition text_within (lo hi : Z) (s : string) : bool := (lo <=? char_length s)%Z && (char_length s <=? hi)%Z.
(** A CHECK on a nullable column. *)
Definition holds_of {A} (check : A -> bool) (o : option A) : bool :=
  match o with Some v => check v | None => true end.

Definition lease_check (m : JobMessage) : bool :=
  if decide (m_state m = "processing")
  then is_some (m_lease_owner m) && is_some (m_lease_token m)
       && is_some (m_lease_expires_at m) && is_some (m_heartbeat_at m)
       && holds_of (text_within 1 255) (m_lease_owner m)
  else negb (is_some (m_lease_owner m)) && negb (is_some (m_lease_token m))
       && negb (is_some (m_lease_expires_at m)) && negb (is_some (m_heartbeat_at m)).

Definition terminal_timestamps_check (m : JobMessage) : bool :=
  eqb (bool_decide (m_state m ∈ ["succeeded"; "canceled"])) (is_some (m_completed_at m))
  && eqb (bool_decide (m_state m = "dead_letter")) (is_some (m_dead_lettered_at m)).

Definition failure_check (m : JobMessage) : bool :=
  holds_of (named_with "_.-" 127) (m_last_error_code m)
  && holds_of (text_within 0 4096) (m_last_error_message m)
  && (negb (is_some (m_last_error_message m)) || is_some (m_last_error_code m))
  && (negb (bool_decide (m_state m ∈ ["retrying"; "dead_letter"]))
      || is_some (m_last_error_code m)).

Definition execution_check (m : JobMessage) : bool :=
  match m_execution m with
  | None => true
  | Some e =>
      bool_decide (m_state m = "succeeded") && named_with "-" 62 (exec_owner e)
      && named_with "_.-" 63 (exec_kind e) && text_within 1 255 (exec_id e)
  end.

Definition state_check (m : JobMessage) : bool :=
  is_active (m_state m) || is_terminal (m_state m).

Definition scope_check (c : JobColumns) : bool :=
  if decide (c_scope_kind c = "tenant")
  then is_some (c_organization_id c) && negb (is_some (c_subject_id c))
  else if decide (c_scope_kind c = "subject")
  then negb (is_some (c_organization_id c)) && is_some (c_subject_id c)
  else bool_decide (c_scope_kind c = "global")
       && negb (is_some (c_organization_id c)) && negb (is_some (c_subject_id c)).

(** The columns no statement updates: direction, scope, names, keys, sizes and ranges.
    Of the attributes only that they are an object, not the size of their text. *)
Definition columns_check (c : JobColumns) : bool :=
  bool_decide (c_direction c ∈ ["inbox"; "outbox"]) && scope_check c
  && named_with "_.-" 127 (c_queue c) && named_with "_.-" 254 (c_topic c)
  && named_with "_.:/-" 254 (c_source c) && text_within 1 255 (c_idempotency_key c)
  && (octet_length (c_request_fingerprint c) =? 32)%Z
  && holds_of (text_within 1 255) (c_ordering_key c)
  && text_within 1 255 (c_content_type c) && (octet_length (c_payload c) <=? 1048576)%Z
  && (-100 <=? c_priority c)%Z && (c_priority c <=? 100)%Z && (0 <? c_schema_version c)%Z
  && negb (bool_decide (c_replay_of c = Some (c_id c))).

Definition row_checks (m : JobMessage) : bool :=
  state_check m && attempts_check m && lease_check m && terminal_timestamps_check m
  && failure_check m && execution_check m && (0 <=? m_state_version m)%Z
  && columns_check (m_columns m).

(** BEFORE UPDATE: enforce_job_message_state. *)
Definition enforce_job_message_state (t : instant) (old new : JobMessage)
    : result JobError JobMessage :=
  let stamped v :=
    {| m_columns := m_columns new; m_state := m_state new;
       m_consumer_authority := m_consumer_authority new;
       m_attempt_count := m_attempt_count new; m_lease_owner := m_lease_owner new;
       m_lease_token := m_lease_token new; m_lease_expires_at := m_lease_expires_at new;
       m_heartbeat_at := m_heartbeat_at new; m_last_error_code := m_last_error_code new;
       m_last_error_message := m_last_error_message new;
       m_available_at := m_available_at new; m_last_attempt_at := m_last_attempt_at new;
       m_completed_at := m_completed_at new; m_dead_lettered_at := m_dead_lettered_at new;
       m_execution := m_execution new; m_state_version := v; m_updated_at := t |} in
  if is_terminal (m_state old) then Err (ErrDatabase "terminal job is immutable")
  else if decide (m_state new = m_state old) then
    if decide (m_state_version new = m_state_version old
               /\ m_attempt_count new = m_attempt_count old)
    then Ok (stamped (m_state_version new))
    else Err (ErrDatabase "state_version and attempt_count are state-machine owned")
  else if negb (job_state_transition_is_valid (m_state old) (m_state new))
  then Err (ErrDatabase "invalid job state transition")
  else if decide (m_state new = "processing" /\
                  m_attempt_count new <> (m_attempt_count old + 1)%Z)
  then Err (ErrDatabase "processing transition must increment attempt_count exactly once")
  else if decide (m_state new <> "processing" /\
                  m_attempt_count new <> m_attempt_count old)
  then Err (ErrDatabase "attempt_count changes only when a job enters processing")
  else Ok (stamped (m_state_version old + 1)%Z).

(** UPDATE of one row: the BEFORE trigger, the CHECK constraints, the row, and the
    AFTER trigger append_job_state_transition.  The other AFTER trigger,
    record_installation_step, writes the installations table only. *)
Definition put_message (w : JobWorld) (old new : JobMessage) : Q unit := fun d =>
  match enforce_job_message_state (jw_now w) old new with
  | Err e => Err e
  | Ok m =>
      if negb (row_checks m) then Err (ErrDatabase "check constraint violated")
      else
        let d := set_messages (<[c_id (m_columns m) := m]> (messages d)) d in
        if decide (m_state m = m_state old) then Ok (tt, d)
        else Ok (tt, add_transition
          {| t_job_id := c_id (m_columns m); t_from := Some (m_state old);
             t_to := m_state m; t_version := m_state_version m;
             t_attempt_count := m_attempt_count m |} d)
  end.

(** INSERT of a row: the primary key and the idempotency index are the caller's
    ON CONFLICT. *)
Definition insert_message (m : JobMessage) : Q unit := fun d =>
  if negb (row_checks m) then Err (ErrDatabase "check constraint violated")
  else Ok (tt, add_transition
    {| t_job_id := c_id (m_columns m); t_from := None; t_to := m_state m;
       t_version := m_state_version m; t_attempt_count := m_attempt_count m |}
    (set_messages (<[c_id (m_columns m) := m]> (messages d)) d)).

(** UPDATE job_attempts: the trigger and the CHECK constraints of every row the
    WHERE clause selects; the result is the number of rows. *)
Definition enforce_job_attempt_state (old new : JobAttempt) : result JobError JobAttempt :=
  if is_some (a_outcome old) then Err (ErrDatabase "completed job attempt is immutable")
  else if (a_heartbeat_at new <? a_heartbeat_at old)%Z
  then Err (ErrDatabase "job attempt heartbeat cannot move backwards")
  else if (a_heartbeat_at new <? a_started_at new)%Z
  then Err (ErrDatabase "job_attempts_clock_check")
  else if match a_finished_at new with
          | Some f => (f <? a_started_at new)%Z | None => false end
  then Err (ErrDatabase "job_attempts_clock_check")
  else if negb (eqb (is_some (a_outcome new)) (is_some (a_finished_at new)))
  then Err (ErrDatabase "job_attempts_completion_check")
  else Ok new.

Fixpoint update_rows (select : JobAttempt -> bool) (set : JobAttempt -> JobAttempt)
    (l : list JobAttempt) : result JobError (list JobAttempt * nat) :=
  match l with
  | [] => Ok ([], 0)
  | a :: l =>
      match update_rows select set l with
      | Err e => Err e
      | Ok (l', n) =>
          if select a then
            match enforce_job_attempt_state a (set a) with
            | Err e => Err e
            | Ok a' => Ok (a' :: l', S n)
            end
          else Ok (a :: l', n)
      end
  end.

Definition update_attempts (select : JobAttempt -> bool) (set : JobAttempt -> JobAttempt)
    : Q nat := fun d =>
  match update_rows select set (attempts d) with
  | Err e => Err e
  | Ok (l, n) => Ok (n, set_attempts l d)
  end.

(** INSERT INTO job_attempts, with its three unique indexes. *)
Definition insert_attempt (a : JobAttempt) : Q unit := fun d =>
  if decide (Exists (fun b => a_id b = a_id a
      \/ (a_job_id b = a_job_id a /\ a_attempt_number b = a_attempt_number a)
      \/ (a_job_id b = a_job_id a /\ a_lease_token b = a_lease_token a)) (attempts d))
  then Err (ErrDatabase "duplicate key value violates unique constraint")
  else Ok (tt, set_attempts (attempts d ++ [a]) d).

(** ** Requests and responses (saas.jobs.v1) *)
Record JobLeaseReference : Type := {
  lr_job_id : string;
  lr_worker_id : string;
  lr_lease_token : string;
}.
Record JobFailure : Type := {
  f_code : string;
  f_message : string;
}.
Record ClaimJobsRequest : Type := {
  cr_queue : string;
  cr_worker_id : string;
  cr_limit : Z;
  cr_lease_duration : duration;
}.
Record JobLease : Type := {
  l_owner : string;
  l_token : string;
  l_expires_at : option instant;
  l_heartbeat_at : option instant;
}.
Record JobEnvelope : Type := {
  e_id : string;
  e_direction : JobDirection;
  e_scope : JobScope;
  e_queue : string;
  e_topic : string;
  e_source : string;
  e_idempotency_key : string;
  e_ordering_key : string;
  e_schema_version : Z;
  e_payload : string;
  e_content_type : string;
  e_attributes : Attrs;
  e_state : JobState;
  e_priority : Z;
  e_attempt_count : Z;
  e_max_attempts : Z;
  e_lease : option JobLease;
  e_last_failure : option JobFailure;
  e_available_at : instant;
  e_last_attempt_at : option instant;
  e_completed_at : option instant;
  e_dead_lettered_at : option instant;
  e_created_at : instant;
  e_updated_at : instant;
  e_state_version : Z;
  e_replay_of : string;
}.
Record EnqueueJobRequest : Type := {
  er_job : NewJob;
}.
Record ReplayJobRequest : Type := {
  rp_source_job_id : string;
  rp_idempotency_key : string;
  rp_available_at : option instant;
}.
Inductive JobEnqueueDisposition : Type := DISPOSITION_INSERTED | DISPOSITION_DUPLICATE.

(** The commands [ValidateCommand] checks against the protobuf rules. *)
Inductive Command : Type :=
| CmdClaim (r : ClaimJobsRequest)
| CmdHeartbeat (lease : JobLeaseReference) (extension : duration)
| CmdComplete (lease : JobLeaseReference) (execution : option JobExecutionReference)
| CmdRetry (lease : JobLeaseReference) (failure : JobFailure) (retry_at : instant)
| CmdDeadLetter (lease : JobLeaseReference) (failure : JobFailure)
| CmdEnqueue (r : EnqueueJobRequest)
| CmdReplay (r : ReplayJobRequest)
| CmdOrderingKey (k : JobOrderingKey)
| CmdFailure (f : JobFailure).

(** ** Host-stamped provenance (module_authority.go) *)
Record ModuleAuthority : Type := {
  ma_PrincipalID : string;
  ma_OrganizationID : string;
  ma_InstallationID : string;
  ma_BindingID : string;
  ma_InstallationRevision : Z;
  ma_AllowsGlobal : bool;
}.

Section FormatUint.
(** [strconv.FormatUint(v, 10)] *)
Variable format_uint : Z -> string.

Definition Attributes (a : ModuleAuthority) : Attrs :=
  <["codefly.principal_id" := ma_PrincipalID a]>
  (<["codefly.organization_id" := ma_OrganizationID a]>
  (<["codefly.installation_id" := ma_InstallationID a]>
  (<["codefly.installation_revision" := format_uint (ma_InstallationRevision a)]>
  (<["codefly.binding_id" := ma_BindingID a]> ∅)))).

(** [strings.HasPrefix(key, "codefly.")] *)
Definition reserved_key (key : string) : bool := String.prefix "codefly." key.

Definition StampModuleJob (req : NewJob) (authority : ModuleAuthority) : NewJob :=
  {| job_direction := job_direction req; job_scope := job_scope req;
     job_queue := job_queue req; job_topic := job_topic req;
     job_source := job_source req; job_idempotency_key := job_idempotency_key req;
     job_ordering := job_ordering req; job_schema_version := job_schema_version req;
     job_payload := job_payload req; job_content_type := job_content_type req;
     job_attributes := Attributes authority ∪
       filter (fun kv => reserved_key (fst kv) = false) (job_attributes req);
     job_priority := job_priority req; job_max_attempts := job_max_attempts req;
     job_available_at := job_available_at req |}.
End FormatUint.

(** ** Identity helpers (producer.go) *)
Section Identity.
(** [base64.RawURLEncoding.EncodeToString] and SHA-256 over the deterministic
    protobuf encoding of a command behind its domain separator. *)
Context (base64url : string -> string).
Context (fingerprint : string -> Command -> string).
Context (ValidateCommand : Command -> result JobError unit).

Definition enqueueFingerprintDomain : string := "saas.jobs.v1.EnqueueJobRequest".
Definition replayFingerprintDomain : string := "saas.jobs.v1.ReplayJobRequest".

Definition CanonicalOrderingKey (key : option JobOrderingKey) : result JobError string :=
  match key with
  | None => Ok ""
  | Some key =>
      match ValidateCommand (CmdOrderingKey key) with
      | Err e => Err e
      | Ok _ =>
          let canonical := key_namespace key +:+ ":" +:+
            String.concat "." (map base64url (key_components key)) in
          if (255 <? Z.of_nat (String.length canonical))%Z then Err ErrOrderingKeyTooLong
          else Ok canonical
      end
  end.

Definition fingerprintCommand (domain : string) (c : Command) : result JobError string :=
  match ValidateCommand c with
  | Err e => Err e
  | Ok _ => Ok (fingerprint domain c)
  end.
Definition EnqueueFingerprint (r : EnqueueJobRequest) : result JobError string :=
  fingerprintCommand enqueueFingerprintDomain (CmdEnqueue r).
Definition ReplayFingerprint (r : ReplayJobRequest) : result JobError string :=
  fingerprintCommand replayFingerprintDomain (CmdReplay r).

Definition PayloadIdentityMatches (envelope : option JobEnvelope) (payloadIdentity : string)
    : bool :=
  match envelope with
  | None => false
  | Some e =>
      if decide (payloadIdentity = "") then false
      else negb (bool_decide (e_replay_of e = ""))
           || bool_decide (e_idempotency_key e = payloadIdentity)
  end.
End Identity.

(** ** The store *)
Section Store.
Context (format_uint : Z -> string).
Context (base64url : string -> string).
Context (fingerprint : string -> Command -> string).
Context (ValidateCommand : Command -> result JobError unit).
(** [uuid.Parse], in its canonical text form. *)
Context (parse_uuid : string -> option string).
Context (w : JobWorld).
(** [jobs.ModuleClaim(ctx)] *)
Context (claim : option ModuleAuthority).

(** *** Reading a row *)
Definition databaseJobScope (kind organizationID subjectID : string)
    : result JobError JobScope :=
  if decide (kind = "tenant") then Ok (JobScope_OrganizationId organizationID)
  else if decide (kind = "subject") then Ok (JobScope_SubjectId subjectID)
  else if decide (kind = "global") then Ok JobScope_Global
  else Err (ErrJobs "jobs: unknown database scope").

(** COALESCE(x, '') *)
Definition coalesce (o : option string) : string := default "" o.

Definition scanJobEnvelope (m : JobMessage) : result JobError JobEnvelope :=
  let c := m_columns m in
  match ParseDatabaseDirection (c_direction c) with
  | Err e => Err (ErrJobState e)
  | Ok jobDirection =>
  match ParseDatabaseState (m_state m) with
  | Err e => Err (ErrJobState e)
  | Ok jobState =>
  match databaseJobScope (c_scope_kind c) (coalesce (c_organization_id c))
          (coalesce (c_subject_id c)) with
  | Err e => Err e
  | Ok scope => Ok
    {| e_id := c_id c; e_direction := jobDirection; e_scope := scope;
       e_queue := c_queue c; e_topic := c_topic c; e_source := c_source c;
       e_idempotency_key := c_idempotency_key c;
       e_ordering_key := coalesce (c_ordering_key c);
       e_schema_version := wrapu32 (c_schema_version c); e_payload := c_payload c;
       e_content_type := c_content_type c; e_attributes := c_attributes c;
       e_state := jobState; e_priority := wrap32 (c_priority c);
       e_attempt_count := wrapu32 (m_attempt_count m);
       e_max_attempts := wrapu32 (c_max_attempts c);
       e_lease :=
         if decide (coalesce (m_lease_owner m) = "") then None
         else Some {| l_owner := coalesce (m_lease_owner m);
                      l_token := coalesce (m_lease_token m);
                      l_expires_at := m_lease_expires_at m;
                      l_heartbeat_at := m_heartbeat_at m |};
       e_last_failure :=
         if decide (coalesce (m_last_error_code m) = "") then None
         else Some {| f_code := coalesce (m_last_error_code m);
                      f_message := coalesce (m_last_error_message m) |};
       e_available_at := m_available_at m; e_last_attempt_at := m_last_attempt_at m;
       e_completed_at := m_completed_at m; e_dead_lettered_at := m_dead_lettered_at m;
       e_created_at := c_created_at c; e_updated_at := m_updated_at m;
       e_state_version := m_state_version m;
       e_replay_of := coalesce (c_replay_of c) |}
  end
  end
  end.

(** *** Module authority *)
(** The JSON stamp; [None] is the document null. *)
Definition moduleClaimStamp : option Attrs :=
  match claim with
  | Some authority => Some (Attributes format_uint authority)
  | None => None
  end.

(** [attributes["..."]] and [held.Attributes()]: the authority the context
    already holds answers when every pair it has is in the stamp. *)
Definition lockModuleJobAuthority (stamp : Attrs) : Q unit := fun d =>
  let held :=
    match jw_held w with
    | Some installations =>
        match installations !! (default "" (stamp !! "codefly.installation_id")) with
        | Some pairs => bool_decide (map_Forall (fun k v => default "" (stamp !! k) = v) pairs)
        | None => false
        end
    | None => false
    end in
  if held then Ok (tt, d)
  else if jw_module_current w stamp then Ok (tt, d)
  else Err (ErrDatabase "revoked_authority").

Definition lockClaim : Q unit :=
  match moduleClaimStamp with
  | Some stamp => lockModuleJobAuthority stamp
  | None => mret tt
  end.

(** *** Statements over several rows *)
Definition rows_of (d : JobDb) : list JobMessage := map snd (map_to_list (messages d)).

(** UPDATE ... SET f WHERE id IN ids. *)
Fixpoint update_messages (f : JobMessage -> JobMessage) (ids : list string) : Q unit :=
  match ids with
  | [] => mret tt
  | id :: ids =>
      d ← tx_get;
      match messages d !! id with
      | None => mret tt
      | Some m => put_message w m (f m)
      end;;
      update_messages f ids
  end.

(** A row that leaves processing, or is cancelled: the four lease columns are
    NULL, the other written columns as given, the rest kept. *)
Definition unleased (m : JobMessage) (state : string) (code message : option string)
    (available : instant) (completed dead : option instant)
    (execution : option JobExecutionReference) : JobMessage :=
  {| m_columns := m_columns m; m_state := state;
     m_consumer_authority := m_consumer_authority m; m_attempt_count := m_attempt_count m;
     m_lease_owner := None; m_lease_token := None; m_lease_expires_at := None;
     m_heartbeat_at := None; m_last_error_code := code; m_last_error_message := message;
     m_available_at := available; m_last_attempt_at := m_last_attempt_at m;
     m_completed_at := completed; m_dead_lettered_at := dead; m_execution := execution;
     m_state_version := m_state_version m; m_updated_at := m_updated_at m |}.

Definition close_attempt (outcome : string) (code message : option string)
    (heartbeat finished : instant) (a : JobAttempt) : JobAttempt :=
  {| a_id := a_id a; a_job_id := a_job_id a; a_attempt_number := a_attempt_number a;
     a_worker_id := a_worker_id a; a_lease_token := a_lease_token a;
     a_outcome := Some outcome; a_error_code := code; a_error_message := message;
     a_started_at := a_started_at a; a_heartbeat_at := heartbeat;
     a_finished_at := Some finished |}.

(** *** Cancelling revoked work *)
Definition is_installation_step (c : JobColumns) : bool :=
  bool_decide (c_queue c = "installation-step") && bool_decide (c_source c = "saas.installation")
  && bool_decide (c_topic c = "installation.step") && bool_decide (c_scope_kind c = "tenant")
  && bool_decide (c_direction c = "outbox").

Definition has_installation (attrs : Attrs) : bool :=
  is_some (attrs !! "codefly.installation_id").

(** The producer's provenance of the row is revoked. *)
Definition producer_revoked (c : JobColumns) : bool :=
  if is_installation_step c
  then negb (jw_step_current w (c_id c) (c_attributes c))
  else has_installation (c_attributes c) && negb (jw_module_current w (c_attributes c)).
Definition consumer_revoked (m : JobMessage) : bool :=
  match m_consumer_authority m with
  | Some authority => negb (jw_module_current w authority)
  | None => false
  end.

Definition revoked (queue : string) (m : JobMessage) : bool :=
  bool_decide (c_queue (m_columns m) = queue) && is_active (m_state m)
  && (producer_revoked (m_columns m) || consumer_revoked m).

Definition canceled_row (m : JobMessage) : JobMessage :=
  unleased m "canceled" (Some "revoked_authority") (Some "installation authority changed")
    (m_available_at m) (Some (jw_clock w)) (m_dead_lettered_at m) (m_execution m).

Definition ids_of (l : list JobMessage) : list string := map (fun m => c_id (m_columns m)) l.

Definition cancel_rows (ids : list string) : Q unit :=
  update_messages canceled_row ids;;
  update_attempts
    (fun a => bool_decide (a_job_id a ∈ ids) && negb (is_some (a_finished_at a)))
    (fun a => close_attempt "canceled" (Some "revoked_authority")
                (Some "installation authority changed") (a_heartbeat_at a) (jw_clock w) a);;
  mret tt.

Definition cancelRevokedModuleJobs (queue : string) : Q unit :=
  d ← tx_get;
  cancel_rows (ids_of (filter (fun m => revoked queue m = true) (rows_of d))).

(** The installations trigger cancel_installation_work: a changed installation
    fences the work its authority produced or leased. *)
Definition authorized_by (installation org : string) (attrs : Attrs) : bool :=
  bool_decide (attrs !! "codefly.installation_id" = Some installation)
  && bool_decide (attrs !! "codefly.organization_id" = Some org).
Definition cancel_installation_work (installation org : string) : Q unit :=
  d ← tx_get;
  cancel_rows (ids_of (filter (fun m =>
    ((authorized_by installation org (c_attributes (m_columns m))
      || match m_consumer_authority m with
         | Some attrs => authorized_by installation org attrs
         | None => false
         end) && is_active (m_state m)) = true) (rows_of d))).

(** *** Recovering expired leases *)
Definition expires_first (x y : JobMessage) : Prop :=
  let tx := default 0%Z (m_lease_expires_at x) in
  let ty := default 0%Z (m_lease_expires_at y) in
  (tx < ty)%Z \/ (tx = ty /\ String.le (c_id (m_columns x)) (c_id (m_columns y))).
#[local] Instance expires_first_dec : RelDecision expires_first.
Proof. intros x y. unfold expires_first. apply _. Defined.

Definition lease_expired (queue : string) (m : JobMessage) : bool :=
  bool_decide (c_queue (m_columns m) = queue) && bool_decide (m_state m = "processing")
  && match m_lease_expires_at m with
     | Some t => (t <=? jw_now w)%Z
     | None => false
     end.

Definition unlocked (m : JobMessage) : bool :=
  negb (bool_decide (c_id (m_columns m) ∈ jw_locked w)).

Definition expired_message : string := "processing lease expired before finalization".
Definition exhausted (m : JobMessage) : bool :=
  (c_max_attempts (m_columns m) <=? m_attempt_count m)%Z.

Definition recovered_row (m : JobMessage) : JobMessage :=
  unleased m (if exhausted m then "dead_letter" else "retrying")
    (Some "jobs.lease_expired") (Some expired_message)
    (if exhausted m then m_available_at m else jw_now w)
    (m_completed_at m) (if exhausted m then Some (jw_now w) else None) (m_execution m).

(** The open attempt of the row's lease. *)
Definition attempt_of (m : JobMessage) (a : JobAttempt) : bool :=
  bool_decide (a_job_id a = c_id (m_columns m))
  && bool_decide (Some (a_lease_token a) = m_lease_token m)
  && negb (is_some (a_finished_at a)).

Definition recoverExpiredJobLeases (queue : string) (limit : Z) : Q unit :=
  d ← tx_get;
  let expired := take (Z.to_nat limit) (merge_sort expires_first
    (filter (fun m => lease_expired queue m = true /\ unlocked m = true) (rows_of d))) in
  let closing := filter (fun m => existsb (attempt_of m) (attempts d) = true) expired in
  update_attempts (fun a => existsb (fun m => attempt_of m a) expired)
    (fun a => close_attempt "lease_expired" (Some "jobs.lease_expired") (Some expired_message)
                (Z.max (a_heartbeat_at a) (jw_now w)) (jw_now w) a);;
  update_messages recovered_row (ids_of closing).

(** *** Claiming *)
Definition org_hint_agrees (hint : option string) (org : string) : bool :=
  match hint with
  | None => true
  | Some h => bool_decide (h = "") || bool_decide (h = org)
  end.
Definition nonempty_hint (hint : option string) : bool :=
  match hint with None => false | Some h => negb (bool_decide (h = "")) end.

(** The tenant conditions of a module's claim. *)
Definition tenant_agrees (c : JobColumns) (org : string) (allows_global : bool) : bool :=
  match c_organization_id c with
  | None => true
  | Some o => bool_decide (o = org)
  end
  && org_hint_agrees (c_attributes c !! "codefly.organization_id") org
  && org_hint_agrees (c_attributes c !! "datasource.org_id") org
  && (is_some (c_organization_id c)
      || nonempty_hint (c_attributes c !! "codefly.organization_id")
      || nonempty_hint (c_attributes c !! "datasource.org_id")
      || (bool_decide (c_scope_kind c = "global") && allows_global)).

Definition authority_admits (m : JobMessage) : bool :=
  let c := m_columns m in
  (if is_installation_step c
   then jw_step_current w (c_id c) (c_attributes c)
   else negb (has_installation (c_attributes c)) || jw_module_current w (c_attributes c))
  && negb (consumer_revoked m)
  && match moduleClaimStamp with
     | None => true
     | Some stamp =>
         jw_module_current w stamp
         && tenant_agrees c (default "" (stamp !! "codefly.organization_id"))
              match claim with Some a => ma_AllowsGlobal a | None => false end
     end.

(** (created_at, enqueue_seq) of [x] before that of [y]. *)
Definition enqueued_before (x y : JobColumns) : bool :=
  (c_created_at x <? c_created_at y)%Z
  || ((c_created_at x =? c_created_at y)%Z && (c_enqueue_seq x <? c_enqueue_seq y)%Z).

(** [prior] blocks [m]: it has the ordering key, is not finished and came first. *)
Definition blocks (m prior : JobMessage) : bool :=
  bool_decide (c_queue (m_columns prior) = c_queue (m_columns m))
  && match c_ordering_key (m_columns m) with
     | None => false
     | Some k => bool_decide (c_ordering_key (m_columns prior) = Some k)
     end
  && is_active (m_state prior)
  && enqueued_before (m_columns prior) (m_columns m).

Definition claimable (d : JobDb) (queue : string) (m : JobMessage) : bool :=
  bool_decide (c_queue (m_columns m) = queue)
  && (bool_decide (m_state m = "pending") || bool_decide (m_state m = "retrying"))
  && authority_admits m
  && (m_available_at m <=? jw_now w)%Z
  && (m_attempt_count m <? c_max_attempts (m_columns m))%Z
  && negb (existsb (blocks m) (rows_of d)).

(** ORDER BY priority DESC, available_at, created_at, enqueue_seq. *)
Definition claim_key (m : JobMessage) : list Z :=
  [(- c_priority (m_columns m))%Z; m_available_at m; c_created_at (m_columns m);
   c_enqueue_seq (m_columns m)].
Definition claim_order (x y : JobMessage) : Prop := lex_le (claim_key x) (claim_key y).
#[local] Instance claim_order_dec : RelDecision claim_order.
Proof. intros x y. unfold claim_order. apply _. Defined.

Definition candidates (d : JobDb) (queue : string) (limit : Z) : list JobMessage :=
  take (Z.to_nat limit) (merge_sort claim_order
    (filter (fun m => claimable d queue m = true /\ unlocked m = true) (rows_of d))).

(** [NOW() + seconds]: the lease duration reaches the statement in seconds. *)
Definition claimed_row (r : ClaimJobsRequest) (m : JobMessage) : JobMessage :=
  {| m_columns := m_columns m; m_state := "processing";
     m_consumer_authority :=
       match moduleClaimStamp with
       | None => m_consumer_authority m
       | Some stamp => Some stamp
       end;
     m_attempt_count := (m_attempt_count m + 1)%Z;
     m_lease_owner := Some (cr_worker_id r);
     m_lease_token := Some (jw_token w (c_id (m_columns m)));
     m_lease_expires_at := Some (jw_now w + cr_lease_duration r)%Z;
     m_heartbeat_at := Some (jw_now w);
     m_last_error_code := m_last_error_code m;
     m_last_error_message := m_last_error_message m;
     m_available_at := m_available_at m; m_last_attempt_at := Some (jw_now w);
     m_completed_at := m_completed_at m; m_dead_lettered_at := m_dead_lettered_at m;
     m_execution := m_execution m; m_state_version := m_state_version m;
     m_updated_at := m_updated_at m |}.

Definition opened_attempt (r : ClaimJobsRequest) (m : JobMessage) : JobAttempt :=
  {| a_id := jw_attempt_id w (c_id (m_columns m)); a_job_id := c_id (m_columns m);
     a_attempt_number := (m_attempt_count m + 1)%Z; a_worker_id := cr_worker_id r;
     a_lease_token := jw_token w (c_id (m_columns m)); a_outcome := None;
     a_error_code := None; a_error_message := None; a_started_at := jw_now w;
     a_heartbeat_at := jw_now w; a_finished_at := None |}.

Fixpoint insert_attempts (l : list JobAttempt) : Q unit :=
  match l with
  | [] => mret tt
  | a :: l => insert_attempt a;; insert_attempts l
  end.

Fixpoint scan_all (d : JobDb) (ids : list string) : result JobError (list JobEnvelope) :=
  match ids with
  | [] => Ok []
  | id :: ids =>
      match messages d !! id with
      | None => scan_all d ids
      | Some m =>
          match scanJobEnvelope m with
          | Err e => Err e
          | Ok e => match scan_all d ids with
                    | Err e' => Err e' | Ok es => Ok (e :: es) end
          end
      end
  end.

Definition claimJobs (r : ClaimJobsRequest) : Q (list JobEnvelope) :=
  d ← tx_get;
  let chosen := candidates d (cr_queue r) (cr_limit r) in
  update_messages (claimed_row r) (ids_of chosen);;
  insert_attempts (map (opened_attempt r) chosen);;
  d' ← tx_get;
  tx_lift (scan_all d' (ids_of chosen)).

Definition Claim (r : ClaimJobsRequest) : Q (list JobEnvelope) :=
  tx_lift (ValidateCommand (CmdClaim r));;
  lockClaim;;
  cancelRevokedModuleJobs (cr_queue r);;
  recoverExpiredJobLeases (cr_queue r) (cr_limit r);;
  claimJobs r.

(** *** Live leases *)
Definition holds_lease (ref : JobLeaseReference) (m : JobMessage) : bool :=
  bool_decide (m_state m = "processing")
  && bool_decide (m_lease_owner m = Some (lr_worker_id ref))
  && bool_decide (m_lease_token m = Some (lr_lease_token ref)).
Definition live_lease (ref : JobLeaseReference) (m : JobMessage) : bool :=
  holds_lease ref m
  && match m_lease_expires_at m with Some t => (jw_now w <? t)%Z | None => false end
  && match moduleClaimStamp with
     | None => true
     | Some stamp => bool_decide (m_consumer_authority m = Some stamp)
     end.

Definition find_live (ref : JobLeaseReference) : Q JobMessage := fun d =>
  match messages d !! lr_job_id ref with
  | Some m => if live_lease ref m then Ok (m, d) else Err ErrLeaseLost
  | None => Err ErrLeaseLost
  end.

Definition open_attempt_of (ref : JobLeaseReference) (a : JobAttempt) : bool :=
  bool_decide (a_job_id a = lr_job_id ref) && bool_decide (a_worker_id a = lr_worker_id ref)
  && bool_decide (a_lease_token a = lr_lease_token ref)
  && negb (is_some (a_finished_at a)).

Definition one_attempt (n : nat) : Q unit :=
  if decide (n = 1) then mret tt
  else tx_fail (ErrJobs "jobs: live lease has no matching open attempt").

Definition extended_row (extension : duration) (m : JobMessage) : JobMessage :=
  {| m_columns := m_columns m; m_state := m_state m;
     m_consumer_authority := m_consumer_authority m; m_attempt_count := m_attempt_count m;
     m_lease_owner := m_lease_owner m; m_lease_token := m_lease_token m;
     m_lease_expires_at := Some (jw_now w + extension)%Z;
     m_heartbeat_at := Some (jw_now w); m_last_error_code := m_last_error_code m;
     m_last_error_message := m_last_error_message m; m_available_at := m_available_at m;
     m_last_attempt_at := m_last_attempt_at m; m_completed_at := m_completed_at m;
     m_dead_lettered_at := m_dead_lettered_at m; m_execution := m_execution m;
     m_state_version := m_state_version m; m_updated_at := m_updated_at m |}.

Definition beaten (a : JobAttempt) : JobAttempt :=
  {| a_id := a_id a; a_job_id := a_job_id a; a_attempt_number := a_attempt_number a;
     a_worker_id := a_worker_id a; a_lease_token := a_lease_token a;
     a_outcome := a_outcome a; a_error_code := a_error_code a;
     a_error_message := a_error_message a; a_started_at := a_started_at a;
     a_heartbeat_at := jw_now w; a_finished_at := a_finished_at a |}.

Definition Heartbeat (ref : JobLeaseReference) (extension : duration) : Q JobLease :=
  tx_lift (ValidateCommand (CmdHeartbeat ref extension));;
  lockClaim;;
  m ← find_live ref;
  put_message w m (extended_row extension m);;
  n ← update_attempts (open_attempt_of ref) beaten;
  one_attempt n;;
  mret {| l_owner := lr_worker_id ref; l_token := lr_lease_token ref;
          l_expires_at := Some (jw_now w + extension)%Z; l_heartbeat_at := Some (jw_now w) |}.

(** *** Finalization *)
Record jobFinalization : Type := {
  jf_state : JobState;
  jf_outcome : string;
  jf_failure : option JobFailure;
  jf_execution : option JobExecutionReference;
  jf_available : option instant;
}.

Definition lockLiveJobLease (ref : JobLeaseReference) : Q (Z * Z) :=
  m ← find_live ref;
  mret (m_attempt_count m, c_max_attempts (m_columns m)).

Definition failure_code (f : option JobFailure) : option string :=
  match f with Some f => Some (f_code f) | None => None end.
Definition failure_message (f : option JobFailure) : option string :=
  match f with
  | Some f => if decide (f_message f = "") then None else Some (f_message f)
  | None => None
  end.

Definition finalized_row (state : string) (f : jobFinalization) (m : JobMessage) : JobMessage :=
  unleased m state (failure_code (jf_failure f)) (failure_message (jf_failure f))
    (if decide (state = "retrying") then default (m_available_at m) (jf_available f)
     else m_available_at m)
    (if decide (state = "succeeded") then Some (jw_now w) else None)
    (if decide (state = "dead_letter") then Some (jw_now w) else None)
    (jf_execution f).

Definition finalizeLockedJob (ref : JobLeaseReference) (f : jobFinalization) : Q unit :=
  n ← update_attempts (open_attempt_of ref)
    (fun a => close_attempt (jf_outcome f) (failure_code (jf_failure f))
      (failure_message (jf_failure f)) (Z.max (a_heartbeat_at a) (jw_now w)) (jw_now w) a);
  one_attempt n;;
  match DatabaseState (jf_state f) with
  | Err e => tx_fail (ErrJobState e)
  | Ok state =>
      d ← tx_get;
      match messages d !! lr_job_id ref with
      | Some m =>
          if holds_lease ref m then put_message w m (finalized_row state f m)
          else tx_fail ErrLeaseLost
      | None => tx_fail ErrLeaseLost
      end
  end.

Definition finalize (ref : JobLeaseReference) (f : jobFinalization) : Q unit :=
  lockClaim;;
  lockLiveJobLease ref;;
  finalizeLockedJob ref f.

Definition finalizeRetry (ref : JobLeaseReference) (failure : JobFailure) (retry_at : instant)
    : Q JobState :=
  lockClaim;;
  counts ← lockLiveJobLease ref;
  let state := if (snd counts <=? fst counts)%Z then JOB_STATE_DEAD_LETTER
               else JOB_STATE_RETRYING in
  finalizeLockedJob ref
    {| jf_state := state; jf_outcome := "retryable_failure"; jf_failure := Some failure;
       jf_execution := None; jf_available := Some retry_at |};;
  mret state.

Definition Complete (ref : JobLeaseReference) (execution : option JobExecutionReference)
    : Q unit :=
  tx_lift (ValidateCommand (CmdComplete ref execution));;
  finalize ref {| jf_state := JOB_STATE_SUCCEEDED; jf_outcome := "succeeded";
                  jf_failure := None; jf_execution := execution; jf_available := None |}.

Definition Retry (ref : JobLeaseReference) (failure : JobFailure) (retry_at : instant)
    : Q JobState :=
  tx_lift (ValidateCommand (CmdRetry ref failure retry_at));;
  finalizeRetry ref failure retry_at.

Definition DeadLetter (ref : JobLeaseReference) (failure : JobFailure) : Q unit :=
  tx_lift (ValidateCommand (CmdDeadLetter ref failure));;
  finalize ref {| jf_state := JOB_STATE_DEAD_LETTER; jf_outcome := "permanent_failure";
                  jf_failure := Some failure; jf_execution := None; jf_available := None |}.

(** ** Enqueueing (postgres_job_producer.go) *)
Record preparedJobEnqueue : Type := {
  pj_direction : string;
  pj_scopeKind : string;
  pj_organizationID : option string;
  pj_subjectID : option string;
  pj_queue : string;
  pj_topic : string;
  pj_source : string;
  pj_idempotencyKey : string;
  pj_orderingKey : option string;
  pj_schemaVersion : Z;
  pj_payload : string;
  pj_contentType : string;
  pj_attributes : Attrs;
  pj_priority : Z;
  pj_maxAttempts : Z;
  pj_availableAt : option instant;
  pj_requestFingerprint : string;
}.

Definition enqueueScopeValues (scope : JobScope)
    : result JobError (string * option string * option string) :=
  match scope with
  | JobScope_OrganizationId id =>
      match parse_uuid id with
      | Some id => Ok ("tenant", Some id, None)
      | None => Err (ErrJobs "jobs: parse organization scope")
      end
  | JobScope_SubjectId id =>
      match parse_uuid id with
      | Some id => Ok ("subject", None, Some id)
      | None => Err (ErrJobs "jobs: parse subject scope")
      end
  | JobScope_Global => Ok ("global", None, None)
  end.

(** [int16(x)] *)
Definition wrap16 (z : Z) : Z := ((z + 2^15) mod 2^16 - 2^15)%Z.

Definition prepareJobEnqueue (request : EnqueueJobRequest)
    : result JobError preparedJobEnqueue :=
  let job := er_job request in
  match EnqueueFingerprint fingerprint ValidateCommand request with
  | Err e => Err e
  | Ok print =>
  match DatabaseDirection (job_direction job) with
  | Err e => Err (ErrJobState e)
  | Ok direction =>
  match enqueueScopeValues (job_scope job) with
  | Err e => Err e
  | Ok (scopeKind, organizationID, subjectID) =>
  match CanonicalOrderingKey base64url ValidateCommand (job_ordering job) with
  | Err e => Err e
  | Ok canonical => Ok
    {| pj_direction := direction; pj_scopeKind := scopeKind;
       pj_organizationID := organizationID; pj_subjectID := subjectID;
       pj_queue := job_queue job; pj_topic := job_topic job; pj_source := job_source job;
       pj_idempotencyKey := job_idempotency_key job;
       pj_orderingKey := if decide (canonical = "") then None else Some canonical;
       pj_schemaVersion := job_schema_version job; pj_payload := job_payload job;
       pj_contentType := job_content_type job; pj_attributes := job_attributes job;
       pj_priority := wrap16 (job_priority job); pj_maxAttempts := job_max_attempts job;
       pj_availableAt := job_available_at job; pj_requestFingerprint := print |}
  end
  end
  end
  end.

(** The database role of the session, with the signed organization and user of
    a request. *)
Inductive Role : Type :=
| app_tenant (current_org current_user : option string)
| app_control_plane
| app_job_worker
| other_role.

Definition role_may_enqueue (role : Role) (j : preparedJobEnqueue) : bool :=
  match role with
  | app_tenant org user =>
      bool_decide (pj_direction j = "outbox") &&
      ((bool_decide (pj_scopeKind j = "tenant")
        && is_some (pj_organizationID j) && bool_decide (pj_organizationID j = org)
        && negb (is_some (pj_subjectID j)))
       || (bool_decide (pj_scopeKind j = "subject")
        && is_some (pj_subjectID j) && bool_decide (pj_subjectID j = user)
        && negb (is_some (pj_organizationID j))))
  | app_control_plane =>
      bool_decide (pj_direction j = "outbox") && bool_decide (pj_scopeKind j = "global")
      && negb (is_some (pj_organizationID j)) && negb (is_some (pj_subjectID j))
  | app_job_worker => true
  | other_role => false
  end.

(** The columns uq_job_messages_idempotency covers. *)
Definition identity_of (c : JobColumns) :=
  (c_direction c, c_scope_kind c, coalesce (c_organization_id c), coalesce (c_subject_id c),
   c_queue c, c_source c, c_idempotency_key c).

Definition new_row (c : JobColumns) (available : instant) : JobMessage :=
  {| m_columns := c; m_state := "pending"; m_consumer_authority := None;
     m_attempt_count := 0; m_lease_owner := None; m_lease_token := None;
     m_lease_expires_at := None; m_heartbeat_at := None; m_last_error_code := None;
     m_last_error_message := None; m_available_at := available; m_last_attempt_at := None;
     m_completed_at := None; m_dead_lettered_at := None; m_execution := None;
     m_state_version := 0; m_updated_at := jw_now w |}.

Definition same_identity (c : JobColumns) (m : JobMessage) : bool :=
  bool_decide (identity_of (m_columns m) = identity_of c).

(** INSERT ... ON CONFLICT DO NOTHING RETURNING id, then the SELECT of the row
    that holds the identity: id, fingerprint, inserted. *)
Definition insert_or_find (c : JobColumns) (available : instant)
    : Q (string * string * bool) :=
  d ← tx_get;
  tx_put (bump_seq d);;
  if is_some (messages d !! c_id c) || existsb (same_identity c) (rows_of d) then
    match filter (fun m => same_identity c m = true) (rows_of d) with
    | [] => tx_fail (ErrDatabase "job idempotency conflict could not be resolved")
    | m :: _ => mret (c_id (m_columns m), c_request_fingerprint (m_columns m), false)
    end
  else
    insert_message (new_row c available);;
    mret (c_id c, c_request_fingerprint c, true).

Definition enqueue_job_message (role : Role) (j : preparedJobEnqueue)
    : Q (string * string * bool) :=
  if negb (role_may_enqueue role j) then tx_fail (ErrDatabase "insufficient_privilege")
  else
    d ← tx_get;
    insert_or_find
      {| c_id := jw_job_id w; c_direction := pj_direction j; c_scope_kind := pj_scopeKind j;
         c_organization_id := pj_organizationID j; c_subject_id := pj_subjectID j;
         c_queue := pj_queue j; c_topic := pj_topic j; c_source := pj_source j;
         c_idempotency_key := pj_idempotencyKey j;
         c_request_fingerprint := pj_requestFingerprint j;
         c_ordering_key := pj_orderingKey j; c_schema_version := pj_schemaVersion j;
         c_payload := pj_payload j; c_content_type := pj_contentType j;
         c_attributes := pj_attributes j; c_priority := pj_priority j;
         c_max_attempts := pj_maxAttempts j; c_replay_of := None;
         c_created_at := jw_now w; c_enqueue_seq := next_seq d |}
      (default (jw_now w) (pj_availableAt j)).

Definition EnqueueResponse : Type := (string * JobEnqueueDisposition)%type.

Definition disposition (inserted : bool) : JobEnqueueDisposition :=
  if inserted then DISPOSITION_INSERTED else DISPOSITION_DUPLICATE.

Definition insertPreparedJob (role : Role) (j : preparedJobEnqueue) : Q EnqueueResponse :=
  row ← enqueue_job_message role j;
  if decide (snd (fst row) = pj_requestFingerprint j)
  then mret (fst (fst row), disposition (snd row))
  else tx_fail ErrIdempotencyConflict.

Definition enqueuePreparedJob (role : Role) (j : preparedJobEnqueue) : Q EnqueueResponse :=
  (if decide (default "" (pj_attributes j !! "codefly.installation_id") = "") then mret tt
   else lockModuleJobAuthority (pj_attributes j));;
  insertPreparedJob role j.

(** The request-scoped producer: it refuses to run outside a transaction. *)
Definition PostgresStore_EnqueueJob (role : Role) (in_transaction : bool)
    (request : EnqueueJobRequest) : Q EnqueueResponse :=
  prepared ← tx_lift (prepareJobEnqueue request);
  if in_transaction then enqueuePreparedJob role prepared
  else tx_fail ErrTransactionRequired.

(** The privileged worker's producer, with a transaction of its own. *)
Definition PostgresJobStore_EnqueueJob (request : EnqueueJobRequest) : Q EnqueueResponse :=
  prepared ← tx_lift (prepareJobEnqueue request);
  enqueuePreparedJob app_job_worker prepared.

(** ** Replay (postgres_job_operations.go) *)
Definition replay_job_message (role : Role) (source key : string)
    (available : option instant) (print : string) : Q (string * string * bool) :=
  match role with
  | app_job_worker =>
      d ← tx_get;
      match messages d !! source with
      | None => tx_fail ErrJobNotFound
      | Some m =>
          let c := m_columns m in
          if negb (bool_decide (m_state m = "dead_letter")) then tx_fail ErrReplayNotAllowed
          else insert_or_find
            {| c_id := jw_job_id w; c_direction := c_direction c;
               c_scope_kind := c_scope_kind c; c_organization_id := c_organization_id c;
               c_subject_id := c_subject_id c; c_queue := c_queue c; c_topic := c_topic c;
               c_source := c_source c; c_idempotency_key := key;
               c_request_fingerprint := print; c_ordering_key := c_ordering_key c;
               c_schema_version := c_schema_version c; c_payload := c_payload c;
               c_content_type := c_content_type c; c_attributes := c_attributes c;
               c_priority := c_priority c; c_max_attempts := c_max_attempts c;
               c_replay_of := Some (c_id c); c_created_at := jw_now w;
               c_enqueue_seq := next_seq d |}
            (default (jw_now w) available)
      end
  | _ => tx_fail (ErrDatabase "insufficient_privilege")
  end.

Definition replayJob (role : Role) (request : ReplayJobRequest) : Q EnqueueResponse :=
  print ← tx_lift (ReplayFingerprint fingerprint ValidateCommand request);
  row ← replay_job_message role (rp_source_job_id request) (rp_idempotency_key request)
          (rp_available_at request) print;
  if decide (snd (fst row) = print)
  then mret (fst (fst row), disposition (snd row))
  else tx_fail ErrIdempotencyConflict.

Definition ReplayJob (request : ReplayJobRequest) : Q EnqueueResponse :=
  replayJob app_job_worker request.
End Store.

(** ** Runs of the queue

    One committed transaction, at any time, by any caller. *)
Section Runs.
Context (format_uint : Z -> string).
Context (base64url : string -> string).
Context (fingerprint : string -> Command -> string).
Context (ValidateCommand : Command -> result JobError unit).
Context (parse_uuid : string -> option string).

Inductive queue_step : JobDb -> JobDb -> Prop :=
| q_claim w claim r es d d' :
    Claim format_uint ValidateCommand w claim r d = Ok (es, d') -> queue_step d d'
| q_heartbeat w claim ref ext l d d' :
    Heartbeat format_uint ValidateCommand w claim ref ext d = Ok (l, d') -> queue_step d d'
| q_complete w claim ref x u d d' :
    Complete format_uint ValidateCommand w claim ref x d = Ok (u, d') -> queue_step d d'
| q_retry w claim ref f t st d d' :
    Retry format_uint ValidateCommand w claim ref f t d = Ok (st, d') -> queue_step d d'
| q_dead_letter w claim ref f u d d' :
    DeadLetter format_uint ValidateCommand w claim ref f d = Ok (u, d') -> queue_step d d'
| q_enqueue w role in_tx r resp d d' :
    PostgresStore_EnqueueJob base64url fingerprint ValidateCommand parse_uuid w role in_tx r d
      = Ok (resp, d') -> queue_step d d'
| q_enqueue_worker w r resp d d' :
    PostgresJobStore_EnqueueJob base64url fingerprint ValidateCommand parse_uuid w r d
      = Ok (resp, d') -> queue_step d d'
| q_replay w r resp d d' :
    ReplayJob fingerprint ValidateCommand w r d = Ok (resp, d') -> queue_step d d'
| q_revoke w installation org u d d' :
    cancel_installation_work w installation org d = Ok (u, d') -> queue_step d d'.

Definition queue_reachable (d : JobDb) : Prop := rtc queue_step empty_jobs d.
End Runs.
