(* ===== verification/JobQueueProofs.v ===== *)
(** What the statements of the job store do, one job at a time: the view of a job
    is its row, its attempts and its transitions, and every transaction of the
    store moves each view along the moves of [job_move]. *)
From S2P Require Import Prelude JobState JobQueue.

(** ** Statements *)
Definition attempts_of (id : string) (l : list JobAttempt) : list JobAttempt :=
  filter (fun a => a_job_id a = id) l.
Definition transitions_of (id : string) (l : list Transition) : list Transition :=
  filter (fun x => t_job_id x = id) l.

(** The row a write leaves: stamped by the trigger. *)
Definition stamped (t : instant) (old new : JobMessage) : JobMessage :=
  match enforce_job_message_state t old new with Ok m => m | Err _ => new end.

Lemma enforce_ok t old new m :
  enforce_job_message_state t old new = Ok m ->
  m = stamped t old new /\ is_terminal (m_state old) = false /\
  (if decide (m_state new = m_state old)
   then m_state_version m = m_state_version old /\ m_attempt_count new = m_attempt_count old
   else m_state_version m = (m_state_version old + 1)%Z /\
     job_state_transition_is_valid (m_state old) (m_state new) = true /\
     m_attempt_count new = (m_attempt_count old +
       if decide (m_state new = "processing") then 1 else 0)%Z).
Proof.
  intros H. split; [unfold stamped; by rewrite H|].
  unfold enforce_job_message_state in H.
  destruct (is_terminal (m_state old)); [done|]. split; [done|].
  case_decide as Hs.
  - case_decide as Hv; [|done]. destruct Hv. by simplify_eq/=.
  - destruct (job_state_transition_is_valid _ _); [|done]. cbn in H.
    case_decide as H1; [done|]. case_decide as H2; [done|]. simplify_eq/=.
    split_and!; try done. case_decide as H3.
    + destruct (decide (m_attempt_count new = m_attempt_count old + 1)%Z); [done|].
      exfalso. by apply H1.
    + destruct (decide (m_attempt_count new = m_attempt_count old)); [lia|].
      exfalso. by apply H2.
Qed.

(** The fields of a stamped row are those of the row written. *)
Lemma stamped_fields t old new :
  let m := stamped t old new in
  m_columns m = m_columns new /\ m_state m = m_state new /\
  m_attempt_count m = m_attempt_count new /\ m_lease_owner m = m_lease_owner new /\
  m_lease_token m = m_lease_token new /\ m_lease_expires_at m = m_lease_expires_at new /\
  m_consumer_authority m = m_consumer_authority new /\
  m_available_at m = m_available_at new.
Proof.
  unfold stamped, enforce_job_message_state. repeat case_match; try done; by simplify_eq.
Qed.

Definition transition_for (old m : JobMessage) : list Transition :=
  if decide (m_state m = m_state old) then []
  else [{| t_job_id := c_id (m_columns m); t_from := Some (m_state old); t_to := m_state m;
           t_version := m_state_version m; t_attempt_count := m_attempt_count m |}].

Lemma put_message_ok w old new d d' u :
  put_message w old new d = Ok (u, d') ->
  let m := stamped (jw_now w) old new in
  enforce_job_message_state (jw_now w) old new = Ok m /\ row_checks m = true /\
  messages d' = <[c_id (m_columns m) := m]> (messages d) /\
  attempts d' = attempts d /\ transitions d' = transitions d ++ transition_for old m /\
  next_seq d' = next_seq d.
Proof.
  unfold put_message, transition_for. intros H.
  destruct (enforce_job_message_state _ _ _) as [m|] eqn:He; [|done].
  destruct (enforce_ok _ _ _ _ He) as [-> _].
  destruct (row_checks _) eqn:Hc; [|done]. cbn in H.
  case_decide; simplify_eq/=; by rewrite ?app_nil_r.
Qed.

Lemma update_messages_ok w f ids d d' u :
  (forall id m, messages d !! id = Some m -> c_id (m_columns m) = id) ->
  (forall m, c_id (m_columns (f m)) = c_id (m_columns m)) ->
  NoDup ids -> update_messages w f ids d = Ok (u, d') ->
  attempts d' = attempts d /\ next_seq d' = next_seq d /\
  (forall id, id ∉ ids -> messages d' !! id = messages d !! id /\
     transitions_of id (transitions d') = transitions_of id (transitions d)) /\
  (forall id, id ∈ ids -> messages d !! id = None -> messages d' !! id = None /\
     transitions_of id (transitions d') = transitions_of id (transitions d)) /\
  (forall id m, id ∈ ids -> messages d !! id = Some m ->
     let m' := stamped (jw_now w) m (f m) in
     enforce_job_message_state (jw_now w) m (f m) = Ok m' /\ row_checks m' = true /\
     messages d' !! id = Some m' /\
     transitions_of id (transitions d') =
       transitions_of id (transitions d) ++ transition_for m m').
Proof.
  intros Hkey Hf. revert d Hkey. induction ids as [|i ids IH]; intros d Hkey Hdup H.
  { cbv [update_messages mret tx_ret] in H. simplify_eq. split_and!; try done;
      intros; exfalso; by eapply not_elem_of_nil. }
  apply NoDup_cons in Hdup as [Hi Hdup]. cbn [update_messages] in H.
  apply tx_bind_ok in H as (d0 & d0' & Hg & H). cbv [tx_get] in Hg.
  injection Hg as <- <-.
  apply tx_bind_ok in H as (u1 & d1 & Hp & H).
  destruct (messages d !! i) as [m0|] eqn:Hm0.
  2:{ cbv [mret tx_ret] in Hp. injection Hp as <- <-.
      destruct (IH d Hkey Hdup H) as (Ha & Hs & Hout & Hnone & Hin). split_and!; try done.
      - intros id Hid. apply Hout. intros Hx. apply Hid. by right.
      - intros id [->|Hid]%elem_of_cons Hn; [by rewrite <- Hn; apply Hout|by apply Hnone].
      - intros id m [->|Hid]%elem_of_cons Hm; [congruence|by apply Hin]. }
  destruct (put_message_ok _ _ _ _ _ _ Hp) as (He & Hc & Hms & Hat & Htr & Hsq).
  destruct (stamped_fields (jw_now w) m0 (f m0)) as (Hcols & _).
  assert (Hidm : c_id (m_columns (stamped (jw_now w) m0 (f m0))) = i).
  { rewrite Hcols, Hf. by apply Hkey. }
  rewrite Hidm in Hms.
  assert (Hkey1 : forall id m, messages d1 !! id = Some m -> c_id (m_columns m) = id).
  { intros id m. rewrite Hms. destruct (decide (i = id)) as [<-|Hne];
      [rewrite lookup_insert_eq; by intros [= <-]|
       rewrite lookup_insert_ne by done; apply Hkey]. }
  destruct (IH d1 Hkey1 Hdup H) as (Ha & Hs & Hout & Hnone & Hin).
  assert (Htr1 : forall id, id <> i ->
    transitions_of id (transitions d1) = transitions_of id (transitions d)).
  { intros id Hne. rewrite Htr. unfold transitions_of, transition_for. rewrite filter_app.
    case_decide; [by rewrite filter_nil, app_nil_r|].
    rewrite filter_cons, decide_False, filter_nil, app_nil_r; [done|].
    cbn. by rewrite Hidm. }
  split_and!; [congruence|congruence|..].
  - intros id Hid. assert (id <> i /\ id ∉ ids) as [Hne Hni].
    { split; [intros ->; apply Hid; by left|intros Hx; apply Hid; by right]. }
    destruct (Hout id Hni) as [Hm Ht]. rewrite Hm, Ht, Hms, (Htr1 _ Hne).
    by rewrite lookup_insert_ne.
  - intros id Hid Hn. assert (id <> i) as Hne by congruence.
    apply elem_of_cons in Hid as [Hx|Hx]; [done|].
    rewrite <- (Htr1 _ Hne). apply Hnone; [done|]. by rewrite Hms, lookup_insert_ne.
  - intros id m Hid Hm. destruct (decide (id = i)) as [->|Hne].
    + assert (m = m0) as -> by congruence.
      destruct (Hout i Hi) as [Hm' Ht]. rewrite Hm', Ht, Hms, lookup_insert_eq.
      split_and!; try done. rewrite Htr. unfold transitions_of at 1. rewrite filter_app.
      f_equal. unfold transition_for. case_decide; [done|].
      rewrite filter_cons, filter_nil, decide_True; [done|]. cbn. done.
    + apply elem_of_cons in Hid as [Hx|Hx]; [done|].
      rewrite <- (Htr1 _ Hne). apply Hin; [done|]. by rewrite Hms, lookup_insert_ne.
Qed.

(** ** Attempts *)
Lemma enforce_attempt_ok a b c :
  enforce_job_attempt_state a b = Ok c -> c = b /\ a_outcome a = None /\
  (a_started_at b <= a_heartbeat_at b)%Z /\
  is_some (a_outcome b) = is_some (a_finished_at b).
Proof.
  unfold enforce_job_attempt_state. intros H.
  destruct (a_outcome a); [done|]. cbn in H.
  destruct (Z.ltb_spec (a_heartbeat_at b) (a_heartbeat_at a)); [done|].
  destruct (Z.ltb_spec (a_heartbeat_at b) (a_started_at b)); [done|].
  case_match; [done|]. case_match eqn:Hb; [done|]. simplify_eq.
  apply negb_false_iff, eqb_prop in Hb. done.
Qed.

Definition rewritten (select : JobAttempt -> bool) (set : JobAttempt -> JobAttempt)
    (a : JobAttempt) : JobAttempt := if select a then set a else a.

Lemma update_rows_ok select set l l' n :
  update_rows select set l = Ok (l', n) ->
  l' = map (rewritten select set) l /\ n = length (filter (fun a => select a = true) l) /\
  Forall (fun a => select a = true -> a_outcome a = None) l.
Proof.
  revert l' n. induction l as [|a l IH]; intros l' n H; cbn in H.
  { by simplify_eq. }
  destruct (update_rows select set l) as [[l0 n0]|]; [|done].
  destruct (IH l0 n0 eq_refl) as (-> & -> & Hf). cbn [map]. unfold rewritten at 1.
  rewrite filter_cons. destruct (select a) eqn:Hs.
  - destruct (enforce_job_attempt_state a (set a)) as [b|] eqn:He; [|done].
    apply enforce_attempt_ok in He as (-> & Ho & _). simplify_eq.
    rewrite decide_True by done. split_and!; try done; by constructor.
  - simplify_eq. rewrite decide_False by congruence. split_and!; try done.
    constructor; [intros; congruence|done].
Qed.

Lemma attempts_of_map id f l :
  (forall a, a_job_id (f a) = a_job_id a) ->
  attempts_of id (map f l) = map f (attempts_of id l).
Proof.
  intros Hf. unfold attempts_of. induction l as [|a l IH]; [done|]. cbn [map].
  rewrite !filter_cons. rewrite IH. destruct (decide (a_job_id a = id)).
  - rewrite decide_True by (by rewrite Hf). done.
  - rewrite decide_False by (by rewrite Hf). done.
Qed.

Lemma update_attempts_ok select set d d' n :
  (forall a, a_job_id (set a) = a_job_id a) ->
  update_attempts select set d = Ok (n, d') ->
  messages d' = messages d /\ transitions d' = transitions d /\ next_seq d' = next_seq d /\
  attempts d' = map (rewritten select set) (attempts d) /\
  (forall id, attempts_of id (attempts d') = map (rewritten select set) (attempts_of id (attempts d))) /\
  n = length (filter (fun a => select a = true) (attempts d)) /\
  Forall (fun a => select a = true -> a_outcome a = None) (attempts d).
Proof.
  intros Hset H. unfold update_attempts in H.
  destruct (update_rows select set (attempts d)) as [[l k]|] eqn:Hr; [|done].
  apply update_rows_ok in Hr as (-> & -> & Hf). simplify_eq/=. split_and!; try done.
  intros id. apply attempts_of_map. intros a. unfold rewritten. by destruct (select a).
Qed.

Lemma insert_attempts_ok l d d' u :
  insert_attempts l d = Ok (u, d') ->
  messages d' = messages d /\ transitions d' = transitions d /\ next_seq d' = next_seq d /\
  attempts d' = attempts d ++ l /\
  (forall l1 a l2, l = l1 ++ a :: l2 -> forall b, b ∈ attempts d ++ l1 ->
     ~ (a_job_id b = a_job_id a /\ a_attempt_number b = a_attempt_number a) /\
     ~ (a_job_id b = a_job_id a /\ a_lease_token b = a_lease_token a)).
Proof.
  revert d. induction l as [|x l IH]; intros d H.
  { cbv [insert_attempts mret tx_ret] in H. simplify_eq. rewrite app_nil_r.
    split_and!; try done. intros [] ? ? ?; done. }
  cbn [insert_attempts] in H. apply tx_bind_ok in H as (? & d1 & Hi & H).
  unfold insert_attempt in Hi. case_decide as Hx; [done|]. simplify_eq.
  destruct (IH _ H) as (Hm & Ht & Hs & Ha & Hn). cbn in *.
  split_and!; [done..| |].
  - rewrite Ha. by rewrite <- app_assoc.
  - intros l1 a l2 Hl b Hb. destruct l1 as [|y l1]; simplify_eq/=.
    + rewrite app_nil_r in Hb. split; intros Hc; apply Hx, Exists_exists; exists b;
        (split; [done|tauto]).
    + eapply Hn; [done|]. by rewrite <- app_assoc.
Qed.

(** ** The life of one job *)
Record JobView : Type := {
  v_row : option JobMessage;
  v_attempts : list JobAttempt;
  v_log : list Transition;
}.
Definition view (d : JobDb) (id : string) : JobView :=
  {| v_row := messages d !! id; v_attempts := attempts_of id (attempts d);
     v_log := transitions_of id (transitions d) |}.

Definition finished (a : JobAttempt) : Prop :=
  is_some (a_finished_at a) = true /\ is_some (a_outcome a) = true.
(** [b] is [a] closed, or [a] itself when it was closed already. *)
Definition closes (a b : JobAttempt) : Prop :=
  finished b /\ a_job_id b = a_job_id a /\ a_attempt_number b = a_attempt_number a /\
  a_worker_id b = a_worker_id a /\ a_lease_token b = a_lease_token a /\
  (finished a -> b = a).
(** [b] is [a] with another heartbeat. *)
Definition beats (a b : JobAttempt) : Prop :=
  a_job_id b = a_job_id a /\ a_attempt_number b = a_attempt_number a /\
  a_worker_id b = a_worker_id a /\ a_lease_token b = a_lease_token a /\
  a_outcome b = a_outcome a /\ a_finished_at b = a_finished_at a.

Definition leased_by (m : JobMessage) (a : JobAttempt) : Prop :=
  m_lease_owner m = Some (a_worker_id a) /\ m_lease_token m = Some (a_lease_token a) /\
  a_attempt_number a = m_attempt_count m /\ a_finished_at a = None /\ a_outcome a = None.

Definition entry_for (old : option string) (m : JobMessage) : Transition :=
  {| t_job_id := c_id (m_columns m); t_from := old; t_to := m_state m;
     t_version := m_state_version m; t_attempt_count := m_attempt_count m |}.

Definition queued_state (st : string) : Prop := st = "pending" \/ st = "retrying".

(** What the transaction may do beyond stopping and extending leases: a claim
    starts jobs, an enqueue inserts them. *)
Inductive Mode : Type := Quiet | Starting | Inserting.

Inductive job_move (md : Mode) (id : string) : JobView -> JobView -> Prop :=
| mv_none v : job_move md id v v
| mv_insert m :
    md = Inserting -> c_id (m_columns m) = id -> m_state m = "pending" -> m_attempt_count m = 0%Z -> m_state_version m = 0%Z ->
    row_checks m = true ->
    job_move md id {| v_row := None; v_attempts := []; v_log := [] |}
      {| v_row := Some m; v_attempts := []; v_log := [entry_for None m] |}
| mv_start m m' l a log :
    md = Starting -> queued_state (m_state m) -> m_state m' = "processing" ->
    m_attempt_count m' = (m_attempt_count m + 1)%Z ->
    m_state_version m' = (m_state_version m + 1)%Z -> m_columns m' = m_columns m ->
    row_checks m' = true -> leased_by m' a ->
    (forall b, b ∈ l -> a_lease_token b <> a_lease_token a) ->
    job_move md id {| v_row := Some m; v_attempts := l; v_log := log |}
      {| v_row := Some m'; v_attempts := l ++ [a];
         v_log := log ++ [entry_for (Some (m_state m)) m'] |}
| mv_beat m m' l l' log :
    m_state m = "processing" -> m_state m' = "processing" ->
    m_attempt_count m' = m_attempt_count m -> m_state_version m' = m_state_version m ->
    m_columns m' = m_columns m -> m_lease_owner m' = m_lease_owner m ->
    m_lease_token m' = m_lease_token m -> row_checks m' = true ->
    Forall2 beats l l' ->
    job_move md id {| v_row := Some m; v_attempts := l; v_log := log |}
      {| v_row := Some m'; v_attempts := l'; v_log := log |}
| mv_stop m m' l l' log :
    is_terminal (m_state m) = false -> m_state m' <> "processing" ->
    job_state_transition_is_valid (m_state m) (m_state m') = true ->
    m_attempt_count m' = m_attempt_count m ->
    m_state_version m' = (m_state_version m + 1)%Z -> m_columns m' = m_columns m ->
    row_checks m' = true -> Forall2 closes l l' ->
    job_move md id {| v_row := Some m; v_attempts := l; v_log := log |}
      {| v_row := Some m'; v_attempts := l';
         v_log := log ++ [entry_for (Some (m_state m)) m'] |}.

(** The transitions of a job: from its insertion, one valid change after another,
    numbered by the state version. *)
Inductive log_path : list Transition -> string -> Z -> Prop :=
| log_new x : t_from x = None -> t_to x = "pending" -> t_version x = 0%Z ->
    log_path [x] "pending" 0
| log_step log st v x : log_path log st v -> t_from x = Some st ->
    job_state_transition_is_valid st (t_to x) = true -> t_version x = (v + 1)%Z ->
    log_path (log ++ [x]) (t_to x) (v + 1).

(** What holds of every job: attempts are numbered from one, one per lease; a
    processing job has exactly its newest attempt open, under its lease; any other
    job has none open. *)
Record job_inv (m : JobMessage) (l : list JobAttempt) (log : list Transition) : Prop := {
  ji_checks : row_checks m = true;
  ji_numbers : map a_attempt_number l = map Z.of_nat (seq 1 (length l));
  ji_count : m_attempt_count m = Z.of_nat (length l);
  ji_tokens : NoDup (map a_lease_token l);
  ji_open : if decide (m_state m = "processing")
            then exists l0 a, l = l0 ++ [a] /\ leased_by m a /\ Forall finished l0
            else Forall finished l;
  ji_log : log_path log (m_state m) (m_state_version m);
}.
Definition view_inv (id : string) (v : JobView) : Prop :=
  match v_row v with
  | None => v_attempts v = [] /\ v_log v = []
  | Some m => c_id (m_columns m) = id /\ job_inv m (v_attempts v) (v_log v)
  end.

Lemma map_Forall2 {A B} (R : A -> A -> Prop) (f : A -> B) l l' :
  (forall a b, R a b -> f b = f a) -> Forall2 R l l' -> map f l' = map f l.
Proof. intros Hf. induction 1; cbn; [done|]. f_equal; auto. Qed.

Lemma closes_all l l' : Forall2 closes l l' -> Forall finished l'.
Proof. induction 1; constructor; [|done]. by match goal with H : closes _ _ |- _ => destruct H end. Qed.

Lemma beats_finished l l' : Forall2 beats l l' -> Forall finished l -> Forall finished l'.
Proof.
  induction 1 as [|a b l l' Hb _ IH]; intros Hf; [done|]. apply Forall_cons in Hf as [Ha Hf].
  constructor; [|by apply IH]. unfold finished in *. destruct Hb as (_ & _ & _ & _ & -> & ->). done.
Qed.

Lemma job_move_inv bs id v v' : job_move bs id v v' -> view_inv id v -> view_inv id v'.
Proof.
  intros [| m _ Hid Hst Hc Hv Hk | m m' l a log _ Hq Hst Hc Hv Hcol Hk Hl Htok
    | m m' l l' log Hst Hst' Hc Hv Hcol Ho Ht Hk Hb
    | m m' l l' log Hnt Hst Hval Hc Hv Hcol Hk Hcl ] Hinv; try done; cbn in *.
  - split; [done|]. constructor; cbn; try done.
    + constructor.
    + by rewrite decide_False by (by rewrite Hst).
    + rewrite Hst, Hv. by constructor.
  - destruct Hinv as [Hid [_ Hn Hcount Htokens Hopen Hlog]].
    assert (Hne : m_state m <> "processing") by (by destruct Hq as [-> | ->]).
    rewrite decide_False in Hopen by done.
    split; [congruence|]. constructor; cbn; try done.
    + rewrite map_app, length_app. cbn [map length]. rewrite seq_app, map_app, Hn. cbn [seq map].
      destruct Hl as (_ & _ & -> & _). repeat f_equal. lia.
    + rewrite length_app. cbn. lia.
    + rewrite map_app. apply NoDup_app. split_and!; [done| |apply NoDup_singleton].
      intros tk (b & -> & Hb)%list_elem_of_fmap Hin%list_elem_of_singleton. by eapply Htok.
    + rewrite decide_True by done. eauto.
    + rewrite Hv. apply log_step with (st := m_state m); try done.
      cbn. rewrite Hst. destruct Hq as [-> | ->]; done.
  - destruct Hinv as [Hid [_ Hn Hcount Htokens Hopen Hlog]].
    rewrite decide_True in Hopen by done. destruct Hopen as (l0 & a & -> & Hl & Hf).
    assert (Hlen : length l' = length (l0 ++ [a])) by (symmetry; by eapply Forall2_length).
    split; [congruence|]. constructor; cbn; try done.
    + rewrite (map_Forall2 beats a_attempt_number _ _ ltac:(by intros ? ? (_ & ? & _)) Hb).
      by rewrite Hlen.
    + rewrite Hc, Hcount. by rewrite Hlen.
    + by rewrite (map_Forall2 beats a_lease_token _ _ ltac:(by intros ? ? (_ & _ & _ & ? & _)) Hb).
    + rewrite decide_True by done.
      apply Forall2_app_inv_l in Hb as (l1 & l2 & Hb1 & Hb2 & ->).
      apply Forall2_cons_inv_l in Hb2 as (b & l3 & Hab & Hnil & ->).
      apply Forall2_nil_inv_l in Hnil as ->. exists l1, b. split_and!; [done| |].
      * destruct Hab as (_ & H1 & H2 & H3 & H4 & H5). unfold leased_by in *.
        rewrite H1, H2, H3, H4, H5, Ho, Ht, Hc. done.
      * by eapply beats_finished.
    + rewrite Hst', Hv. by rewrite <- Hst.
  - destruct Hinv as [Hid [_ Hn Hcount Htokens _ Hlog]].
    assert (Hlen : length l' = length l) by (symmetry; by eapply Forall2_length).
    split; [congruence|]. constructor; cbn; try done.
    + rewrite (map_Forall2 closes a_attempt_number _ _ ltac:(by intros ? ? (_ & _ & ? & _)) Hcl).
      by rewrite Hlen.
    + rewrite Hc, Hcount. by rewrite Hlen.
    + by rewrite (map_Forall2 closes a_lease_token _ _ ltac:(by intros ? ? (_ & _ & _ & _ & ? & _)) Hcl).
    + rewrite decide_False by done. by eapply closes_all.
    + rewrite Hv. by eapply (log_step _ _ _ (entry_for (Some (m_state m)) m')).
Qed.

(** ** Databases *)
Record queue_inv (d : JobDb) : Prop := {
  qi_views : forall id, view_inv id (view d id);
}.

Definition moves (md : Mode) (d d' : JobDb) : Prop :=
  forall id, job_move md id (view d id) (view d' id).

Lemma moves_refl b d : moves b d d.
Proof. intros id. apply mv_none. Qed.
Lemma moves_inv b d d' : queue_inv d -> moves b d d' -> queue_inv d'.
Proof. intros [H] Hm. constructor. intros id. by eapply job_move_inv. Qed.

Lemma inv_keyed d id m : queue_inv d -> messages d !! id = Some m -> c_id (m_columns m) = id.
Proof.
  intros [H] Hm. specialize (H id). unfold view_inv, view in H. cbn in H. rewrite Hm in H.
  by destruct H.
Qed.
Lemma inv_job d id m :
  queue_inv d -> messages d !! id = Some m ->
  job_inv m (attempts_of id (attempts d)) (transitions_of id (transitions d)).
Proof.
  intros [H] Hm. specialize (H id). unfold view_inv, view in H. cbn in H. rewrite Hm in H.
  by destruct H.
Qed.

Lemma rows_of_elem d m :
  queue_inv d -> m ∈ rows_of d <-> messages d !! c_id (m_columns m) = Some m.
Proof.
  intros Hinv. unfold rows_of. split.
  - intros ([id m'] & -> & Hin)%list_elem_of_fmap. apply elem_of_map_to_list in Hin. cbn.
    by rewrite (inv_keyed _ _ _ Hinv Hin).
  - intros Hm. apply list_elem_of_fmap. exists (c_id (m_columns m), m).
    split; [done|]. by apply elem_of_map_to_list.
Qed.

Lemma rows_of_ids d : queue_inv d -> NoDup (ids_of (rows_of d)).
Proof.
  intros Hinv. unfold ids_of, rows_of. rewrite map_map.
  rewrite (list_fmap_ext (fun x => c_id (m_columns (snd x))) fst).
  - apply NoDup_fst_map_to_list.
  - intros i [id m] Hl. cbn. eapply inv_keyed; [done|].
    apply elem_of_map_to_list. by eapply list_elem_of_lookup_2.
Qed.

Lemma ids_of_filter_NoDup P `{forall x, Decision (P x)} (l : list JobMessage) :
  NoDup (ids_of l) -> NoDup (ids_of (filter P l)).
Proof.
  unfold ids_of. induction l as [|m l IH]; [done|]. rewrite map_cons.
  intros [Hn Hd]%NoDup_cons. rewrite filter_cons. case_decide; [|by apply IH].
  cbn. apply NoDup_cons. split; [|by apply IH].
  intros (x & Hx & [_ Hin]%list_elem_of_filter)%list_elem_of_fmap.
  apply Hn, list_elem_of_fmap. eauto.
Qed.

Lemma attempt_cases m l log a :
  job_inv m l log -> a ∈ l ->
  finished a \/ (m_state m = "processing" /\ leased_by m a).
Proof.
  intros [_ _ _ _ Hopen _] Ha. case_decide as Hp.
  - destruct Hopen as (l0 & b & -> & Hb & Hf).
    apply elem_of_app in Ha as [Ha| ->%list_elem_of_singleton]; [left|by right].
    rewrite Forall_forall in Hf. by apply Hf.
  - left. rewrite Forall_forall in Hopen. by apply Hopen.
Qed.

(** Closing attempts in bulk closes those of one job when every open one is
    selected. *)
Lemma bulk_closes select code message outcome hb fin l :
  (forall a, a ∈ l -> select a = false -> finished a) ->
  (forall a, a ∈ l -> select a = true -> a_finished_at a = None) ->
  Forall2 closes l (map (rewritten select
    (fun a => close_attempt outcome code message (hb a) fin a)) l).
Proof.
  induction l as [|a l IH]; intros Hf Hs; [constructor|]. cbn [map]. constructor.
  - unfold rewritten. destruct (select a) eqn:Ha.
    + specialize (Hs a ltac:(by left) Ha). split_and!; try done.
      intros [H _]. by rewrite Hs in H.
    + specialize (Hf a ltac:(by left) Ha). by split_and!.
  - apply IH; intros b Hb; [apply Hf|apply Hs]; by right.
Qed.

Lemma bulk_same select set l :
  (forall a, a ∈ l -> select a = false) -> map (rewritten select set) l = l.
Proof.
  induction l as [|a l IH]; intros Hs; [done|]. cbn [map]. unfold rewritten at 1.
  rewrite Hs by (by left). f_equal. apply IH. intros b Hb. apply Hs. by right.
Qed.

Lemma attempts_of_elem id l a : a ∈ attempts_of id l <-> a_job_id a = id /\ a ∈ l.
Proof. unfold attempts_of. by rewrite list_elem_of_filter. Qed.

(** One row leaves [m] for [m'], all its open attempts closed. *)
Lemma stop_move w id d d' m f l' :
  queue_inv d -> messages d !! id = Some m ->
  let m' := stamped (jw_now w) m f in
  enforce_job_message_state (jw_now w) m f = Ok m' -> row_checks m' = true ->
  m_columns f = m_columns m -> m_attempt_count f = m_attempt_count m ->
  m_state f <> "processing" -> m_state f <> m_state m ->
  messages d' !! id = Some m' ->
  transitions_of id (transitions d') = transitions_of id (transitions d) ++ transition_for m m' ->
  attempts_of id (attempts d') = l' -> Forall2 closes (attempts_of id (attempts d)) l' ->
  job_move Quiet id (view d id) (view d' id).
Proof.
  intros Hinv Hm m' He Hk Hcol Hcount Hnp Hne Hm' Hlog Hl Hcl.
  destruct (enforce_ok _ _ _ _ He) as (_ & Hnt & Hrest).
  rewrite decide_False in Hrest by done. destruct Hrest as (Hv & Hval & _).
  destruct (stamped_fields (jw_now w) m f) as (Hc1 & Hs1 & Ha1 & _).
  unfold view. rewrite Hm, Hm', Hlog, Hl. unfold transition_for.
  rewrite decide_False by (unfold m'; by rewrite Hs1).
  apply mv_stop; unfold m'; rewrite ?Hs1, ?Hc1, ?Ha1; done.
Qed.

Lemma same_view d d' id :
  messages d' !! id = messages d !! id ->
  attempts_of id (attempts d') = attempts_of id (attempts d) ->
  transitions_of id (transitions d') = transitions_of id (transitions d) ->
  job_move Quiet id (view d id) (view d' id).
Proof. intros Hm Ha Ht. unfold view. rewrite Hm, Ha, Ht. apply mv_none. Qed.

Lemma active_not_terminal st : is_active st = true -> is_terminal st = false.
Proof.
  unfold is_active, is_terminal. rewrite !orb_true_iff, !bool_decide_eq_true.
  by intros [[-> | ->]| ->].
Qed.

Lemma cancel_rows_moves w ids d d' u :
  queue_inv d -> NoDup ids ->
  (forall id, id ∈ ids -> exists m, messages d !! id = Some m /\ is_active (m_state m) = true) ->
  cancel_rows w ids d = Ok (u, d') ->
  moves Quiet d d' /\ next_seq d' = next_seq d.
Proof.
  intros Hinv Hdup Hact H. unfold cancel_rows in H.
  apply tx_bind_ok in H as (u1 & d1 & Hu & H).
  apply tx_bind_ok in H as (n & d2 & Ha & H). cbv [mret tx_ret] in H. injection H as _ <-.
  apply update_messages_ok in Hu as (Hat & Hsq & Hout & _ & Hin); try done;
    [|intros ? ?; by apply inv_keyed].
  apply update_attempts_ok in Ha as (Hm & Ht & Hs & _ & Hal & _); [|done].
  split; [|congruence]. intros id. destruct (decide (id ∈ ids)) as [Hid|Hid].
  - destruct (Hact id Hid) as (m & Hrow & Hac).
    destruct (Hin id m Hid Hrow) as (He & Hk & Hm' & Hlog).
    eapply stop_move; try done; [|by rewrite Hm|by rewrite Ht|].
    + cbn. intros Heq. rewrite <- Heq in Hac. done.
    + rewrite Hal, Hat. apply bulk_closes.
      * intros a [Hj Hin']%attempts_of_elem Hsel. apply andb_false_iff in Hsel as [Hsel|Hsel].
        { apply bool_decide_eq_false in Hsel. by rewrite Hj in Hsel. }
        destruct (attempt_cases _ _ _ a (inv_job _ _ _ Hinv Hrow)) as [Hf|[_ Hl]]; [|done|].
        { by apply attempts_of_elem. }
        destruct Hl as (_ & _ & _ & Hl & _). by rewrite Hl in Hsel.
      * intros a _ [_ Hsel]%andb_true_iff. by destruct (a_finished_at a).
  - destruct (Hout id Hid) as [Hm' Hlog]. apply same_view; [by rewrite Hm| |by rewrite Ht].
    rewrite Hal, Hat. apply bulk_same. intros a [<- _]%attempts_of_elem.
    by rewrite bool_decide_eq_false_2.
Qed.

(** The rows a statement chooses with ORDER BY and LIMIT. *)
Lemma chosen_elem n R `{forall x y, Decision (R x y)} (P : JobMessage -> Prop)
    `{forall x, Decision (P x)} d m :
  queue_inv d -> m ∈ take n (merge_sort R (filter P (rows_of d))) ->
  messages d !! c_id (m_columns m) = Some m /\ P m.
Proof.
  intros Hinv Hm. apply elem_of_take in Hm as (i & Hl & _).
  apply list_elem_of_lookup_2 in Hl. rewrite merge_sort_Permutation in Hl.
  rewrite list_elem_of_filter in Hl. destruct Hl as [HP Hin].
  split; [by apply rows_of_elem|done].
Qed.

Lemma chosen_nodup n R `{forall x y, Decision (R x y)} (P : JobMessage -> Prop)
    `{forall x, Decision (P x)} d :
  queue_inv d -> NoDup (ids_of (take n (merge_sort R (filter P (rows_of d))))).
Proof.
  intros Hinv. unfold ids_of. rewrite <- firstn_map.
  eapply sublist_NoDup; [|apply sublist_take].
  rewrite (merge_sort_Permutation R). by apply ids_of_filter_NoDup, rows_of_ids.
Qed.

Lemma ids_of_elem l id : id ∈ ids_of l <-> exists m, m ∈ l /\ c_id (m_columns m) = id.
Proof. unfold ids_of. rewrite list_elem_of_fmap. naive_solver. Qed.

Lemma unlease_not_processing w m :
  m_state (recovered_row w m) <> "processing".
Proof. cbn. by destruct (exhausted m). Qed.

Lemma attempt_of_spec m a :
  attempt_of m a = true <->
  a_job_id a = c_id (m_columns m) /\ Some (a_lease_token a) = m_lease_token m /\
  a_finished_at a = None.
Proof.
  unfold attempt_of. rewrite !andb_true_iff, !bool_decide_eq_true.
  destruct (a_finished_at a); naive_solver.
Qed.

Lemma lease_expired_processing w q m :
  lease_expired w q m = true -> m_state m = "processing".
Proof. unfold lease_expired. rewrite !andb_true_iff, !bool_decide_eq_true. tauto. Qed.

Lemma recover_moves w queue limit d d' u :
  queue_inv d -> recoverExpiredJobLeases w queue limit d = Ok (u, d') ->
  moves Quiet d d' /\ next_seq d' = next_seq d.
Proof.
  intros Hinv H. unfold recoverExpiredJobLeases in H.
  apply tx_bind_ok in H as (d0 & d0' & Hg & H). cbv [tx_get] in Hg. injection Hg as <- <-.
  set (expired := take _ _) in H. set (closing := filter _ expired) in H.
  apply tx_bind_ok in H as (n & d1 & Ha & Hu).
  assert (Hexp : forall m, m ∈ expired ->
    messages d !! c_id (m_columns m) = Some m /\ m_state m = "processing").
  { intros m Hm. apply chosen_elem in Hm as (Hm & [He _]); [|done].
    split; [done|by eapply lease_expired_processing]. }
  assert (Hdup : NoDup (ids_of closing)).
  { apply ids_of_filter_NoDup. by apply chosen_nodup. }
  apply update_attempts_ok in Ha as (Hm & Ht & Hs & _ & Hal & _); [|done].
  apply update_messages_ok in Hu as (Hat & Hsq & Hout & _ & Hin); try done;
    [|intros ? ?; rewrite Hm; by apply inv_keyed].
  rewrite Hm, Ht in Hout, Hin.
  split; [|congruence]. intros id. destruct (decide (id ∈ ids_of closing)) as [Hid|Hid].
  - pose proof Hid as (m & Hmc & <-)%ids_of_elem.
    unfold closing in Hmc. rewrite list_elem_of_filter in Hmc. destruct Hmc as [_ Hme].
    destruct (Hexp m Hme) as [Hrow Hp].
    destruct (Hin _ m Hid Hrow) as (He & Hk & Hm' & Hlog).
    eapply stop_move; try done.
    + apply unlease_not_processing.
    + rewrite Hp. apply unlease_not_processing.
    + rewrite Hat, Hal. apply bulk_closes.
      * intros a Hain Hsel.
        destruct (attempt_cases _ _ _ a (inv_job _ _ _ Hinv Hrow) Hain) as [Hf|[_ Hl]]; [done|].
        exfalso. apply not_true_iff_false in Hsel. apply Hsel, existsb_exists. exists m.
        split; [by apply list_elem_of_In|]. apply attempt_of_spec.
        destruct Hl as (_ & -> & _ & -> & _). apply attempts_of_elem in Hain. naive_solver.
      * intros a _ Hsel. apply existsb_exists in Hsel as (m2 & _ & Hsel).
        apply attempt_of_spec in Hsel. tauto.
  - destruct (Hout id Hid) as [Hm' Hlog]. apply same_view; [done| |done].
    rewrite Hat, Hal. apply bulk_same. intros a [Hj Hin']%attempts_of_elem.
    apply not_true_iff_false. intros (m2 & Hm2 & Hsel)%existsb_exists.
    apply Hid, ids_of_elem. exists m2. apply list_elem_of_In in Hm2.
    pose proof Hsel as (Hj2 & _)%attempt_of_spec. split; [|congruence].
    unfold closing. rewrite list_elem_of_filter. split; [|done].
    apply existsb_exists. exists a. split; [by apply list_elem_of_In|done].
Qed.

Lemma moves_weaken md id v v' : job_move Quiet id v v' -> job_move md id v v'.
Proof. by destruct 1; econstructor. Qed.

(** One statement group of the store. *)
Definition moved (d d' : JobDb) : Prop := exists md, moves md d d'.

(** ** Claiming *)
Lemma opened_of_one w r l m :
  NoDup (ids_of l) -> m ∈ l ->
  attempts_of (c_id (m_columns m)) (map (opened_attempt w r) l) = [opened_attempt w r m].
Proof.
  unfold attempts_of, ids_of. induction l as [|x l IH]; [by intros _ ?%elem_of_nil|].
  rewrite !map_cons. intros [Hn Hd]%NoDup_cons Hm. rewrite filter_cons. cbn [opened_attempt a_job_id].
  assert (Hnil : forall id, id ∉ map (fun m => c_id (m_columns m)) l ->
    filter (fun a => a_job_id a = id) (map (opened_attempt w r) l) = []).
  { intros id Hid. apply filter_none. intros a (y & -> & Hy)%list_elem_of_fmap He.
    apply Hid, list_elem_of_fmap. by exists y. }
  apply elem_of_cons in Hm as [->|Hm].
  - rewrite decide_True by done. by rewrite Hnil.
  - rewrite decide_False; [by apply IH|]. intros He. apply Hn, list_elem_of_fmap. by exists m.
Qed.

Lemma opened_of_other w r l id :
  id ∉ ids_of l -> attempts_of id (map (opened_attempt w r) l) = [].
Proof.
  intros Hid. unfold attempts_of. apply filter_none.
  intros a (y & -> & Hy)%list_elem_of_fmap He. apply Hid, ids_of_elem. by exists y.
Qed.

Lemma claimable_queued fu w claim d q m :
  claimable fu w claim d q m = true ->
  c_queue (m_columns m) = q /\ queued_state (m_state m) /\
  authority_admits fu w claim m = true /\ (m_available_at m <= jw_now w)%Z /\
  (m_attempt_count m < c_max_attempts (m_columns m))%Z /\
  existsb (blocks m) (rows_of d) = false.
Proof.
  unfold claimable, queued_state.
  rewrite !andb_true_iff, orb_true_iff, !bool_decide_eq_true, negb_true_iff, Z.leb_le, Z.ltb_lt.
  tauto.
Qed.

Lemma candidates_elem fu w claim d q n m :
  queue_inv d -> m ∈ candidates fu w claim d q n ->
  messages d !! c_id (m_columns m) = Some m /\
  claimable fu w claim d q m = true /\ unlocked w m = true.
Proof. intros Hinv Hm. by apply chosen_elem in Hm as (? & ? & ?). Qed.

Lemma claimJobs_ok fu w claim r d d' es :
  queue_inv d -> claimJobs fu w claim r d = Ok (es, d') ->
  let l := candidates fu w claim d (cr_queue r) (cr_limit r) in
  attempts d' = attempts d ++ map (opened_attempt w r) l /\ next_seq d' = next_seq d /\
  scan_all d' (ids_of l) = Ok es /\
  (forall id, id ∉ ids_of l -> messages d' !! id = messages d !! id /\
     transitions_of id (transitions d') = transitions_of id (transitions d)) /\
  (forall m, m ∈ l ->
     let m' := stamped (jw_now w) m (claimed_row fu w claim r m) in
     enforce_job_message_state (jw_now w) m (claimed_row fu w claim r m) = Ok m' /\
     row_checks m' = true /\ messages d' !! c_id (m_columns m) = Some m' /\
     transitions_of (c_id (m_columns m)) (transitions d') =
       transitions_of (c_id (m_columns m)) (transitions d) ++ transition_for m m') /\
  (forall m b, m ∈ l -> b ∈ attempts_of (c_id (m_columns m)) (attempts d) ->
     a_lease_token b <> jw_token w (c_id (m_columns m))).
Proof.
  intros Hinv H l. unfold claimJobs in H.
  apply tx_bind_ok in H as (d0 & d0' & Hg & H). cbv [tx_get] in Hg. injection Hg as <- <-.
  fold l in H. apply tx_bind_ok in H as (u1 & d1 & Hu & H).
  apply tx_bind_ok in H as (u2 & d2 & Hi & H).
  apply tx_bind_ok in H as (d3 & d3' & Hg & H). cbv [tx_get] in Hg. injection Hg as <- <-.
  unfold tx_lift in H. destruct (scan_all d2 (ids_of l)) as [es'|] eqn:Hes; [|done].
  injection H as <- <-.
  apply update_messages_ok in Hu as (Hat & Hsq & Hout & _ & Hin); try done;
    [|intros ? ?; by apply inv_keyed|by apply chosen_nodup].
  apply insert_attempts_ok in Hi as (Hm & Ht & Hs & Ha & Hfresh).
  rewrite Hat in Ha, Hfresh. rewrite Hm, Ht.
  split_and!; try done; [congruence| |].
  - intros m Hml. destruct (candidates_elem _ _ _ _ _ _ _ Hinv Hml) as (Hrow & _).
    apply Hin; [|done]. apply ids_of_elem. eauto.
  - intros m b Hml Hb. apply list_elem_of_split in Hml as (l1 & l2 & Hsplit).
    destruct (Hfresh (map (opened_attempt w r) l1) (opened_attempt w r m)
      (map (opened_attempt w r) l2)) with (b := b) as [_ Htok].
    + fold l. rewrite Hsplit, map_app. done.
    + apply elem_of_app. left. apply attempts_of_elem in Hb. tauto.
    + intros He. apply Htok. apply attempts_of_elem in Hb as [Hj _]. done.
Qed.

Lemma claimJobs_moves fu w claim r d d' es :
  queue_inv d -> claimJobs fu w claim r d = Ok (es, d') ->
  moves Starting d d' /\ next_seq d' = next_seq d.
Proof.
  intros Hinv H. apply claimJobs_ok in H as (Ha & Hs & _ & Hout & Hin & Htok); [|done].
  split; [|done]. set (l := candidates _ _ _ _ _ _) in *. intros id.
  assert (Hdup : NoDup (ids_of l)) by by apply chosen_nodup.
  assert (Happ : attempts_of id (attempts d') =
    attempts_of id (attempts d) ++ attempts_of id (map (opened_attempt w r) l)).
  { rewrite Ha. unfold attempts_of. by rewrite filter_app. }
  destruct (decide (id ∈ ids_of l)) as [Hid|Hid].
  - apply ids_of_elem in Hid as (m & Hm & <-).
    destruct (candidates_elem _ _ _ _ _ _ _ Hinv Hm) as (Hrow & Hcl & _).
    apply claimable_queued in Hcl as (_ & Hq & _).
    destruct (Hin m Hm) as (He & Hk & Hm' & Hlog).
    rewrite (opened_of_one w r l m Hdup Hm) in Happ.
    destruct (enforce_ok _ _ _ _ He) as (_ & _ & Hrest).
    assert (Hne : "processing" <> m_state m) by (by destruct Hq as [-> | ->]).
    rewrite decide_False in Hrest by done. destruct Hrest as (Hv & _ & _).
    destruct (stamped_fields (jw_now w) m (claimed_row fu w claim r m))
      as (Hc1 & Hs1 & Ha1 & Ho1 & Ht1 & _).
    unfold view. rewrite Hrow, Hm', Hlog, Happ. unfold transition_for.
    rewrite decide_False by (rewrite Hs1; done).
    apply mv_start; rewrite ?Hs1, ?Hc1, ?Ha1; try done.
    intros b Hb. by apply Htok.
  - destruct (Hout id Hid) as [Hm' Hlog]. apply moves_weaken, same_view; [done| |done].
    by rewrite Happ, opened_of_other, app_nil_r.
Qed.

(** ** Heartbeat and finalization *)
Lemma find_live_ok fu w claim ref d d' m :
  find_live fu w claim ref d = Ok (m, d') ->
  d' = d /\ messages d !! lr_job_id ref = Some m /\ live_lease fu w claim ref m = true.
Proof.
  unfold find_live. destruct (messages d !! _) as [m0|]; [|done].
  destruct (live_lease _ _ _ _ m0) eqn:Hl; [|done]. by intros [= <- <-].
Qed.

Lemma holds_lease_spec ref m :
  holds_lease ref m = true <->
  m_state m = "processing" /\ m_lease_owner m = Some (lr_worker_id ref) /\
  m_lease_token m = Some (lr_lease_token ref).
Proof. unfold holds_lease. rewrite !andb_true_iff, !bool_decide_eq_true. tauto. Qed.

Lemma live_lease_holds fu w claim ref m :
  live_lease fu w claim ref m = true ->
  holds_lease ref m = true /\
  exists t, m_lease_expires_at m = Some t /\ (jw_now w < t)%Z.
Proof.
  unfold live_lease. rewrite !andb_true_iff. intros [[Hh He] _]. split; [done|].
  destruct (m_lease_expires_at m) as [t|]; [|done]. exists t. split; [done|].
  by apply Z.ltb_lt.
Qed.

Lemma open_attempt_of_spec ref a :
  open_attempt_of ref a = true <->
  a_job_id a = lr_job_id ref /\ a_worker_id a = lr_worker_id ref /\
  a_lease_token a = lr_lease_token ref /\ a_finished_at a = None.
Proof.
  unfold open_attempt_of. rewrite !andb_true_iff, !bool_decide_eq_true.
  destruct (a_finished_at a); naive_solver.
Qed.

Lemma lockClaim_ok fu w claim d d' u : lockClaim fu w claim d = Ok (u, d') -> d' = d.
Proof.
  unfold lockClaim, lockModuleJobAuthority. destruct (moduleClaimStamp fu claim) as [stamp|].
  - intros H. repeat case_match; by simplify_eq.
  - cbv [mret tx_ret]. by intros [= _ ->].
Qed.

Lemma tx_lift_ok {S E A} (r : result E A) (st st' : S) a :
  tx_lift r st = Ok (a, st') -> r = Ok a /\ st' = st.
Proof. unfold tx_lift. destruct r; by intros [= -> ->]. Qed.

Lemma one_attempt_ok n d d' u : one_attempt n d = Ok (u, d') -> n = 1 /\ d' = d.
Proof.
  unfold one_attempt. case_decide; [|done]. cbv [mret tx_ret]. by intros [= _ ->].
Qed.

(** The open attempt of a live lease is the one the statement updates. *)
Lemma unselected_finished ref m id l log :
  job_inv m l log -> c_id (m_columns m) = id -> lr_job_id ref = id ->
  holds_lease ref m = true -> (forall a, a ∈ l -> a_job_id a = id) ->
  forall a, a ∈ l -> open_attempt_of ref a = false -> finished a.
Proof.
  intros Hj Hc Hid (_ & Ho & Ht)%holds_lease_spec Hjob a Ha Hsel.
  destruct (attempt_cases _ _ _ a Hj Ha) as [|[_ (Ho' & Ht' & _ & Hf & _)]]; [done|].
  exfalso. apply not_true_iff_false in Hsel. apply Hsel, open_attempt_of_spec.
  rewrite (Hjob a Ha), Hid. rewrite Ho in Ho'. rewrite Ht in Ht'. by simplify_eq.
Qed.

Lemma unselected_other ref id (l : list JobAttempt) :
  lr_job_id ref <> id -> (forall a, a ∈ l -> a_job_id a = id) ->
  forall a, a ∈ l -> open_attempt_of ref a = false.
Proof.
  intros Hne Hjob a Ha. apply not_true_iff_false. intros (Hj & _)%open_attempt_of_spec.
  by rewrite (Hjob a Ha) in Hj.
Qed.

Lemma attempts_of_job id l a : a ∈ attempts_of id l -> a_job_id a = id.
Proof. by intros [? _]%attempts_of_elem. Qed.

Lemma heartbeat_moves fu vc w claim ref ext d d' l :
  queue_inv d -> Heartbeat fu vc w claim ref ext d = Ok (l, d') ->
  moves Quiet d d' /\ next_seq d' = next_seq d.
Proof.
  intros Hinv H. unfold Heartbeat in H.
  apply tx_bind_ok in H as (? & d0 & Hv & H). apply tx_lift_ok in Hv as [_ ->].
  apply tx_bind_ok in H as (? & d0 & Hl & H). apply lockClaim_ok in Hl as ->.
  apply tx_bind_ok in H as (m & d0 & Hf & H).
  apply find_live_ok in Hf as (-> & Hrow & Hlive).
  apply live_lease_holds in Hlive as [Hh _].
  apply tx_bind_ok in H as (? & d1 & Hp & H).
  apply put_message_ok in Hp as (He & Hk & Hm1 & Ha1 & Ht1 & Hs1).
  apply tx_bind_ok in H as (n & d2 & Hu & H).
  apply update_attempts_ok in Hu as (Hm2 & Ht2 & Hs2 & _ & Hal & _); [|done].
  apply tx_bind_ok in H as (? & d3 & Ho & H). apply one_attempt_ok in Ho as [_ ->].
  cbv [mret tx_ret] in H. injection H as _ <-.
  pose proof (inv_keyed _ _ _ Hinv Hrow) as Hkey.
  destruct (stamped_fields (jw_now w) m (extended_row w ext m)) as (Hc & Hst & Hc1 & Ho1 & Htk & _).
  destruct (enforce_ok _ _ _ _ He) as (_ & _ & Hrest).
  rewrite decide_True in Hrest by done. destruct Hrest as [Hver _].
  apply holds_lease_spec in Hh as (Hproc & Hown & Htok).
  unfold transition_for in Ht1. rewrite decide_True, app_nil_r in Ht1 by (by rewrite Hst).
  rewrite Hc in Hm1. cbn in Hm1. rewrite Hkey in Hm1.
  split; [|congruence]. intros id. destruct (decide (lr_job_id ref = id)) as [<-|Hne].
  - unfold view. rewrite Hm2, Hm1, lookup_insert_eq, Hrow, Ht2, Ht1, Hal, Ha1.
    apply mv_beat; rewrite ?Hst, ?Hc, ?Hc1, ?Ho1, ?Htk; try done.
    apply Forall2_fmap_r, Forall_Forall2_diag, Forall_forall. intros a _.
    cbn. unfold rewritten. by destruct (open_attempt_of ref a).
  - apply same_view; [by rewrite Hm2, Hm1, lookup_insert_ne| |by rewrite Ht2, Ht1].
    rewrite Hal, Ha1. apply bulk_same.
    apply (unselected_other _ id); [done|]. intros a. apply attempts_of_job.
Qed.

Lemma lockLive_ok fu w claim ref d d' c :
  lockLiveJobLease fu w claim ref d = Ok (c, d') ->
  d' = d /\ exists m, messages d !! lr_job_id ref = Some m /\
    live_lease fu w claim ref m = true /\
    c = (m_attempt_count m, c_max_attempts (m_columns m)).
Proof.
  intros H. unfold lockLiveJobLease in H. apply tx_bind_ok in H as (m & d0 & Hf & H).
  apply find_live_ok in Hf as (-> & Hrow & Hlive). cbv [mret tx_ret] in H.
  injection H as <- <-. eauto.
Qed.

(** What a finalization leaves: the row, and the open attempt closed. *)
Lemma finalizeLocked_ok w ref f d d' u :
  queue_inv d -> finalizeLockedJob w ref f d = Ok (u, d') ->
  exists m st, messages d !! lr_job_id ref = Some m /\ holds_lease ref m = true /\
    DatabaseState (jf_state f) = Ok st /\
    let m' := stamped (jw_now w) m (finalized_row w st f m) in
    enforce_job_message_state (jw_now w) m (finalized_row w st f m) = Ok m' /\
    row_checks m' = true /\
    messages d' = <[lr_job_id ref := m']> (messages d) /\
    transitions d' = transitions d ++ transition_for m m' /\
    attempts d' = map (rewritten (open_attempt_of ref)
      (fun a => close_attempt (jf_outcome f) (failure_code (jf_failure f))
        (failure_message (jf_failure f)) (Z.max (a_heartbeat_at a) (jw_now w)) (jw_now w) a))
      (attempts d) /\
    next_seq d' = next_seq d.
Proof.
  intros Hinv H. unfold finalizeLockedJob in H.
  apply tx_bind_ok in H as (n & d1 & Hu & H).
  apply update_attempts_ok in Hu as (Hm1 & Ht1 & Hs1 & Hal & _); [|done].
  apply tx_bind_ok in H as (? & d2 & Ho & H). apply one_attempt_ok in Ho as [_ ->].
  destruct (DatabaseState (jf_state f)) as [st|]; [|done].
  apply tx_bind_ok in H as (d3 & d3' & Hg & H). cbv [tx_get] in Hg. injection Hg as <- <-.
  rewrite Hm1 in H. destruct (messages d !! lr_job_id ref) as [m|] eqn:Hrow; [|done].
  destruct (holds_lease ref m) eqn:Hh; [|done].
  apply put_message_ok in H as (He & Hk & Hm2 & Ha2 & Ht2 & Hs2).
  destruct (stamped_fields (jw_now w) m (finalized_row w st f m)) as (Hc & _).
  rewrite Hc in Hm2. cbn in Hm2. rewrite (inv_keyed _ _ _ Hinv Hrow), Hm1 in Hm2.
  exists m, st. rewrite Ha2, Ht2, Ht1, Hs2, Hs1. by split_and!.
Qed.

Lemma DatabaseState_final st name :
  DatabaseState st = Ok name -> st = JOB_STATE_SUCCEEDED \/ st = JOB_STATE_DEAD_LETTER \/
    st = JOB_STATE_RETRYING -> name <> "processing".
Proof. intros H [-> |[-> | ->]]; cbn in H; by simplify_eq. Qed.

Lemma finalizeLocked_moves w ref f d d' u :
  queue_inv d -> finalizeLockedJob w ref f d = Ok (u, d') ->
  jf_state f = JOB_STATE_SUCCEEDED \/ jf_state f = JOB_STATE_DEAD_LETTER \/
    jf_state f = JOB_STATE_RETRYING ->
  moves Quiet d d' /\ next_seq d' = next_seq d.
Proof.
  intros Hinv H Hf.
  apply finalizeLocked_ok in H as (m & st & Hrow & Hh & Hst & He & Hk & Hm & Ht & Ha & Hs); [|done].
  split; [|done]. pose proof (DatabaseState_final _ _ Hst Hf) as Hnp.
  pose proof (inv_keyed _ _ _ Hinv Hrow) as Hkey.
  pose proof Hh as (Hproc & _)%holds_lease_spec.
  intros id. destruct (decide (lr_job_id ref = id)) as [<-|Hne].
  - eapply stop_move; try done.
    + cbn. by rewrite Hproc.
    + by rewrite Hm, lookup_insert_eq.
    + rewrite Ht. unfold transitions_of. rewrite filter_app. f_equal. unfold transition_for.
      case_decide; [done|]. rewrite filter_cons, filter_nil, decide_True; [done|]. cbn.
      destruct (stamped_fields (jw_now w) m (finalized_row w st f m)) as (-> & _). done.
    + rewrite Ha, attempts_of_map.
      2:{ intros a. unfold rewritten. by destruct (open_attempt_of ref a). }
      apply bulk_closes.
      * eapply unselected_finished; try done; [by apply inv_job|].
        intros a. apply attempts_of_job.
      * by intros a _ (_ & _ & _ & ?)%open_attempt_of_spec.
  - apply same_view.
    + by rewrite Hm, lookup_insert_ne.
    + rewrite Ha, attempts_of_map.
      2:{ intros a. unfold rewritten. by destruct (open_attempt_of ref a). }
      apply bulk_same, (unselected_other _ id); [done|]. intros a. apply attempts_of_job.
    + rewrite Ht. unfold transitions_of. rewrite filter_app. unfold transition_for.
      case_decide; [by rewrite filter_nil, app_nil_r|].
      rewrite filter_cons, filter_nil, decide_False, app_nil_r; [done|]. cbn.
      destruct (stamped_fields (jw_now w) m (finalized_row w st f m)) as (-> & _). cbn. congruence.
Qed.

Lemma finalize_ok fu w claim ref f d d' u :
  finalize fu w claim ref f d = Ok (u, d') ->
  finalizeLockedJob w ref f d = Ok (u, d') /\
  exists m, messages d !! lr_job_id ref = Some m /\ live_lease fu w claim ref m = true.
Proof.
  unfold finalize. intros H.
  apply tx_bind_ok in H as (? & d0 & Hl & H). apply lockClaim_ok in Hl as ->.
  apply tx_bind_ok in H as (c & d0 & Hl & H). apply lockLive_ok in Hl as (-> & m & ? & ? & _).
  eauto.
Qed.

Lemma retry_ok fu w claim ref failure at_ d d' st :
  finalizeRetry fu w claim ref failure at_ d = Ok (st, d') ->
  exists m u, messages d !! lr_job_id ref = Some m /\ live_lease fu w claim ref m = true /\
    st = (if exhausted m then JOB_STATE_DEAD_LETTER else JOB_STATE_RETRYING) /\
    finalizeLockedJob w ref
      {| jf_state := st; jf_outcome := "retryable_failure"; jf_failure := Some failure;
         jf_execution := None; jf_available := Some at_ |} d = Ok (u, d').
Proof.
  unfold finalizeRetry. intros H.
  apply tx_bind_ok in H as (? & d0 & Hl & H). apply lockClaim_ok in Hl as ->.
  apply tx_bind_ok in H as (c & d0 & Hl & H).
  apply lockLive_ok in Hl as (-> & m & Hrow & Hlive & ->). cbn [fst snd] in H.
  apply tx_bind_ok in H as (u & d1 & Hf & H). cbv [mret tx_ret] in H. injection H as <- <-.
  exists m, u. by split_and!.
Qed.

(** ** Cancellation *)
Lemma cancel_filter_moves w (P : JobMessage -> bool) d d' u :
  queue_inv d -> (forall m, P m = true -> is_active (m_state m) = true) ->
  cancel_rows w (ids_of (filter (fun m => P m = true) (rows_of d))) d = Ok (u, d') ->
  moves Quiet d d' /\ next_seq d' = next_seq d.
Proof.
  intros Hinv HP H. eapply cancel_rows_moves; try done.
  - by apply ids_of_filter_NoDup, rows_of_ids.
  - intros id (m & Hm & <-)%ids_of_elem. rewrite list_elem_of_filter in Hm.
    destruct Hm as [Hp Hin]. exists m. split; [by apply rows_of_elem|by apply HP].
Qed.

Lemma cancelRevoked_moves w q d d' u :
  queue_inv d -> cancelRevokedModuleJobs w q d = Ok (u, d') ->
  moves Quiet d d' /\ next_seq d' = next_seq d.
Proof.
  intros Hinv H. unfold cancelRevokedModuleJobs in H.
  apply tx_bind_ok in H as (d0 & d0' & Hg & H). cbv [tx_get] in Hg. injection Hg as <- <-.
  eapply cancel_filter_moves; [done| |exact H].
  intros m. unfold revoked. rewrite !andb_true_iff. tauto.
Qed.

Lemma cancel_installation_moves w i o d d' u :
  queue_inv d -> cancel_installation_work w i o d = Ok (u, d') ->
  moves Quiet d d' /\ next_seq d' = next_seq d.
Proof.
  intros Hinv H. unfold cancel_installation_work in H.
  apply tx_bind_ok in H as (d0 & d0' & Hg & H). cbv [tx_get] in Hg. injection Hg as <- <-.
  eapply cancel_filter_moves; [done| |exact H].
  intros m. rewrite andb_true_iff. tauto.
Qed.

(** ** Enqueueing *)
Lemma insert_or_find_ok w c av d d' id print ins :
  queue_inv d -> insert_or_find w c av d = Ok ((id, print, ins), d') ->
  if ins then
    messages d !! c_id c = None /\ id = c_id c /\ print = c_request_fingerprint c /\
    (forall m, m ∈ rows_of d -> identity_of (m_columns m) <> identity_of c) /\
    row_checks (new_row w c av) = true /\
    d' = add_transition (entry_for None (new_row w c av))
      (set_messages (<[c_id c := new_row w c av]> (messages d)) (bump_seq d))
  else
    d' = bump_seq d /\
    exists m, messages d !! id = Some m /\ identity_of (m_columns m) = identity_of c /\
      print = c_request_fingerprint (m_columns m).
Proof.
  intros Hinv H. unfold insert_or_find in H.
  apply tx_bind_ok in H as (d0 & d0' & Hg & H). cbv [tx_get] in Hg. injection Hg as <- <-.
  apply tx_bind_ok in H as (? & d1 & Hp & H). cbv [tx_put] in Hp. injection Hp as _ <-.
  destruct (_ || _) eqn:Hx.
  - destruct (filter _ (rows_of d)) as [|m l] eqn:Hf; [done|].
    cbv [mret tx_ret] in H. injection H as <- <- <- <-. split; [done|].
    assert (Hm : m ∈ filter (fun m => same_identity c m = true) (rows_of d)) by (rewrite Hf; by left).
    rewrite list_elem_of_filter in Hm. destruct Hm as [Hs Hin].
    exists m. split; [by apply rows_of_elem|]. split; [|done].
    unfold same_identity in Hs. by apply bool_decide_eq_true in Hs.
  - apply orb_false_iff in Hx as [Hn He].
    apply tx_bind_ok in H as (? & d1 & Hi & H). cbv [mret tx_ret] in H. injection H as <- <- <- <-.
    unfold insert_message in Hi. destruct (row_checks _) eqn:Hk; [|done]. cbn in Hi.
    injection Hi as _ <-. split_and!; try done.
    + by destruct (messages d !! c_id c).
    + intros m Hm Heq. apply not_true_iff_false in He. apply He, existsb_exists.
      exists m. split; [by apply list_elem_of_In|]. unfold same_identity.
      by apply bool_decide_eq_true.
Qed.

Lemma insert_or_find_moves w c av d d' row :
  queue_inv d -> insert_or_find w c av d = Ok (row, d') ->
  moves Inserting d d' /\ next_seq d' = (next_seq d + 1)%Z.
Proof.
  destruct row as [[id print] ins]. intros Hinv H. apply insert_or_find_ok in H; [|done].
  destruct ins.
  - destruct H as (Hn & _ & _ & _ & Hk & ->). split; [|done]. intros i.
    destruct (decide (c_id c = i)) as [<-|Hne].
    + pose proof (qi_views _ Hinv (c_id c)) as Hv. unfold view_inv, view in Hv.
      cbn in Hv. rewrite Hn in Hv. destruct Hv as [Ha Ht].
      unfold view. cbn [messages attempts transitions add_transition set_messages bump_seq].
      rewrite lookup_insert_eq, Hn. unfold transitions_of at 2. rewrite filter_app.
      fold (transitions_of (c_id c) (transitions d)). rewrite Ha, Ht.
      rewrite filter_cons, filter_nil, decide_True by done.
      by apply mv_insert.
    + apply moves_weaken, same_view; cbn; [by rewrite lookup_insert_ne|done|].
      unfold transitions_of. by rewrite filter_app, filter_cons, filter_nil, decide_False, app_nil_r.
  - destruct H as [-> _]. split; [|done]. intros i. apply mv_none.
Qed.


(** The prepared job runs under its producer's authority. *)
Lemma enqueuePrepared_ok w role j d d' resp :
  queue_inv d -> enqueuePreparedJob w role j d = Ok (resp, d') ->
  exists c ins, role_may_enqueue role j = true /\
    c_id c = jw_job_id w /\ c_created_at c = jw_now w /\ c_enqueue_seq c = next_seq d /\
    c_ordering_key c = pj_orderingKey j /\ c_queue c = pj_queue j /\
    c_request_fingerprint c = pj_requestFingerprint j /\
    (c_direction c, c_scope_kind c, c_attributes c) =
      (pj_direction j, pj_scopeKind j, pj_attributes j) /\
    identity_of c = (pj_direction j, pj_scopeKind j, coalesce (pj_organizationID j),
      coalesce (pj_subjectID j), pj_queue j, pj_source j, pj_idempotencyKey j) /\
    snd resp = disposition ins /\
    insert_or_find w c (default (jw_now w) (pj_availableAt j)) d
      = Ok ((fst resp, pj_requestFingerprint j, ins), d').
Proof.
  intros Hinv H. unfold enqueuePreparedJob in H.
  apply tx_bind_ok in H as (? & d1 & Hl & H).
  assert (d1 = d) as ->.
  { case_decide; [cbv [mret tx_ret] in Hl; by injection Hl|].
    unfold lockModuleJobAuthority in Hl. repeat case_match; by simplify_eq. }
  clear Hl. unfold insertPreparedJob in H. apply tx_bind_ok in H as ([[id print] ins] & d2 & He & H).
  cbn [fst snd] in H. case_decide as Hp; [|done]. cbv [mret tx_ret] in H. injection H as <- <-.
  unfold enqueue_job_message in He. destruct (role_may_enqueue role j); [|done]. cbn [negb] in He.
  apply tx_bind_ok in He as (d0 & d0' & Hg & He). cbv [tx_get] in Hg. injection Hg as <- <-.
  eexists _, ins. subst print. split_and!; [done|..|exact He]; done.
Qed.

(** The directions and scopes a row may spell. *)
Definition good_columns (c : JobColumns) : Prop :=
  is_ok (ParseDatabaseDirection (c_direction c)) = true /\
  c_scope_kind c ∈ ["tenant"; "subject"; "global"].

Lemma prepared_good b64 fp vc pu r j :
  prepareJobEnqueue b64 fp vc pu r = Ok j ->
  is_ok (ParseDatabaseDirection (pj_direction j)) = true /\
  pj_scopeKind j ∈ ["tenant"; "subject"; "global"].
Proof.
  unfold prepareJobEnqueue. intros H.
  destruct (EnqueueFingerprint _ _ _); [|done].
  destruct (DatabaseDirection _) as [dir|] eqn:Hd; [|done].
  destruct (enqueueScopeValues _ _) as [[[k o] u]|] eqn:Hs; [|done].
  destruct (CanonicalOrderingKey _ _ _); [|done]. injection H as <-. cbn. split.
  - destruct (job_direction _); try done; injection Hd as <-; by vm_compute.
  - unfold enqueueScopeValues in Hs. repeat case_match; simplify_eq; set_solver.
Qed.

(** ** Every transaction of the store *)
Section Steps.
Context (format_uint : Z -> string).
Context (base64url : string -> string).
Context (fingerprint : string -> Command -> string).
Context (ValidateCommand : Command -> result JobError unit).
Context (parse_uuid : string -> option string).
Abbreviation step := (queue_step format_uint base64url fingerprint ValidateCommand parse_uuid).
Abbreviation reach := (queue_reachable format_uint base64url fingerprint ValidateCommand parse_uuid).

Lemma rtc_moves_inv d d' : queue_inv d -> rtc moved d d' -> queue_inv d'.
Proof.
  intros Hi H. revert Hi. induction H as [|? ? ? [md Hm] _ IH]; [done|].
  intros Hi. apply IH. by eapply moves_inv.
Qed.

Lemma claim_phases w claim r d d' es :
  queue_inv d -> Claim format_uint ValidateCommand w claim r d = Ok (es, d') ->
  exists d1 d2 u1 u2, ValidateCommand (CmdClaim r) = Ok tt /\
    cancelRevokedModuleJobs w (cr_queue r) d = Ok (u1, d1) /\ queue_inv d1 /\
    recoverExpiredJobLeases w (cr_queue r) (cr_limit r) d1 = Ok (u2, d2) /\ queue_inv d2 /\
    claimJobs format_uint w claim r d2 = Ok (es, d') /\ queue_inv d' /\
    moves Quiet d d1 /\ moves Quiet d1 d2 /\ moves Starting d2 d' /\
    next_seq d1 = next_seq d /\ next_seq d2 = next_seq d1 /\ next_seq d' = next_seq d2.
Proof.
  intros Hinv H. unfold Claim in H.
  apply tx_bind_ok in H as ([] & d0 & Hv & H). apply tx_lift_ok in Hv as [Hv ->].
  apply tx_bind_ok in H as (? & d0 & Hl & H). apply lockClaim_ok in Hl as ->.
  apply tx_bind_ok in H as (u1 & d1 & H1 & H). apply tx_bind_ok in H as (u2 & d2 & H2 & H3).
  destruct (cancelRevoked_moves _ _ _ _ _ Hinv H1) as [M1 S1].
  assert (Hi1 : queue_inv d1) by by eapply moves_inv.
  destruct (recover_moves _ _ _ _ _ _ Hi1 H2) as [M2 S2].
  assert (Hi2 : queue_inv d2) by by eapply moves_inv.
  destruct (claimJobs_moves _ _ _ _ _ _ _ Hi2 H3) as [M3 S3].
  assert (Hi3 : queue_inv d') by by eapply moves_inv.
  exists d1, d2, u1, u2. by split_and!.
Qed.

Lemma queue_step_moves d d' : queue_inv d -> step d d' -> rtc moved d d'.
Proof.
  intros Hinv Hs. destruct Hs as [w claim r es d d' H|w claim ref ext l d d' H
    |w claim ref x u d d' H|w claim ref f t st d d' H|w claim ref f u d d' H
    |w role in_tx r resp d d' H|w r resp d d' H|w r resp d d' H|w i o u d d' H].
  - apply claim_phases in H as (d1 & d2 & _ & _ & _ & _ & _ & _ & _ & _ & _ & M1 & M2 & M3 & _);
      [|done].
    eapply rtc_l; [by exists Quiet|]. eapply rtc_l; [by exists Quiet|].
    apply rtc_once. by exists Starting.
  - apply rtc_once. exists Quiet. by eapply heartbeat_moves.
  - unfold Complete in H. apply tx_bind_ok in H as (? & d0 & Hv & H).
    apply tx_lift_ok in Hv as [_ ->]. apply finalize_ok in H as [H _].
    apply rtc_once. exists Quiet. eapply finalizeLocked_moves; [done|exact H|by left].
  - unfold Retry in H. apply tx_bind_ok in H as (? & d0 & Hv & H).
    apply tx_lift_ok in Hv as [_ ->]. apply retry_ok in H as (m & u & _ & _ & -> & H).
    apply rtc_once. exists Quiet. eapply finalizeLocked_moves; [done|exact H|]. cbn.
    destruct (exhausted m); auto.
  - unfold DeadLetter in H. apply tx_bind_ok in H as (? & d0 & Hv & H).
    apply tx_lift_ok in Hv as [_ ->]. apply finalize_ok in H as [H _].
    apply rtc_once. exists Quiet. eapply finalizeLocked_moves; [done|exact H|by right; left].
  - unfold PostgresStore_EnqueueJob in H. apply tx_bind_ok in H as (j & d0 & Hv & H).
    apply tx_lift_ok in Hv as [_ ->]. destruct in_tx; [|done].
    apply enqueuePrepared_ok in H as (c & ins & _ & _ & _ & _ & _ & _ & _ & _ & _ & _ & H);
      [|done].
    apply rtc_once. exists Inserting. by eapply insert_or_find_moves.
  - unfold PostgresJobStore_EnqueueJob in H. apply tx_bind_ok in H as (j & d0 & Hv & H).
    apply tx_lift_ok in Hv as [_ ->].
    apply enqueuePrepared_ok in H as (c & ins & _ & _ & _ & _ & _ & _ & _ & _ & _ & _ & H);
      [|done].
    apply rtc_once. exists Inserting. by eapply insert_or_find_moves.
  - unfold ReplayJob, replayJob in H. apply tx_bind_ok in H as (print & d0 & Hv & H).
    apply tx_lift_ok in Hv as [_ ->]. apply tx_bind_ok in H as (row & d1 & Hr & H).
    assert (d' = d1) as -> by (case_decide; [cbv [mret tx_ret] in H; by injection H|done]).
    unfold replay_job_message in Hr. apply tx_bind_ok in Hr as (d0 & d0' & Hg & Hr).
    cbv [tx_get] in Hg. injection Hg as <- <-.
    destruct (messages d !! _) as [m|]; [|done]. destruct (bool_decide _); [|done].
    cbn [negb] in Hr. apply rtc_once. exists Inserting. by eapply insert_or_find_moves.
  - apply rtc_once. exists Quiet. by eapply cancel_installation_moves.
Qed.

Lemma empty_inv : queue_inv empty_jobs.
Proof. constructor. intros id. unfold view_inv, view. cbn. by rewrite lookup_empty. Qed.

Lemma reachable_queue_inv d : reach d -> queue_inv d.
Proof.
  unfold queue_reachable. intros H. pose proof empty_inv as Hi. revert Hi.
  induction H; intros Hi; [done|]. apply IHrtc. eapply rtc_moves_inv; [done|].
  by apply queue_step_moves.
Qed.
End Steps.
