(* ===== verification/JobQueueTheorems.v ===== *)
(** The properties of the durable job queue: the life of a job, lease fencing,
    FIFO per ordering key, what a claim returns, idempotent enqueueing; and the
    concrete runs that witness them. *)
From S2P Require Import Prelude JobState JobQueue JobQueueProofs.

(** ** The SQL state machine is the Go one *)
Definition spelled (st : string) : JobState :=
  match ParseDatabaseState st with Ok s => s | Err _ => JOB_STATE_UNSPECIFIED end.

Lemma valid_transition_iff from to :
  job_state_transition_is_valid from to = true <->
  exists s t, ParseDatabaseState from = Ok s /\ ParseDatabaseState to = Ok t /\
    ValidateTransition s t = Ok tt.
Proof.
  split.
  - unfold job_state_transition_is_valid. intros H.
    destruct (decide (from = "pending")) as [->|_];
      [|destruct (decide (from = "processing")) as [->|_];
        [|destruct (decide (from = "retrying")) as [->|_]; [|done]]];
      rewrite !orb_true_iff, !bool_decide_eq_true in H; destruct_or? H; subst to;
      eexists _, _; by vm_compute.
  - intros (s & t & Hs & Ht & H).
    assert (Hp : forall x y, ParseDatabaseState x = Ok y -> DatabaseState y = Ok x).
    { intros x y. unfold ParseDatabaseState. intros Hx.
      repeat (case_decide; [by simplify_eq|]). done. }
    apply Hp in Hs, Ht. destruct s; simplify_eq/=; destruct t; simplify_eq/=;
      first [by vm_compute|by vm_compute in H].
Qed.

(** The transition function of the database trigger and [CanTransition] are the
    same state machine: on any two texts, the trigger admits the change exactly
    when both are spellings of job states and [ValidateTransition] admits the
    change between those states. *)
Theorem sql_transitions_are_go_transitions from to :
  job_state_transition_is_valid from to = true <->
  exists s t, ParseDatabaseState from = Ok s /\ ParseDatabaseState to = Ok t /\
    ValidateTransition s t = Ok tt.
Proof. apply valid_transition_iff. Qed.

Section Theorems.
Context (format_uint : Z -> string).
Context (base64url : string -> string).
Context (fingerprint : string -> Command -> string).
Context (ValidateCommand : Command -> result JobError unit).
Context (parse_uuid : string -> option string).
Abbreviation step := (queue_step format_uint base64url fingerprint ValidateCommand parse_uuid).
Abbreviation reach := (queue_reachable format_uint base64url fingerprint ValidateCommand parse_uuid).

Lemma steps_moves d d' : queue_inv d -> rtc step d d' -> rtc moved d d'.
Proof.
  intros Hinv H. revert Hinv. induction H as [|d d1 d2 Hs _ IH]; intros Hinv; [done|].
  pose proof (queue_step_moves _ _ _ _ _ _ _ Hinv Hs) as Hm.
  etrans; [exact Hm|]. apply IH. by eapply rtc_moves_inv.
Qed.

(** *** Rows along a run *)
(** *** Rows along a run *)
Lemma valid_job_step s t :
  job_state_transition_is_valid s t = true -> job_step (spelled s) (spelled t).
Proof. intros (x & y & Hx & Hy & Hv)%valid_transition_iff. unfold spelled. by rewrite Hx, Hy. Qed.

Lemma queued_not_terminal st : queued_state st -> is_terminal st = false.
Proof. by intros [-> | ->]. Qed.

Lemma move_row b id v v' m :
  job_move b id v v' -> v_row v = Some m ->
  exists m', v_row v' = Some m' /\ m_columns m' = m_columns m /\
    rtc job_step (spelled (m_state m)) (spelled (m_state m')) /\
    (is_terminal (m_state m) = true -> v' = v).
Proof.
  intros [| m0 ? ?|m0 m' l a log _ Hq Hst _ _ Hc _ _ _
    |m0 m' l l' log Hst Hst' _ _ Hc _ _ _ _|m0 m' l l' log Hnt _ Hv _ _ Hc _ _] Hr;
    cbn in *; simplify_eq.
  - exists m. by split_and!.
  - exists m'. split_and!; try done.
    + apply rtc_once, valid_job_step. rewrite Hst. by destruct Hq as [-> | ->].
    + by rewrite queued_not_terminal.
  - exists m'. rewrite Hst, Hst'. by split_and!.
  - exists m'. rewrite Hnt. split_and!; try done. by apply rtc_once, valid_job_step.
Qed.

Lemma moves_row d d' id m :
  rtc moved d d' -> messages d !! id = Some m ->
  exists m', messages d' !! id = Some m' /\ m_columns m' = m_columns m /\
    rtc job_step (spelled (m_state m)) (spelled (m_state m')) /\
    (is_terminal (m_state m) = true -> view d' id = view d id).
Proof.
  intros H. revert m. induction H as [|d d1 d2 [md Hm] _ IH]; intros m Hr.
  { exists m. by split_and!. }
  destruct (move_row _ _ _ _ m (Hm id) Hr) as (m1 & Hr1 & Hc1 & Hs1 & Ht1).
  destruct (IH m1 Hr1) as (m2 & Hr2 & Hc2 & Hs2 & Ht2).
  exists m2. split_and!; [done|congruence|by etrans|].
  intros Ht. specialize (Ht1 Ht). rewrite <- Ht1. apply Ht2.
  assert (Some m1 = Some m) as [= ->]; [|done].
  rewrite <- Hr, <- Hr1. change (v_row (view d1 id) = v_row (view d id)). by rewrite Ht1.
Qed.

(** C2. In every database the store can reach, every job tells one consistent
    story: the row satisfies the table's constraints; its attempts are numbered
    one to [attempt_count], at most [max_attempts], one per distinct lease token;
    a processing job has exactly its newest attempt open, under the row's lease,
    and any other job has none open; and the recorded transitions are a path of
    the state machine from the insertion to the row's state and version. *)
Theorem every_job_is_consistent d id m :
  reach d -> messages d !! id = Some m ->
  let l := attempts_of id (attempts d) in
  row_checks m = true /\
  map a_attempt_number l = map Z.of_nat (seq 1 (length l)) /\
  m_attempt_count m = Z.of_nat (length l) /\
  (Z.of_nat (length l) <= c_max_attempts (m_columns m))%Z /\
  NoDup (map a_lease_token l) /\
  (if decide (m_state m = "processing")
   then exists l0 a, l = l0 ++ [a] /\ leased_by m a /\ Forall finished l0
   else Forall finished l) /\
  log_path (transitions_of id (transitions d)) (m_state m) (m_state_version m).
Proof.
  intros Hr Hm l. apply reachable_queue_inv in Hr.
  destruct (inv_job _ _ _ Hr Hm) as [Hk Hn Hc Ht Ho Hl]. split_and!; try done.
  subst l. unfold row_checks, attempts_check in Hk. bool_to_prop. lia.
Qed.

(** Whatever transactions follow, a job keeps its immutable columns and its
    state moves along the state machine; a job that reached a terminal state is
    history: its row, its attempts and its transitions never change again. *)
Theorem job_moves_along_the_state_machine d d' id m :
  reach d -> messages d !! id = Some m -> rtc step d d' ->
  exists m', messages d' !! id = Some m' /\ m_columns m' = m_columns m /\
    rtc job_step (spelled (m_state m)) (spelled (m_state m')) /\
    (is_terminal (m_state m) = true -> view d' id = view d id).
Proof.
  intros Hr Hm Hs. apply reachable_queue_inv in Hr. eapply moves_row; [|done].
  by apply steps_moves.
Qed.

(** *** Fencing *)
Definition spent (id token : string) (l : list JobAttempt) : Prop :=
  exists a, a ∈ l /\ a_lease_token a = token /\ finished a.

Lemma Forall2_elem_l {A B} (R : A -> B -> Prop) l k a :
  Forall2 R l k -> a ∈ l -> exists b, b ∈ k /\ R a b.
Proof.
  intros H [i Hi]%list_elem_of_lookup. destruct (Forall2_lookup_l _ _ _ _ _ H Hi) as (b & Hb & ?).
  exists b. split; [by eapply list_elem_of_lookup_2|done].
Qed.

Lemma move_spent b id v v' tk :
  job_move b id v v' -> spent id tk (v_attempts v) -> spent id tk (v_attempts v').
Proof.
  intros [| m0 ? ?|m0 m' l a log _ _ _ _ _ _ _ _ _|m0 m' l l' log _ _ _ _ _ _ _ _ Hb
    |m0 m' l l' log _ _ _ _ _ _ _ Hc] (x & Hx & Ht & Hf); cbn in *.
  - by exists x.
  - by apply elem_of_nil in Hx.
  - exists x. split; [apply elem_of_app; by left|done].
  - destruct (Forall2_elem_l _ _ _ _ Hb Hx) as (y & Hy & _ & _ & _ & Hty & Hoy & Hfy).
    exists y. unfold finished in *. rewrite Hty, Hoy, Hfy. done.
  - destruct (Forall2_elem_l _ _ _ _ Hc Hx) as (y & Hy & _ & _ & _ & _ & _ & Hsame).
    exists y. by rewrite (Hsame Hf) in *.
Qed.

Lemma move_token b id v v' a :
  job_move b id v v' -> a ∈ v_attempts v ->
  exists a', a' ∈ v_attempts v' /\ a_lease_token a' = a_lease_token a /\
    a_worker_id a' = a_worker_id a.
Proof.
  intros [| m0 ? ?|m0 m' l x log _ _ _ _ _ _ _ _ _|m0 m' l l' log _ _ _ _ _ _ _ _ Hb
    |m0 m' l l' log _ _ _ _ _ _ _ Hc] Ha; cbn in *.
  - by exists a.
  - by apply elem_of_nil in Ha.
  - exists a. split; [apply elem_of_app; by left|done].
  - destruct (Forall2_elem_l _ _ _ _ Hb Ha) as (y & Hy & _ & _ & ? & ? & _). by exists y.
  - destruct (Forall2_elem_l _ _ _ _ Hc Ha) as (y & Hy & _ & _ & _ & ? & ? & _). by exists y.
Qed.

(** A row never again holds a lease whose attempt is finished. *)
Lemma spent_not_held d id m ref :
  queue_inv d -> messages d !! id = Some m ->
  spent id (lr_lease_token ref) (attempts_of id (attempts d)) -> holds_lease ref m = false.
Proof.
  intros Hinv Hm (a & Ha & Ht & Hf). apply not_true_iff_false.
  intros (Hp & _ & Htok)%holds_lease_spec.
  destruct (inv_job _ _ _ Hinv Hm) as [_ _ _ Hnd Ho _]. rewrite decide_True in Ho by done.
  destruct Ho as (l0 & x & Hl & (_ & Htx & _ & Hfx & _) & _). rewrite Hl in Ha, Hnd.
  rewrite Htok in Htx. injection Htx as Htx.
  apply elem_of_app in Ha as [Ha| ->%list_elem_of_singleton].
  - rewrite map_app, NoDup_app in Hnd. destruct Hnd as (_ & Hn & _).
    apply (Hn (a_lease_token a)); [apply list_elem_of_fmap; by exists a|].
    apply list_elem_of_singleton. cbn. congruence.
  - unfold finished in Hf. by rewrite Hfx in Hf; destruct Hf.
Qed.

(** Once a row stops holding a lease, the lease is spent. *)
Lemma released_is_spent d d' id m m' ref :
  queue_inv d -> messages d !! id = Some m -> holds_lease ref m = true ->
  rtc moved d d' -> messages d' !! id = Some m' -> holds_lease ref m' = false ->
  spent id (lr_lease_token ref) (attempts_of id (attempts d')).
Proof.
  intros Hinv Hm (Hp & Ho & Ht)%holds_lease_spec Hs Hm' Hh.
  destruct (inv_job _ _ _ Hinv Hm) as [_ _ _ _ Hopen _]. rewrite decide_True in Hopen by done.
  destruct Hopen as (l0 & a & Hl & (Hoa & Hta & _) & _).
  rewrite Ho in Hoa. rewrite Ht in Hta. injection Hoa as Hoa. injection Hta as Hta.
  assert (Ha' : exists a', a' ∈ attempts_of id (attempts d') /\
    a_lease_token a' = lr_lease_token ref /\ a_worker_id a' = lr_worker_id ref).
  { assert (H0 : exists a', a' ∈ attempts_of id (attempts d) /\
      a_lease_token a' = lr_lease_token ref /\ a_worker_id a' = lr_worker_id ref).
    { exists a. rewrite Hl. split; [apply elem_of_app; right; by left|done]. }
    clear -Hs H0. induction Hs as [|d d1 d2 [md Hmv] _ IH]; [done|]. apply IH.
    destruct H0 as (a & Ha & Hta & Hwa).
    destruct (move_token _ _ _ _ a (Hmv id) Ha) as (a' & Ha' & Ht' & Hw').
    exists a'. by rewrite Ht', Hw'. }
  destruct Ha' as (a' & Ha' & Hta' & Hwa').
  assert (Hinv' : queue_inv d') by by eapply rtc_moves_inv.
  exists a'. split_and!; [done|done|].
  destruct (attempt_cases _ _ _ a' (inv_job _ _ _ Hinv' Hm') Ha') as [|[Hp' (Ho' & Ht' & _)]];
    [done|].
  exfalso. apply not_true_iff_false in Hh. apply Hh, holds_lease_spec.
  rewrite Ho', Ht'. by rewrite Hta', Hwa'.
Qed.

Lemma spent_forever d d' id tk :
  rtc moved d d' -> spent id tk (attempts_of id (attempts d)) ->
  spent id tk (attempts_of id (attempts d')).
Proof.
  induction 1 as [|d d1 d2 [md Hm] _ IH]; [done|]. intros H. apply IH.
  exact (move_spent _ _ _ _ _ (Hm id) H).
Qed.

(** The four calls of a lease holder all fail. *)
Definition fenced_out (ref : JobLeaseReference) (d : JobDb) : Prop :=
  forall w claim,
    (forall ext r, Heartbeat format_uint ValidateCommand w claim ref ext d <> Ok r) /\
    (forall x r, Complete format_uint ValidateCommand w claim ref x d <> Ok r) /\
    (forall f t r, Retry format_uint ValidateCommand w claim ref f t d <> Ok r) /\
    (forall f r, DeadLetter format_uint ValidateCommand w claim ref f d <> Ok r).

Lemma no_live_fenced ref d :
  (forall m, messages d !! lr_job_id ref = Some m -> holds_lease ref m = false) ->
  fenced_out ref d.
Proof.
  intros Hno w claim.
  assert (Hlive : forall m, messages d !! lr_job_id ref = Some m ->
    live_lease format_uint w claim ref m <> true).
  { intros m Hm Hl. apply live_lease_holds in Hl as [Hl _]. by rewrite (Hno m Hm) in Hl. }
  split_and!.
  - intros ext [l d'] H. unfold Heartbeat in H.
    apply tx_bind_ok in H as (? & d0 & Hv & H). apply tx_lift_ok in Hv as [_ ->].
    apply tx_bind_ok in H as (? & d0 & Hl & H). apply lockClaim_ok in Hl as ->.
    apply tx_bind_ok in H as (m & d0 & Hf & H). apply find_live_ok in Hf as (-> & Hm & Hl).
    by eapply Hlive.
  - intros x [u d'] H. unfold Complete in H.
    apply tx_bind_ok in H as (? & d0 & Hv & H). apply tx_lift_ok in Hv as [_ ->].
    apply finalize_ok in H as (_ & m & Hm & Hl). by eapply Hlive.
  - intros f t [st d'] H. unfold Retry in H.
    apply tx_bind_ok in H as (? & d0 & Hv & H). apply tx_lift_ok in Hv as [_ ->].
    apply retry_ok in H as (m & u & Hm & Hl & _). by eapply Hlive.
  - intros f [u d'] H. unfold DeadLetter in H.
    apply tx_bind_ok in H as (? & d0 & Hv & H). apply tx_lift_ok in Hv as [_ ->].
    apply finalize_ok in H as (_ & m & Hm & Hl). by eapply Hlive.
Qed.

(** C3. Leases fence: once a job no longer holds a lease it held, whether it was
    completed, retried, dead-lettered, cancelled or recovered after expiry, and
    whatever happens later (new leases included), no heartbeat and no
    finalization under the old lease ever succeeds again. *)
Theorem old_leases_are_fenced d d1 d2 ref m m1 :
  reach d -> messages d !! lr_job_id ref = Some m -> holds_lease ref m = true ->
  rtc step d d1 -> messages d1 !! lr_job_id ref = Some m1 -> holds_lease ref m1 = false ->
  rtc step d1 d2 -> fenced_out ref d2.
Proof.
  intros Hr Hm Hh Hs1 Hm1 Hh1 Hs2. apply reachable_queue_inv in Hr.
  pose proof (steps_moves _ _ Hr Hs1) as M1.
  assert (Hi1 : queue_inv d1) by by eapply rtc_moves_inv.
  pose proof (steps_moves _ _ Hi1 Hs2) as M2.
  assert (Hi2 : queue_inv d2) by by eapply rtc_moves_inv.
  pose proof (released_is_spent _ _ _ _ _ _ Hr Hm Hh M1 Hm1 Hh1) as Hsp.
  pose proof (spent_forever _ _ _ _ M2 Hsp) as Hsp2.
  apply no_live_fenced. intros m2 Hm2. by eapply spent_not_held.
Qed.
(** *** FIFO per ordering key *)
Inductive step_kind (d d' : JobDb) : Prop :=
| kind_quiet : moves Quiet d d' -> next_seq d' = next_seq d -> step_kind d d'
| kind_claim w claim r d1 d2 es :
    moves Quiet d d1 -> moves Quiet d1 d2 -> queue_inv d1 -> queue_inv d2 ->
    claimJobs format_uint w claim r d2 = Ok (es, d') ->
    next_seq d1 = next_seq d -> next_seq d2 = next_seq d1 -> next_seq d' = next_seq d2 ->
    step_kind d d'
| kind_insert w c av row :
    c_enqueue_seq c = next_seq d -> insert_or_find w c av d = Ok (row, d') ->
    ((forall id m, messages d !! id = Some m -> good_columns (m_columns m)) ->
      good_columns c) ->
    step_kind d d'.

Lemma step_kinds d d' : queue_inv d -> step d d' -> step_kind d d'.
Proof.
  intros Hinv Hs. destruct Hs as [w claim r es d d' H|w claim ref ext l d d' H
    |w claim ref x u d d' H|w claim ref f t st d d' H|w claim ref f u d d' H
    |w role in_tx r resp d d' H|w r resp d d' H|w r resp d d' H|w i o u d d' H].
  - apply claim_phases in H as (d1 & d2 & u1 & u2 & _ & H1 & Hi1 & H2 & Hi2 & H3 & _
      & M1 & M2 & _ & S1 & S2 & S3); [|done].
    by eapply kind_claim.
  - apply heartbeat_moves in H as [? ?]; [|done]. by apply kind_quiet.
  - unfold Complete in H. apply tx_bind_ok in H as (? & d0 & Hv & H).
    apply tx_lift_ok in Hv as [_ ->]. apply finalize_ok in H as [H _].
    apply finalizeLocked_moves in H as [? ?]; [by apply kind_quiet|done|by left].
  - unfold Retry in H. apply tx_bind_ok in H as (? & d0 & Hv & H).
    apply tx_lift_ok in Hv as [_ ->]. apply retry_ok in H as (m & u & _ & _ & -> & H).
    apply finalizeLocked_moves in H as [? ?]; [by apply kind_quiet|done|].
    cbn. destruct (exhausted m); auto.
  - unfold DeadLetter in H. apply tx_bind_ok in H as (? & d0 & Hv & H).
    apply tx_lift_ok in Hv as [_ ->]. apply finalize_ok in H as [H _].
    apply finalizeLocked_moves in H as [? ?]; [by apply kind_quiet|done|by right; left].
  - unfold PostgresStore_EnqueueJob in H. apply tx_bind_ok in H as (j & d0 & Hv & H).
    apply tx_lift_ok in Hv as [Hv ->]. destruct in_tx; [|done].
    apply enqueuePrepared_ok in H as (c & ins & _ & _ & _ & Hsq & _ & _ & _ & Hc & _ & _ & H);
      [|done].
    eapply kind_insert; [done|exact H|]. intros _. injection Hc as Hd Hk _.
    apply prepared_good in Hv. unfold good_columns. by rewrite Hd, Hk.
  - unfold PostgresJobStore_EnqueueJob in H. apply tx_bind_ok in H as (j & d0 & Hv & H).
    apply tx_lift_ok in Hv as [Hv ->].
    apply enqueuePrepared_ok in H as (c & ins & _ & _ & _ & Hsq & _ & _ & _ & Hc & _ & _ & H);
      [|done].
    eapply kind_insert; [done|exact H|]. intros _. injection Hc as Hd Hk _.
    apply prepared_good in Hv. unfold good_columns. by rewrite Hd, Hk.
  - unfold ReplayJob, replayJob in H. apply tx_bind_ok in H as (print & d0 & Hv & H).
    apply tx_lift_ok in Hv as [_ ->]. apply tx_bind_ok in H as (row & d1 & Hr & H).
    assert (d' = d1) as -> by (case_decide; [cbv [mret tx_ret] in H; by injection H|done]).
    unfold replay_job_message in Hr. apply tx_bind_ok in Hr as (d0 & d0' & Hg & Hr).
    cbv [tx_get] in Hg. injection Hg as <- <-.
    destruct (messages d !! _) as [m|] eqn:Hm; [|done]. destruct (bool_decide _); [|done].
    cbn [negb] in Hr. eapply kind_insert; [|exact Hr|]; [done|]. intros Hg.
    exact (Hg _ _ Hm).
  - apply cancel_installation_moves in H as [? ?]; [|done]. by apply kind_quiet.
Qed.

Lemma kept_row md id v v' m' :
  md <> Inserting -> job_move md id v v' -> v_row v' = Some m' ->
  exists m, v_row v = Some m /\ m_columns m' = m_columns m /\
    (is_active (m_state m') = true -> is_active (m_state m) = true) /\
    (md = Quiet -> m_state m' = "processing" -> m_state m = "processing").
Proof.
  intros Hmd [| m0 ? ?|m0 m1 l a log Hst0 Hq Hst _ _ Hc _ _ _
    |m0 m1 l l' log Hst Hst' _ _ Hc _ _ _ _|m0 m1 l l' log Hnt Hnp Hv _ _ Hc _ _] Hr;
    cbn in *; simplify_eq.
  - exists m'. by split_and!.
  - exists m0. split_and!; try done. intros _. by destruct Hq as [-> | ->].
  - exists m0. split_and!; try done. intros _. by rewrite Hst.
  - exists m0. split_and!; try done. intros _. unfold job_state_transition_is_valid in Hv.
    repeat case_decide; try done; by subst; match goal with H : m_state m0 = _ |- _ => rewrite H end.
Qed.

Lemma kept_rows md d d' id m' :
  md <> Inserting -> moves md d d' -> messages d' !! id = Some m' ->
  exists m, messages d !! id = Some m /\ m_columns m' = m_columns m /\
    (is_active (m_state m') = true -> is_active (m_state m) = true) /\
    (md = Quiet -> m_state m' = "processing" -> m_state m = "processing").
Proof. intros Hmd Hm Hr. exact (kept_row md id _ _ m' Hmd (Hm id) Hr). Qed.

Definition seq_inv (d : JobDb) : Prop :=
  (forall id m, messages d !! id = Some m -> (c_enqueue_seq (m_columns m) < next_seq d)%Z) /\
  (forall i j m n, messages d !! i = Some m -> messages d !! j = Some n ->
    c_enqueue_seq (m_columns m) = c_enqueue_seq (m_columns n) -> i = j) /\
  (forall i j m n, messages d !! i = Some m -> messages d !! j = Some n ->
    identity_of (m_columns m) = identity_of (m_columns n) -> i = j) /\
  (forall id m, messages d !! id = Some m -> good_columns (m_columns m)).

Lemma seq_inv_kept md d d' :
  md <> Inserting -> moves md d d' -> next_seq d' = next_seq d -> seq_inv d -> seq_inv d'.
Proof.
  intros Hmd Hm Hs (Hlt & Hinj & Hidn & Hgood). split_and!.
  - intros id m' Hm'. destruct (kept_rows _ _ _ _ _ Hmd Hm Hm') as (m & Hr & -> & _).
    rewrite Hs. by eapply Hlt.
  - intros i j m' n' Hi Hj. destruct (kept_rows _ _ _ _ _ Hmd Hm Hi) as (m & Hr & -> & _).
    destruct (kept_rows _ _ _ _ _ Hmd Hm Hj) as (n & Hr' & -> & _). by apply Hinj.
  - intros i j m' n' Hi Hj. destruct (kept_rows _ _ _ _ _ Hmd Hm Hi) as (m & Hr & -> & _).
    destruct (kept_rows _ _ _ _ _ Hmd Hm Hj) as (n & Hr' & -> & _). by apply Hidn.
  - intros id m' Hm'. destruct (kept_rows _ _ _ _ _ Hmd Hm Hm') as (m & Hr & -> & _).
    by eapply Hgood.
Qed.

Lemma seq_inv_insert w c av row d d' :
  queue_inv d -> good_columns c -> c_enqueue_seq c = next_seq d -> insert_or_find w c av d = Ok (row, d') ->
  seq_inv d -> seq_inv d'.
Proof.
  destruct row as [[id print] ins]. intros Hinv Hcols Hc H (Hlt & Hinj & Hidn & Hgood).
  apply insert_or_find_ok in H; [|done]. destruct ins.
  - destruct H as (Hn & _ & _ & Hnew & _ & ->). split_and!; cbn.
    + intros i m. destruct (decide (c_id c = i)) as [<-|Hne].
      * rewrite lookup_insert_eq. intros [= <-]. cbn. lia.
      * rewrite lookup_insert_ne by done. intros Hm. specialize (Hlt _ _ Hm). lia.
    + intros i j m n Hi Hj. rewrite lookup_insert_Some in Hi, Hj.
      destruct Hi as [[<- <-]|[Hni Hi]], Hj as [[<- <-]|[Hnj Hj]]; try done; cbn; intros He.
      * specialize (Hlt _ _ Hj). lia.
      * specialize (Hlt _ _ Hi). lia.
      * by eapply Hinj.
    + intros i j m n Hi Hj. rewrite lookup_insert_Some in Hi, Hj.
      destruct Hi as [[<- <-]|[Hni Hi]], Hj as [[<- <-]|[Hnj Hj]]; try done; cbn; intros He.
      * exfalso. apply (Hnew n); [|done]. apply rows_of_elem; [done|].
        by rewrite (inv_keyed _ _ _ Hinv Hj).
      * exfalso. apply (Hnew m); [|done]. apply rows_of_elem; [done|].
        by rewrite (inv_keyed _ _ _ Hinv Hi).
      * by eapply Hidn.
    + intros i m Hi. rewrite lookup_insert_Some in Hi.
      destruct Hi as [[<- <-]|[Hni Hi]]; [done|by eapply Hgood].
  - destruct H as [-> _]. split_and!; cbn; [|done..]. intros i m Hm.
    specialize (Hlt _ _ Hm). lia.
Qed.

Lemma step_seq_inv d d' : queue_inv d -> seq_inv d -> step d d' -> seq_inv d'.
Proof.
  intros Hinv Hs Hst. destruct (step_kinds _ _ Hinv Hst)
    as [Hm Hn|w claim r d1 d2 es M1 M2 Hi1 Hi2 H3 Hn1 Hn2 Hn3|w c av row Hc H Hg].
  - by eapply (seq_inv_kept Quiet).
  - pose proof (claimJobs_moves _ _ _ _ _ _ _ Hi2 H3) as [M3 _].
    eapply (seq_inv_kept Starting); [done|exact M3|done|].
    eapply (seq_inv_kept Quiet); [done|exact M2|done|].
    by eapply (seq_inv_kept Quiet).
  - eapply seq_inv_insert; [done|apply Hg, Hs|done..|exact Hs].
Qed.

(** [m] and [n] are in the same ordering group. *)
Definition same_group (m n : JobMessage) : Prop :=
  c_queue (m_columns m) = c_queue (m_columns n) /\
  exists k, c_ordering_key (m_columns m) = Some k /\ c_ordering_key (m_columns n) = Some k.

(** A processing job of a group came before every other unfinished one. *)
Definition fifo (d : JobDb) : Prop :=
  forall i j m n, messages d !! i = Some m -> messages d !! j = Some n -> i <> j ->
    same_group m n -> m_state m = "processing" -> is_active (m_state n) = true ->
    enqueued_before (m_columns m) (m_columns n) = true.

(** A row [d'] has and [d] has not was created no earlier than the rows of its
    group that were visible: the transaction that enqueued it did not start
    before them. *)
Definition in_order (d d' : JobDb) : Prop :=
  forall i n, messages d' !! i = Some n -> messages d !! i = None ->
    forall j m, messages d !! j = Some m -> same_group m n ->
      (c_created_at (m_columns m) <= c_created_at (m_columns n))%Z.

Lemma same_group_columns m n m' n' :
  m_columns m' = m_columns m -> m_columns n' = m_columns n ->
  same_group m' n' -> same_group m n.
Proof. unfold same_group. by intros -> ->. Qed.

Lemma fifo_quiet d d' : moves Quiet d d' -> fifo d -> fifo d'.
Proof.
  intros Hm Hf i j m' n' Hi Hj Hne Hg Hp Ha.
  destruct (kept_rows Quiet _ _ _ _ ltac:(done) Hm Hi) as (m & Ri & Ci & _ & Pi).
  destruct (kept_rows Quiet _ _ _ _ ltac:(done) Hm Hj) as (n & Rj & Cj & Aj & _).
  rewrite Ci, Cj. eapply Hf; eauto. by eapply same_group_columns.
Qed.

Lemma enqueued_total c1 c2 :
  c_enqueue_seq c1 <> c_enqueue_seq c2 ->
  enqueued_before c1 c2 = false -> enqueued_before c2 c1 = true.
Proof.
  unfold enqueued_before. intros Hs Hb.
  apply orb_false_iff in Hb as [H1 H2]. apply Z.ltb_ge in H1.
  destruct (Z.ltb_spec (c_created_at c2) (c_created_at c1)); [done|]. cbn.
  replace (c_created_at c1) with (c_created_at c2) in * by lia.
  rewrite Z.eqb_refl in *. cbn in *. apply Z.ltb_ge in H2. apply Z.ltb_lt. lia.
Qed.

Lemma fifo_claim w claim r d d' es :
  queue_inv d -> seq_inv d -> claimJobs format_uint w claim r d = Ok (es, d') ->
  fifo d -> fifo d'.
Proof.
  intros Hinv (_ & Hinj & _) H Hf. pose proof (claimJobs_moves _ _ _ _ _ _ _ Hinv H) as [Hm _].
  apply claimJobs_ok in H as (_ & _ & _ & Hout & Hin & _); [|done].
  set (l := candidates _ _ _ _ _ _) in *.
  intros i j m' n' Hi Hj Hne Hg Hp Ha.
  destruct (kept_rows Starting _ _ _ _ ltac:(done) Hm Hi) as (m & Ri & Ci & _ & _).
  destruct (kept_rows Starting _ _ _ _ ltac:(done) Hm Hj) as (n & Rj & Cj & Aj & _).
  specialize (Aj Ha). apply (same_group_columns m n) in Hg; [|done..]. rewrite Ci, Cj.
  destruct (decide (i ∈ ids_of l)) as [(x & Hx & Hxi)%ids_of_elem|Hnot].
  - destruct (candidates_elem _ _ _ _ _ _ _ Hinv Hx) as (Rx & Hcl & _).
    rewrite Hxi, Ri in Rx. injection Rx as <-.
    apply claimable_queued in Hcl as (_ & _ & _ & _ & _ & Hblk).
    destruct (enqueued_before (m_columns n) (m_columns m)) eqn:He.
    + exfalso. apply not_true_iff_false in Hblk. apply Hblk, existsb_exists. exists n.
      split; [apply list_elem_of_In, rows_of_elem; [done|]; by rewrite (inv_keyed _ _ _ Hinv Rj)|].
      destruct Hg as (Hq & k & Hk & Hk'). unfold blocks.
      rewrite Hk, Hk', Aj, He, Hq. by rewrite !bool_decide_eq_true_2.
    + apply enqueued_total; [|done]. intros Heq. by apply Hne, (Hinj i j m n).
  - destruct (Hout i Hnot) as [Hsame _]. rewrite Hsame, Ri in Hi. injection Hi as <-.
    by eapply Hf.
Qed.

Lemma fifo_insert w c av row d d' :
  queue_inv d -> seq_inv d -> c_enqueue_seq c = next_seq d ->
  insert_or_find w c av d = Ok (row, d') -> in_order d d' -> fifo d -> fifo d'.
Proof.
  destruct row as [[id print] ins]. intros Hinv (Hlt & _) Hc H Ho Hf.
  apply insert_or_find_ok in H; [|done]. destruct ins; [|by destruct H as [-> _]].
  destruct H as (Hn & _ & _ & _ & _ & ->). intros i j m n Hi Hj Hne Hg Hp Ha.
  cbn in Hi, Hj. pose proof Hi as Hi'. pose proof Hj as Hj'.
  rewrite lookup_insert_Some in Hi, Hj.
  destruct Hi as [[<- <-]|[Hni Hi]]; [done|].
  destruct Hj as [[<- <-]|[Hnj Hj]]; [|by eapply Hf].
  specialize (Ho _ _ Hj' Hn _ _ Hi Hg). specialize (Hlt _ _ Hi).
  unfold enqueued_before. cbn in *. apply orb_true_iff.
  destruct (Z.ltb_spec (c_created_at (m_columns m)) (c_created_at c)); [by left|right].
  apply andb_true_iff. rewrite Z.eqb_eq, Z.ltb_lt. lia.
Qed.

Definition ordered_run : JobDb -> JobDb -> Prop :=
  rtc (fun d d' => step d d' /\ in_order d d').

(** C5. When no producer's transaction started before a job of its ordering group
    that is already visible, the queue is FIFO and exclusive per ordering key: in
    every reachable database a processing job came before every other unfinished
    job of its group, so at most one job of a group is processing. *)
Theorem ordering_keys_are_fifo d i j m n :
  ordered_run empty_jobs d -> messages d !! i = Some m -> messages d !! j = Some n ->
  i <> j -> same_group m n -> m_state m = "processing" ->
  is_active (m_state n) = true ->
  enqueued_before (m_columns m) (m_columns n) = true /\ m_state n <> "processing".
Proof.
  intros Hrun Hi Hj Hne Hg Hp Ha.
  assert (Hall : queue_inv d /\ seq_inv d /\ fifo d).
  { assert (H0 : queue_inv empty_jobs /\ seq_inv empty_jobs /\ fifo empty_jobs).
    { split; [apply empty_inv|]. split.
      - split_and!; cbn; intros ? ?; rewrite ?lookup_empty; done.
      - intros ? ? ? ?. cbn. by rewrite lookup_empty. }
    revert H0. clear -Hrun. induction Hrun as [|d0 d1 d2 [Hs Ho] _ IH]; [done|].
    intros (Hi & Hsq & Hf). apply IH. split_and!.
    - eapply rtc_moves_inv, queue_step_moves; [exact Hi| |exact Hs]; exact Hi.
    - by eapply step_seq_inv.
    - destruct (step_kinds _ _ Hi Hs)
        as [Hm Hn|w claim r da db es M1 M2 Hi1 Hi2 H3 S1 S2 S3|w c av row Hc H _].
      + by eapply fifo_quiet.
      + eapply fifo_claim; [exact Hi2| |exact H3|].
        * eapply (seq_inv_kept Quiet); [done|exact M2|done|].
          by eapply (seq_inv_kept Quiet).
        * eapply fifo_quiet, fifo_quiet; eauto.
      + by eapply fifo_insert. }
  destruct Hall as (Hinv & Hsq & Hf). pose proof (Hf _ _ _ _ Hi Hj Hne Hg Hp Ha) as Hb.
  split; [done|]. intros Hp'. assert (Hg' : same_group n m).
  { destruct Hg as (? & k & ? & ?). split; [done|]. by exists k. }
  assert (Ha' : is_active (m_state m) = true) by by rewrite Hp.
  pose proof (Hf _ _ _ _ Hj Hi ltac:(done) Hg' Hp' Ha') as Hb'.
  unfold enqueued_before in Hb, Hb'. rewrite orb_true_iff, andb_true_iff in Hb, Hb'.
  rewrite ?Z.ltb_lt, ?Z.eqb_eq in Hb, Hb'. lia.
Qed.

(** *** What a claim returns *)
Definition limit_of (r : ClaimJobsRequest) : nat := Z.to_nat (cr_limit r).

Lemma scan_all_ok d ids es :
  (forall id, id ∈ ids -> is_Some (messages d !! id)) -> scan_all d ids = Ok es ->
  Forall2 (fun id e => exists m, messages d !! id = Some m /\ scanJobEnvelope m = Ok e) ids es.
Proof.
  revert es. induction ids as [|id ids IH]; intros es Hall H; cbn in H.
  { injection H as <-. constructor. }
  destruct (Hall id ltac:(by left)) as [m Hm]. rewrite Hm in H.
  destruct (scanJobEnvelope m) as [e|] eqn:He; [|done].
  destruct (scan_all d ids) as [es'|]; [|done]. injection H as <-.
  constructor; [by exists m|]. apply IH; [|done]. intros i Hi. apply Hall. by right.
Qed.

Lemma scanned m e :
  scanJobEnvelope m = Ok e ->
  e_id e = c_id (m_columns m) /\ ParseDatabaseState (m_state m) = Ok (e_state e) /\
  e_attempt_count e = wrapu32 (m_attempt_count m) /\
  (coalesce (m_lease_owner m) <> "" ->
    e_lease e = Some {| l_owner := coalesce (m_lease_owner m);
      l_token := coalesce (m_lease_token m); l_expires_at := m_lease_expires_at m;
      l_heartbeat_at := m_heartbeat_at m |}).
Proof.
  unfold scanJobEnvelope. intros H.
  destruct (ParseDatabaseDirection _); [|done]. destruct (ParseDatabaseState _); [|done].
  destruct (databaseJobScope _ _ _); [|done]. injection H as <-. cbn.
  split_and!; try done. intros Hne. by rewrite decide_False.
Qed.

Lemma stamped_heartbeat t old new : m_heartbeat_at (stamped t old new) = m_heartbeat_at new.
Proof. unfold stamped, enforce_job_message_state. repeat case_match; try done; by simplify_eq. Qed.

(** A claim first cancels revoked work and recovers expired leases; of the
    database that leaves, it returns at most [limit] jobs, in claim order
    (priority, availability, age), each of them claimable and not locked by another
    transaction, now processing under a lease in the worker's name that expires
    after the requested duration, its attempt count raised by one; and it leaves
    out a claimable unlocked job only when it returns [limit] jobs that all come
    before it. *)
Theorem claim_returns_the_first w claim r d es d' :
  reach d -> cr_worker_id r <> "" ->
  Claim format_uint ValidateCommand w claim r d = Ok (es, d') ->
  exists d1 d2 u1 u2 l,
    cancelRevokedModuleJobs w (cr_queue r) d = Ok (u1, d1) /\
    recoverExpiredJobLeases w (cr_queue r) (cr_limit r) d1 = Ok (u2, d2) /\
    map e_id es = ids_of l /\ length l <= limit_of r /\ Sorted claim_order l /\
    (forall m, m ∈ l -> messages d2 !! c_id (m_columns m) = Some m /\
      claimable format_uint w claim d2 (cr_queue r) m = true /\ unlocked w m = true) /\
    (forall id m, messages d2 !! id = Some m ->
      claimable format_uint w claim d2 (cr_queue r) m = true -> unlocked w m = true ->
      m ∉ l -> length l = limit_of r /\ forall x, x ∈ l -> claim_order x m) /\
    Forall2 (fun m e => e_state e = JOB_STATE_PROCESSING /\
      e_attempt_count e = wrapu32 (m_attempt_count m + 1) /\
      e_lease e = Some {| l_owner := cr_worker_id r; l_token := jw_token w (e_id e);
        l_expires_at := Some (jw_now w + cr_lease_duration r)%Z;
        l_heartbeat_at := Some (jw_now w) |}) l es.
Proof.
  intros Hr Hw H. apply reachable_queue_inv in Hr.
  apply claim_phases in H as (d1 & d2 & u1 & u2 & _ & H1 & Hi1 & H2 & Hi2 & H3 & _); [|done].
  exists d1, d2, u1, u2, (candidates format_uint w claim d2 (cr_queue r) (cr_limit r)).
  apply claimJobs_ok in H3 as (_ & _ & Hes & _ & Hin & _); [|done].
  set (l := candidates _ _ _ _ _ _) in *.
  assert (Hscan : Forall2 (fun m e => exists m', messages d' !! c_id (m_columns m) = Some m' /\
    scanJobEnvelope m' = Ok e) l es).
  { apply scan_all_ok in Hes.
    - unfold ids_of in Hes. by apply Forall2_fmap_l in Hes.
    - intros id (m & Hm & <-)%ids_of_elem. destruct (Hin m Hm) as (_ & _ & -> & _). by eexists. }
  assert (Hboth : Forall2 (fun m e => e_id e = c_id (m_columns m) /\
      e_state e = JOB_STATE_PROCESSING /\
      e_attempt_count e = wrapu32 (m_attempt_count m + 1) /\
      e_lease e = Some {| l_owner := cr_worker_id r; l_token := jw_token w (e_id e);
        l_expires_at := Some (jw_now w + cr_lease_duration r)%Z;
        l_heartbeat_at := Some (jw_now w) |}) l es).
  { eapply Forall2_impl_in_l; [exact Hscan|]. intros m e Hm (m' & Hm' & He).
    destruct (Hin m Hm) as (_ & _ & Hrow & _). rewrite Hrow in Hm'. injection Hm' as <-.
    destruct (stamped_fields (jw_now w) m (claimed_row format_uint w claim r m))
      as (Hc & Hst & Ha & Ho & Ht & Hx & _).
    apply scanned in He as (Hid & Hs & Hcount & Hl).
    rewrite Hst in Hs. cbn in Hs. rewrite Ha in Hcount. rewrite Hc in Hid.
    rewrite Ho, Ht, Hx, stamped_heartbeat in Hl. cbn in *.
    split_and!; [done|by injection Hs|done|]. rewrite Hid. by apply Hl. }
  split_and!; try done.
  - clear -Hboth. unfold ids_of. induction Hboth as [|m e l es (He & _) _ IH]; [done|]. cbn.
    by rewrite He, IH.
  - unfold l, candidates, limit_of. rewrite length_take. lia.
  - unfold l, candidates. apply sorted_take, Sorted_merge_sort.
    intros ? ?; apply lex_le_total.
  - intros m Hm. by eapply candidates_elem.
  - intros id m Hm Hcl Hun Hnot. unfold l, candidates in *.
    apply take_sorted_rest; [intros ? ? ?; apply lex_le_trans| | |done].
    { apply Sorted_merge_sort. intros ? ?. apply lex_le_total. }
    rewrite merge_sort_Permutation, list_elem_of_filter. split; [done|].
    apply rows_of_elem; [done|]. by rewrite (inv_keyed _ _ _ Hi2 Hm).
  - eapply Forall2_impl; [exact Hboth|]. by intros m e (_ & ?).
Qed.

(** *** Idempotent enqueueing *)
Definition prepared := prepareJobEnqueue base64url fingerprint ValidateCommand parse_uuid.
Definition prepared_identity (j : preparedJobEnqueue) :=
  (pj_direction j, pj_scopeKind j, coalesce (pj_organizationID j),
    coalesce (pj_subjectID j), pj_queue j, pj_source j, pj_idempotencyKey j).

Lemma seq_inv_reachable d : reach d -> queue_inv d /\ seq_inv d.
Proof.
  unfold queue_reachable. intros H.
  assert (H0 : queue_inv empty_jobs /\ seq_inv empty_jobs).
  { split; [apply empty_inv|]. split_and!; cbn; intros ? ?; rewrite ?lookup_empty; done. }
  revert H0. induction H as [|d0 d1 d2 Hs _ IH]; [done|]. intros [Hi Hq]. apply IH. split.
  - eapply rtc_moves_inv, queue_step_moves; [exact Hi| |exact Hs]; exact Hi.
  - by eapply step_seq_inv.
Qed.

(** The row an accepted enqueue is answered with. *)
Lemma enqueued_row w role j d d' id disp :
  queue_inv d -> enqueuePreparedJob w role j d = Ok ((id, disp), d') ->
  exists m, messages d' !! id = Some m /\ identity_of (m_columns m) = prepared_identity j /\
    c_request_fingerprint (m_columns m) = pj_requestFingerprint j /\
    (disp = DISPOSITION_DUPLICATE -> d' = bump_seq d).
Proof.
  intros Hinv H. apply enqueuePrepared_ok in H
    as (c & ins & _ & Hc & _ & _ & _ & _ & Hp & _ & Hid & Hdisp & H); [|done].
  cbn in Hdisp, H. apply insert_or_find_ok in H; [|done]. destruct ins.
  - destruct H as (_ & -> & _ & _ & _ & ->). cbn. exists (new_row w c (default (jw_now w) (pj_availableAt j))).
    rewrite lookup_insert_eq. subst disp. by split_and!.
  - destruct H as [-> (m & Hm & Hi & Hf)]. exists m. split_and!; [done|by rewrite Hi|done|done].
Qed.

(** Enqueueing is idempotent and refuses reuse: after a request is accepted
    as job [id], whatever happens to the queue since, an accepted repetition of
    the request answers [id] as a duplicate and changes no row, attempt or
    transition; and a request with the same idempotency identity but another
    fingerprint is never accepted. *)
Theorem enqueue_is_idempotent w r id disp d d1 d2 w' r' out d3 j j' :
  reach d -> prepared r = Ok j -> prepared r' = Ok j' ->
  PostgresJobStore_EnqueueJob base64url fingerprint ValidateCommand parse_uuid w r d
    = Ok ((id, disp), d1) ->
  rtc step d1 d2 -> prepared_identity j' = prepared_identity j ->
  PostgresJobStore_EnqueueJob base64url fingerprint ValidateCommand parse_uuid w' r' d2
    = Ok (out, d3) ->
  pj_requestFingerprint j' = pj_requestFingerprint j /\
  out = (id, DISPOSITION_DUPLICATE) /\ messages d3 = messages d2 /\
  attempts d3 = attempts d2 /\ transitions d3 = transitions d2.
Proof.
  intros Hr Hj Hj' H1 Hs Hident H2.
  assert (Hr1 : reach d1).
  { eapply rtc_r; [exact Hr|]. by eapply q_enqueue_worker. }
  assert (Hr2 : reach d2) by (unfold queue_reachable in *; by etrans).
  destruct (seq_inv_reachable _ Hr) as [Hinv _].
  destruct (seq_inv_reachable _ Hr1) as [Hinv1 _].
  destruct (seq_inv_reachable _ Hr2) as [Hinv2 (_ & _ & Huniq & _)].
  unfold PostgresJobStore_EnqueueJob in H1, H2.
  apply tx_bind_ok in H1 as (k & d0 & Hk & H1). apply tx_lift_ok in Hk as [Hk ->].
  unfold prepared in Hj, Hj'. rewrite Hj in Hk. injection Hk as <-.
  apply tx_bind_ok in H2 as (k & d0 & Hk & H2). apply tx_lift_ok in Hk as [Hk ->].
  rewrite Hj' in Hk. injection Hk as <-.
  apply enqueued_row in H1 as (m & Hm & Hid & Hfp & _); [|done].
  destruct (moves_row _ _ _ _ (steps_moves _ _ Hinv1 Hs) Hm) as (m2 & Hm2 & Hc2 & _).
  apply enqueuePrepared_ok in H2
    as (c & ins & _ & Hc & _ & _ & _ & _ & Hp & _ & Hci & Hdisp & H); [|done].
  destruct out as [oid odisp]. cbn in Hdisp, H. apply insert_or_find_ok in H; [|done].
  destruct ins.
  - destruct H as (_ & _ & _ & Hnew & _). exfalso. apply (Hnew m2).
    + apply rows_of_elem; [done|]. by rewrite (inv_keyed _ _ _ Hinv2 Hm2).
    + rewrite Hc2, Hid, Hci. done.
  - destruct H as [-> (n & Hn & Hi & Hf)].
    assert (oid = id) as ->.
    { apply (Huniq _ _ _ _ Hn Hm2). rewrite Hi, Hc2, Hid, Hci. done. }
    rewrite Hm2 in Hn. injection Hn as <-. rewrite Hc2 in Hf. subst odisp.
    split_and!; try done; congruence.
Qed.

(** *** Finalization *)
(** C34. A retry spends one attempt of the budget: it succeeds only for the holder
    of the job's live lease, and leaves the job retrying, available again at the
    requested time, while attempts remain, and dead-lettered when the budget is
    spent; either way the failure is recorded, the lease is cleared, and exactly
    the lease's attempt is closed with the failure. *)
Theorem retry_respects_the_budget w claim ref f at_ d st d' :
  reach d -> Retry format_uint ValidateCommand w claim ref f at_ d = Ok (st, d') ->
  exists m m', messages d !! lr_job_id ref = Some m /\
    live_lease format_uint w claim ref m = true /\
    messages d' !! lr_job_id ref = Some m' /\
    m_last_error_code m' = Some (f_code f) /\ m_lease_token m' = None /\
    (if exhausted m
     then st = JOB_STATE_DEAD_LETTER /\ m_state m' = "dead_letter"
     else st = JOB_STATE_RETRYING /\ m_state m' = "retrying" /\ m_available_at m' = at_ /\
          (m_attempt_count m' < c_max_attempts (m_columns m'))%Z) /\
    exists l0 a a', attempts_of (lr_job_id ref) (attempts d) = l0 ++ [a] /\
      attempts_of (lr_job_id ref) (attempts d') = l0 ++ [a'] /\
      a_lease_token a' = lr_lease_token ref /\
      a_outcome a' = Some "retryable_failure" /\ a_error_code a' = Some (f_code f).
Proof.
  intros Hr H. apply reachable_queue_inv in Hr.
  unfold Retry in H. apply tx_bind_ok in H as (? & d0 & Hv & H).
  apply tx_lift_ok in Hv as [_ ->]. apply retry_ok in H as (m & u & Hm & Hl & -> & H).
  apply finalizeLocked_ok in H as (m0 & name & Hm0 & Hh & Hst & He & Hk & Hms & _ & Hat & _);
    [|done].
  rewrite Hm in Hm0. injection Hm0 as <-.
  set (f0 := Build_jobFinalization _ _ _ _ _) in *.
  destruct (stamped_fields (jw_now w) m (finalized_row w name f0 m))
    as (Hc & Hs & Hac & Ho & Ht & Hx & _ & Hav).
  assert (Hcode : m_last_error_code (stamped (jw_now w) m (finalized_row w name f0 m)) =
    Some (f_code f)).
  { unfold stamped, enforce_job_message_state. repeat case_match; try done; by simplify_eq. }
  exists m, (stamped (jw_now w) m (finalized_row w name f0 m)).
  split_and!; [done|done|by rewrite Hms, lookup_insert_eq|done|by rewrite Ht|..].
  - rewrite Hs, Hav, Hac, Hc. unfold exhausted in *. cbn in Hst |- *.
    destruct (Z.leb_spec (c_max_attempts (m_columns m)) (m_attempt_count m));
      cbn in Hst; injection Hst as <-; by split_and!.
  - destruct (inv_job _ _ _ Hr Hm) as [_ _ _ _ Hopen _].
    pose proof Hh as (Hp & Howner & Htok)%holds_lease_spec. rewrite decide_True in Hopen by done.
    destruct Hopen as (l0 & a & Hla & (Hoa & Hta & _ & Hfa & _) & Hfin).
    rewrite Hat, attempts_of_map.
    2:{ intros b. unfold rewritten. by destruct (open_attempt_of ref b). }
    assert (Hja : a_job_id a = lr_job_id ref).
    { apply (attempts_of_job _ (attempts d)). rewrite Hla. apply elem_of_app. right. by left. }
    rewrite Hla, map_app. rewrite (bulk_same _ _ l0).
    2:{ intros b Hb. apply not_true_iff_false. intros (_ & _ & _ & Hf)%open_attempt_of_spec.
        rewrite Forall_forall in Hfin. destruct (Hfin b Hb) as [Hf' _]. by rewrite Hf in Hf'. }
    exists l0, a. eexists. split; [done|]. split; [done|].
    unfold rewritten. replace (open_attempt_of ref a) with true.
    2:{ symmetry. apply open_attempt_of_spec. rewrite Howner in Hoa. rewrite Htok in Hta.
        by simplify_eq. }
    cbn. split_and!; try done. rewrite Htok in Hta. by injection Hta.
Qed.
End Theorems.

(** ** Concrete runs *)
Module QueueRun.
Definition fmt (_ : Z) : string := "1".
Definition b64 (s : string) : string := s.
(** Thirty-two octets, as a SHA-256 has. *)
Definition print (domain : string) (c : Command) : string :=
  String.substring 0 32 (match c with CmdEnqueue r => job_payload (er_job r) +:+ domain | _ => domain end
    +:+ "................................").
Definition valid (_ : Command) : result JobError unit := Ok tt.
Definition uuid (s : string) : option string := Some s.

Definition world (t : Z) (fresh : string) : JobWorld :=
  {| jw_now := t; jw_clock := t; jw_token := fun id => "t-" +:+ fresh +:+ id;
     jw_attempt_id := fun id => "a-" +:+ fresh +:+ id; jw_job_id := "job-" +:+ fresh;
     jw_locked := ∅; jw_module_current := fun _ => true;
     jw_step_current := fun _ _ => true; jw_held := None |}.
Definition job (key payload : string) : EnqueueJobRequest :=
  {| er_job :=
    {| job_direction := JOB_DIRECTION_INBOX; job_scope := JobScope_Global;
       job_queue := "q"; job_topic := "t"; job_source := "s"; job_idempotency_key := key;
       job_ordering := Some {| key_namespace := "n"; key_components := ["k"] |};
       job_schema_version := 1; job_payload := payload; job_content_type := "text";
       job_attributes := ∅; job_priority := 0; job_max_attempts := 2;
       job_available_at := None |} |}.
Definition claim_req : ClaimJobsRequest :=
  {| cr_queue := "q"; cr_worker_id := "w"; cr_limit := 10; cr_lease_duration := 100 |}.
Definition lease (fresh jobid : string) : JobLeaseReference :=
  {| lr_job_id := jobid; lr_worker_id := "w"; lr_lease_token := "t-" +:+ fresh +:+ jobid |}.
Definition failure : JobFailure := {| f_code := "boom"; f_message := "" |}.

Definition enq (t : Z) (fresh key payload : string) :=
  PostgresJobStore_EnqueueJob b64 print valid uuid (world t fresh) (job key payload).
Definition claim (t : Z) (fresh : string) := Claim fmt valid (world t fresh) None claim_req.
Definition retry (t : Z) (fresh jobid : string) :=
  Retry fmt valid (world t "") None (lease fresh jobid) failure (t + 5)%Z.
Definition complete (t : Z) (fresh jobid : string) :=
  Complete fmt valid (world t "") None (lease fresh jobid) None.

Definition after {A} (m : tx JobDb JobError A) (d : JobDb) : JobDb :=
  match m d with Ok (_, d') => d' | Err _ => d end.
Lemma committed_ok {A} (m : tx JobDb JobError A) d :
  is_ok (m d) = true -> exists a, m d = Ok (a, after m d).
Proof. unfold after. destruct (m d) as [[a d']|]; [eauto|done]. Qed.

Abbreviation qstep := (queue_step fmt b64 print valid uuid).
Abbreviation qreach := (queue_reachable fmt b64 print valid uuid).
Lemma enq_step t fresh key payload d :
  is_ok (enq t fresh key payload d) = true -> qstep d (after (enq t fresh key payload) d).
Proof. intros [a Ha]%committed_ok. eapply q_enqueue_worker, Ha. Qed.
Lemma claim_step t fresh d :
  is_ok (claim t fresh d) = true -> qstep d (after (claim t fresh) d).
Proof. intros [a Ha]%committed_ok. eapply q_claim, Ha. Qed.
Lemma retry_step t fresh i d :
  is_ok (retry t fresh i d) = true -> qstep d (after (retry t fresh i) d).
Proof. intros [a Ha]%committed_ok. eapply q_retry, Ha. Qed.

(** Two jobs of one ordering group: the first is claimed, fails, and is claimed
    again while the second waits. *)
Definition d1 := after (enq 1 "A" "ka" "x") empty_jobs.
Definition d2 := after (enq 2 "B" "kb" "y") d1.
Definition d3 := after (claim 3 "c") d2.
Definition d4 := after (retry 4 "c" "job-A") d3.
Definition d5 := after (claim 10 "d") d4.
Definition row (d : JobDb) (id : string) : JobMessage :=
  default (new_row (world 0 "") {| c_id := ""; c_direction := ""; c_scope_kind := "";
    c_organization_id := None; c_subject_id := None; c_queue := ""; c_topic := "";
    c_source := ""; c_idempotency_key := ""; c_request_fingerprint := "";
    c_ordering_key := None; c_schema_version := 0; c_payload := ""; c_content_type := "";
    c_attributes := ∅; c_priority := 0; c_max_attempts := 1; c_replay_of := None;
    c_created_at := 0; c_enqueue_seq := 0 |} 0) (messages d !! id).

Lemma step1 : qstep empty_jobs d1.
Proof. apply enq_step. by vm_compute. Qed.
Lemma step2 : qstep d1 d2.
Proof. apply enq_step. by vm_compute. Qed.
Lemma step3 : qstep d2 d3.
Proof. apply claim_step. by vm_compute. Qed.
Lemma step4 : qstep d3 d4.
Proof. apply retry_step. by vm_compute. Qed.
Lemma step5 : qstep d4 d5.
Proof. apply claim_step. by vm_compute. Qed.
Lemma reach2 : qreach d2.
Proof. eapply rtc_l; [exact step1|]. apply rtc_once, step2. Qed.
Lemma reach3 : qreach d3.
Proof. eapply rtc_r; [exact reach2|exact step3]. Qed.
Lemma reach4 : qreach d4.
Proof. eapply rtc_r; [exact reach3|exact step4]. Qed.
Lemma reach5 : qreach d5.
Proof. eapply rtc_r; [exact reach4|exact step5]. Qed.

(** [in_order], checked row by row. *)
Definition same_group_b (m n : JobMessage) : bool :=
  bool_decide (c_queue (m_columns m) = c_queue (m_columns n)) &&
  match c_ordering_key (m_columns m) with
  | Some k => bool_decide (c_ordering_key (m_columns n) = Some k)
  | None => false
  end.
Definition in_order_b (d d' : JobDb) : bool :=
  forallb (fun x => match messages d !! fst x with
    | Some _ => true
    | None => forallb (fun y => negb (same_group_b (snd y) (snd x))
        || (c_created_at (m_columns (snd y)) <=? c_created_at (m_columns (snd x)))%Z)
        (map_to_list (messages d))
    end) (map_to_list (messages d')).
Lemma in_order_check d d' : in_order_b d d' = true -> in_order d d'.
Proof.
  unfold in_order_b. rewrite forallb_forall. intros H i n Hi Hn j m Hj Hg.
  specialize (H (i, n) ltac:(by apply list_elem_of_In, elem_of_map_to_list)).
  cbn in H. rewrite Hn, forallb_forall in H.
  specialize (H (j, m) ltac:(by apply list_elem_of_In, elem_of_map_to_list)).
  cbn in H. apply orb_true_iff in H as [H|H]; [|by apply Z.leb_le].
  apply negb_true_iff in H. unfold same_group_b in H.
  destruct Hg as (Hq & k & Hk & Hk'). rewrite Hk, Hk', Hq in H.
  by rewrite !bool_decide_eq_true_2 in H.
Qed.
Lemma ordered3 : ordered_run fmt b64 print valid uuid empty_jobs d3.
Proof.
  eapply rtc_l; [split; [exact step1|apply in_order_check; vm_compute; reflexivity]|].
  eapply rtc_l; [split; [exact step2|apply in_order_check; vm_compute; reflexivity]|].
  apply rtc_once. split; [exact step3|apply in_order_check; vm_compute; reflexivity].
Qed.
Lemma found d id :
  is_some (messages d !! id) = true -> messages d !! id = Some (row d id).
Proof. unfold row. by destruct (messages d !! id). Qed.
Lemma found_d3_A : messages d3 !! "job-A" = Some (row d3 "job-A").
Proof. apply found. vm_compute. reflexivity. Qed.
Lemma found_d3_B : messages d3 !! "job-B" = Some (row d3 "job-B").
Proof. apply found. vm_compute. reflexivity. Qed.
Lemma found_d4_A : messages d4 !! "job-A" = Some (row d4 "job-A").
Proof. apply found. vm_compute. reflexivity. Qed.
Lemma found_d5_A : messages d5 !! "job-A" = Some (row d5 "job-A").
Proof. apply found. vm_compute. reflexivity. Qed.

(** A producer whose transaction started first and commits last. *)
Definition late := after (enq 1 "B" "kb" "y") (after (claim 3 "c")
  (after (enq 2 "A" "ka" "x") empty_jobs)).
Definition broken := after (claim 4 "d") late.
Lemma reach_broken : qreach broken.
Proof.
  eapply rtc_l; [apply (enq_step 2 "A" "ka" "x"); vm_compute; reflexivity|].
  eapply rtc_l; [apply (claim_step 3 "c"); vm_compute; reflexivity|].
  eapply rtc_l; [apply (enq_step 1 "B" "kb" "y"); vm_compute; reflexivity|].
  apply rtc_once. apply (claim_step 4 "d"). vm_compute. reflexivity.
Qed.
End QueueRun.

(** Without that condition the promise fails: [created_at] is the time the
    producer's transaction started, so a producer that starts first and commits
    after a later job of the group was claimed puts its job in front of it, and the
    next claim leases it too: two jobs of one ordering group are processing at
    once. *)
Theorem late_producer_breaks_exclusion :
  exists d m n, queue_reachable QueueRun.fmt QueueRun.b64 QueueRun.print QueueRun.valid
      QueueRun.uuid d /\
    messages d !! "job-A" = Some m /\ messages d !! "job-B" = Some n /\
    same_group m n /\ m_state m = "processing" /\ m_state n = "processing".
Proof.
  exists QueueRun.broken, (QueueRun.row QueueRun.broken "job-A"),
    (QueueRun.row QueueRun.broken "job-B").
  split; [exact QueueRun.reach_broken|].
  split; [by vm_compute|]. split; [by vm_compute|].
  split; [split; [by vm_compute|exists "n:k"; by vm_compute]|by vm_compute].
Qed.

Lemma every_job_is_consistent_witness :
  m_state (QueueRun.row QueueRun.d5 "job-A") = "processing" /\
  m_attempt_count (QueueRun.row QueueRun.d5 "job-A") =
    Z.of_nat (length (attempts_of "job-A" (attempts QueueRun.d5))).
Proof.
  split; [vm_compute; reflexivity|].
  destruct (every_job_is_consistent _ _ _ _ _ _ _ _ QueueRun.reach5 QueueRun.found_d5_A)
    as (_ & _ & H & _).
  exact H.
Defined.

Lemma job_moves_along_the_state_machine_witness :
  exists m', messages QueueRun.d4 !! "job-A" = Some m' /\
    rtc job_step JOB_STATE_PROCESSING (spelled (m_state m')).
Proof.
  destruct (job_moves_along_the_state_machine _ _ _ _ _ QueueRun.d3 QueueRun.d4 "job-A"
    (QueueRun.row QueueRun.d3 "job-A") QueueRun.reach3
    QueueRun.found_d3_A (rtc_once _ _ QueueRun.step4))
    as (m' & Hm & _ & Hs & _).
  exists m'. split; [exact Hm|].
  replace (spelled (m_state (QueueRun.row QueueRun.d3 "job-A"))) with JOB_STATE_PROCESSING in Hs
    by (vm_compute; reflexivity).
  exact Hs.
Defined.

Lemma old_leases_are_fenced_witness :
  fenced_out QueueRun.fmt QueueRun.valid (QueueRun.lease "c" "job-A") QueueRun.d5.
Proof.
  apply (old_leases_are_fenced QueueRun.fmt QueueRun.b64 QueueRun.print QueueRun.valid
    QueueRun.uuid QueueRun.d3 QueueRun.d4 QueueRun.d5 (QueueRun.lease "c" "job-A")
    (QueueRun.row QueueRun.d3 "job-A") (QueueRun.row QueueRun.d4 "job-A")).
  - exact QueueRun.reach3.
  - exact QueueRun.found_d3_A.
  - vm_compute. reflexivity.
  - exact (rtc_once _ _ QueueRun.step4).
  - exact QueueRun.found_d4_A.
  - vm_compute. reflexivity.
  - exact (rtc_once _ _ QueueRun.step5).
Defined.

Lemma ordering_keys_are_fifo_witness :
  m_state (QueueRun.row QueueRun.d3 "job-A") = "processing" /\
  m_state (QueueRun.row QueueRun.d3 "job-B") <> "processing".
Proof.
  split; [vm_compute; reflexivity|].
  apply (ordering_keys_are_fifo QueueRun.fmt QueueRun.b64 QueueRun.print QueueRun.valid
    QueueRun.uuid QueueRun.d3 "job-A" "job-B" (QueueRun.row QueueRun.d3 "job-A")
    (QueueRun.row QueueRun.d3 "job-B") QueueRun.ordered3
    QueueRun.found_d3_A QueueRun.found_d3_B).
  - discriminate.
  - split; [vm_compute; reflexivity|]. exists "n:k". split; vm_compute; reflexivity.
  - vm_compute. reflexivity.
  - vm_compute. reflexivity.
Defined.

Lemma claim_returns_the_first_witness :
  exists es l, QueueRun.claim 3 "c" QueueRun.d2 = Ok (es, QueueRun.d3) /\
    map e_id es = ids_of l /\ length l <= 10.
Proof.
  destruct (QueueRun.committed_ok (QueueRun.claim 3 "c") QueueRun.d2) as [es Hes];
    [vm_compute; reflexivity|].
  destruct (claim_returns_the_first QueueRun.fmt QueueRun.b64 QueueRun.print QueueRun.valid
    QueueRun.uuid (QueueRun.world 3 "c") None QueueRun.claim_req QueueRun.d2 es QueueRun.d3
    QueueRun.reach2 ltac:(discriminate) Hes) as (? & ? & ? & ? & l & _ & _ & H1 & H2 & _).
  exists es, l. split; [exact Hes|]. split; [exact H1|exact H2].
Defined.

Lemma enqueue_is_idempotent_witness :
  exists out d3, QueueRun.enq 7 "Z" "ka" "x" QueueRun.d1 = Ok (out, d3) /\
    out = ("job-A", DISPOSITION_DUPLICATE).
Proof.
  destruct (QueueRun.committed_ok (QueueRun.enq 7 "Z" "ka" "x") QueueRun.d1) as [out Hout];
    [vm_compute; reflexivity|].
  exists out, (QueueRun.after (QueueRun.enq 7 "Z" "ka" "x") QueueRun.d1). split; [exact Hout|].
  assert (H1 : QueueRun.enq 1 "A" "ka" "x" empty_jobs =
    Ok (("job-A", DISPOSITION_INSERTED), QueueRun.d1)) by (vm_compute; reflexivity).
  eapply (enqueue_is_idempotent QueueRun.fmt QueueRun.b64 QueueRun.print QueueRun.valid
    QueueRun.uuid (QueueRun.world 1 "A") (QueueRun.job "ka" "x") "job-A" DISPOSITION_INSERTED
    empty_jobs QueueRun.d1 QueueRun.d1 (QueueRun.world 7 "Z") (QueueRun.job "ka" "x") out _
    _ _ (rtc_refl _ _) eq_refl eq_refl H1 (rtc_refl _ _) eq_refl Hout).
Defined.

Lemma retry_respects_the_budget_witness :
  exists st m', QueueRun.retry 4 "c" "job-A" QueueRun.d3 = Ok (st, QueueRun.d4) /\
    messages QueueRun.d4 !! "job-A" = Some m' /\ m_last_error_code m' = Some "boom".
Proof.
  destruct (QueueRun.committed_ok (QueueRun.retry 4 "c" "job-A") QueueRun.d3) as [st Hst];
    [vm_compute; reflexivity|].
  destruct (retry_respects_the_budget QueueRun.fmt QueueRun.b64 QueueRun.print QueueRun.valid
    QueueRun.uuid (QueueRun.world 4 "") None (QueueRun.lease "c" "job-A") QueueRun.failure 9%Z
    QueueRun.d3 st QueueRun.d4 QueueRun.reach3 Hst) as (m & m' & _ & _ & Hm & Hc & _).
  exists st, m'. split; [exact Hst|]. split; [exact Hm|exact Hc].
Defined.
