(* ===== verification/JobWorker.v ===== *)
(** The polling worker: accounts/code/pkg/jobs/worker.go.

    The worker is a client of the store interface [Store] (jobs/store.go), which
    the queue of JobQueue.v implements.  Each claimed job runs as a goroutine of
    its own: [proc_step] is one of its atomic steps (a heartbeat transaction, the
    handler's return, the concluding transaction), and a run of the worker is any
    interleaving of the steps of its jobs with transactions of other parties on
    the same store. *)
From S2P Require Import Prelude JobState JobQueue.

(** ** The store interface (jobs/store.go) *)
Class Store (S : Type) : Type := {
  Store_Claim : JobWorld -> ClaimJobsRequest -> tx S JobError (list JobEnvelope);
  Store_Heartbeat : JobWorld -> JobLeaseReference -> duration -> tx S JobError JobLease;
  Store_Complete :
    JobWorld -> JobLeaseReference -> option JobExecutionReference -> tx S JobError unit;
  Store_Retry :
    JobWorld -> JobLeaseReference -> JobFailure -> instant -> tx S JobError JobState;
  Store_DeadLetter : JobWorld -> JobLeaseReference -> JobFailure -> tx S JobError unit;
}.

Definition PostgresJobStore (format_uint : Z -> string)
    (ValidateCommand : Command -> result JobError unit) (claim : option ModuleAuthority)
    : Store JobDb := {|
  Store_Claim w := Claim format_uint ValidateCommand w claim;
  Store_Heartbeat w := Heartbeat format_uint ValidateCommand w claim;
  Store_Complete w := Complete format_uint ValidateCommand w claim;
  Store_Retry w := Retry format_uint ValidateCommand w claim;
  Store_DeadLetter w := DeadLetter format_uint ValidateCommand w claim;
|}.

(** ** Handlers and their failures *)
Record ProcessingError : Type := {
  pe_Failure : option JobFailure;
  pe_Retryable : bool;
  pe_NotBefore : instant;
}.

Definition ProcessingError_Error (e : option ProcessingError) : string :=
  match e with
  | Some e => match pe_Failure e with Some f => f_code f | None => "job processing failed" end
  | None => "job processing failed"
  end.

(** What a handler's error is to [errors.As(err, &processingErr)]. *)
Inductive HandlerError : Type :=
| processing_error (e : ProcessingError)
| arbitrary_error (text : string)
| panic_error (value stack : string).

Inductive HandlerOutcome : Type :=
| HandlerReturned (err : option HandlerError)
| HandlerPanicked (value stack : string).

(** [invokeHandler]: the error and whether it comes from a recovered panic. *)
Definition invokeHandler (out : HandlerOutcome) : option HandlerError * bool :=
  match out with
  | HandlerReturned err => (err, false)
  | HandlerPanicked value stack => (Some (panic_error value stack), true)
  end.

(** The log fields [handlerCause] adds. *)
Definition handlerCause (e : HandlerError) : list (string * string) :=
  match e with
  | panic_error value stack => [("panic_value", value); ("panic_stack", stack)]
  | processing_error p => [("error", ProcessingError_Error (Some p))]
  | arbitrary_error text => [("error", text)]
  end.

(** [defaultRetryDelay], on a uint32 attempt number. *)
Definition defaultRetryDelay (attempt : Z) : duration :=
  let attempt := if (attempt =? 0)%Z then 1%Z else attempt in
  let shift := wrapu32 (attempt - 1) in
  let shift := if (8 <? shift)%Z then 8%Z else shift in
  wrap64 (5 * second * Z.shiftl 1 shift).

(** ** Configuration *)
Record WorkerConfig : Type := {
  wc_Store : bool;                 (* config.Store != nil *)
  wc_Queue : string;
  wc_Handler : bool;               (* config.Handler != nil *)
  wc_WorkerID : string;
  wc_PollInterval : duration;
  wc_LeaseDuration : duration;
  wc_HeartbeatInterval : duration;
  wc_BatchSize : Z;
  wc_RetryDelay : option (Z -> duration);
  wc_UnsafeLogHandlerCause : bool;
}.

Section Worker.
Context (ValidateCommand : Command -> result JobError unit).

Definition NewProcessingError (code message : string) (retryable : bool)
    : result JobError ProcessingError :=
  let failure := {| f_code := code; f_message := message |} in
  match ValidateCommand (CmdFailure failure) with
  | Err _ => Err (ErrInvalidCommand "invalid processing failure")
  | Ok _ => Ok {| pe_Failure := Some failure; pe_Retryable := retryable;
                  pe_NotBefore := zero_time |}
  end.

(** [NewWorker], with the generated worker id and whether the instruments of the
    meter could be created. *)
Definition NewWorker (generated_id : string) (telemetry_ok : bool) (config : WorkerConfig)
    : result JobError WorkerConfig :=
  if negb (wc_Store config) then Err (ErrJobs "jobs: worker store is required")
  else if negb (wc_Handler config) then Err (ErrJobs "jobs: worker handler is required")
  else if decide (wc_Queue config = "") then Err (ErrJobs "jobs: worker queue is required")
  else
    let id := if decide (wc_WorkerID config = "") then generated_id else wc_WorkerID config in
    let poll := if (wc_PollInterval config <=? 0)%Z then second else wc_PollInterval config in
    let lease := if (wc_LeaseDuration config <=? 0)%Z then minute
                 else wc_LeaseDuration config in
    let beat := if (wc_HeartbeatInterval config <=? 0)%Z then Z.quot lease 3
                else wc_HeartbeatInterval config in
    if ((beat <=? 0)%Z || (lease <=? beat)%Z)%bool
    then Err (ErrJobs "jobs: heartbeat interval must be positive and shorter than the lease")
    else
      let batch := if (wc_BatchSize config =? 0)%Z then 16%Z else wc_BatchSize config in
      if (100 <? batch)%Z then Err (ErrJobs "jobs: batch size must not exceed 100")
      else if negb telemetry_ok then Err (ErrJobs "jobs: initialize worker metrics")
      else
        match ValidateCommand (CmdClaim {| cr_queue := wc_Queue config; cr_worker_id := id;
                cr_limit := batch; cr_lease_duration := lease |}) with
        | Err e => Err e
        | Ok _ => Ok
            {| wc_Store := true; wc_Queue := wc_Queue config; wc_Handler := true;
               wc_WorkerID := id; wc_PollInterval := poll; wc_LeaseDuration := lease;
               wc_HeartbeatInterval := beat; wc_BatchSize := batch;
               wc_RetryDelay := Some (default defaultRetryDelay (wc_RetryDelay config));
               wc_UnsafeLogHandlerCause := wc_UnsafeLogHandlerCause config |}
        end.

(** ** Metrics *)
Record workerMetrics : Type := {
  iterations : Z;
  claimErrors : Z;
  claimed : Z;
  succeeded : Z;
  retried : Z;
  deadLettered : Z;
  handlerPanics : Z;
  leaseLost : Z;
  active : Z;
}.
(** [atomic.Uint64.Add] *)
Definition add_u64 (x n : Z) : Z := ((x + n) mod 2^64)%Z.

Inductive Counter : Type :=
| Iterations | ClaimErrors | Claimed | Succeeded | Retried | DeadLettered
| HandlerPanics | LeaseLost | Active.
#[export] Instance Counter_eq_dec : EqDecision Counter.
Proof. solve_decision. Defined.

Definition bump (c : Counter) (n : Z) (m : workerMetrics) : workerMetrics :=
  let at_ k x := if decide (c = k) then add_u64 x n else x in
  {| iterations := at_ Iterations (iterations m); claimErrors := at_ ClaimErrors (claimErrors m);
     claimed := at_ Claimed (claimed m); succeeded := at_ Succeeded (succeeded m);
     retried := at_ Retried (retried m); deadLettered := at_ DeadLettered (deadLettered m);
     handlerPanics := at_ HandlerPanics (handlerPanics m);
     leaseLost := at_ LeaseLost (leaseLost m);
     active := if decide (c = Active) then wrap64 (active m + n) else active m |}.

Inductive WorkerError : Type :=
| WE_Store (e : JobError)
| WE_Context
| WE_NoLease.

(** [finalizationError] *)
Definition finalizationError (e : JobError) (m : workerMetrics) : workerMetrics :=
  match e with ErrLeaseLost => bump LeaseLost 1 m | _ => m end.

(** The durable failure of a handler error: a validated [ProcessingError]'s own
    failure, or a generic one. *)
Definition classify (err : HandlerError) (panicked : bool) : JobFailure * bool * instant :=
  let generic :=
    if panicked then {| f_code := "jobs.handler_panic"; f_message := "job handler panicked" |}
    else {| f_code := "jobs.handler_failed"; f_message := "job handler failed" |} in
  match err with
  | processing_error p =>
      match pe_Failure p with
      | Some failure =>
          match ValidateCommand (CmdFailure failure) with
          | Ok _ => (failure, pe_Retryable p, pe_NotBefore p)
          | Err _ => (generic, true, zero_time)
          end
      | None => (generic, true, zero_time)
      end
  | _ => (generic, true, zero_time)
  end.

Section Process.
Context {St : Type} `{Store St}.
Context (config : WorkerConfig).

Definition claim_request : ClaimJobsRequest :=
  {| cr_queue := wc_Queue config; cr_worker_id := wc_WorkerID config;
     cr_limit := wc_BatchSize config; cr_lease_duration := wc_LeaseDuration config |}.

Definition lease_of (e : JobEnvelope) : option JobLeaseReference :=
  match e_lease e with
  | Some l => Some {| lr_job_id := e_id e; lr_worker_id := l_owner l;
                      lr_lease_token := l_token l |}
  | None => None
  end.

(** The tail of [process], once the handler returned [out] and the heartbeat
    loop ended with [hb]: the outcome label, the error, the store and the
    metrics. *)
Definition conclude (w : JobWorld) (now : instant) (ctx_canceled : bool)
    (e : JobEnvelope) (lease : JobLeaseReference) (out : HandlerOutcome)
    (hb : option JobError) (st : St) (m : workerMetrics)
    : string * option WorkerError * St * workerMetrics :=
  let '(err, panicked) := invokeHandler out in
  let m := bump Active (-1) m in
  let m := if panicked then bump HandlerPanics 1 m else m in
  match hb with
  | Some e => ("error", Some (WE_Store e), st, finalizationError e m)
  | None =>
  if ctx_canceled then ("error", Some WE_Context, st, m)
  else
    match err with
    | None =>
        match run_tx (Store_Complete w lease None) st with
        | (Err e, st') => ("error", Some (WE_Store e), st', finalizationError e m)
        | (Ok _, st') => ("succeeded", None, st', bump Succeeded 1 m)
        end
    | Some err =>
        let '(failure, retryable, notBefore) := classify err panicked in
        if negb retryable then
          match run_tx (Store_DeadLetter w lease failure) st with
          | (Err e, st') => ("error", Some (WE_Store e), st', finalizationError e m)
          | (Ok _, st') => ("dead_letter", None, st', bump DeadLettered 1 m)
          end
        else
          let delay := default defaultRetryDelay (wc_RetryDelay config) in
          let retryAt := time_add now (delay (e_attempt_count e)) in
          let retryAt := if time_after notBefore retryAt then notBefore else retryAt in
          match run_tx (Store_Retry w lease failure retryAt) st with
          | (Err e, st') => ("error", Some (WE_Store e), st', finalizationError e m)
          | (Ok JOB_STATE_DEAD_LETTER, st') =>
              ("dead_letter", None, st', bump DeadLettered 1 m)
          | (Ok _, st') => ("retry", None, st', bump Retried 1 m)
          end
    end
  end.

(** *** The goroutine of one job *)
Inductive Phase : Type :=
| Handling
| HeartbeatFailed (e : JobError)
| Returned (out : HandlerOutcome) (hb : option JobError)
| Done (outcome : string) (err : option WorkerError).
Record Proc : Type := {
  p_envelope : JobEnvelope;
  p_phase : Phase;
}.
Definition at_phase (p : Proc) (ph : Phase) : Proc :=
  {| p_envelope := p_envelope p; p_phase := ph |}.

(** [process] up to the handler call. *)
Definition start_proc (e : JobEnvelope) (m : workerMetrics) : Proc * workerMetrics :=
  match lease_of e with
  | None => ({| p_envelope := e; p_phase := Done "error" (Some WE_NoLease) |}, m)
  | Some _ => ({| p_envelope := e; p_phase := Handling |}, bump Active 1 m)
  end.

(** One tick of [heartbeat]: a failure cancels the handler and ends the loop. *)
Definition heartbeat_tick (w : JobWorld) (lease : JobLeaseReference) (st : St)
    : option JobError * St :=
  match run_tx (Store_Heartbeat w lease (wc_LeaseDuration config)) st with
  | (Ok _, st') => (None, st')
  | (Err e, st') => (Some e, st')
  end.

Inductive proc_step : Proc * St * workerMetrics -> Proc * St * workerMetrics -> Prop :=
| ps_tick p lease w st m :
    p_phase p = Handling -> lease_of (p_envelope p) = Some lease ->
    proc_step (p, st, m)
      (match heartbeat_tick w lease st with
       | (None, st') => (p, st', m)
       | (Some e, st') => (at_phase p (HeartbeatFailed e), st', m)
       end)
| ps_return p out st m :
    p_phase p = Handling -> proc_step (p, st, m) (at_phase p (Returned out None), st, m)
| ps_return_canceled p e out st m :
    p_phase p = HeartbeatFailed e ->
    proc_step (p, st, m) (at_phase p (Returned out (Some e)), st, m)
| ps_conclude p lease w now ctx_canceled out hb st m o err st' m' :
    p_phase p = Returned out hb -> lease_of (p_envelope p) = Some lease ->
    conclude w now ctx_canceled (p_envelope p) lease out hb st m = (o, err, st', m') ->
    proc_step (p, st, m) (at_phase p (Done o err), st', m').

(** *** [runOnce]: the claim, then every job's goroutine, interleaved with the
    transactions [env] of other parties. *)
Record Batch : Type := {
  b_store : St;
  b_procs : list Proc;
  b_metrics : workerMetrics;
}.

Fixpoint start_all (es : list JobEnvelope) (m : workerMetrics)
    : list Proc * workerMetrics :=
  match es with
  | [] => ([], m)
  | e :: es =>
      let '(p, m) := start_proc e m in
      let '(ps, m) := start_all es m in (p :: ps, m)
  end.

Definition begin_batch (w : JobWorld) (st : St) (m : workerMetrics)
    : result JobError Batch * St * workerMetrics :=
  let m := bump Iterations 1 m in
  match run_tx (Store_Claim w claim_request) st with
  | (Err e, st') => (Err e, st', bump ClaimErrors 1 m)
  | (Ok es, st') =>
      let m := bump Claimed (Z.of_nat (length es)) m in
      let '(ps, m') := start_all es m in
      (Ok {| b_store := st'; b_procs := ps; b_metrics := m' |}, st', m)
  end.

Inductive batch_step (env : St -> St -> Prop) : Batch -> Batch -> Prop :=
| bs_proc b i p p' st' m' :
    b_procs b !! i = Some p ->
    proc_step (p, b_store b, b_metrics b) (p', st', m') ->
    batch_step env b {| b_store := st'; b_procs := <[i := p']> (b_procs b);
                        b_metrics := m' |}
| bs_env b st' :
    env (b_store b) st' ->
    batch_step env b {| b_store := st'; b_procs := b_procs b; b_metrics := b_metrics b |}.

Definition is_done (p : Proc) : bool :=
  match p_phase p with Done _ _ => true | _ => false end.
(** [wait.Wait()] returns when every goroutine has. *)
Definition batch_done (b : Batch) : bool := forallb is_done (b_procs b).
(** The number of claimed jobs and the joined errors. *)
Definition batch_result (b : Batch) : nat * list WorkerError :=
  (length (b_procs b),
   omap (fun p => match p_phase p with Done _ err => err | _ => None end) (b_procs b)).
End Process.

(** ** Start and Shutdown *)
Record Lifecycle : Type := {
  lc_started : bool;
  lc_claims_canceled : bool;
  lc_all_canceled : bool;
  lc_done : bool;
  lc_batches : nat;
}.
Definition lifecycle_init : Lifecycle :=
  {| lc_started := false; lc_claims_canceled := false; lc_all_canceled := false;
     lc_done := false; lc_batches := 0 |}.

Definition Start (l : Lifecycle) : Lifecycle :=
  if lc_started l then l
  else {| lc_started := true; lc_claims_canceled := false; lc_all_canceled := false;
          lc_done := false; lc_batches := 0 |}.

(** The polling goroutine: the batch on entry and on each tick, and the exit when
    the claim context is done. *)
Inductive loop_step : Lifecycle -> Lifecycle -> Prop :=
| loop_first l :
    lc_started l = true -> lc_done l = false -> lc_batches l = 0 ->
    loop_step l {| lc_started := true; lc_claims_canceled := lc_claims_canceled l;
      lc_all_canceled := lc_all_canceled l; lc_done := false; lc_batches := 1 |}
| loop_tick l :
    lc_started l = true -> lc_done l = false -> lc_batches l <> 0 ->
    loop_step l {| lc_started := true; lc_claims_canceled := lc_claims_canceled l;
      lc_all_canceled := lc_all_canceled l; lc_done := false;
      lc_batches := S (lc_batches l) |}
| loop_exit l :
    lc_started l = true -> lc_claims_canceled l = true -> lc_batches l <> 0 ->
    loop_step l {| lc_started := true; lc_claims_canceled := true;
      lc_all_canceled := lc_all_canceled l; lc_done := true; lc_batches := lc_batches l |}.

(** [Shutdown] cancels the claims, and [Shutdown_finish] is its select: the loop
    ended, or the caller's deadline did. *)
Definition Shutdown_begin (l : Lifecycle) : Lifecycle :=
  if negb (lc_started l) then l
  else {| lc_started := true; lc_claims_canceled := true; lc_all_canceled := lc_all_canceled l;
          lc_done := lc_done l; lc_batches := lc_batches l |}.
Definition cancel_all (l : Lifecycle) : Lifecycle :=
  {| lc_started := lc_started l; lc_claims_canceled := lc_claims_canceled l;
     lc_all_canceled := true; lc_done := lc_done l; lc_batches := lc_batches l |}.
Inductive Shutdown_finish (deadline : bool) (l : Lifecycle)
    : Lifecycle -> option WorkerError -> Prop :=
| shutdown_not_started : lc_started l = false -> Shutdown_finish deadline l l None
| shutdown_drained :
    lc_started l = true -> lc_done l = true -> Shutdown_finish deadline l (cancel_all l) None
| shutdown_deadline :
    lc_started l = true -> deadline = true ->
    Shutdown_finish deadline l (cancel_all l) (Some WE_Context).
End Worker.
