(* ===== verification/JobWorkerTheorems.v ===== *)
(** The properties of the polling worker, against the store interface and over
    the queue that implements it. *)
From S2P Require Import Prelude JobState JobQueue JobQueueProofs JobQueueTheorems JobWorker.

(** ** The retry schedule *)
Lemma retry_shift attempt :
  (0 <= attempt < 2^32)%Z ->
  exists k, (0 <= k <= 8)%Z /\ defaultRetryDelay attempt = (5 * second * 2^k)%Z /\
    k = Z.min 8 (Z.max 0 (attempt - 1)).
Proof.
  intros Ha. unfold defaultRetryDelay.
  exists (Z.min 8 (Z.max 0 (attempt - 1))). split; [lia|]. split; [|done].
  assert (Hs : wrapu32 ((if attempt =? 0 then 1 else attempt) - 1)%Z = Z.max 0 (attempt - 1)).
  { unfold wrapu32. destruct (Z.eqb_spec attempt 0) as [->|Hne]; [done|].
    rewrite Z.mod_small; lia. }
  rewrite Hs. clear Hs.
  assert (Hk : (if 8 <? Z.max 0 (attempt - 1) then 8 else Z.max 0 (attempt - 1))%Z =
    Z.min 8 (Z.max 0 (attempt - 1))).
  { destruct (Z.ltb_spec 8 (Z.max 0 (attempt - 1))); lia. }
  rewrite Hk, Z.shiftl_1_l. apply wrap64_id.
  set (k := Z.min 8 (Z.max 0 (attempt - 1))).
  assert (0 < 2 ^ k <= 2 ^ 8)%Z.
  { split; [apply Z.pow_pos_nonneg; lia|apply Z.pow_le_mono_r; lia]. }
  unfold in_int64, int64_min, int64_max, second. change (2^8)%Z with 256%Z in *. lia.
Qed.

(** The retry schedule is exponential and capped: for every uint32 attempt
    number the delay is five seconds doubled once per earlier attempt, at most
    eight times, so it never overflows, never decreases from one attempt to the
    next and stays between 5 seconds and 21 minutes 20 seconds. *)
Theorem retry_delay_is_capped_backoff attempt :
  (0 <= attempt < 2^32)%Z ->
  defaultRetryDelay attempt = (5 * second * 2 ^ Z.min 8 (Z.max 0 (attempt - 1)))%Z /\
  (5 * second <= defaultRetryDelay attempt <= 1280 * second)%Z /\
  forall later, (attempt <= later < 2^32)%Z ->
    (defaultRetryDelay attempt <= defaultRetryDelay later)%Z.
Proof.
  intros Ha. destruct (retry_shift attempt Ha) as (k & Hk & Hd & Hkk).
  assert (Hp : forall k, (0 <= k <= 8)%Z -> (1 <= 2 ^ k <= 256)%Z).
  { intros k0 Hk0. change 1%Z with (2^0)%Z. change 256%Z with (2^8)%Z.
    split; apply Z.pow_le_mono_r; lia. }
  split; [by rewrite Hd, Hkk|]. split.
  - rewrite Hd. specialize (Hp k Hk). unfold second. lia.
  - intros later Hl. destruct (retry_shift later ltac:(lia)) as (j & Hj & Hd' & Hjj).
    rewrite Hd, Hd'. apply Z.mul_le_mono_nonneg_l; [unfold second; lia|].
    apply Z.pow_le_mono_r; lia.
Qed.

Lemma retry_delay_is_capped_backoff_witness : (5 * second <= defaultRetryDelay 4000000000)%Z.
Proof.
  destruct (retry_delay_is_capped_backoff 4000000000 ltac:(split; lia)) as (_ & [H _] & _).
  exact H.
Defined.

(** ** Configuration *)
(** A worker that [NewWorker] accepts has a usable configuration: a named queue,
    a positive poll interval, a heartbeat strictly inside the lease, a batch of 1 to
    100 and a claim request that passes validation; and the defaults are a normal
    form, since building a worker from the accepted configuration accepts it
    unchanged. *)
Theorem new_worker_normalizes vc id config config' :
  (0 <= wc_BatchSize config)%Z -> id <> "" ->
  NewWorker vc id true config = Ok config' ->
  wc_Queue config' <> "" /\ wc_WorkerID config' <> "" /\ (0 < wc_PollInterval config')%Z /\
  (0 < wc_HeartbeatInterval config' < wc_LeaseDuration config')%Z /\
  (1 <= wc_BatchSize config' <= 100)%Z /\
  vc (CmdClaim (claim_request config')) = Ok tt /\
  NewWorker vc id true config' = Ok config'.
Proof.
  intros Hb Hid H. unfold NewWorker in H.
  destruct (wc_Store config); [|done]. destruct (wc_Handler config); [|done]. cbn [negb] in H.
  destruct (decide (wc_Queue config = "")); [done|].
  set (wid := if decide (wc_WorkerID config = "") then id else wc_WorkerID config) in H.
  set (poll := if (wc_PollInterval config <=? 0)%Z then _ else _) in H.
  set (lease := if (wc_LeaseDuration config <=? 0)%Z then _ else _) in H.
  set (beat := if (wc_HeartbeatInterval config <=? 0)%Z then _ else _) in H.
  destruct (_ || _) eqn:Hbeat; [done|]. apply orb_false_iff in Hbeat as [H1 H2].
  apply Z.leb_gt in H1, H2.
  set (batch := if (wc_BatchSize config =? 0)%Z then _ else _) in H.
  destruct (Z.ltb_spec 100 batch) as [|Hbatch]; [done|].
  destruct (vc _) as [[]|] eqn:Hvc; [|done]. injection H as <-.
  assert (Hwid : wid <> "") by (unfold wid; case_decide; done).
  assert (Hpoll : (0 < poll)%Z).
  { unfold poll. destruct (Z.leb_spec (wc_PollInterval config) 0); [done|lia]. }
  assert (Hbat : (1 <= batch)%Z).
  { unfold batch. destruct (Z.eqb_spec (wc_BatchSize config) 0); lia. }
  cbn [wc_Queue wc_WorkerID wc_PollInterval wc_HeartbeatInterval wc_LeaseDuration wc_BatchSize].
  split_and!; try done; try lia.
  unfold NewWorker. cbn. rewrite decide_False by done. rewrite (decide_False (P := wid = "")) by done.
  rewrite (proj2 (Z.leb_gt poll 0)) by lia. rewrite (proj2 (Z.leb_gt lease 0)) by lia.
  rewrite (proj2 (Z.leb_gt beat 0)) by lia. rewrite (proj2 (Z.leb_gt lease beat)) by lia. cbn.
  rewrite (proj2 (Z.eqb_neq batch 0)) by lia. rewrite (proj2 (Z.ltb_ge 100 batch)) by lia.
  cbn. rewrite ?(proj2 (Z.leb_gt beat 0)) by lia. cbn. by rewrite Hvc.
Qed.

Definition sample_config : WorkerConfig :=
  {| wc_Store := true; wc_Queue := "q"; wc_Handler := true; wc_WorkerID := "";
     wc_PollInterval := 0; wc_LeaseDuration := 0; wc_HeartbeatInterval := 0; wc_BatchSize := 0;
     wc_RetryDelay := None; wc_UnsafeLogHandlerCause := false |}.

Lemma new_worker_normalizes_witness :
  exists c, NewWorker (fun _ => Ok tt) "host-1" true sample_config = Ok c /\
    wc_HeartbeatInterval c = (20 * second)%Z /\ (wc_BatchSize c <= 100)%Z.
Proof.
  eexists. split; [reflexivity|]. split; [vm_compute; reflexivity|].
  apply (new_worker_normalizes (fun _ => Ok tt) "host-1" sample_config _
    ltac:(vm_compute; discriminate) ltac:(discriminate) eq_refl).
Defined.

(** ** Concluding a job on the queue *)
Section OnQueue.
Context (format_uint : Z -> string).
Context (base64url : string -> string).
Context (fingerprint : string -> Command -> string).
Context (ValidateCommand : Command -> result JobError unit).
Context (parse_uuid : string -> option string).
Context (module : option ModuleAuthority).
Context (config : WorkerConfig).
#[local] Instance store : Store JobDb := PostgresJobStore format_uint ValidateCommand module.
Abbreviation qstep := (queue_step format_uint base64url fingerprint ValidateCommand parse_uuid).
Abbreviation qreach := (queue_reachable format_uint base64url fingerprint ValidateCommand parse_uuid).

(** The failures the worker itself names. *)
Definition generic_failure (panicked : bool) : JobFailure :=
  if panicked then {| f_code := "jobs.handler_panic"; f_message := "job handler panicked" |}
  else {| f_code := "jobs.handler_failed"; f_message := "job handler failed" |}.

(** What may become durable history of a handler's outcome. *)
Definition safe_failure (out : HandlerOutcome) (f : JobFailure) : Prop :=
  match out with
  | HandlerPanicked _ _ => f = generic_failure true
  | HandlerReturned (Some (processing_error p)) =>
      f = generic_failure false \/
      (pe_Failure p = Some f /\ ValidateCommand (CmdFailure f) = Ok tt)
  | HandlerReturned (Some _) => f = generic_failure false
  | HandlerReturned None => False
  end.

Lemma classify_safe out err f retryable nb :
  invokeHandler out = (Some err, match out with HandlerPanicked _ _ => true | _ => false end) ->
  classify ValidateCommand err (match out with HandlerPanicked _ _ => true | _ => false end)
    = (f, retryable, nb) -> safe_failure out f.
Proof.
  destruct out as [[e|]|v s]; intros Hi Hc; cbn in Hi; [injection Hi as <-|done|injection Hi as <-].
  - destruct e as [p|t|v s]; cbn in Hc |- *; [|by injection Hc|by injection Hc].
    destruct (pe_Failure p) as [fl|]; [|injection Hc as <- _ _; by left].
    destruct (ValidateCommand (CmdFailure fl)) as [[]|] eqn:Hv; injection Hc as <- _ _;
      [by right|by left].
  - cbn in Hc |- *. by injection Hc.
Qed.

(** How a conclusion can end, given that the store was asked. *)
Inductive concluded (w : JobWorld) (lease : JobLeaseReference) (out : HandlerOutcome)
    (d d' : JobDb) : string -> option WorkerError -> Prop :=
| concluded_error err : d' = d -> concluded w lease out d d' "error" (Some err)
| concluded_complete u :
    Complete format_uint ValidateCommand w module lease None d = Ok (u, d') ->
    invokeHandler out = (None, false) -> concluded w lease out d d' "succeeded" None
| concluded_dead u f :
    DeadLetter format_uint ValidateCommand w module lease f d = Ok (u, d') ->
    safe_failure out f -> concluded w lease out d d' "dead_letter" None
| concluded_retry st f at_ :
    Retry format_uint ValidateCommand w module lease f at_ d = Ok (st, d') ->
    safe_failure out f ->
    concluded w lease out d d'
      (match st with JOB_STATE_DEAD_LETTER => "dead_letter" | _ => "retry" end) None.

Lemma conclude_cases w now cx e lease out hb d m o err d' m' :
  conclude ValidateCommand config w now cx e lease out hb d m = (o, err, d', m') ->
  concluded w lease out d d' o err.
Proof.
  unfold conclude. destruct (invokeHandler out) as [her pan] eqn:Hi.
  destruct hb as [he|]; [intros [= <- <- <- _]; by apply concluded_error|].
  destruct cx; [intros [= <- <- <- _]; by apply concluded_error|].
  assert (Hpan : pan = match out with HandlerPanicked _ _ => true | _ => false end)
    by (by destruct out; injection Hi).
  destruct her as [her|].
  - destruct (classify _ _ _) as [[f retryable] nb] eqn:Hc.
    assert (Hsafe : safe_failure out f).
    { rewrite Hpan in Hi, Hc. by eapply classify_safe. }
    destruct retryable; cbn [negb].
    + unfold run_tx. cbn. destruct (Retry _ _ _ _ _ _ _ _) as [[st d1]|e0] eqn:Hr.
      * intros H. assert (o = match st with JOB_STATE_DEAD_LETTER => "dead_letter" | _ => "retry" end
          /\ err = None /\ d' = d1) as (-> & -> & ->) by (destruct st; by simplify_eq).
        by eapply concluded_retry.
      * intros [= <- <- <- _]. by apply concluded_error.
    + unfold run_tx. cbn. destruct (DeadLetter _ _ _ _ _ _ _) as [[u d1]|e0] eqn:Hr;
        intros [= <- <- <- _]; [by eapply concluded_dead|by apply concluded_error].
  - unfold run_tx. cbn. destruct (Complete _ _ _ _ _ _ _) as [[u d1]|e0] eqn:Hr;
      intros [= <- <- <- _]; [|by apply concluded_error].
    eapply concluded_complete; [done|]. by destruct out as [[]|].
Qed.

(** The store step a conclusion is. *)
Lemma concluded_step w lease out d d' o err :
  concluded w lease out d d' o err -> d' = d \/ qstep d d'.
Proof.
  intros [|u H|u f H|st f t H]; [by left|right..].
  - by eapply q_complete. - by eapply q_dead_letter. - by eapply q_retry.
Qed.

Lemma stamped_error t old new :
  m_last_error_code (stamped t old new) = m_last_error_code new /\
  m_last_error_message (stamped t old new) = m_last_error_message new.
Proof. unfold stamped, enforce_job_message_state. repeat case_match; try done; by simplify_eq. Qed.

(** What a finalization does to every row. *)
Lemma finalized_rows w ref f d d' u id m' :
  queue_inv d -> finalizeLockedJob w ref f d = Ok (u, d') -> messages d' !! id = Some m' ->
  messages d !! id = Some m' \/
  (id = lr_job_id ref /\ m_last_error_code m' = failure_code (jf_failure f) /\
   m_last_error_message m' = failure_message (jf_failure f) /\
   DatabaseState (jf_state f) = Ok (m_state m')).
Proof.
  intros Hinv H Hm'.
  apply finalizeLocked_ok in H as (m & st & Hm & _ & Hst & _ & _ & Hms & _); [|done].
  rewrite Hms, lookup_insert_Some in Hm'. destruct Hm' as [[<- <-]|[_ Hm']]; [right|by left].
  destruct (stamped_error (jw_now w) m (finalized_row w st f m)) as [-> ->].
  destruct (stamped_fields (jw_now w) m (finalized_row w st f m)) as (_ & -> & _). by split_and!.
Qed.

(** The three conclusions, as finalizations. *)
Lemma concluded_rows w lease out d d' o err id m' :
  queue_inv d -> concluded w lease out d d' o err -> messages d' !! id = Some m' ->
  messages d !! id = Some m' \/
  (id = lr_job_id lease /\ err = None /\
    (o = "succeeded" /\ m_state m' = "succeeded" /\ m_last_error_code m' = None
     \/ exists f, safe_failure out f /\ m_last_error_code m' = Some (f_code f) /\
          m_last_error_message m' = failure_message (Some f) /\
          (o = "dead_letter" /\ m_state m' = "dead_letter" \/
           o = "retry" /\ m_state m' = "retrying"))).
Proof.
  intros Hinv [e ->|u H _|u f H Hs|st f t H Hs] Hm'; [by left|..].
  - unfold Complete in H. apply tx_bind_ok in H as (? & d0 & Hv & H).
    apply tx_lift_ok in Hv as [_ ->]. apply finalize_ok in H as [H _].
    destruct (finalized_rows _ _ _ _ _ _ _ _ Hinv H Hm') as [|(-> & Hc & _ & Hst)]; [by left|right].
    cbn in Hst. injection Hst as Hst. split_and!; try done. left. by split_and!.
  - unfold DeadLetter in H. apply tx_bind_ok in H as (? & d0 & Hv & H).
    apply tx_lift_ok in Hv as [_ ->]. apply finalize_ok in H as [H _].
    destruct (finalized_rows _ _ _ _ _ _ _ _ Hinv H Hm') as [|(-> & Hc & Hmsg & Hst)];
      [by left|right].
    cbn in Hst. injection Hst as Hst. split_and!; try done. right. exists f. split_and!; try done.
    by left.
  - unfold Retry in H. apply tx_bind_ok in H as (? & d0 & Hv & H).
    apply tx_lift_ok in Hv as [_ ->]. apply retry_ok in H as (m & u & Hm & _ & -> & H).
    destruct (finalized_rows _ _ _ _ _ _ _ _ Hinv H Hm') as [|(-> & Hc & Hmsg & Hst)];
      [by left|right].
    cbn in Hst. split_and!; try done. right. exists f. split_and!; try done.
    destruct (exhausted m); cbn in Hst; injection Hst as Hst; auto.
Qed.

(** Nothing unsafe becomes durable: when a worker concludes a job, the only
    row that can change is the job's, and the error it then records is either
    none (the job succeeded) or a failure the handler declared in a
    [ProcessingError] that passes validation, or one of the two generic
    diagnostics; a panic is always recorded as the generic panic, whatever value
    it carried. *)
Theorem durable_failures_are_safe w now cx e lease out hb d m o err d' m' id row :
  qreach d ->
  conclude ValidateCommand config w now cx e lease out hb d m = (o, err, d', m') ->
  messages d' !! id = Some row ->
  messages d !! id = Some row \/
  (id = lr_job_id lease /\
    (m_last_error_code row = None \/
     exists f, safe_failure out f /\ m_last_error_code row = Some (f_code f) /\
       m_last_error_message row = failure_message (Some f))).
Proof.
  intros Hr H Hrow. apply reachable_queue_inv in Hr. apply conclude_cases in H.
  destruct (concluded_rows _ _ _ _ _ _ _ _ _ Hr H Hrow) as [|(-> & _ & Hc)]; [by left|right].
  split; [done|]. destruct Hc as [(_ & _ & ?)|(f & Hs & Hcode & Hm & _)]; [by left|right].
  by exists f.
Qed.

(** *** Batches *)
(** A terminal outcome a goroutine reports is the state of the job's row. *)
Definition reported (d : JobDb) (p : Proc) : Prop :=
  forall o, p_phase p = Done o None -> o = "succeeded" \/ o = "dead_letter" ->
    exists m, messages d !! e_id (p_envelope p) = Some m /\ m_state m = o.

Lemma finalized_row_exists w ref f d d' u :
  queue_inv d -> finalizeLockedJob w ref f d = Ok (u, d') ->
  exists m', messages d' !! lr_job_id ref = Some m' /\
    DatabaseState (jf_state f) = Ok (m_state m').
Proof.
  intros Hinv H.
  apply finalizeLocked_ok in H as (m & st & Hm & _ & Hst & _ & _ & Hms & _); [|done].
  eexists. rewrite Hms, lookup_insert_eq. split; [done|].
  by destruct (stamped_fields (jw_now w) m (finalized_row w st f m)) as (_ & -> & _).
Qed.

Lemma concluded_reported w lease out d d' o :
  queue_inv d -> concluded w lease out d d' o None -> o = "succeeded" \/ o = "dead_letter" ->
  exists m', messages d' !! lr_job_id lease = Some m' /\ m_state m' = o.
Proof.
  intros Hinv Hc Ho. inversion Hc as [|u H _|u f H Hs|st f t H Hs]; subst.
  - unfold Complete in H. apply tx_bind_ok in H as (? & d0 & Hv & H).
    apply tx_lift_ok in Hv as [_ ->]. apply finalize_ok in H as [H _].
    destruct (finalized_row_exists _ _ _ _ _ _ Hinv H) as (m' & Hm & Hst).
    cbn in Hst. injection Hst as Hst. by exists m'.
  - unfold DeadLetter in H. apply tx_bind_ok in H as (? & d0 & Hv & H).
    apply tx_lift_ok in Hv as [_ ->]. apply finalize_ok in H as [H _].
    destruct (finalized_row_exists _ _ _ _ _ _ Hinv H) as (m' & Hm & Hst).
    cbn in Hst. injection Hst as Hst. by exists m'.
  - unfold Retry in H. apply tx_bind_ok in H as (? & d0 & Hv & H).
    apply tx_lift_ok in Hv as [_ ->]. apply retry_ok in H as (m & u & Hm & _ & -> & H).
    destruct (finalized_row_exists _ _ _ _ _ _ Hinv H) as (m' & Hm' & Hst).
    cbn in Hst. exists m'. split; [done|]. destruct (exhausted m); [|by destruct Ho].
    cbn in Hst. by injection Hst.
Qed.

Lemma lease_of_job e lease : lease_of e = Some lease -> lr_job_id lease = e_id e.
Proof. unfold lease_of. destruct (e_lease e); [|done]. by intros [= <-]. Qed.

(** Every step of a goroutine is a transaction of the queue, or none. *)
Lemma proc_step_store p d m p' d' m' :
  queue_inv d -> proc_step ValidateCommand config (p, d, m) (p', d', m') ->
  (d' = d \/ qstep d d') /\ p_envelope p' = p_envelope p /\
  (forall o, p_phase p' = Done o None -> o = "succeeded" \/ o = "dead_letter" ->
     p_phase p = Done o None \/
     exists row, messages d' !! e_id (p_envelope p) = Some row /\ m_state row = o).
Proof.
  intros Hinv H. inversion H as [p0 lease w st m0 Hp Hl E1 E2|p0 out st m0 Hp E1 E2
    |p0 e out st m0 Hp E1 E2|p0 lease w nw cx out hb st m0 o err st' m1 Hp Hl Hc E1 E2];
    clear H; subst.
  - unfold heartbeat_tick, run_tx in E2. cbn in E2.
    destruct (Heartbeat _ _ _ _ _ _ _) as [[l d1]|e] eqn:Hh; injection E2 as <- <- <-.
    + split_and!; [right; by eapply q_heartbeat|done|]. intros o Ho. by rewrite Hp in Ho.
    + split_and!; [by left|done|]. by intros o Ho.
  - split_and!; [by left|done|]. by intros o Ho.
  - split_and!; [by left|done|]. by intros o Ho.
  - apply conclude_cases in Hc. split_and!; [by eapply concluded_step|done|].
    intros o' [= <- ->] Ho. right. rewrite <- (lease_of_job _ _ Hl).
    by eapply concluded_reported.
Qed.

(** C35. What a worker reports is what the queue remembers: in any run of a batch,
    its jobs' goroutines interleaved in any way with each other and with any
    other transactions on the queue, a job whose goroutine ended with outcome
    "succeeded" or "dead_letter" has that state in the database, from then on and
    for good. *)
Theorem reported_outcomes_are_durable b b' :
  qreach (b_store b) -> Forall (reported (b_store b)) (b_procs b) ->
  rtc (batch_step ValidateCommand config qstep) b b' ->
  Forall (reported (b_store b')) (b_procs b').
Proof.
  intros Hr Hrep Hrun. induction Hrun as [|b b1 b2 Hs _ IH]; [done|].
  assert (Hinv : queue_inv (b_store b)) by by eapply reachable_queue_inv.
  assert (Hkeep : forall d', b_store b = d' \/ qstep (b_store b) d' -> qreach d' /\
    forall p, reported (b_store b) p -> reported d' p).
  { intros d' [<-|Hq]; [done|]. split; [by eapply rtc_r|]. intros p Hp o Ho Ho'.
    destruct (Hp o Ho Ho') as (m & Hm & Hst).
    pose proof (queue_step_moves _ _ _ _ _ _ _ Hinv Hq) as Hmv.
    destruct (moves_row _ _ _ _ Hmv Hm) as (m' & Hm' & _ & _ & Hterm).
    exists m'. split; [done|]. assert (Hv : view d' (e_id (p_envelope p)) =
      view (b_store b) (e_id (p_envelope p))).
    { apply Hterm. rewrite Hst. by destruct Ho' as [-> | ->]. }
    assert (Some m' = Some m) as [= ->]; [|done].
    rewrite <- Hm, <- Hm'. exact (f_equal v_row Hv). }
  destruct Hs as [b i p p' d' m' Hp Hstep|b d' Henv].
  - destruct (proc_step_store _ _ _ _ _ _ Hinv Hstep) as (Hd & He & Hdone).
    destruct (Hkeep d') as [Hr' Hk]; [naive_solver|]. apply IH; [done|]. cbn.
    apply Forall_insert; [eapply Forall_impl; [exact Hrep|exact Hk]|].
    intros o Ho Ho'. destruct (Hdone o Ho Ho') as [Hold|Hnew]; [|by rewrite He].
    rewrite Forall_forall in Hrep.
    specialize (Hrep p ltac:(by eapply list_elem_of_lookup_2)).
    rewrite He. by apply (Hk p Hrep).
  - destruct (Hkeep d' ltac:(by right)) as [Hr' Hk]. apply IH; [done|]. cbn.
    eapply Forall_impl; [exact Hrep|exact Hk].
Qed.
End OnQueue.

(** ** Accounting *)
Section Accounting.
Context {St : Type} `{Store St}.
Context (ValidateCommand : Command -> result JobError unit).
Context (config : WorkerConfig).
Context (env : St -> St -> Prop).

(** Equal as 64-bit numbers. *)
Definition cong64 (x y : Z) : Prop := exists k, x = (y + k * 2^64)%Z.
Lemma add_u64_cong x n : cong64 (add_u64 x n) (x + n).
Proof. unfold add_u64, cong64. exists (- ((x + n) / 2^64))%Z. rewrite Z.mod_eq by done. lia. Qed.
Lemma wrap64_cong x : cong64 (wrap64 x) x.
Proof.
  unfold wrap64, cong64. exists (- ((x + 2^63) / 2^64))%Z. rewrite Z.mod_eq by done. lia.
Qed.

Definition finished_ok (m : workerMetrics) : Z :=
  (succeeded m + retried m + deadLettered m)%Z.
Definition live (p : Proc) : Z := if is_done p then 0%Z else 1%Z.
Definition settled (p : Proc) : Z :=
  match p_phase p with Done _ None => 1%Z | _ => 0%Z end.
Fixpoint total (f : Proc -> Z) (l : list Proc) : Z :=
  match l with [] => 0%Z | p :: l => (f p + total f l)%Z end.

Lemma total_insert f l i p p' :
  l !! i = Some p -> total f (<[i := p']> l) = (total f l - f p + f p')%Z.
Proof.
  revert i. induction l as [|x l IH]; intros [|i] Hl; simplify_eq/=; [lia|].
  rewrite IH by done. lia.
Qed.

(** What a goroutine's step does to the counters. *)
Lemma conclude_metrics w nw cx e lease out hb st m o err st' m' :
  conclude ValidateCommand config w nw cx e lease out hb st m = (o, err, st', m') ->
  claimed m' = claimed m /\ cong64 (active m') (active m - 1) /\
  cong64 (finished_ok m') (finished_ok m + match err with None => 1 | _ => 0 end).
Proof.
  unfold conclude. destruct (invokeHandler out) as [her pan].
  set (m1 := if pan then _ else _).
  assert (H1 : claimed m1 = claimed m /\ cong64 (active m1) (active m - 1) /\
    finished_ok m1 = finished_ok m).
  { unfold m1. destruct pan; cbn; (split; [done|]; split; [apply wrap64_cong|done]). }
  clearbody m1. destruct H1 as (Hc1 & Ha1 & Hf1).
  assert (Hfe : forall e, claimed (finalizationError e m1) = claimed m1 /\
    active (finalizationError e m1) = active m1 /\
    finished_ok (finalizationError e m1) = finished_ok m1) by (by intros []).
  assert (Herr : forall e, claimed (finalizationError e m1) = claimed m /\
    cong64 (active (finalizationError e m1)) (active m - 1) /\
    cong64 (finished_ok (finalizationError e m1)) (finished_ok m + 0)).
  { intros e0. destruct (Hfe e0) as (-> & -> & ->). split_and!; try done.
    exists 0%Z. lia. }
  assert (Hok : forall c, c = Succeeded \/ c = Retried \/ c = DeadLettered ->
    claimed (bump c 1 m1) = claimed m /\ cong64 (active (bump c 1 m1)) (active m - 1) /\
    cong64 (finished_ok (bump c 1 m1)) (finished_ok m + 1)).
  { intros c Hc. assert (active (bump c 1 m1) = active m1) as ->
      by (by destruct Hc as [->|[-> | ->]]).
    split; [by destruct Hc as [->|[-> | ->]]|]. split; [done|].
    rewrite <- Hf1. unfold finished_ok.
    destruct Hc as [->|[-> | ->]]; cbn;
      [destruct (add_u64_cong (succeeded m1) 1) as [k ->]
      |destruct (add_u64_cong (retried m1) 1) as [k ->]
      |destruct (add_u64_cong (deadLettered m1) 1) as [k ->]]; exists k;
      repeat (case_decide; try done); lia. }
  destruct hb as [he|]; [intros [= <- <- <- <-]; apply Herr|].
  destruct cx.
  { intros [= <- <- <- <-]. split_and!; try done. exists 0%Z. lia. }
  destruct her as [her|].
  - destruct (classify _ _ _) as [[f retryable] nb]. destruct retryable; cbn [negb].
    + destruct (run_tx _ _) as [[s|e0] st1]; [|intros [= <- <- <- <-]; apply Herr].
      intros Hr. assert (err = None /\ (m' = bump DeadLettered 1 m1 \/ m' = bump Retried 1 m1))
        as (-> & [-> | ->]) by (destruct s; simplify_eq; auto); apply Hok; auto.
    + destruct (run_tx _ _) as [[s|e0] st1]; intros [= <- <- <- <-]; [apply Hok|apply Herr]; auto.
  - destruct (run_tx _ _) as [[s|e0] st1]; intros [= <- <- <- <-]; [apply Hok|apply Herr]; auto.
Qed.

Lemma proc_step_metrics p st m p' st' m' :
  proc_step ValidateCommand config (p, st, m) (p', st', m') ->
  claimed m' = claimed m /\
  cong64 (active m') (active m - live p + live p') /\
  cong64 (finished_ok m') (finished_ok m - settled p + settled p').
Proof.
  intros Hs. inversion Hs as [p0 lease w s0 m0 Hp Hl E1 E2|p0 out s0 m0 Hp E1 E2
    |p0 e out s0 m0 Hp E1 E2|p0 lease w nw cx out hb s0 m0 o err s1 m1 Hp Hl Hc E1 E2];
    clear Hs; subst; unfold live, settled, is_done; rewrite Hp; cbn.
  - destruct (heartbeat_tick config w lease st) as [[e|] s1]; injection E2 as <- <- <-; cbn;
      rewrite ?Hp; (split; [done|]; split; exists 0%Z; lia).
  - split; [done|]; split; exists 0%Z; lia.
  - split; [done|]; split; exists 0%Z; lia.
  - apply conclude_metrics in Hc as (-> & Ha & Hf). split; [done|].
    split; [destruct Ha as [k Ha]; exists k; lia|destruct Hf as [k Hf]; exists k; lia].
Qed.

Lemma start_all_metrics es m ps m' :
  start_all es m = (ps, m') ->
  length ps = length es /\ claimed m' = claimed m /\
  cong64 (active m') (active m + total live ps) /\
  finished_ok m' = finished_ok m /\ total settled ps = 0%Z.
Proof.
  revert m ps m'. induction es as [|e es IH]; intros m ps m' Hs; cbn in Hs.
  { injection Hs as <- <-. split_and!; try done. exists 0%Z. cbn. lia. }
  unfold start_proc in Hs. destruct (lease_of e) as [l|]; cbn in Hs.
  - destruct (start_all es (bump Active 1 m)) as [ps0 m0] eqn:Hr. injection Hs as <- <-.
    destruct (IH _ _ _ Hr) as (Hlen & Hc & [k Ha] & Hf & Ht).
    split_and!; [cbn; by rewrite Hlen|done| |done|cbn; lia].
    cbn in Ha |- *. rewrite decide_True in Ha by done.
    destruct (wrap64_cong (active m + 1)) as [k' Hk]. rewrite Hk in Ha.
    exists (k + k')%Z. lia.
  - destruct (start_all es m) as [ps0 m0] eqn:Hr. injection Hs as <- <-.
    destruct (IH _ _ _ Hr) as (Hlen & Hc & [k Ha] & Hf & Ht).
    split_and!; [cbn; by rewrite Hlen|done| |done|cbn; lia].
    exists k. cbn. lia.
Qed.

Lemma done_errors l :
  forallb is_done l = true ->
  total settled l = (Z.of_nat (length l) - Z.of_nat (length (omap (fun p =>
    match p_phase p with Done _ err => err | _ => None end) l)))%Z /\ total live l = 0%Z.
Proof.
  induction l as [|p l IH]; [done|]. cbn. intros [Hp Hl]%andb_true_iff.
  destruct (IH Hl) as [IH1 IH2].
  assert (Hlive : live p = 0%Z) by (unfold live; by rewrite Hp).
  rewrite Hlive, IH1, IH2. unfold settled. unfold is_done in Hp.
  destruct (p_phase p) as [| | |o [err|]]; try done; cbn; lia.
Qed.

(** The counters account for every claimed job, over any store and any
    interleaving: when the goroutines of a batch have all ended, [runOnce] answers
    the number of jobs it claimed, [claimed] grew by that number, [active] is back
    to where it was, and [succeeded], [retried] and [deadLettered] together grew by
    one for each job that did not end in one of the joined errors (as 64-bit
    counters). *)
Theorem batch_accounts_for_every_job w st m b0 st1 m1 b :
  begin_batch config w st m = (Ok b0, st1, m1) ->
  rtc (batch_step ValidateCommand config env) b0 b -> batch_done b = true ->
  let '(n, errs) := batch_result b in
  claimed (b_metrics b) = add_u64 (claimed m) (Z.of_nat n) /\
  cong64 (active (b_metrics b)) (active m) /\
  cong64 (finished_ok (b_metrics b))
    (finished_ok m + Z.of_nat n - Z.of_nat (length errs)) /\ length errs <= n.
Proof.
  intros Hb Hrun Hdone. unfold batch_result.
  assert (Hinv : forall b', rtc (batch_step ValidateCommand config env) b0 b' ->
    claimed (b_metrics b') = add_u64 (claimed m) (Z.of_nat (length (b_procs b'))) /\
    cong64 (active (b_metrics b')) (active m + total live (b_procs b')) /\
    cong64 (finished_ok (b_metrics b')) (finished_ok m + total settled (b_procs b'))).
  { intros b' Hr. assert (H0 : claimed (b_metrics b0) =
        add_u64 (claimed m) (Z.of_nat (length (b_procs b0))) /\
      cong64 (active (b_metrics b0)) (active m + total live (b_procs b0)) /\
      cong64 (finished_ok (b_metrics b0)) (finished_ok m + total settled (b_procs b0))).
    { clear -Hb. unfold begin_batch in Hb. destruct (run_tx _ _) as [[es|e] s1]; [|done].
      destruct (start_all es _) as [ps m2] eqn:Hs. injection Hb as <- <- <-. cbn.
      destruct (start_all_metrics _ _ _ _ Hs) as (-> & -> & Ha & Hf & Ht).
      rewrite Ht. split_and!; [done|done|]. rewrite Hf. exists 0%Z.
      change (finished_ok (bump Claimed _ (bump Iterations 1 m))) with (finished_ok m). lia. }
    clear Hb Hrun Hdone. induction Hr as [|b0 ba bb Hs _ IH]; [done|]. apply IH. clear IH.
    destruct H0 as (Hc & [k Ha] & [k' Hf]).
    destruct Hs as [b0 i p p' s' m' Hp Hs|b0 s' _]; [|split_and!; cbn; [done|by exists k|by exists k']].
    destruct (proc_step_metrics _ _ _ _ _ _ Hs) as (Hc' & [j Ha'] & [j' Hf']). cbn.
    rewrite length_insert, (total_insert _ _ _ _ _ Hp), (total_insert _ _ _ _ _ Hp).
    split_and!; [congruence|exists (k + j)%Z; lia|exists (k' + j')%Z; lia]. }
  destruct (Hinv b Hrun) as (Hc & Ha & Hf). destruct (done_errors _ Hdone) as [Hs Hl].
  rewrite Hl, Z.add_0_r in Ha. rewrite Hs in Hf. split_and!; [done|done| |].
  - destruct Hf as [k Hf]. exists k. lia.
  - assert (0 <= total settled (b_procs b))%Z; [|lia]. clear.
    induction (b_procs b) as [|p l IH]; [done|]. cbn. unfold settled at 1.
    destruct (p_phase p) as [| | |o [err|]]; lia.
Qed.
End Accounting.

(** ** The lifecycle *)
(** Start and Shutdown: starting twice is starting once; a worker whose
    shutdown drained has stopped its loop and canceled both contexts, and no batch
    starts afterwards; a shutdown that returns an error is one whose deadline
    passed first. *)
Theorem shutdown_stops_polling l l' err deadline l2 :
  Start (Start l) = Start l /\
  (lc_started l = true -> Shutdown_finish deadline (Shutdown_begin l) l' err ->
   lc_all_canceled l' = true /\ lc_claims_canceled l' = true /\
   (err <> None -> deadline = true) /\
   (err = None -> lc_done l' = true /\
     (rtc loop_step l' l2 -> lc_done l2 = true /\ lc_batches l2 = lc_batches l'))).
Proof.
  split; [unfold Start; by destruct (lc_started l) eqn:Hs; rewrite ?Hs|].
  intros Hs Hf. unfold Shutdown_begin in Hf. rewrite Hs in Hf. cbn [negb] in Hf.
  assert (Hloop : forall a b, rtc loop_step a b -> lc_done a = true ->
    lc_done b = true /\ lc_batches b = lc_batches a).
  { intros a b Hr. induction Hr as [|a b c Hst _ IH]; [done|]. intros Hd.
    destruct Hst; cbn in *; try congruence. by apply IH. }
  inversion Hf; subst; cbn in *; [congruence|..]; split_and!; try done.
  intros _. split; [done|]. intros Hr. by apply Hloop in Hr as [-> ->].
Qed.

Lemma shutdown_stops_polling_witness :
  exists l, lc_started (Start lifecycle_init) = true /\ lc_done l = true /\
    Shutdown_finish false (Shutdown_begin l) (cancel_all (Shutdown_begin l)) None /\
    lc_all_canceled (cancel_all (Shutdown_begin l)) = true.
Proof.
  set (l := {| lc_started := true; lc_claims_canceled := true; lc_all_canceled := false;
               lc_done := true; lc_batches := 3 |}).
  exists l. split; [reflexivity|]. split; [reflexivity|].
  assert (Hf : Shutdown_finish false (Shutdown_begin l) (cancel_all (Shutdown_begin l)) None)
    by (apply shutdown_drained; reflexivity).
  split; [exact Hf|].
  exact (proj1 (proj2 (shutdown_stops_polling l (cancel_all (Shutdown_begin l)) None false l)
    eq_refl Hf)).
Defined.

(** ** A batch of one job *)
Module WorkerRun.
Import QueueRun.
Definition config : WorkerConfig :=
  {| wc_Store := true; wc_Queue := "q"; wc_Handler := true; wc_WorkerID := "w";
     wc_PollInterval := 1; wc_LeaseDuration := 100; wc_HeartbeatInterval := 30;
     wc_BatchSize := 10; wc_RetryDelay := None; wc_UnsafeLogHandlerCause := false |}.
#[export] Instance pg : Store JobDb := PostgresJobStore fmt valid None.
Definition zero : workerMetrics :=
  {| iterations := 0; claimErrors := 0; claimed := 0; succeeded := 0; retried := 0;
     deadLettered := 0; handlerPanics := 0; leaseLost := 0; active := 0 |}.

Definition no_batch : Batch := {| b_store := d2; b_procs := []; b_metrics := zero |}.
Definition begun : result JobError Batch * JobDb * workerMetrics :=
  begin_batch config (world 3 "c") d2 zero.
Definition batch0 : Batch := match begun with (Ok b, _, _) => b | _ => no_batch end.
Definition idle : Proc :=
  {| p_envelope := {| e_id := ""; e_direction := JOB_DIRECTION_INBOX; e_scope := JobScope_Global;
       e_queue := ""; e_topic := ""; e_source := ""; e_idempotency_key := "";
       e_ordering_key := ""; e_schema_version := 0; e_payload := ""; e_content_type := "";
       e_attributes := ∅; e_state := JOB_STATE_PENDING; e_priority := 0; e_attempt_count := 0;
       e_max_attempts := 0; e_lease := None; e_last_failure := None; e_available_at := 0;
       e_last_attempt_at := None; e_completed_at := None; e_dead_lettered_at := None;
       e_created_at := 0; e_updated_at := 0; e_state_version := 0; e_replay_of := "" |};
     p_phase := Handling |}.
Definition p0 : Proc := match b_procs batch0 with p :: _ => p | [] => idle end.
Definition ref0 : JobLeaseReference := lease "c" "job-A".
Definition ended :=
  conclude valid config (world 4 "") 4 false (p_envelope p0) ref0 (HandlerReturned None) None
    (b_store batch0) (b_metrics batch0).
Definition batch1 : Batch :=
  {| b_store := b_store batch0; b_procs := [at_phase p0 (Returned (HandlerReturned None) None)];
     b_metrics := b_metrics batch0 |}.
Definition batch2 : Batch :=
  match ended with
  | (o, err, d, m) => {| b_store := d; b_procs := [at_phase p0 (Done o err)]; b_metrics := m |}
  end.

Lemma begun_ok : begun = (Ok batch0, b_store batch0, bump Claimed 1 (bump Iterations 1 zero)).
Proof. vm_compute. reflexivity. Qed.
Lemma procs0 : b_procs batch0 = [p0].
Proof. vm_compute. reflexivity. Qed.
Lemma run01 env : batch_step valid config env batch0 batch1.
Proof.
  assert (H := bs_proc valid config env batch0 0 p0
    (at_phase p0 (Returned (HandlerReturned None) None)) (b_store batch0) (b_metrics batch0)).
  rewrite procs0 in H. apply H; [reflexivity|]. apply ps_return. vm_compute. reflexivity.
Qed.
Lemma ended_ok :
  ended = ("succeeded", None, b_store batch2, b_metrics batch2).
Proof. vm_compute. reflexivity. Qed.
Lemma at_phase_twice (p : Proc) a b : at_phase (at_phase p a) b = at_phase p b.
Proof. reflexivity. Qed.
Lemma run12 env : batch_step valid config env batch1 batch2.
Proof.
  assert (H := bs_proc valid config env batch1 0
    (at_phase p0 (Returned (HandlerReturned None) None)) (at_phase p0 (Done "succeeded" None))
    (b_store batch2) (b_metrics batch2)).
  assert (E : batch2 = {| b_store := b_store batch2;
    b_procs := [at_phase p0 (Done "succeeded" None)]; b_metrics := b_metrics batch2 |})
    by (vm_compute; reflexivity).
  rewrite E. apply H; [reflexivity|].
  rewrite <- (at_phase_twice p0 (Returned (HandlerReturned None) None)).
  apply (ps_conclude valid config (at_phase p0 (Returned (HandlerReturned None) None)) ref0
    (world 4 "") 4 false (HandlerReturned None) None (b_store batch1) (b_metrics batch1)
    "succeeded" None (b_store batch2) (b_metrics batch2)).
  - reflexivity.
  - vm_compute. reflexivity.
  - vm_compute. reflexivity.
Qed.
Lemma store0 : b_store batch0 = d3.
Proof. vm_compute. reflexivity. Qed.
End WorkerRun.

Lemma batch_accounts_for_every_job_witness :
  exists n errs, batch_result WorkerRun.batch2 = (n, errs) /\ n = 1 /\ length errs <= n.
Proof.
  pose proof (batch_accounts_for_every_job QueueRun.valid WorkerRun.config eq
    (QueueRun.world 3 "c") QueueRun.d2 WorkerRun.zero WorkerRun.batch0 _ _ WorkerRun.batch2
    WorkerRun.begun_ok
    (rtc_l _ _ _ _ (WorkerRun.run01 eq) (rtc_once _ _ (WorkerRun.run12 eq)))
    ltac:(vm_compute; reflexivity)) as H.
  destruct (batch_result WorkerRun.batch2) as [n errs] eqn:E.
  exists n, errs. split; [reflexivity|]. split; [|exact (proj2 (proj2 (proj2 H)))].
  vm_compute in E. by injection E as <- <-.
Defined.

Lemma reported_outcomes_are_durable_witness :
  Forall (reported (b_store WorkerRun.batch2)) (b_procs WorkerRun.batch2).
Proof.
  apply (reported_outcomes_are_durable QueueRun.fmt QueueRun.b64 QueueRun.print QueueRun.valid
    QueueRun.uuid None WorkerRun.config WorkerRun.batch0 WorkerRun.batch2).
  - rewrite WorkerRun.store0. exact QueueRun.reach3.
  - rewrite WorkerRun.procs0. apply Forall_cons. split; [|by apply Forall_nil].
    intros o Ho. exfalso. vm_compute in Ho. discriminate Ho.
  - exact (rtc_l _ _ _ _ (WorkerRun.run01 _) (rtc_once _ _ (WorkerRun.run12 _))).
Defined.

#[local] Existing Instance WorkerRun.pg.

Lemma durable_failures_are_safe_witness :
  exists row, messages (b_store WorkerRun.batch2) !! "job-A" = Some row /\
    (m_last_error_code row = None \/ messages QueueRun.d3 !! "job-A" = Some row \/
     exists f, m_last_error_code row = Some (f_code f)).
Proof.
  assert (Hrow : messages (b_store WorkerRun.batch2) !! "job-A" =
    Some (QueueRun.row (b_store WorkerRun.batch2) "job-A"))
    by (apply QueueRun.found; vm_compute; reflexivity).
  eexists. split; [exact Hrow|].
  assert (Hended : conclude QueueRun.valid WorkerRun.config (QueueRun.world 4 "") 4 false
    (p_envelope WorkerRun.p0) WorkerRun.ref0 (HandlerReturned None) None QueueRun.d3
    (b_metrics WorkerRun.batch0) =
    ("succeeded", None, b_store WorkerRun.batch2, b_metrics WorkerRun.batch2))
    by (rewrite <- WorkerRun.store0; exact WorkerRun.ended_ok).
  destruct (durable_failures_are_safe QueueRun.fmt QueueRun.b64 QueueRun.print QueueRun.valid
    QueueRun.uuid None WorkerRun.config _ _ _ _ _ _ _ _ _ _ _ _ _ _ _ QueueRun.reach3 Hended Hrow)
    as [H|(_ & [H|(f & _ & H & _)])].
  - right. left. exact H.
  - left. exact H.
  - right. right. exists f. exact H.
Defined.
