(* ===== verification/RoleCatalog.v ===== *)
(** The built-in role catalog: accounts/code/pkg/rolecatalog (catalog.go parses and
    canonicalizes a catalog document, plan.go computes and prints the plan that
    reconciles the database with it) and the importer of
    accounts/code/pkg/infra/postgres_role_catalog.go, over the tables the import
    reads, writes or cascades into: roles, role_permissions, role_assignments,
    scope_grants, record_shares and the audit log.

    JSON decoding and encoding, SHA-256 and the quoting of %q are parameters, as
    is the collation the database orders text by. *)
From S2P Require Import Prelude.
From Stdlib Require Import Ascii.
From stdpp Require Import pretty.

(** ** The catalog (catalog.go) *)
Definition SupportedVersion : Z := 1.

Record Permission : Type := {
  p_resource : string;
  p_action : string;
}.
#[export] Instance Permission_eq_dec : EqDecision Permission.
Proof. solve_decision. Defined.
#[export] Instance Permission_countable : Countable Permission.
Proof.
  refine (inj_countable' (fun p => (p_resource p, p_action p))
    (fun x => {| p_resource := x.1; p_action := x.2 |}) _). by intros [].
Defined.

Record Role : Type := {
  r_name : string;
  r_description : string;
  r_scope : string;
  r_permissions : list Permission;
}.

Record Catalog : Type := {
  cat_version : Z;
  cat_roles : list Role;
}.

Inductive CatalogError : Type :=
| ErrDecode (why : string)
| ErrTrailingContent
| ErrVersion (version : Z)
| ErrRoleName (name : string)
| ErrDuplicateRole (name : string)
| ErrScope (name scope : string)
| ErrPermissionResource (name resource : string)
| ErrPermissionAction (name action : string)
| ErrDuplicatePermission (name : string) (p : Permission).

(** The byte classes of namePattern and tokenPattern. *)
Definition alnum (c : ascii) : bool :=
  let n := nat_of_ascii c in
  ((65 <=? n)%nat && (n <=? 90)%nat)
  || ((97 <=? n)%nat && (n <=? 122)%nat)
  || ((48 <=? n)%nat && (n <=? 57)%nat).
Definition name_char (c : ascii) : bool :=
  alnum c || bool_decide (c ∈ String.list_ascii_of_string ":_./-").

Definition namePattern (s : string) : bool :=
  match s with
  | EmptyString => false
  | String c rest => alnum c && forallb name_char (String.list_ascii_of_string rest)
  end.
Definition tokenPattern (s : string) : bool := bool_decide (s = "*") || namePattern s.

Definition Permission_String (p : Permission) : string :=
  p_resource p +:+ ":" +:+ p_action p.

Definition less (a b : Permission) : bool :=
  if decide (p_resource a = p_resource b) then String.ltb (p_action a) (p_action b)
  else String.ltb (p_resource a) (p_resource b).

(** sort.Slice by [less], and by a name: the orders are total, and equal elements
    are identical permissions, or roles of one name. *)
Definition perm_le (a b : Permission) : Prop := less b a = false.
#[export] Instance perm_le_dec : RelDecision perm_le.
Proof. intros a b. unfold perm_le. apply _. Defined.
Definition name_le {A} (name : A -> string) (x y : A) : Prop := String.le (name x) (name y).
#[export] Instance name_le_dec {A} (name : A -> string) : RelDecision (name_le name).
Proof. intros x y. unfold name_le. apply _. Defined.

Definition sort_perms (ps : list Permission) : list Permission := merge_sort perm_le ps.
Definition sort_names {A} (name : A -> string) (l : list A) : list A :=
  merge_sort (name_le name) l.

Fixpoint check_permissions (role : string) (seen : gset Permission) (ps : list Permission)
    : result CatalogError unit :=
  match ps with
  | [] => Ok tt
  | p :: ps =>
      guard! tokenPattern (p_resource p) else ErrPermissionResource role (p_resource p);
      guard! tokenPattern (p_action p) else ErrPermissionAction role (p_action p);
      guard! negb (bool_decide (p ∈ seen)) else ErrDuplicatePermission role p;
      check_permissions role ({[p]} ∪ seen) ps
  end.

Definition canonicalizePermissions (role : Role) : result CatalogError Role :=
  _ ← check_permissions (r_name role) ∅ (r_permissions role);
  Ok {| r_name := r_name role; r_description := r_description role;
        r_scope := r_scope role; r_permissions := sort_perms (r_permissions role) |}.

Fixpoint check_roles (seen : gset string) (roles : list Role)
    : result CatalogError (list Role) :=
  match roles with
  | [] => Ok []
  | role :: roles =>
      guard! namePattern (r_name role) else ErrRoleName (r_name role);
      guard! negb (bool_decide (r_name role ∈ seen)) else ErrDuplicateRole (r_name role);
      guard! bool_decide (r_scope role = "") || namePattern (r_scope role)
        else ErrScope (r_name role) (r_scope role);
      role' ← canonicalizePermissions role;
      rest ← check_roles ({[r_name role]} ∪ seen) roles;
      Ok (role' :: rest)
  end.

(** ** The plan (plan.go) *)
Record StateRole : Type := {
  sr_id : string;
  sr_name : string;
  sr_description : string;
  sr_scope : string;
  sr_catalog_managed : bool;
  sr_permissions : list Permission;
  sr_assignment_count : Z;
}.

Record RoleCreate : Type := { rc_role : Role }.

Record StringChange : Type := { sc_from : string; sc_to : string }.

Record RoleUpdate : Type := {
  ru_role_id : string;
  ru_name : string;
  ru_adopt_managed : bool;
  ru_description_change : option StringChange;
  ru_scope_change : option StringChange;
  ru_add_permissions : list Permission;
  ru_remove_permissions : list Permission;
  ru_desired_description : string;
  ru_desired_scope : string;
}.

Definition RowChanged (u : RoleUpdate) : bool :=
  ru_adopt_managed u || bool_decide (is_Some (ru_description_change u))
  || bool_decide (is_Some (ru_scope_change u)).

Record RoleRemove : Type := {
  rm_role_id : string;
  rm_name : string;
  rm_assignment_count : Z;
  rm_permissions : list Permission;
}.

Record Plan : Type := {
  pl_creates : list RoleCreate;
  pl_updates : list RoleUpdate;
  pl_removes : list RoleRemove;
}.

Definition Plan_Empty (p : Plan) : bool :=
  bool_decide (length (pl_creates p) = 0%nat) && bool_decide (length (pl_updates p) = 0%nat)
  && bool_decide (length (pl_removes p) = 0%nat).

Definition OrphaningRemovals (p : Plan) : list RoleRemove :=
  filter (fun r => (0 < rm_assignment_count r)%Z) (pl_removes p).

Definition diffPermissions (current want : list Permission)
    : list Permission * list Permission :=
  let have : gset Permission := list_to_set current in
  let wanted : gset Permission := list_to_set want in
  (sort_perms (filter (fun p => p ∉ have) want),
   sort_perms (filter (fun p => p ∉ wanted) current)).

Definition string_change (from to : string) : option StringChange :=
  if decide (from = to) then None else Some {| sc_from := from; sc_to := to |}.

Definition diffRole (current : StateRole) (want : Role) : RoleUpdate * bool :=
  let '(add, remove) := diffPermissions (sr_permissions current) (r_permissions want) in
  let update := {|
    ru_role_id := sr_id current;
    ru_name := sr_name current;
    ru_adopt_managed := negb (sr_catalog_managed current);
    ru_description_change := string_change (sr_description current) (r_description want);
    ru_scope_change := string_change (sr_scope current) (r_scope want);
    ru_add_permissions := add;
    ru_remove_permissions := remove;
    ru_desired_description := r_description want;
    ru_desired_scope := r_scope want;
  |} in
  (update, RowChanged update || (0 <? length add)%nat || (0 <? length remove)%nat).

(** The loop over the catalog: what is created and what is updated, in its order. *)
Fixpoint diff_wanted (byName : gmap string StateRole) (wants : list Role)
    : list RoleCreate * list RoleUpdate :=
  match wants with
  | [] => ([], [])
  | want :: wants =>
      let '(creates, updates) := diff_wanted byName wants in
      match byName !! r_name want with
      | None => ({| rc_role := want |} :: creates, updates)
      | Some current =>
          let '(update, changed) := diffRole current want in
          (creates, if changed then update :: updates else updates)
      end
  end.

Definition role_remove (current : StateRole) : RoleRemove :=
  {| rm_role_id := sr_id current; rm_name := sr_name current;
     rm_assignment_count := sr_assignment_count current;
     rm_permissions := sr_permissions current |}.

Definition Diff (state : list StateRole) (catalog : Catalog) : Plan :=
  let byName : gmap string StateRole :=
    foldl (fun m r => <[sr_name r := r]> m) ∅ state in
  let desired : gset string := list_to_set (map r_name (cat_roles catalog)) in
  let '(creates, updates) := diff_wanted byName (cat_roles catalog) in
  let removes := map role_remove
    (filter (fun r => sr_catalog_managed r = true /\ sr_name r ∉ desired) state) in
  {| pl_creates := sort_names (fun c => r_name (rc_role c)) creates;
     pl_updates := sort_names ru_name updates;
     pl_removes := sort_names rm_name removes |}.

Section Text.
(** [fmt]'s %q: the Go quoting of a text. *)
Context (quote : string -> string).

Definition nl : string := String (ascii_of_nat 10) EmptyString.
Definition line (s : string) : string := s +:+ nl.
Definition permission_lines (sign : string) (ps : list Permission) : string :=
  String.concat "" (map (fun p => line ("  " +:+ sign +:+ " permission " +:+ Permission_String p)) ps).

Definition format_create (c : RoleCreate) : string :=
  let r := rc_role c in
  line ("create role " +:+ quote (r_name r)) +:+
  (if decide (r_scope r = "") then "" else line ("  scope " +:+ r_scope r)) +:+
  (if decide (r_description r = "") then ""
   else line ("  description " +:+ quote (r_description r))) +:+
  permission_lines "+" (r_permissions r) +:+ nl.

Definition format_change (what : string) (c : option StringChange) : string :=
  match c with
  | None => ""
  | Some c => line ("  " +:+ what +:+ " " +:+ quote (sc_from c) +:+ " -> " +:+ quote (sc_to c))
  end.

Definition format_update (u : RoleUpdate) : string :=
  line ("update role " +:+ quote (ru_name u)) +:+
  (if ru_adopt_managed u then line "  adopt into catalog management" else "") +:+
  format_change "description" (ru_description_change u) +:+
  format_change "scope" (ru_scope_change u) +:+
  permission_lines "-" (ru_remove_permissions u) +:+
  permission_lines "+" (ru_add_permissions u) +:+ nl.

Definition format_remove (r : RoleRemove) : string :=
  line ("remove role " +:+ quote (rm_name r) +:+ " (" +:+ pretty (rm_assignment_count r)
        +:+ " assignment(s))") +:+
  permission_lines "-" (rm_permissions r) +:+ nl.

Definition Format (p : Plan) : string :=
  line "role catalog plan" +:+ nl +:+
  (if Plan_Empty p then line "no changes"
   else String.concat "" (map format_create (pl_creates p)) +:+
        String.concat "" (map format_update (pl_updates p)) +:+
        String.concat "" (map format_remove (pl_removes p))).
End Text.

Section Documents.
(** [json.Decoder] with unknown fields refused: the document, and whether more
    content follows it ([decoder.More]); [json.Marshal] and the hex SHA-256. *)
Context (decode : string -> result string (Catalog * bool)).
Context (json_marshal : Catalog -> result string string).
Context (sha256_hex : string -> string).

Definition Parse (document : string) : result CatalogError Catalog :=
  match decode document with
  | Err why => Err (ErrDecode why)
  | Ok (catalog, more) =>
      guard! negb more else ErrTrailingContent;
      guard! bool_decide (cat_version catalog = SupportedVersion)
        else ErrVersion (cat_version catalog);
      roles ← check_roles ∅ (cat_roles catalog);
      Ok {| cat_version := cat_version catalog; cat_roles := sort_names r_name roles |}
  end.

Definition Fingerprint (c : Catalog) : string :=
  match json_marshal c with Err _ => "" | Ok encoded => sha256_hex encoded end.
End Documents.

(** ** The tables *)
Record RoleRow : Type := {
  rr_name : string;
  rr_description : option string;
  rr_built_in : bool;
  rr_org_id : option string;
  rr_scope : option string;
  rr_catalog_managed : bool;
  rr_derived_from : option string;
  rr_created_at : instant;
}.

(** role_assignments, scope_grants and record_shares: who holds a role, and on
    what (nothing, a scope path, a record). *)
Record Holding : Type := {
  h_role : string;
  h_subject : string;
  h_org : option string;
  h_on : string;
  h_derived_from : option string;  (** of a scope grant: the grant that caused it *)
}.

Inductive RoleEvent : Type := EventRoleCreated | EventRoleUpdated | EventRoleDeleted.

Record RoleAudit : Type := {
  ra_event : RoleEvent;
  ra_role : string;
  ra_payload : gmap string string;
}.

(** Rows by primary key; role_permissions, keyed by (role, resource, action), as
    the set of permissions of each role. *)
Record RoleDb : Type := {
  roles : gmap string RoleRow;
  role_permissions : gmap string (gset Permission);
  role_assignments : gmap string Holding;
  scope_grants : gmap string Holding;
  record_shares : gmap string Holding;
  role_audit : list RoleAudit;
}.

Inductive RoleError : Type :=
| ErrRoleUnique
| ErrRoleReference
| ErrPermissionUnique.

Abbreviation R := (tx RoleDb RoleError).

Definition perms_of (d : RoleDb) (id : string) : gset Permission :=
  default ∅ (role_permissions d !! id).

Definition set_roles (rs : gmap string RoleRow) (d : RoleDb) : RoleDb :=
  {| roles := rs; role_permissions := role_permissions d;
     role_assignments := role_assignments d; scope_grants := scope_grants d;
     record_shares := record_shares d; role_audit := role_audit d |}.
Definition set_perms (id : string) (ps : gset Permission) (d : RoleDb) : RoleDb :=
  {| roles := roles d; role_permissions := <[id := ps]> (role_permissions d);
     role_assignments := role_assignments d; scope_grants := scope_grants d;
     record_shares := record_shares d; role_audit := role_audit d |}.
Definition add_role_audit (a : RoleAudit) (d : RoleDb) : RoleDb :=
  {| roles := roles d; role_permissions := role_permissions d;
     role_assignments := role_assignments d; scope_grants := scope_grants d;
     record_shares := record_shares d; role_audit := role_audit d ++ [a] |}.

(** ON DELETE CASCADE of derived_from_grant_id: with a grant go the grants it caused, and
    theirs; a chain is no longer than the table. *)
Definition caused_by (gone : gset string) (h : Holding) : Prop :=
  match h_derived_from h with Some cause => cause ∈ gone | None => False end.
#[export] Instance caused_by_dec gone h : Decision (caused_by gone h).
Proof. unfold caused_by. destruct (h_derived_from h); apply _. Defined.
Definition also_gone (grants : gmap string Holding) (gone : gset string) : gset string :=
  gone ∪ dom (filter (fun kv => caused_by gone kv.2) grants).
Definition cascaded (grants : gmap string Holding) (gone : gset string) : gset string :=
  Nat.iter (size grants) (also_gone grants) gone.
Definition delete_grants (id : string) (grants : gmap string Holding) : gmap string Holding :=
  let gone := cascaded grants (dom (filter (fun kv => h_role kv.2 = id) grants)) in
  filter (fun kv => kv.1 ∉ gone) grants.

(** DELETE FROM roles WHERE id = ...: four foreign keys cascade. *)
Definition delete_role (id : string) (d : RoleDb) : RoleDb :=
  {| roles := delete id (roles d); role_permissions := delete id (role_permissions d);
     role_assignments := filter (fun kv => h_role kv.2 <> id) (role_assignments d);
     scope_grants := delete_grants id (scope_grants d);
     record_shares := filter (fun kv => h_role kv.2 <> id) (record_shares d);
     role_audit := role_audit d |}.

Definition nilIfEmpty (s : string) : option string :=
  if decide (s = "") then None else Some s.

(** ** The importer (postgres_role_catalog.go) *)

Section Importer.
Context (json_marshal : Catalog -> result string string).
Context (sha256_hex : string -> string).
(** The collation of the database, and what one call reads from outside: the ids
    it draws and the clock. *)
Context (collate : string -> string -> Prop) `{!RelDecision collate}.
Context (new_id : nat -> string) (now : instant).

Record ImportOptions : Type := {
  io_dry_run : bool;
  io_force : bool;
  io_source : string;
}.

Record ImportResult : Type := {
  ir_plan : Plan;
  ir_applied : bool;
  ir_refused : bool;
  ir_refusal_reason : string;
}.

(** *** Snapshot *)
Definition in_snapshot (r : RoleRow) : bool :=
  bool_decide (rr_derived_from r = None) && bool_decide (rr_org_id r = None) && rr_built_in r.

(** One row of the join: the role's id and row, and one permission of it or NULLs. *)
Definition JoinRow : Type := (string * RoleRow * option Permission)%type.

Definition join_rows (d : RoleDb) (kv : string * RoleRow) : list JoinRow :=
  match elements (perms_of d kv.1) with
  | [] => [(kv.1, kv.2, None)]
  | ps => map (fun p => (kv.1, kv.2, Some p)) ps
  end.

(** ORDER BY name, resource, action. *)
Definition join_text (x : JoinRow) : list string :=
  rr_name x.1.2 :: match x.2 with None => [] | Some p => [p_resource p; p_action p] end.
Fixpoint collate_texts (xs ys : list string) : bool :=
  match xs, ys with
  | [], _ => true
  | _ :: _, [] => false
  | x :: xs, y :: ys => if decide (x = y) then collate_texts xs ys else bool_decide (collate x y)
  end.
Definition join_le (x y : JoinRow) : Prop := collate_texts (join_text x) (join_text y) = true.
#[local] Instance join_le_dec : RelDecision join_le.
Proof. intros x y. unfold join_le. apply _. Defined.

Definition snapshot_rows (d : RoleDb) : list JoinRow :=
  merge_sort join_le
    (flat_map (join_rows d)
      (filter (fun kv => in_snapshot kv.2 = true) (map_to_list (roles d)))).

(** The scan loop: [byID] and [order]. *)
Definition scan_role (id : string) (r : RoleRow) : StateRole :=
  {| sr_id := id; sr_name := rr_name r; sr_description := default "" (rr_description r);
     sr_scope := default "" (rr_scope r); sr_catalog_managed := rr_catalog_managed r;
     sr_permissions := []; sr_assignment_count := 0 |}.
Definition add_permission (o : option Permission) (r : StateRole) : StateRole :=
  match o with
  | None => r
  | Some p =>
      {| sr_id := sr_id r; sr_name := sr_name r; sr_description := sr_description r;
         sr_scope := sr_scope r; sr_catalog_managed := sr_catalog_managed r;
         sr_permissions := sr_permissions r ++ [p];
         sr_assignment_count := sr_assignment_count r |}
  end.
Definition scan_row (acc : gmap string StateRole * list string) (x : JoinRow)
    : gmap string StateRole * list string :=
  let '(byID, order) := acc in
  let '(id, row, permission) := x in
  match byID !! id with
  | Some role => (<[id := add_permission permission role]> byID, order)
  | None => (<[id := add_permission permission (scan_role id row)]> byID, order ++ [id])
  end.

Definition count_assignments (d : RoleDb) (id : string) : Z :=
  Z.of_nat (size (filter (fun kv : string * Holding => h_role kv.2 = id) (role_assignments d))).

Definition set_count (n : Z) (r : StateRole) : StateRole :=
  {| sr_id := sr_id r; sr_name := sr_name r; sr_description := sr_description r;
     sr_scope := sr_scope r; sr_catalog_managed := sr_catalog_managed r;
     sr_permissions := sr_permissions r; sr_assignment_count := n |}.

Definition attachAssignmentCounts (d : RoleDb) (byID : gmap string StateRole)
    : gmap string StateRole :=
  map_imap (fun id r => Some
    (if sr_catalog_managed r && (0 <? count_assignments d id)%Z
     then set_count (count_assignments d id) r else r)) byID.

Definition snapshotBuiltinRoles (d : RoleDb) : list StateRole :=
  let '(byID, order) := foldl scan_row (∅, []) (snapshot_rows d) in
  let byID := attachAssignmentCounts d byID in
  omap (fun id => byID !! id) order.

(** *** Guards *)
Definition refuseImport (cat : Catalog) (plan : Plan) (force : bool) : string * bool :=
  if force then ("", false)
  else if bool_decide (length (cat_roles cat) = 0%nat) && (0 <? length (pl_removes plan))%nat
  then ("catalog declares no roles; applying it would remove all " +:+
        pretty (length (pl_removes plan)) +:+
        " catalog-managed role(s). Rerun with force to confirm.", true)
  else
    let orphaning := OrphaningRemovals plan in
    if (0 <? length orphaning)%nat
    then (pretty (length orphaning) +:+
          " role removal(s) would orphan existing assignments. Rerun with force to apply.", true)
    else ("", false).

Definition catalogProvenance (cat : Catalog) (source : string) : gmap string string :=
  let provenance := {["catalog_sha256" := Fingerprint json_marshal sha256_hex cat]} in
  if decide (source = "") then provenance else <["catalog_source" := source]> provenance.

(** *** Apply *)
Definition emitCatalogAudit (event : RoleEvent) (id : string)
    (metadata provenance : gmap string string) : R unit := fun d =>
  Ok (tt, add_role_audit
    {| ra_event := event; ra_role := id; ra_payload := provenance ∪ metadata |} d).

(** Unique (id), (org_id, name) and, without an organization, (name). *)
Definition insert_role (id : string) (r : RoleRow) : R unit := fun d =>
  if decide (roles d !! id = None /\
      map_Forall (fun _ r' => rr_name r' = rr_name r -> rr_org_id r' <> rr_org_id r) (roles d))
  then Ok (tt, set_roles (<[id := r]> (roles d)) d)
  else Err ErrRoleUnique.

Definition insertRolePermission (id : string) (p : Permission) : R unit := fun d =>
  if decide (roles d !! id = None) then Err ErrRoleReference
  else if decide (p ∈ perms_of d id) then Err ErrPermissionUnique
  else Ok (tt, set_perms id ({[p]} ∪ perms_of d id) d).

Definition delete_permission (id : string) (p : Permission) : R unit := fun d =>
  Ok (tt, set_perms id (perms_of d id ∖ {[p]}) d).

(** UPDATE roles SET description, scope, catalog_managed = true WHERE id = ... *)
Definition updated_row (u : RoleUpdate) (r : RoleRow) : RoleRow :=
  {| rr_name := rr_name r; rr_description := nilIfEmpty (ru_desired_description u);
     rr_built_in := rr_built_in r; rr_org_id := rr_org_id r;
     rr_scope := nilIfEmpty (ru_desired_scope u); rr_catalog_managed := true;
     rr_derived_from := rr_derived_from r; rr_created_at := rr_created_at r |}.
Definition update_role (u : RoleUpdate) : R unit := fun d =>
  Ok (tt, set_roles (alter (updated_row u) (ru_role_id u) (roles d)) d).

Fixpoint run_all {A} (f : A -> R unit) (l : list A) : R unit :=
  match l with
  | [] => mret tt
  | x :: l => _ ← f x; run_all f l
  end.

Definition created_row (r : Role) : RoleRow :=
  {| rr_name := r_name r; rr_description := nilIfEmpty (r_description r);
     rr_built_in := true; rr_org_id := None; rr_scope := nilIfEmpty (r_scope r);
     rr_catalog_managed := true; rr_derived_from := None; rr_created_at := now |}.

Definition apply_create (provenance : gmap string string) (x : nat * RoleCreate) : R unit :=
  let '(i, c) := x in
  let r := rc_role c in
  _ ← insert_role (new_id i) (created_row r);
  _ ← run_all (insertRolePermission (new_id i)) (r_permissions r);
  emitCatalogAudit EventRoleCreated (new_id i)
    (<["name" := r_name r]> {["permissions_added" := pretty (length (r_permissions r))]})
    provenance.

Definition apply_update (provenance : gmap string string) (u : RoleUpdate) : R unit :=
  _ ← (if RowChanged u then update_role u else mret tt);
  _ ← run_all (delete_permission (ru_role_id u)) (ru_remove_permissions u);
  _ ← run_all (insertRolePermission (ru_role_id u)) (ru_add_permissions u);
  emitCatalogAudit EventRoleUpdated (ru_role_id u)
    (<["name" := ru_name u]>
     (<["permissions_added" := pretty (length (ru_add_permissions u))]>
      {["permissions_removed" := pretty (length (ru_remove_permissions u))]}))
    provenance.

Definition apply_remove (provenance : gmap string string) (r : RoleRemove) : R unit :=
  _ ← (fun d => Ok (tt, delete_role (rm_role_id r) d));
  emitCatalogAudit EventRoleDeleted (rm_role_id r)
    (<["name" := rm_name r]> {["assignments_removed" := pretty (rm_assignment_count r)]})
    provenance.

Definition indexed {A} (l : list A) : list (nat * A) := imap pair l.

Definition applyRoleCatalogPlan (plan : Plan) (provenance : gmap string string) : R unit :=
  _ ← run_all (apply_create provenance) (indexed (pl_creates plan));
  _ ← run_all (apply_update provenance) (pl_updates plan);
  run_all (apply_remove provenance) (pl_removes plan).

(** The transaction runs at READ COMMITTED, each statement on the rows committed
    before it: [concurrent] is what other transactions commit between the snapshot
    and the writes. *)
Definition ImportRoleCatalog (concurrent : RoleDb -> RoleDb) (cat : Catalog)
    (opts : ImportOptions) : R ImportResult := fun d =>
  let plan := Diff (snapshotBuiltinRoles d) cat in
  let result := {| ir_plan := plan; ir_applied := false; ir_refused := false;
                   ir_refusal_reason := "" |} in
  let d := concurrent d in
  if io_dry_run opts then Ok (result, d)
  else
    let '(reason, refused) := refuseImport cat plan (io_force opts) in
    if refused
    then Ok ({| ir_plan := plan; ir_applied := false; ir_refused := true;
                ir_refusal_reason := reason |}, d)
    else
      (_ ← applyRoleCatalogPlan plan (catalogProvenance cat (io_source opts));
       mret {| ir_plan := plan; ir_applied := true; ir_refused := false;
               ir_refusal_reason := "" |}) d.
End Importer.
