(* ===== verification/RoleCatalogProofs.v ===== *)
(** Lemmas about the role catalog: the orders it sorts by, the canonical form of a
    parsed catalog, the snapshot, the plan and its application. *)
From S2P Require Import Prelude RoleCatalog.
From Stdlib Require Import Ascii.

(** ** Orders *)
Lemma ltb_le a b : String.ltb a b = false <-> String.le b a.
Proof.
  unfold String.le, String.ltb, String.leb. rewrite (String.compare_antisym a b).
  destruct (String.compare b a); simpl; by split.
Qed.

Lemma perm_le_iff a b :
  perm_le a b <->
  if decide (p_resource a = p_resource b) then String.le (p_action a) (p_action b)
  else String.le (p_resource a) (p_resource b).
Proof.
  unfold perm_le, less. destruct (decide (p_resource b = p_resource a)) as [He|He];
    case_decide; try congruence; apply ltb_le.
Qed.

#[export] Instance perm_le_total : Total perm_le.
Proof.
  intros a b. rewrite !perm_le_iff.
  repeat case_decide; try congruence; apply String.le_total.
Qed.

#[export] Instance perm_le_antisym : AntiSymm (=) perm_le.
Proof.
  intros [ar aa] [br ba]. rewrite !perm_le_iff. simpl. intros H1 H2.
  repeat case_decide; try congruence; simplify_eq.
  - f_equal. by apply (anti_symm String.le).
  - exfalso. by apply H, (anti_symm String.le).
Qed.

#[export] Instance perm_le_trans : Transitive perm_le.
Proof.
  intros [ar aa] [br ba] [cr ca]. rewrite !perm_le_iff. simpl. intros H1 H2.
  repeat case_decide; simplify_eq; try done;
    try (by etrans); try (by subst).
  exfalso. by apply H, (anti_symm String.le).
Qed.

Section Names.
Context {A : Type} (name : A -> string).

#[export] Instance name_le_total : Total (name_le name).
Proof. intros x y. apply String.le_total. Qed.
#[export] Instance name_le_trans : Transitive (name_le name).
Proof. intros x y z H1 H2. unfold name_le in *. by etrans. Qed.

(** A list without two elements of one name sorts in one way. *)
Lemma sort_names_perm l l' : NoDup (map name l) -> l ≡ₚ l' -> sort_names name l = sort_names name l'.
Proof.
  intros Hn Hp. unfold sort_names.
  apply (StronglySorted_unique_strong (name_le name)).
  - intros x y Hx Hy H1 H2. rewrite merge_sort_Permutation in Hx. rewrite merge_sort_Permutation in Hy.
    rewrite <- Hp in Hy. assert (Hne : name x = name y) by by apply (anti_symm String.le).
    by apply (NoDup_map_inj_in name l).
  - apply (StronglySorted_merge_sort _).
  - apply (StronglySorted_merge_sort _).
  - by rewrite !merge_sort_Permutation.
Qed.

Lemma sort_names_elem x l : x ∈ sort_names name l <-> x ∈ l.
Proof. unfold sort_names. by rewrite merge_sort_Permutation. Qed.
Lemma sort_names_Permutation l : sort_names name l ≡ₚ l.
Proof. apply merge_sort_Permutation. Qed.
End Names.

Lemma sort_perms_Permutation ps : sort_perms ps ≡ₚ ps.
Proof. apply merge_sort_Permutation. Qed.
Lemma sort_perms_elem p ps : p ∈ sort_perms ps <-> p ∈ ps.
Proof. by rewrite sort_perms_Permutation. Qed.
Lemma sort_perms_unique ps ps' : ps ≡ₚ ps' -> sort_perms ps = sort_perms ps'.
Proof.
  intros Hp. apply (StronglySorted_unique perm_le).
  - apply (StronglySorted_merge_sort _).
  - apply (StronglySorted_merge_sort _).
  - by rewrite !sort_perms_Permutation.
Qed.

(** ** Parsing *)
Definition good_permission (p : Permission) : bool :=
  tokenPattern (p_resource p) && tokenPattern (p_action p).
Definition good_role (r : Role) : bool :=
  namePattern (r_name r) && (bool_decide (r_scope r = "") || namePattern (r_scope r)) &&
  forallb good_permission (r_permissions r) && bool_decide (NoDup (r_permissions r)).
Definition canonical_role (r : Role) : Role :=
  {| r_name := r_name r; r_description := r_description r; r_scope := r_scope r;
     r_permissions := sort_perms (r_permissions r) |}.

Lemma check_permissions_ok role seen ps :
  check_permissions role seen ps = Ok tt <->
  forallb good_permission ps = true /\ NoDup ps /\ Forall (.∉ seen) ps.
Proof.
  revert seen. induction ps as [|p ps IH]; intros seen; simpl.
  { split; [|done]. intros _. split_and!; [done|constructor|constructor]. }
  unfold good_permission at 1.
  destruct (tokenPattern (p_resource p)); [|split; [done|by intros [? ?]]].
  destruct (tokenPattern (p_action p)); [|split; [done|by intros [? ?]]]. simpl.
  rewrite NoDup_cons, Forall_cons.
  destruct (decide (p ∈ seen)) as [Hs|Hs]; [rewrite bool_decide_true by done|rewrite bool_decide_false by done]; simpl.
  { split; [done|tauto]. }
  rewrite IH. rewrite !Forall_forall. split.
  - intros (Hg & Hn & Hf). split; [done|]. split; [split; [|done]|split; [done|]].
    + intros Hp. specialize (Hf p Hp). set_solver.
    + intros q Hq. specialize (Hf q Hq). set_solver.
  - intros (Hg & [Hp Hn] & _ & Hf). split; [done|]. split; [done|].
    intros q Hq. specialize (Hf q Hq). rewrite not_elem_of_union, not_elem_of_singleton.
    split; [|done]. by intros ->.
Qed.

Lemma check_roles_ok seen rs out :
  check_roles seen rs = Ok out <->
  forallb good_role rs = true /\ NoDup (map r_name rs) /\ Forall (.∉ seen) (map r_name rs) /\
  out = map canonical_role rs.
Proof.
  revert seen out. induction rs as [|r rs IH]; intros seen out; simpl.
  { split; [|by intros (_ & _ & _ & ->)]. intros [= <-]. split_and!; try done; constructor. }
  unfold good_role at 1. rewrite NoDup_cons, Forall_cons.
  destruct (namePattern (r_name r)); [|split; [done|by intros [? ?]]]. simpl.
  destruct (decide (r_name r ∈ seen)) as [Hs|Hs];
    [rewrite (bool_decide_true (_ ∈ seen)) by done|rewrite (bool_decide_false (_ ∈ seen)) by done]; simpl.
  { split; [done|tauto]. }
  destruct (bool_decide (r_scope r = "") || namePattern (r_scope r)); [|split; [done|by intros [? ?]]]. simpl.
  unfold canonicalizePermissions, mbind, result_bind.
  destruct (check_permissions _ _ _) as [[]|e] eqn:Hc.
  2: { split; [done|]. intros (Hg & _). exfalso.
       apply andb_true_iff in Hg as [Hg _]. apply andb_true_iff in Hg as [Hg Hn].
       apply bool_decide_eq_true in Hn.
       assert (Hok : check_permissions (r_name r) ∅ (r_permissions r) = Ok tt)
         by (apply check_permissions_ok; split_and!; [done..|apply Forall_forall; set_solver]).
       congruence. }
  apply check_permissions_ok in Hc as (Hg & Hn & _).
  rewrite Hg, (bool_decide_true (NoDup _)) by done. simpl.
  destruct (check_roles _ rs) as [rest|e] eqn:Hr.
  - apply IH in Hr as (Hg' & Hn' & Hf & ->). fold (canonical_role r).
    rewrite !Forall_forall in *. split.
    + intros [= <-]. split_and!; try done; [|intros n Hin; set_solver].
      intros Hin. specialize (Hf _ Hin). set_solver.
    + intros (_ & _ & _ & ->). done.
  - split; [done|]. intros (Hg' & [Hnin Hn'] & [_ Hf] & _). exfalso.
    assert (Hok : check_roles ({[r_name r]} ∪ seen) rs = Ok (map canonical_role rs)).
    { apply IH. split_and!; try done. rewrite Forall_forall in *. intros n Hin.
      specialize (Hf n Hin). rewrite not_elem_of_union, not_elem_of_singleton.
      split; [|done]. intros ->. done. }
    congruence.
Qed.

(** What the importer needs of a catalog, and [Parse] establishes. *)
Definition canonical (c : Catalog) : Prop :=
  NoDup (map r_name (cat_roles c)) /\ Forall (fun r => NoDup (r_permissions r)) (cat_roles c).

Lemma names_canonical rs : map r_name (map canonical_role rs) = map r_name rs.
Proof. rewrite map_map. by apply map_ext. Qed.

Lemma Parse_ok decode doc c :
  Parse decode doc = Ok c <->
  exists c0, decode doc = Ok (c0, false) /\ cat_version c0 = SupportedVersion /\
    forallb good_role (cat_roles c0) = true /\ NoDup (map r_name (cat_roles c0)) /\
    c = {| cat_version := SupportedVersion;
           cat_roles := sort_names r_name (map canonical_role (cat_roles c0)) |}.
Proof.
  unfold Parse. destruct (decode doc) as [[c0 more]|e] eqn:Hd.
  2: { split; [done|]. by intros (? & ? & _). }
  destruct more; simpl.
  { split; [done|]. by intros (? & ? & _). }
  destruct (decide (cat_version c0 = SupportedVersion)) as [Hv|Hv];
    [rewrite bool_decide_true by done|rewrite bool_decide_false by done].
  2: { split; [done|]. intros (? & ? & ? & _). by simplify_eq. }
  unfold mbind, result_bind. destruct (check_roles ∅ (cat_roles c0)) as [rs|e] eqn:Hc.
  - apply check_roles_ok in Hc as (Hg & Hn & _ & ->). split.
    + intros [= <-]. exists c0. by rewrite Hv.
    + intros (c0' & [= <-] & _ & _ & _ & ->). by rewrite Hv.
  - split; [done|]. intros (c0' & [= <-] & _ & Hg & Hn & _). exfalso.
    assert (check_roles ∅ (cat_roles c0) = Ok (map canonical_role (cat_roles c0)));
      [|congruence].
    apply check_roles_ok. split_and!; try done. apply Forall_forall. set_solver.
Qed.

Lemma Parse_canonical decode doc c : Parse decode doc = Ok c -> canonical c.
Proof.
  intros (c0 & _ & _ & Hg & Hn & ->)%Parse_ok. split; simpl.
  - rewrite (fmap_Permutation r_name _ _ (sort_names_Permutation r_name _)).
    by rewrite names_canonical.
  - rewrite sort_names_Permutation. apply Forall_forall. intros r Hr.
    apply list_elem_of_fmap in Hr as (r0 & -> & Hr0). simpl. rewrite sort_perms_Permutation.
    rewrite forallb_forall in Hg. specialize (Hg r0).
    rewrite <- list_elem_of_In in Hg. specialize (Hg Hr0).
    unfold good_role in Hg. apply andb_true_iff in Hg as [_ Hg]. by apply bool_decide_eq_true in Hg.
Qed.

(** ** The snapshot *)
Definition scanned (id : string) (row : RoleRow) (ps : list Permission) : StateRole :=
  {| sr_id := id; sr_name := rr_name row; sr_description := default "" (rr_description row);
     sr_scope := default "" (rr_scope row); sr_catalog_managed := rr_catalog_managed row;
     sr_permissions := ps; sr_assignment_count := 0 |}.

Definition perms_in (rows : list JoinRow) (id : string) : list Permission :=
  omap snd (filter (fun x => x.1.1 = id) rows).

Lemma perms_in_elem rows id p :
  p ∈ perms_in rows id <-> exists row, (id, row, Some p) ∈ rows.
Proof.
  unfold perms_in. rewrite list_elem_of_omap. split.
  - intros ([[id' row] o] & Hx & Ho). apply list_elem_of_filter in Hx as [Hid Hx].
    simpl in *. subst. eauto.
  - intros [row Hx]. exists (id, row, Some p). split; [|done]. by apply list_elem_of_filter.
Qed.

Lemma perms_in_snoc rows id' row o id :
  perms_in (rows ++ [(id', row, o)]) id =
  perms_in rows id ++ (if decide (id' = id) then option_list o else []).
Proof.
  unfold perms_in. rewrite filter_app, omap_app. f_equal.
  rewrite filter_cons. simpl. case_decide; [|done]. by destruct o.
Qed.

Definition one_row (rows : list JoinRow) : Prop :=
  forall id r1 r2 o1 o2, (id, r1, o1) ∈ rows -> (id, r2, o2) ∈ rows -> r1 = r2.

Lemma add_permission_scanned o id row ps :
  add_permission o (scanned id row ps) = scanned id row (ps ++ option_list o).
Proof. destruct o; simpl; [done|]. by rewrite app_nil_r. Qed.

Lemma scan_rows_ok rows :
  one_row rows ->
  let '(byID, order) := foldl scan_row (∅, []) rows in
  NoDup order /\ (forall id, id ∈ order <-> is_Some (byID !! id)) /\
  forall id role, byID !! id = Some role <->
    exists row o, (id, row, o) ∈ rows /\ role = scanned id row (perms_in rows id).
Proof.
  induction rows as [|[[id row] o] rows IH] using rev_ind; intros Hone.
  { simpl. split_and!; [constructor| |].
    - intros id. rewrite lookup_empty. split; [by intros ?%elem_of_nil|by intros []].
    - intros id role. rewrite lookup_empty. split; [done|]. by intros (? & ? & ?%elem_of_nil & _). }
  rewrite foldl_app. simpl.
  assert (Hone' : one_row rows).
  { intros i r1 r2 o1 o2 H1 H2. eapply Hone; apply elem_of_app; by left. }
  specialize (IH Hone'). destruct (foldl scan_row (∅, []) rows) as [byID order].
  destruct IH as (Hnd & Hdom & Hspec). unfold scan_row.
  assert (Hstep : forall i role, (<[id := scanned id row (perms_in rows id ++ option_list o)]> byID) !! i = Some role <->
      exists row' o', (i, row', o') ∈ rows ++ [(id, row, o)] /\
        role = scanned i row' (perms_in (rows ++ [(id, row, o)]) i)).
  { intros i role. destruct (decide (id = i)) as [<- |Hne].
    - rewrite lookup_insert_eq, perms_in_snoc, decide_True by done. split.
      + intros [= <-]. exists row, o. split; [set_solver|done].
      + intros (row' & o' & Hin & ->). f_equal. f_equal.
        eapply Hone; [|exact Hin]. apply elem_of_app. right. by apply list_elem_of_singleton.
    - rewrite lookup_insert_ne, Hspec, perms_in_snoc, decide_False, app_nil_r by done.
      setoid_rewrite elem_of_app. setoid_rewrite list_elem_of_singleton.
      split; [naive_solver|]. intros (row' & o' & [Hin|[=]] & ->); [eauto|congruence]. }
  destruct (byID !! id) as [role|] eqn:Hid.
  - pose proof Hid as Hid'. apply Hspec in Hid' as (row' & o' & Hin & ->).
    assert (row' = row) as ->.
    { eapply Hone; apply elem_of_app; [left; exact Hin|right; by apply list_elem_of_singleton]. }
    rewrite add_permission_scanned. split_and!; [done| |exact Hstep].
    intros i. rewrite Hdom. destruct (decide (id = i)) as [<- |Hne].
    + rewrite lookup_insert_eq, Hid. split; eauto.
    + by rewrite lookup_insert_ne.
  - assert (Hp : perms_in rows id = []).
    { destruct (perms_in rows id) as [|p ps] eqn:Hp; [done|]. exfalso.
      assert (Hin : p ∈ perms_in rows id) by (rewrite Hp; apply list_elem_of_here).
      apply perms_in_elem in Hin as [row' Hin].
      assert (byID !! id = Some (scanned id row' (perms_in rows id))) by (apply Hspec; eauto).
      congruence. }
    change (scan_role id row) with (scanned id row []).
    rewrite add_permission_scanned. rewrite Hp in Hstep. split_and!; [| |exact Hstep].
    + apply NoDup_app. split_and!; [done| |apply NoDup_singleton].
      intros i Hi ->%list_elem_of_singleton. apply Hdom in Hi as [? ?]. congruence.
    + intros i. rewrite elem_of_app, Hdom, list_elem_of_singleton.
      destruct (decide (id = i)) as [<- |Hne].
      * rewrite lookup_insert_eq, Hid. split; eauto.
      * rewrite lookup_insert_ne by done. split; [|by left]. intros [?|?]; [done|congruence].
Qed.

Section Snapshot.
Context (collate : string -> string -> Prop) `{!RelDecision collate}.

Lemma snapshot_rows_elem d id row o :
  (id, row, o) ∈ snapshot_rows collate d <->
  roles d !! id = Some row /\ in_snapshot row = true /\
  match o with None => perms_of d id = ∅ | Some p => p ∈ perms_of d id end.
Proof.
  unfold snapshot_rows. rewrite merge_sort_Permutation, list_elem_of_In, in_flat_map.
  assert (Hj : forall kv, (id, row, o) ∈ join_rows d kv <-> kv = (id, row) /\
    match o with None => perms_of d id = ∅ | Some p => p ∈ perms_of d id end).
  { intros [id' row']. unfold join_rows. simpl.
    destruct (elements (perms_of d id')) as [|p ps] eqn:He.
    - apply elements_empty_iff in He. rewrite list_elem_of_singleton. split.
      + intros [= -> -> ->]. split; [done|]. by apply leibniz_equiv.
      + intros [[= -> ->] Ho]. destruct o; [set_solver|done].
    - change (_ :: _) with (map (fun p0 => (id', row', Some p0)) (p :: ps)) at 1.
      rewrite <- He, list_elem_of_fmap. split.
      + intros (q & [= -> -> ->] & Hq). split; [done|]. by apply elem_of_elements.
      + intros [[= -> ->] Ho]. destruct o as [q|].
        * exists q. split; [done|]. by apply elem_of_elements.
        * rewrite Ho, elements_empty in He. done. }
  split.
  - intros (kv & Hkv & Hx). apply list_elem_of_In in Hkv, Hx.
    apply Hj in Hx as [-> Ho]. apply list_elem_of_filter in Hkv as [Hs Hm].
    by apply elem_of_map_to_list in Hm.
  - intros (Hr & Hs & Ho). exists (id, row). split; apply list_elem_of_In; [|by apply Hj].
    apply list_elem_of_filter. split; [done|]. by apply elem_of_map_to_list.
Qed.

(** [sr] is what the snapshot says of the row [row] of [id]. *)
Record snapshot_of (d : RoleDb) (id : string) (row : RoleRow) (sr : StateRole) : Prop := {
  so_id : sr_id sr = id;
  so_name : sr_name sr = rr_name row;
  so_description : sr_description sr = default "" (rr_description row);
  so_scope : sr_scope sr = default "" (rr_scope row);
  so_managed : sr_catalog_managed sr = rr_catalog_managed row;
  so_permissions : forall p, p ∈ sr_permissions sr <-> p ∈ perms_of d id;
  so_count : sr_catalog_managed sr = true -> sr_assignment_count sr = count_assignments d id;
}.

Lemma snapshot_counts d byID id :
  (attachAssignmentCounts d byID !! id) =
  (fun r => if sr_catalog_managed r && (0 <? count_assignments d id)%Z
            then set_count (count_assignments d id) r else r) <$> byID !! id.
Proof. unfold attachAssignmentCounts. rewrite map_lookup_imap. by destruct (byID !! id). Qed.

Lemma snapshot_scanned d id row :
  let ps := perms_in (snapshot_rows collate d) id in
  roles d !! id = Some row -> in_snapshot row = true ->
  snapshot_of d id row
    ((fun r => if sr_catalog_managed r && (0 <? count_assignments d id)%Z
       then set_count (count_assignments d id) r else r) (scanned id row ps)).
Proof.
  intros ps Hr Hs.
  assert (Hp : forall p, p ∈ ps <-> p ∈ perms_of d id).
  { intros p. unfold ps. rewrite perms_in_elem. setoid_rewrite snapshot_rows_elem.
    split; [by intros (? & _ & _ & ?)|]. eauto. }
  simpl. destruct (rr_catalog_managed row) eqn:Hm; simpl.
  - destruct (Z.ltb_spec 0 (count_assignments d id)); split; simpl; try done.
    intros _. unfold count_assignments in *. lia.
  - split; simpl; try done. by rewrite Hm.
Qed.

Lemma snapshot_spec d :
  let s := snapshotBuiltinRoles collate d in
  NoDup (map sr_id s) /\
  (forall sr, sr ∈ s -> exists row, roles d !! sr_id sr = Some row /\ in_snapshot row = true /\
     snapshot_of d (sr_id sr) row sr) /\
  (forall id row, roles d !! id = Some row -> in_snapshot row = true ->
     exists sr, sr ∈ s /\ snapshot_of d id row sr).
Proof.
  assert (Hone : one_row (snapshot_rows collate d)).
  { intros id r1 r2 o1 o2 (H1 & _)%snapshot_rows_elem (H2 & _)%snapshot_rows_elem. congruence. }
  pose proof (scan_rows_ok _ Hone) as Hscan. unfold snapshotBuiltinRoles.
  destruct (foldl scan_row (∅, []) _) as [byID order]. destruct Hscan as (Hnd & Hdom & Hspec).
  assert (Hat : forall id sr, attachAssignmentCounts d byID !! id = Some sr ->
      exists row, roles d !! id = Some row /\ in_snapshot row = true /\ snapshot_of d id row sr).
  { intros id sr. rewrite snapshot_counts. intros Hl.
    destruct (byID !! id) as [r|] eqn:Hb; [|done]. simpl in Hl. injection Hl as <-.
    apply Hspec in Hb as (row & o & Hin & ->). apply snapshot_rows_elem in Hin as (Hr & Hs & _).
    exists row. split_and!; [done..|]. by apply snapshot_scanned. }
  simpl. split_and!.
  - clear Hspec. assert (Hsub : forall id, id ∈ order -> is_Some (byID !! id)) by (intros; by apply Hdom).
    clear Hdom. induction Hnd as [|id order Hnin Hnd IH]; simpl; [constructor|].
    destruct (attachAssignmentCounts d byID !! id) as [sr|] eqn:Hsr; [|apply IH; set_solver].
    simpl. apply NoDup_cons. split; [|apply IH; set_solver].
    destruct (Hat _ _ Hsr) as (row & _ & _ & Hso). rewrite (so_id _ _ _ _ Hso).
    intros Hin. apply list_elem_of_fmap in Hin as (sr' & He & Hin).
    apply list_elem_of_omap in Hin as (id' & Hid' & Hl).
    destruct (Hat _ _ Hl) as (row' & _ & _ & Hso'). rewrite (so_id _ _ _ _ Hso') in He. congruence.
  - intros sr Hin. apply list_elem_of_omap in Hin as (id & _ & Hl).
    destruct (Hat _ _ Hl) as (row & Hr & Hs & Hso).
    rewrite (so_id _ _ _ _ Hso). eauto.
  - intros id row Hr Hs.
    assert (Hex : exists o, (id, row, o) ∈ snapshot_rows collate d).
    { destruct (decide (perms_of d id = ∅)) as [He|He].
      - exists None. by apply snapshot_rows_elem.
      - apply set_choose_L in He as [p Hp]. exists (Some p). by apply snapshot_rows_elem. }
    destruct Hex as [o Ho].
    assert (Hb : byID !! id = Some (scanned id row (perms_in (snapshot_rows collate d) id)))
      by (apply Hspec; eauto).
    eexists. split; [|by apply snapshot_scanned].
    apply list_elem_of_omap. exists id. split; [apply Hdom; eauto|].
    rewrite snapshot_counts, Hb. done.
Qed.
End Snapshot.

(** ** The plan *)
Lemma byName_spec state n sr :
  NoDup (map sr_name state) ->
  foldl (fun m r => <[sr_name r := r]> m) (∅ : gmap string StateRole) state !! n = Some sr <->
  sr ∈ state /\ sr_name sr = n.
Proof.
  induction state as [|r state IH] using rev_ind; intros Hnd.
  { simpl. rewrite lookup_empty. split; [done|]. by intros [?%elem_of_nil _]. }
  rewrite map_app, NoDup_app in Hnd. destruct Hnd as (Hnd & Hdisj & _).
  rewrite foldl_app, elem_of_app, list_elem_of_singleton. simpl.
  destruct (decide (sr_name r = n)) as [<- |Hne].
  - rewrite lookup_insert_eq. split; [intros [= ->]; by split; [right|]|].
    intros [[Hin| ->] Hn]; [|done]. exfalso. apply (Hdisj (sr_name sr)).
    + apply list_elem_of_fmap. eauto.
    + rewrite Hn. simpl. apply list_elem_of_here.
  - rewrite lookup_insert_ne, IH by done. split; [naive_solver|].
    intros [[Hin| ->] Hn]; done.
Qed.

Lemma diff_wanted_cons byName want wants :
  diff_wanted byName (want :: wants) =
  let '(creates, updates) := diff_wanted byName wants in
  match byName !! r_name want with
  | None => ({| rc_role := want |} :: creates, updates)
  | Some current =>
      let '(update, changed) := diffRole current want in
      (creates, if changed then update :: updates else updates)
  end.
Proof. reflexivity. Qed.

Lemma diff_wanted_spec byName wants creates updates :
  diff_wanted byName wants = (creates, updates) ->
  (forall c, c ∈ creates <-> rc_role c ∈ wants /\ byName !! r_name (rc_role c) = None) /\
  (forall u, u ∈ updates <-> exists want cur, want ∈ wants /\
     byName !! r_name want = Some cur /\ diffRole cur want = (u, true)) /\
  sublist (map (fun c => r_name (rc_role c)) creates) (map r_name wants) /\
  ((forall n cur, byName !! n = Some cur -> sr_name cur = n) ->
     sublist (map ru_name updates) (map r_name wants)).
Proof.
  revert creates updates. induction wants as [|want wants IH]; intros creates updates.
  { intros [= <- <-]. split_and!.
    - intros c. split; [by intros ?%elem_of_nil|by intros [?%elem_of_nil _]].
    - intros u. split; [by intros ?%elem_of_nil|by intros (? & ? & ?%elem_of_nil & _)].
    - done.
    - done. }
  rewrite diff_wanted_cons.
  destruct (diff_wanted byName wants) as [cs us]. destruct (IH _ _ eq_refl) as (Hc & Hu & Hsc & Hsu).
  destruct (byName !! r_name want) as [cur|] eqn:Hl.
  - destruct (diffRole cur want) as [u changed] eqn:Hd. intros [= <- <-]. split_and!.
    + intros c. rewrite Hc, elem_of_cons. split; [naive_solver|].
      intros [[He|?] Hn]; [|done]. congruence.
    + assert (Hone : forall v, (exists w c0, w ∈ want :: wants /\ byName !! r_name w = Some c0 /\
          diffRole c0 w = (v, true)) <-> (v = u /\ changed = true) \/ v ∈ us).
      { intros v. rewrite Hu. setoid_rewrite elem_of_cons. split.
        - intros (w & c0 & [->|Hin] & Hb & Hdr); [left|right; eauto].
          rewrite Hl in Hb. injection Hb as <-. rewrite Hd in Hdr. by injection Hdr as <- <-.
        - intros [[-> ->]|(w & c0 & ? & ? & ?)]; [exists want, cur|exists w, c0].
          + split; [by left|]. by split.
          + split; [by right|]. by split. }
      intros v. rewrite Hone. destruct changed; [rewrite elem_of_cons|].
      * split; [intros [-> |?]; auto|intros [[-> _]|?]; auto].
      * split; [auto|]. by intros [[_ ?]|?].
    + simpl. by apply sublist_cons.
    + intros Hb. destruct changed; simpl; [|apply sublist_cons; by apply Hsu].
      assert (Hn : ru_name u = r_name want).
      { unfold diffRole in Hd. destruct (diffPermissions _ _) in Hd. injection Hd as <- _. simpl. by apply Hb. }
      rewrite Hn. apply sublist_skip. by apply Hsu.
  - intros [= <- <-]. split_and!.
    + intros c. rewrite !elem_of_cons, Hc. split.
      * intros [->|[? ?]]; [by split; [left|]|by split; [right|]].
      * intros [[He|?] Hn]; [left; destruct c; by simpl in *; subst|by right].
    + intros v. rewrite Hu. setoid_rewrite elem_of_cons. split; [naive_solver|].
      intros (w & c0 & [->|Hin] & Hb & Hdr); [congruence|eauto].
    + simpl. by apply sublist_skip.
    + intros Hb. apply sublist_cons. by apply Hsu.
Qed.

Record role_diff (cur : StateRole) (want : Role) (u : RoleUpdate) (changed : bool) : Prop := {
  rd_id : ru_role_id u = sr_id cur;
  rd_name : ru_name u = sr_name cur;
  rd_description : ru_desired_description u = r_description want;
  rd_scope : ru_desired_scope u = r_scope want;
  rd_add : forall p, p ∈ ru_add_permissions u <-> p ∈ r_permissions want /\ p ∉ sr_permissions cur;
  rd_remove : forall p, p ∈ ru_remove_permissions u <-> p ∈ sr_permissions cur /\ p ∉ r_permissions want;
  rd_add_nodup : NoDup (r_permissions want) -> NoDup (ru_add_permissions u);
  rd_same_row : RowChanged u = false <-> sr_catalog_managed cur = true /\
    sr_description cur = r_description want /\ sr_scope cur = r_scope want;
  rd_unchanged : changed = false <-> RowChanged u = false /\
    forall p, p ∈ sr_permissions cur <-> p ∈ r_permissions want;
}.

Lemma string_change_none a b : bool_decide (is_Some (string_change a b)) = false <-> a = b.
Proof.
  rewrite bool_decide_eq_false. unfold string_change. case_decide; subst.
  - split; [done|]. by intros _ [].
  - split; [|done]. intros Hn. exfalso. apply Hn. eauto.
Qed.

Lemma no_length {A} (l : list A) : (0 <? length l)%nat = false <-> forall x, x ∉ l.
Proof.
  destruct l as [|x l]; simpl.
  - split; [intros _ x; apply not_elem_of_nil|done].
  - split; [done|]. intros Hx. by destruct (Hx x (list_elem_of_here _ _)).
Qed.

Lemma diffRole_spec cur want u changed :
  diffRole cur want = (u, changed) -> role_diff cur want u changed.
Proof.
  unfold diffRole, diffPermissions. cbv zeta.
  set (add := sort_perms _). set (remove := sort_perms _). intros Hd.
  injection Hd as Hu Hc.
  assert (Ha : forall p, p ∈ add <-> p ∈ r_permissions want /\ p ∉ sr_permissions cur).
  { intros p. unfold add. rewrite sort_perms_elem, list_elem_of_filter, elem_of_list_to_set. tauto. }
  assert (Hr : forall p, p ∈ remove <-> p ∈ sr_permissions cur /\ p ∉ r_permissions want).
  { intros p. unfold remove. rewrite sort_perms_elem, list_elem_of_filter, elem_of_list_to_set. tauto. }
  assert (Hrow : RowChanged u = false <-> sr_catalog_managed cur = true /\
    sr_description cur = r_description want /\ sr_scope cur = r_scope want).
  { subst u. unfold RowChanged. cbn [ru_adopt_managed ru_description_change ru_scope_change].
    rewrite !orb_false_iff, !string_change_none, negb_false_iff. tauto. }
  split; try (by subst u).
  - subst u. simpl. intros Hn. unfold add. rewrite sort_perms_Permutation. by apply NoDup_filter.
  - rewrite <- Hc, Hu, !orb_false_iff, !no_length. split.
    + intros ((Hrc & Hna) & Hnr). split; [done|]. intros p. specialize (Hna p). specialize (Hnr p).
      rewrite Ha in Hna. rewrite Hr in Hnr.
      destruct (decide (p ∈ sr_permissions cur)), (decide (p ∈ r_permissions want)); tauto.
    + intros (Hrc & Hp). split_and!; [done| |].
      * intros p. rewrite Ha, Hp. tauto.
      * intros p. rewrite Hr, Hp. tauto.
Qed.

(** The plan for a state with distinct names and a catalog with distinct names. *)
Record plan_for (state : list StateRole) (cat : Catalog) (p : Plan) : Prop := {
  pf_creates : forall c, c ∈ pl_creates p <->
    rc_role c ∈ cat_roles cat /\ forall sr, sr ∈ state -> sr_name sr <> r_name (rc_role c);
  pf_creates_nodup : NoDup (map (fun c => r_name (rc_role c)) (pl_creates p));
  pf_updates : forall u, u ∈ pl_updates p <-> exists want cur, want ∈ cat_roles cat /\
    cur ∈ state /\ sr_name cur = r_name want /\ diffRole cur want = (u, true);
  pf_updates_nodup : NoDup (map ru_name (pl_updates p));
  pf_removes : forall r, r ∈ pl_removes p <-> exists cur, cur ∈ state /\ r = role_remove cur /\
    sr_catalog_managed cur = true /\ sr_name cur ∉ map r_name (cat_roles cat);
}.

Lemma Diff_spec state cat :
  NoDup (map sr_name state) -> NoDup (map r_name (cat_roles cat)) ->
  plan_for state cat (Diff state cat).
Proof.
  intros Hs Hc. unfold Diff. cbv zeta.
  assert (Hby := fun n sr => byName_spec state n sr Hs).
  set (byName := foldl _ _ _) in *.
  destruct (diff_wanted byName (cat_roles cat)) as [cs us] eqn:Hd.
  apply diff_wanted_spec in Hd as (Hcs & Hus & Hsc & Hsu). split; simpl.
  - intros c. rewrite sort_names_elem, Hcs. split; intros [Hin Hn]; (split; [done|]).
    + intros sr Hsr He. assert (byName !! r_name (rc_role c) = Some sr) by (by apply Hby). congruence.
    + apply eq_None_not_Some. intros [sr Hsr]. apply Hby in Hsr as [Hsr He]. by apply (Hn sr).
  - rewrite (fmap_Permutation _ _ _ (sort_names_Permutation _ cs)).
    eapply sublist_NoDup; [exact Hc|exact Hsc].
  - intros u. rewrite sort_names_elem, Hus. split.
    + intros (want & cur & Hw & Hb & Hdr). apply Hby in Hb as [Hcur He]. by exists want, cur.
    + intros (want & cur & Hw & Hcur & He & Hdr). exists want, cur. split_and!; try done. by apply Hby.
  - rewrite (fmap_Permutation _ _ _ (sort_names_Permutation _ us)).
    eapply sublist_NoDup; [exact Hc|apply Hsu]. intros n cur Hb. by apply Hby in Hb as [_ ?].
  - intros r. rewrite sort_names_elem, list_elem_of_fmap. setoid_rewrite list_elem_of_filter.
    setoid_rewrite elem_of_list_to_set. naive_solver.
Qed.

(** ** Applying the plan *)
Section Apply.
Context (new_id : nat -> string) (now : instant).

Definition row_view (d : RoleDb) (id : string) : option RoleRow * gset Permission :=
  (roles d !! id, perms_of d id).

(** Of the roles only those in [P] differ, and nothing is taken from a subject. *)
Record only (P : string -> Prop) (d d' : RoleDb) : Prop := {
  on_view : forall id, ~ P id -> row_view d' id = row_view d id;
  on_assignments : role_assignments d' = role_assignments d;
  on_grants : scope_grants d' = scope_grants d;
  on_shares : record_shares d' = record_shares d;
}.

Lemma only_refl P d : only P d d.
Proof. by split. Qed.
Lemma only_trans (P Q : string -> Prop) d d1 d2 :
  only P d d1 -> only Q d1 d2 -> only (fun id => P id \/ Q id) d d2.
Proof.
  intros [V1 A1 G1 S1] [V2 A2 G2 S2]. split; try congruence.
  intros id Hid. rewrite V2, V1 by tauto. done.
Qed.
Lemma only_impl (P Q : string -> Prop) d d' :
  (forall id, P id -> Q id) -> only P d d' -> only Q d d'.
Proof. intros HPQ [V A G S']. split; try done. intros id Hid. apply V. by intros ?%HPQ. Qed.
Lemma only_twice P d d1 d2 : only P d d1 -> only P d1 d2 -> only P d d2.
Proof. intros H1 H2. eapply only_impl; [|eapply only_trans; [exact H1|exact H2]]. by intros ? [?|?]. Qed.

Lemma perms_set_perms id ps d i :
  perms_of (set_perms id ps d) i = if decide (id = i) then ps else perms_of d i.
Proof.
  unfold perms_of, set_perms. simpl. case_decide; subst.
  - by rewrite lookup_insert_eq.
  - by rewrite lookup_insert_ne.
Qed.

Lemma only_set_perms id ps d : only (eq id) d (set_perms id ps d).
Proof.
  split; try done. intros i Hi. unfold row_view. by rewrite perms_set_perms, decide_False.
Qed.

Lemma insert_perms_run id ps d :
  roles d !! id <> None -> NoDup ps -> (forall p, p ∈ ps -> p ∉ perms_of d id) ->
  exists d', run_all (insertRolePermission id) ps d = Ok (tt, d') /\ only (eq id) d d' /\
    roles d' = roles d /\ perms_of d' id = perms_of d id ∪ list_to_set ps.
Proof.
  revert d. induction ps as [|p ps IH]; intros d Hr Hnd Hnew.
  { exists d. split_and!; [done|apply only_refl|done|]. simpl. set_solver. }
  apply NoDup_cons in Hnd as [Hp Hnd]. simpl.
  assert (Hi : insertRolePermission id p d =
      Ok (tt, set_perms id ({[p]} ∪ perms_of d id) d)).
  { unfold insertRolePermission. rewrite !decide_False; [done| |done].
    apply Hnew, list_elem_of_here. }
  rewrite (tx_bind_run _ _ _ _ _ Hi).
  destruct (IH (set_perms id ({[p]} ∪ perms_of d id) d)) as (d' & Hd' & Ho & Hrs & Hps); [done|done| |].
  { intros q Hq. rewrite perms_set_perms, decide_True by done.
    assert (q <> p) by (by intros ->). specialize (Hnew q). set_solver. }
  exists d'. split_and!; [done| |done|].
  - eapply only_twice; [|exact Ho]. apply only_set_perms.
  - rewrite Hps, perms_set_perms, decide_True by done. simpl. set_solver.
Qed.

Lemma delete_perms_run id ps d :
  exists d', run_all (delete_permission id) ps d = Ok (tt, d') /\ only (eq id) d d' /\
    roles d' = roles d /\ perms_of d' id = perms_of d id ∖ list_to_set ps.
Proof.
  revert d. induction ps as [|p ps IH]; intros d.
  { exists d. split_and!; [done|apply only_refl|done|]. simpl. set_solver. }
  simpl. rewrite (tx_bind_run (delete_permission id p) _ d tt
    (set_perms id (perms_of d id ∖ {[p]}) d)) by done.
  destruct (IH (set_perms id (perms_of d id ∖ {[p]}) d)) as (d' & Hd' & Ho & Hrs & Hps).
  exists d'. split_and!; [done| |done|].
  - eapply only_twice; [|exact Ho]. apply only_set_perms.
  - rewrite Hps, perms_set_perms, decide_True by done. simpl. set_solver.
Qed.

Lemma only_audit P a d d' : only P d d' -> only P d (add_role_audit a d').
Proof. intros [V A G S']. by split. Qed.

Lemma apply_create_run prov i c d :
  row_view d (new_id i) = (None, ∅) ->
  (forall id r, roles d !! id = Some r -> rr_org_id r = None -> rr_name r <> r_name (rc_role c)) ->
  NoDup (r_permissions (rc_role c)) ->
  exists d', apply_create new_id now prov (i, c) d = Ok (tt, d') /\
    only (eq (new_id i)) d d' /\
    row_view d' (new_id i) =
      (Some (created_row now (rc_role c)), list_to_set (r_permissions (rc_role c))).
Proof.
  intros [= Hr Hp] Hname Hnd. unfold apply_create.
  set (row := created_row now (rc_role c)).
  assert (Hi : insert_role (new_id i) row d = Ok (tt, set_roles (<[new_id i := row]> (roles d)) d)).
  { unfold insert_role. rewrite decide_True; [done|]. split; [done|].
    intros id r Hid Hn Ho. by apply (Hname id r). }
  rewrite (tx_bind_run _ _ _ _ _ Hi).
  set (d1 := set_roles _ d).
  assert (Hp1 : perms_of d1 (new_id i) = ∅) by done.
  destruct (insert_perms_run (new_id i) (r_permissions (rc_role c)) d1)
    as (d2 & Hd2 & Ho & Hrs & Hps); [|done| |].
  { simpl. by rewrite lookup_insert_eq. }
  { intros p _. rewrite Hp1. set_solver. }
  rewrite (tx_bind_run _ _ _ _ _ Hd2). eexists. split; [reflexivity|]. split.
  - apply only_audit. eapply only_twice; [|exact Ho]. split; try done.
    intros id Hid. unfold row_view, d1. simpl. by rewrite lookup_insert_ne.
  - unfold row_view. cbn [add_role_audit roles].
    change (perms_of (add_role_audit _ d2) (new_id i)) with (perms_of d2 (new_id i)).
    rewrite Hrs, Hps, Hp1. unfold d1. simpl. rewrite lookup_insert_eq. f_equal. set_solver.
Qed.

Lemma creates_run prov l d :
  NoDup (map (fun x => new_id x.1) l) ->
  (forall x, x ∈ l -> row_view d (new_id x.1) = (None, ∅) /\ NoDup (r_permissions (rc_role x.2))) ->
  NoDup (map (fun x => r_name (rc_role x.2)) l) ->
  (forall id r, roles d !! id = Some r -> rr_org_id r = None ->
     rr_name r ∉ map (fun x => r_name (rc_role x.2)) l) ->
  exists d', run_all (apply_create new_id now prov) l d = Ok (tt, d') /\
    only (.∈ map (fun x => new_id x.1) l) d d' /\
    forall x, x ∈ l -> row_view d' (new_id x.1) =
      (Some (created_row now (rc_role x.2)), list_to_set (r_permissions (rc_role x.2))).
Proof.
  revert d. induction l as [|[i c] l IH]; intros d Hids Hfresh Hnames Hfree.
  { exists d. split_and!; [done|apply only_refl|by intros x ?%elem_of_nil]. }
  apply NoDup_cons in Hids as [Hid Hids]. apply NoDup_cons in Hnames as [Hn Hnames].
  destruct (Hfresh (i, c) (list_elem_of_here _ _)) as [Hv Hnd].
  destruct (apply_create_run prov i c d Hv) as (d1 & Hd1 & Ho1 & Hv1); [|done|].
  { intros id r Hr Horg He. apply (Hfree id r Hr Horg). rewrite He. apply list_elem_of_here. }
  simpl run_all. rewrite (tx_bind_run _ _ _ _ _ Hd1).
  destruct (IH d1) as (d' & Hd' & Ho & Hv'); [done| |done| |].
  { intros x Hx. destruct (Hfresh x (list_elem_of_further _ _ _ Hx)) as [Hvx ?]. split; [|done].
    rewrite (on_view _ _ _ Ho1); [done|]. simpl. intros He. apply Hid. simpl. rewrite He.
    apply list_elem_of_fmap. by exists x. }
  { intros id r Hr Horg. destruct (decide (new_id i = id)) as [<- |Hne].
    - injection Hv1 as Hr1 _. rewrite Hr in Hr1. injection Hr1 as ->. simpl. exact Hn.
    - assert (Hvi := on_view _ _ _ Ho1 id Hne). injection Hvi as Hri _. rewrite Hr in Hri.
      intros Hin. apply (Hfree id r (eq_sym Hri) Horg). by right. }
  exists d'. split_and!; [done| |].
  - eapply only_impl; [|eapply only_trans; [exact Ho1|exact Ho]].
    intros id [<- |Hin]; [apply list_elem_of_here|by right].
  - intros x Hx. apply elem_of_cons in Hx as [-> |Hx]; [|by apply Hv'].
    rewrite (on_view _ _ _ Ho); done.
Qed.

Lemma apply_update_run prov u d row :
  roles d !! ru_role_id u = Some row -> NoDup (ru_add_permissions u) ->
  (forall p, p ∈ ru_add_permissions u -> p ∉ perms_of d (ru_role_id u)) ->
  exists d', apply_update prov u d = Ok (tt, d') /\ only (eq (ru_role_id u)) d d' /\
    row_view d' (ru_role_id u) =
      (Some (if RowChanged u then updated_row u row else row),
       (perms_of d (ru_role_id u) ∖ list_to_set (ru_remove_permissions u))
         ∪ list_to_set (ru_add_permissions u)).
Proof.
  intros Hr Hnd Hnew. unfold apply_update. set (id := ru_role_id u) in *.
  set (row' := if RowChanged u then updated_row u row else row).
  assert (H1 : exists d1, (if RowChanged u then update_role u else mret tt) d = Ok (tt, d1) /\
    only (eq id) d d1 /\ roles d1 !! id = Some row' /\ perms_of d1 id = perms_of d id).
  { unfold row'. destruct (RowChanged u); [|by exists d].
    eexists. split; [reflexivity|]. split_and!; [|simpl; fold id; by rewrite lookup_alter_eq, Hr|done].
    split; try done. intros i Hi. unfold row_view. simpl. fold id. by rewrite lookup_alter_ne. }
  destruct H1 as (d1 & Hd1 & Ho1 & Hr1 & Hp1). rewrite (tx_bind_run _ _ _ _ _ Hd1).
  destruct (delete_perms_run id (ru_remove_permissions u) d1) as (d2 & Hd2 & Ho2 & Hr2 & Hp2).
  rewrite (tx_bind_run _ _ _ _ _ Hd2).
  destruct (insert_perms_run id (ru_add_permissions u) d2) as (d3 & Hd3 & Ho3 & Hr3 & Hp3);
    [by rewrite Hr2, Hr1|done| |].
  { intros p Hp. rewrite Hp2, Hp1. specialize (Hnew p Hp). set_solver. }
  rewrite (tx_bind_run _ _ _ _ _ Hd3). eexists. split; [reflexivity|]. split.
  - apply only_audit. eapply only_twice; [exact Ho1|]. by eapply only_twice.
  - unfold row_view. cbn [add_role_audit roles].
    change (perms_of (add_role_audit _ d3) id) with (perms_of d3 id).
    by rewrite Hr3, Hr2, Hr1, Hp3, Hp2, Hp1.
Qed.

(** What an update needs of the row it is about, and what it leaves there. *)
Definition update_ready (d : RoleDb) (u : RoleUpdate) : Prop :=
  is_Some (roles d !! ru_role_id u) /\ NoDup (ru_add_permissions u) /\
  forall p, p ∈ ru_add_permissions u -> p ∉ perms_of d (ru_role_id u).
Definition updated_view (d : RoleDb) (u : RoleUpdate) : option RoleRow * gset Permission :=
  ((if RowChanged u then updated_row u else id) <$> roles d !! ru_role_id u,
   (perms_of d (ru_role_id u) ∖ list_to_set (ru_remove_permissions u))
     ∪ list_to_set (ru_add_permissions u)).

Lemma updates_run prov l d :
  NoDup (map ru_role_id l) -> (forall u, u ∈ l -> update_ready d u) ->
  exists d', run_all (apply_update prov) l d = Ok (tt, d') /\
    only (.∈ map ru_role_id l) d d' /\
    forall u, u ∈ l -> row_view d' (ru_role_id u) = updated_view d u.
Proof.
  revert d. induction l as [|u l IH]; intros d Hids Hready.
  { exists d. split_and!; [done|apply only_refl|by intros x ?%elem_of_nil]. }
  apply NoDup_cons in Hids as [Hid Hids].
  destruct (Hready u (list_elem_of_here _ _)) as ([row Hr] & Hnd & Hnew).
  destruct (apply_update_run prov u d row Hr Hnd Hnew) as (d1 & Hd1 & Ho1 & Hv1).
  simpl run_all. rewrite (tx_bind_run _ _ _ _ _ Hd1).
  assert (Hsame : forall v, v ∈ l -> row_view d1 (ru_role_id v) = row_view d (ru_role_id v)).
  { intros v Hv. apply (on_view _ _ _ Ho1). simpl. intros He. apply Hid. rewrite He.
    apply list_elem_of_fmap. by exists v. }
  destruct (IH d1) as (d' & Hd' & Ho & Hv'); [done| |].
  { intros v Hv. injection (Hsame v Hv) as Hrv Hpv. unfold update_ready.
    rewrite Hrv, Hpv. apply Hready. by right. }
  exists d'. split_and!; [done| |].
  - eapply only_impl; [|eapply only_trans; [exact Ho1|exact Ho]].
    intros i [<- |Hin]; [apply list_elem_of_here|by right].
  - intros v Hv. apply elem_of_cons in Hv as [-> |Hv].
    + rewrite (on_view _ _ _ Ho), Hv1; [|done]. unfold updated_view. rewrite Hr. simpl.
      by destruct (RowChanged u).
    + rewrite (Hv' v Hv). unfold updated_view. by injection (Hsame v Hv) as -> ->.
Qed.

Definition without (ids : list string) (hs : gmap string Holding) : gmap string Holding :=
  filter (fun kv => h_role kv.2 ∉ ids) hs.

Lemma without_cons id ids hs :
  without ids (filter (fun kv => h_role kv.2 <> id) hs) = without (id :: ids) hs.
Proof.
  unfold without. rewrite map_filter_filter. apply map_filter_ext.
  intros i h _. simpl. rewrite elem_of_cons. tauto.
Qed.

(** The chains of caused grants are followed to their ends. *)
Lemma also_gone_grows grants gone : gone ⊆ also_gone grants gone.
Proof. unfold also_gone. apply union_subseteq_l. Qed.
Lemma iter_grows grants gone k : gone ⊆ Nat.iter k (also_gone grants) gone.
Proof. induction k as [|k IH]; [done|]. etrans; [exact IH|apply also_gone_grows]. Qed.
Lemma also_gone_within (grants : gmap string Holding) gone : gone ⊆ dom grants -> also_gone grants gone ⊆ dom grants.
Proof. intros Hg. unfold also_gone. apply union_least; [exact Hg|]. apply dom_filter_subseteq. Qed.
Lemma iter_within (grants : gmap string Holding) gone k :
  gone ⊆ dom grants -> Nat.iter k (also_gone grants) gone ⊆ dom grants.
Proof. intros Hg. induction k as [|k IH]; [done|]. by apply also_gone_within. Qed.

Lemma cascade_grows grants gone k :
  also_gone grants (Nat.iter k (also_gone grants) gone) = Nat.iter k (also_gone grants) gone \/
  k + size gone <= size (Nat.iter k (also_gone grants) gone).
Proof.
  induction k as [|k IH]; [by right|]. rewrite Nat.iter_succ.
  set (g := Nat.iter k (also_gone grants) gone) in *. destruct IH as [E|Hk]; [left; by rewrite !E|].
  pose proof (also_gone_grows grants g) as Hsub.
  destruct (decide (also_gone grants g = g)) as [E|Hne]; [left; by rewrite !E|right].
  assert (g ⊂ also_gone grants g) as Hlt%subset_size; [|lia].
  split; [exact Hsub|]. intros Hback. apply Hne. by apply set_eq; split; [apply Hback|apply Hsub].
Qed.
Lemma cascaded_closed (grants : gmap string Holding) gone :
  gone ⊆ dom grants -> also_gone grants (cascaded grants gone) = cascaded grants gone.
Proof.
  intros Hg. unfold cascaded. destruct (cascade_grows grants gone (size grants)) as [|Hs]; [done|].
  pose proof (iter_within grants gone (size grants) Hg) as Hin.
  assert (Nat.iter (size grants) (also_gone grants) gone = dom grants) as E.
  { apply set_subseteq_size_eq; [exact Hin|rewrite size_dom; lia]. }
  rewrite E. apply set_eq. intros x. split; [|apply also_gone_grows].
  by apply also_gone_within.
Qed.

(** No grant of the role is left, and none whose cause went. *)
Lemma delete_grants_spec id grants i h :
  delete_grants id grants !! i = Some h ->
  grants !! i = Some h /\ h_role h <> id /\
  (forall cause c, h_derived_from h = Some cause -> grants !! cause = Some c ->
     delete_grants id grants !! cause = Some c).
Proof.
  unfold delete_grants. set (start := dom _). rewrite map_lookup_filter_Some. cbn [fst]. intros [Hi Hn].
  assert (Hc : also_gone grants (cascaded grants start) = cascaded grants start).
  { apply cascaded_closed. apply dom_filter_subseteq. }
  assert (Hs : start ⊆ cascaded grants start).
  { apply iter_grows. }
  split_and!; [done| |].
  - intros Hr. apply Hn, Hs. apply elem_of_dom. exists h. by apply map_lookup_filter_Some.
  - intros cause c Hd Hcause. rewrite map_lookup_filter_Some. cbn [fst]. split; [done|]. intros Hgone. apply Hn.
    rewrite <- Hc. unfold also_gone. apply elem_of_union_r, elem_of_dom. exists h. apply map_lookup_filter_Some. split; [done|].
    cbn. unfold caused_by. by rewrite Hd.
Qed.

Lemma removes_run prov l d :
  exists d', run_all (apply_remove prov) l d = Ok (tt, d') /\
    (forall id, row_view d' id =
       if decide (id ∈ map rm_role_id l) then (None, ∅) else row_view d id) /\
    role_assignments d' = without (map rm_role_id l) (role_assignments d) /\
    scope_grants d' = fold_left (fun gs id => delete_grants id gs) (map rm_role_id l) (scope_grants d) /\
    record_shares d' = without (map rm_role_id l) (record_shares d).
Proof.
  revert d. induction l as [|r l IH]; intros d.
  { exists d. unfold without. split_and!; [done|done| |done|]; symmetry; apply map_filter_id;
      intros; apply not_elem_of_nil. }
  simpl run_all.
  assert (H1 : exists d1, apply_remove prov r d = Ok (tt, d1) /\
    (forall id, row_view d1 id = if decide (id = rm_role_id r) then (None, ∅) else row_view d id) /\
    role_assignments d1 = role_assignments (delete_role (rm_role_id r) d) /\
    scope_grants d1 = scope_grants (delete_role (rm_role_id r) d) /\
    record_shares d1 = record_shares (delete_role (rm_role_id r) d)).
  { eexists. split; [reflexivity|]. split_and!; try done. intros id.
    unfold row_view, perms_of. simpl. case_decide; subst.
    - by rewrite !lookup_delete_eq.
    - by rewrite !lookup_delete_ne. }
  destruct H1 as (d1 & Hd1 & Hv1 & Ha1 & Hg1 & Hs1). rewrite (tx_bind_run _ _ _ _ _ Hd1).
  destruct (IH d1) as (d' & Hd' & Hv & Ha & Hg & Hs).
  exists d'. split_and!; [done| |..].
  - intros id. rewrite Hv, Hv1. simpl map.
    destruct (decide (id = rm_role_id r)) as [-> |Hne].
    + rewrite (decide_True (P := _ ∈ _ :: _)) by apply list_elem_of_here. by case_decide.
    + repeat case_decide; try done; set_solver.
  - rewrite Ha, Ha1. apply without_cons.
  - by rewrite Hg, Hg1.
  - rewrite Hs, Hs1. apply without_cons.
Qed.
End Apply.
