(* ===== verification/RoleCatalogTheorems.v ===== *)
(** What the role catalog importer guarantees. *)
From S2P Require Import Prelude RoleCatalog RoleCatalogProofs.

(** The constraints of the tables: platform roles (without an organization) have
    unique names and are built in and not derived; permissions belong to a role. *)
Record role_tables (d : RoleDb) : Prop := {
  rt_names : forall i j r r', roles d !! i = Some r -> roles d !! j = Some r' ->
    rr_org_id r = None -> rr_org_id r' = None -> rr_name r = rr_name r' -> i = j;
  rt_builtin : forall i r, roles d !! i = Some r -> rr_org_id r = None -> in_snapshot r = true;
  rt_perms : forall i, roles d !! i = None -> perms_of d i = ∅;
}.

Lemma in_snapshot_platform r : in_snapshot r = true -> rr_org_id r = None.
Proof.
  unfold in_snapshot. rewrite !andb_true_iff, !bool_decide_eq_true. tauto.
Qed.

(** [d'] is [d] reconciled with the catalog. *)
Record reconciled (cat : Catalog) (d d' : RoleDb) : Prop := {
  rec_wanted : forall want, want ∈ cat_roles cat -> exists id row,
    roles d' !! id = Some row /\ in_snapshot row = true /\ rr_catalog_managed row = true /\
    rr_name row = r_name want /\ default "" (rr_description row) = r_description want /\
    default "" (rr_scope row) = r_scope want /\
    perms_of d' id = list_to_set (r_permissions want) /\
    forall id0 row0, roles d !! id0 = Some row0 -> in_snapshot row0 = true ->
      rr_name row0 = r_name want -> id = id0;
  rec_managed : forall id row, roles d' !! id = Some row -> in_snapshot row = true ->
    rr_catalog_managed row = true -> rr_name row ∈ map r_name (cat_roles cat);
  rec_kept : forall id row, roles d !! id = Some row ->
    in_snapshot row = false \/
      (rr_catalog_managed row = false /\ rr_name row ∉ map r_name (cat_roles cat)) ->
    row_view d' id = row_view d id;
}.

Section Importing.
Context (json_marshal : Catalog -> result string string).
Context (sha256_hex : string -> string).
Context (collate : string -> string -> Prop) `{!RelDecision collate}.
Context (new_id : nat -> string) (now : instant).

(** The ids the import draws are new. *)
Definition fresh_ids (d : RoleDb) : Prop :=
  (forall i j, new_id i = new_id j -> i = j) /\ forall i, roles d !! new_id i = None.

Lemma indexed_elem {A} (l : list A) x : x ∈ indexed l <-> l !! x.1 = Some x.2.
Proof.
  unfold indexed. rewrite elem_of_lookup_imap. split.
  - by intros (i & y & -> & Hl).
  - intros Hl. exists x.1, x.2. by destruct x.
Qed.
Lemma indexed_map {A B} (f : A -> B) (l : list A) : map (fun x => f x.2) (indexed l) = map f l.
Proof.
  unfold indexed. change map with (@fmap list _). rewrite fmap_imap.
  rewrite <- (imap_const f). by apply imap_ext.
Qed.
Lemma indexed_ids {A} (l : list A) :
  (forall i j, new_id i = new_id j -> i = j) -> NoDup (map (fun x => new_id x.1) (indexed l)).
Proof.
  intros Hinj. apply (NoDup_map_finer (fun x => x.1)).
  - assert (Hs : (fun x : nat * A => x.1) <$> indexed l = id <$> seq 0 (length l)).
    { unfold indexed. rewrite fmap_imap. apply (imap_seq_0 l id). }
    change map with (@fmap list _). rewrite Hs, list_fmap_id. apply NoDup_seq.
  - intros x y _ _ He. by apply Hinj.
Qed.

Section Plan.
Context (cat : Catalog) (d : RoleDb).
Context (Htables : role_tables d) (Hcat : canonical cat).
Let state := snapshotBuiltinRoles collate d.
Let plan := Diff state cat.

Lemma state_row sr : sr ∈ state -> exists row, roles d !! sr_id sr = Some row /\
  in_snapshot row = true /\ snapshot_of d (sr_id sr) row sr.
Proof. apply (snapshot_spec collate d). Qed.

Lemma state_complete id row : roles d !! id = Some row -> in_snapshot row = true ->
  exists sr, sr ∈ state /\ snapshot_of d id row sr.
Proof. apply (snapshot_spec collate d). Qed.

Lemma state_name_id x y : x ∈ state -> y ∈ state -> sr_name x = sr_name y -> sr_id x = sr_id y.
Proof.
  intros Hx Hy He. destruct (state_row x Hx) as (rx & Hrx & Hsx & Hox), (state_row y Hy) as (ry & Hry & Hsy & Hoy).
  apply (rt_names _ Htables _ _ _ _ Hrx Hry); try by apply in_snapshot_platform.
  by rewrite <- (so_name _ _ _ _ Hox), <- (so_name _ _ _ _ Hoy).
Qed.

Lemma state_ids : NoDup (map sr_id state).
Proof. apply (snapshot_spec collate d). Qed.

Lemma state_names : NoDup (map sr_name state).
Proof. apply (NoDup_map_finer sr_id); [apply state_ids|]. intros. by apply state_name_id. Qed.

Lemma plan_ok : plan_for state cat plan.
Proof. apply Diff_spec; [apply state_names|apply Hcat]. Qed.

(** The row an update is about. *)
Lemma update_row u : u ∈ pl_updates plan -> exists want cur row,
  want ∈ cat_roles cat /\ cur ∈ state /\ sr_name cur = r_name want /\
  role_diff cur want u true /\ roles d !! ru_role_id u = Some row /\ in_snapshot row = true /\
  snapshot_of d (ru_role_id u) row cur.
Proof.
  intros Hu. apply (pf_updates _ _ _ plan_ok) in Hu as (want & cur & Hw & Hc & Hn & Hd).
  apply diffRole_spec in Hd. destruct (state_row cur Hc) as (row & Hr & Hs & Ho).
  exists want, cur, row. rewrite (rd_id _ _ _ _ Hd). by split_and!.
Qed.

Lemma update_is_ready u : u ∈ pl_updates plan -> update_ready d u.
Proof.
  intros Hu. destruct (update_row u Hu) as (want & cur & row & Hw & _ & _ & Hd & Hr & _ & Ho).
  split_and!; [eauto| |].
  - apply (rd_add_nodup _ _ _ _ Hd). destruct Hcat as [_ Hp]. rewrite Forall_forall in Hp. by apply Hp.
  - intros p Hp. apply (rd_add _ _ _ _ Hd) in Hp as [_ Hp]. by rewrite <- (so_permissions _ _ _ _ Ho).
Qed.

Lemma update_ids : NoDup (map ru_role_id (pl_updates plan)).
Proof.
  apply (NoDup_map_finer ru_name); [apply plan_ok|]. intros x y Hx Hy He.
  destruct (update_row x Hx) as (wx & cx & rx & _ & Hcx & _ & Hdx & _).
  destruct (update_row y Hy) as (wy & cy & ry & _ & Hcy & _ & Hdy & _).
  rewrite (rd_id _ _ _ _ Hdx), (rd_id _ _ _ _ Hdy) in He.
  rewrite (rd_name _ _ _ _ Hdx), (rd_name _ _ _ _ Hdy).
  f_equal. by apply (NoDup_map_inj_in sr_id state); [apply state_ids|..].
Qed.

Lemma remove_id id : id ∈ map rm_role_id (pl_removes plan) <->
  exists row, roles d !! id = Some row /\ in_snapshot row = true /\
    rr_catalog_managed row = true /\ rr_name row ∉ map r_name (cat_roles cat).
Proof.
  rewrite list_elem_of_fmap. split.
  - intros (r & -> & Hr). apply (pf_removes _ _ _ plan_ok) in Hr as (cur & Hc & -> & Hm & Hn).
    destruct (state_row cur Hc) as (row & Hr & Hs & Ho). exists row. simpl.
    by rewrite <- (so_managed _ _ _ _ Ho), <- (so_name _ _ _ _ Ho).
  - intros (row & Hr & Hs & Hm & Hn). destruct (state_complete id row Hr Hs) as (cur & Hc & Ho).
    exists (role_remove cur). split; [by rewrite <- (so_id _ _ _ _ Ho)|].
    apply (pf_removes _ _ _ plan_ok). exists cur.
    by rewrite (so_managed _ _ _ _ Ho), (so_name _ _ _ _ Ho).
Qed.

(** What applying the plan leaves of every role. *)
Record applied (d' : RoleDb) : Prop := {
  ap_removed : forall id, id ∈ map rm_role_id (pl_removes plan) -> row_view d' id = (None, ∅);
  ap_updated : forall u, u ∈ pl_updates plan -> row_view d' (ru_role_id u) = updated_view d u;
  ap_created : forall x, x ∈ indexed (pl_creates plan) -> row_view d' (new_id x.1) =
    (Some (created_row now (rc_role x.2)), list_to_set (r_permissions (rc_role x.2)));
  ap_other : forall id, id ∉ map rm_role_id (pl_removes plan) ->
    id ∉ map ru_role_id (pl_updates plan) ->
    id ∉ map (fun x => new_id x.1) (indexed (pl_creates plan)) -> row_view d' id = row_view d id;
  ap_assignments : role_assignments d' = without (map rm_role_id (pl_removes plan)) (role_assignments d);
  ap_grants : scope_grants d' = fold_left (fun gs id => delete_grants id gs) (map rm_role_id (pl_removes plan)) (scope_grants d);
  ap_shares : record_shares d' = without (map rm_role_id (pl_removes plan)) (record_shares d);
}.

Lemma apply_plan prov : fresh_ids d ->
  exists d', applyRoleCatalogPlan new_id now plan prov d = Ok (tt, d') /\ applied d'.
Proof.
  intros [Hinj Hfresh]. unfold applyRoleCatalogPlan.
  destruct (creates_run new_id now prov (indexed (pl_creates plan)) d) as (d1 & Hd1 & Ho1 & Hv1).
  { by apply indexed_ids. }
  { intros x Hx. split.
    - unfold row_view. rewrite Hfresh. by rewrite (rt_perms _ Htables).
    - apply indexed_elem, list_elem_of_lookup_2, (pf_creates _ _ _ plan_ok) in Hx as [Hx _].
      destruct Hcat as [_ Hp]. rewrite Forall_forall in Hp. by apply Hp. }
  { rewrite (indexed_map (fun c => r_name (rc_role c))). apply plan_ok. }
  { intros id r Hr Ho Hin. rewrite (indexed_map (fun c => r_name (rc_role c))) in Hin.
    apply list_elem_of_fmap in Hin as (c & He & Hc). apply (pf_creates _ _ _ plan_ok) in Hc as [_ Hc].
    destruct (state_complete id r Hr (rt_builtin _ Htables _ _ Hr Ho)) as (sr & Hsr & Hso).
    apply (Hc sr Hsr). by rewrite (so_name _ _ _ _ Hso). }
  rewrite (tx_bind_run _ _ _ _ _ Hd1).
  assert (Hold : forall id, is_Some (roles d !! id) ->
      id ∉ map (fun x => new_id x.1) (indexed (pl_creates plan))).
  { intros id [row Hr] Hin. apply list_elem_of_fmap in Hin as (x & -> & _). by rewrite Hfresh in Hr. }
  destruct (updates_run prov (pl_updates plan) d1) as (d2 & Hd2 & Ho2 & Hv2); [apply update_ids| |].
  { intros u Hu. destruct (update_is_ready u Hu) as (Hr & Hrest). unfold update_ready.
    injection (on_view _ _ _ Ho1 _ (Hold _ Hr)) as -> ->. done. }
  rewrite (tx_bind_run _ _ _ _ _ Hd2).
  destruct (removes_run prov (pl_removes plan) d2) as (d3 & Hd3 & Hv3 & Ha & Hg & Hs).
  exists d3. split; [done|].
  assert (Hux : forall u, u ∈ pl_updates plan -> ru_role_id u ∉ map rm_role_id (pl_removes plan)).
  { intros u Hu. destruct (update_row u Hu) as (w & cur & row & Hw & _ & Hn & _ & Hr & _ & Ho).
    intros (row' & Hr' & _ & _ & Hnot)%remove_id. rewrite Hr in Hr'. injection Hr' as <-.
    apply Hnot, list_elem_of_fmap. exists w. by rewrite <- Hn, (so_name _ _ _ _ Ho). }
  split.
  - intros id Hid. by rewrite Hv3, decide_True.
  - intros u Hu. rewrite Hv3, decide_False, Hv2 by auto. unfold updated_view.
    destruct (update_is_ready u Hu) as (Hr & _).
    by injection (on_view _ _ _ Ho1 _ (Hold _ Hr)) as -> ->.
  - intros x Hx. rewrite Hv3, decide_False.
    + rewrite (on_view _ _ _ Ho2); [by apply Hv1|]. intros Hin.
      apply list_elem_of_fmap in Hin as (u & He & Hu).
      destruct (update_is_ready u Hu) as (Hr & _). rewrite <- He, Hfresh in Hr. by destruct Hr.
    + intros (row & Hr & _)%remove_id. by rewrite Hfresh in Hr.
  - intros id Hx Hu Hc. rewrite Hv3, decide_False by done.
    rewrite (on_view _ _ _ Ho2) by done. by apply (on_view _ _ _ Ho1).
  - by rewrite Ha, (on_assignments _ _ _ Ho2), (on_assignments _ _ _ Ho1).
  - by rewrite Hg, (on_grants _ _ _ Ho2), (on_grants _ _ _ Ho1).
  - by rewrite Hs, (on_shares _ _ _ Ho2), (on_shares _ _ _ Ho1).
Qed.

Lemma nilIfEmpty_default t : default "" (nilIfEmpty t) = t.
Proof. unfold nilIfEmpty. by case_decide; subst. Qed.

Lemma created_reconciled want d' :
  applied d' -> want ∈ cat_roles cat ->
  (forall sr, sr ∈ state -> sr_name sr <> r_name want) ->
  exists id, roles d' !! id = Some (created_row now want) /\
    perms_of d' id = list_to_set (r_permissions want).
Proof.
  intros Ha Hw Hn.
  assert (Hc : {| rc_role := want |} ∈ pl_creates plan) by by apply (pf_creates _ _ _ plan_ok).
  apply list_elem_of_lookup in Hc as [i Hi].
  exists (new_id i). by injection (ap_created _ Ha (i, {| rc_role := want |})
    (proj2 (indexed_elem _ (i, _)) Hi)).
Qed.

Lemma kept_reconciled want cur row d' :
  fresh_ids d -> applied d' -> want ∈ cat_roles cat -> cur ∈ state -> sr_name cur = r_name want ->
  roles d !! sr_id cur = Some row -> in_snapshot row = true -> snapshot_of d (sr_id cur) row cur ->
  exists row', roles d' !! sr_id cur = Some row' /\ in_snapshot row' = true /\
    rr_catalog_managed row' = true /\ rr_name row' = r_name want /\
    default "" (rr_description row') = r_description want /\
    default "" (rr_scope row') = r_scope want /\
    perms_of d' (sr_id cur) = list_to_set (r_permissions want).
Proof.
  intros [_ Hfresh] Ha Hw Hc Hn Hr Hs Ho. destruct (diffRole cur want) as [u changed] eqn:Hd.
  pose proof (diffRole_spec _ _ _ _ Hd) as Hrd.
  assert (Hp : forall p, p ∈ perms_of d (sr_id cur) <-> p ∈ sr_permissions cur)
    by (intros; by rewrite (so_permissions _ _ _ _ Ho)).
  assert (Hname : rr_name row = r_name want) by by rewrite <- (so_name _ _ _ _ Ho).
  assert (Hsame : RowChanged u = false -> rr_catalog_managed row = true /\
      default "" (rr_description row) = r_description want /\
      default "" (rr_scope row) = r_scope want).
  { intros Hrc. apply (rd_same_row _ _ _ _ Hrd) in Hrc.
    by rewrite <- (so_managed _ _ _ _ Ho), <- (so_description _ _ _ _ Ho), <- (so_scope _ _ _ _ Ho). }
  destruct changed.
  - assert (Hu : u ∈ pl_updates plan) by (apply (pf_updates _ _ _ plan_ok); by exists want, cur).
    pose proof (ap_updated _ Ha u Hu) as Hv. rewrite (rd_id _ _ _ _ Hrd) in Hv.
    unfold updated_view in Hv. rewrite (rd_id _ _ _ _ Hrd), Hr in Hv. injection Hv as Hrow Hps.
    eexists. split; [exact Hrow|].
    assert (Hset : perms_of d' (sr_id cur) = list_to_set (r_permissions want)).
    { rewrite Hps. apply set_eq. intros p. rewrite elem_of_union, elem_of_difference, !elem_of_list_to_set.
      rewrite (rd_add _ _ _ _ Hrd), (rd_remove _ _ _ _ Hrd), Hp.
      destruct (decide (p ∈ sr_permissions cur)), (decide (p ∈ r_permissions want)); tauto. }
    destruct (RowChanged u) eqn:Hrc.
    + split_and!; try done; simpl.
      * by rewrite (rd_description _ _ _ _ Hrd), nilIfEmpty_default.
      * by rewrite (rd_scope _ _ _ _ Hrd), nilIfEmpty_default.
    + destruct (Hsame eq_refl) as (? & ? & ?). by split_and!.
  - destruct (proj1 (rd_unchanged _ _ _ _ Hrd) eq_refl) as [Hrc Hps].
    assert (Hv : row_view d' (sr_id cur) = row_view d (sr_id cur)).
    { apply (ap_other _ Ha).
      - intros (row' & Hr' & _ & _ & Hnot)%remove_id. rewrite Hr in Hr'. injection Hr' as <-.
        apply Hnot, list_elem_of_fmap. by exists want.
      - intros Hin. apply list_elem_of_fmap in Hin as (v & Hv & Hvin).
        destruct (proj1 (pf_updates _ _ _ plan_ok v) Hvin) as (w & c & Hw' & Hc' & Hn' & Hd').
        pose proof (diffRole_spec _ _ _ _ Hd') as Hrd'. rewrite (rd_id _ _ _ _ Hrd') in Hv.
        assert (cur = c) as <- by by apply (NoDup_map_inj_in sr_id state); [apply state_ids|..].
        assert (w = want) as -> by (apply (NoDup_map_inj_in r_name (cat_roles cat)); [apply Hcat|congruence..]).
        congruence.
      - intros Hin. apply list_elem_of_fmap in Hin as (x & He & _). by rewrite He, Hfresh in Hr. }
    injection Hv as Hrv Hpv. exists row. rewrite Hrv, Hpv. destruct (Hsame Hrc) as (? & ? & ?).
    split_and!; try done. apply set_eq. intros p. by rewrite Hp, Hps, elem_of_list_to_set.
Qed.

Lemma applied_reconciled d' : fresh_ids d -> applied d' -> reconciled cat d d'.
Proof.
  intros Hf Ha. pose proof Hf as [_ Hfresh]. split.
  - intros want Hw.
    destruct (decide (Exists (fun sr => sr_name sr = r_name want) state)) as [Hex|Hnex].
    + apply Exists_exists in Hex as (cur & Hc & Hn).
      destruct (state_row cur Hc) as (row & Hr & Hs & Ho).
      destruct (kept_reconciled want cur row d' Hf Ha Hw Hc Hn Hr Hs Ho)
        as (row' & Hr' & Hs' & Hm & Hnm & Hd & Hsc & Hp).
      exists (sr_id cur), row'. split_and!; try done. intros id0 row0 Hr0 Hs0 Hn0.
      apply (rt_names _ Htables _ _ _ _ Hr Hr0); try by apply in_snapshot_platform.
      by rewrite Hn0, <- (so_name _ _ _ _ Ho).
    + assert (Hnone : forall sr, sr ∈ state -> sr_name sr <> r_name want).
      { intros sr Hsr He. apply Hnex, Exists_exists. by exists sr. }
      destruct (created_reconciled want d' Ha Hw Hnone) as (id & Hr & Hp).
      exists id, (created_row now want). simpl. rewrite !nilIfEmpty_default.
      split_and!; try done. intros id0 row0 Hr0 Hs0 Hn0. exfalso.
      destruct (state_complete id0 row0 Hr0 Hs0) as (sr & Hsr & Ho).
      apply (Hnone sr Hsr). by rewrite (so_name _ _ _ _ Ho).
  - intros id row Hr Hs Hm.
    destruct (decide (rr_name row ∈ map r_name (cat_roles cat))) as [|Hnot]; [done|exfalso].
    destruct (decide (id ∈ map rm_role_id (pl_removes plan))) as [Hx|Hx].
    { pose proof (ap_removed _ Ha id Hx) as Hv. injection Hv as Hv _. congruence. }
    destruct (decide (id ∈ map ru_role_id (pl_updates plan))) as [Hu|Hu].
    { apply list_elem_of_fmap in Hu as (u & -> & Hu).
      destruct (update_row u Hu) as (want & cur & row0 & Hw & _ & Hn & _ & Hr0 & _ & Ho).
      pose proof (ap_updated _ Ha u Hu) as Hv. unfold updated_view in Hv. rewrite Hr0 in Hv.
      injection Hv as Hv _. rewrite Hr in Hv. injection Hv as ->.
      apply Hnot, list_elem_of_fmap. exists want. split; [|done].
      rewrite <- Hn, (so_name _ _ _ _ Ho). by destruct (RowChanged u). }
    destruct (decide (id ∈ map (fun x => new_id x.1) (indexed (pl_creates plan)))) as [Hc|Hc].
    { apply list_elem_of_fmap in Hc as (x & -> & Hc).
      pose proof (ap_created _ Ha x Hc) as Hv. injection Hv as Hv _. rewrite Hr in Hv.
      injection Hv as ->. apply Hnot, list_elem_of_fmap. exists (rc_role x.2). split; [done|].
      apply indexed_elem, list_elem_of_lookup_2, (pf_creates _ _ _ plan_ok) in Hc. by destruct Hc. }
    pose proof (ap_other _ Ha id Hx Hu Hc) as Hv. injection Hv as Hv _. rewrite Hr in Hv.
    apply Hx, remove_id. by exists row.
  - intros id row Hr Hcase. apply (ap_other _ Ha).
    + intros (row' & Hr' & Hs' & Hm' & Hn')%remove_id. rewrite Hr in Hr'. injection Hr' as <-.
      destruct Hcase as [?|[? ?]]; congruence.
    + intros Hin. apply list_elem_of_fmap in Hin as (u & -> & Hu).
      destruct (update_row u Hu) as (want & cur & row0 & Hw & _ & Hn & _ & Hr0 & Hs0 & Ho).
      rewrite Hr in Hr0. injection Hr0 as <-. destruct Hcase as [?|[_ Hnot]]; [congruence|].
      apply Hnot, list_elem_of_fmap. exists want. by rewrite <- Hn, (so_name _ _ _ _ Ho).
    + intros Hin. apply list_elem_of_fmap in Hin as (x & -> & _). by rewrite Hfresh in Hr.
Qed.

(** Without an orphaning removal no holding of a managed role is lost. *)
Lemma no_orphans d' :
  applied d' -> OrphaningRemovals plan = [] -> role_assignments d' = role_assignments d.
Proof.
  intros Ha Ho. rewrite (ap_assignments _ Ha). unfold without. apply map_filter_id.
  intros i h Hh Hin. simpl in Hin. apply list_elem_of_fmap in Hin as (r & He & Hr).
  assert (Hz : ~ (0 < rm_assignment_count r)%Z).
  { intros Hlt. assert (Hin : r ∈ OrphaningRemovals plan) by (by apply list_elem_of_filter).
    rewrite Ho in Hin. by apply elem_of_nil in Hin. }
  apply (pf_removes _ _ _ plan_ok) in Hr as (cur & Hc & -> & Hm & _). simpl in *.
  destruct (state_row cur Hc) as (row & _ & _ & Hso). rewrite (so_count _ _ _ _ Hso Hm) in Hz.
  unfold count_assignments in Hz.
  assert (Hs : size (filter (fun kv : string * Holding => h_role kv.2 = sr_id cur) (role_assignments d)) <> 0%nat); [|lia].
  apply (map_size_ne_0_lookup_2 _ i). exists h. by apply map_lookup_filter_Some.
Qed.
End Plan.

(** *** The tables after an import *)
Lemma run_all_preserves {A} (f : A -> tx RoleDb RoleError unit) (I : RoleDb -> Prop) l d d' :
  (forall x d d', x ∈ l -> f x d = Ok (tt, d') -> I d -> I d') ->
  run_all f l d = Ok (tt, d') -> I d -> I d'.
Proof.
  revert d. induction l as [|x l IH]; intros d Hf; simpl.
  { by intros [= <-]. }
  intros ([] & d1 & H1 & H2)%tx_bind_ok Hd. apply (IH d1); [|done|].
  - intros y e e' Hy. apply Hf. by right.
  - eapply Hf; [|exact H1|done]. apply list_elem_of_here.
Qed.

Lemma insert_permission_tables id p d d' :
  insertRolePermission id p d = Ok (tt, d') -> role_tables d -> role_tables d'.
Proof.
  unfold insertRolePermission. case_decide as Hr; [done|]. case_decide; [done|].
  intros [= <-] [Hn Hb Hp]. split; try done. intros i Hi. simpl in Hi.
  rewrite perms_set_perms, decide_False by congruence. by apply Hp.
Qed.

Lemma apply_create_tables prov x d d' :
  apply_create new_id now prov x d = Ok (tt, d') -> role_tables d -> role_tables d'.
Proof.
  destruct x as [i c]. unfold apply_create.
  intros ([] & d1 & H1 & ([] & d2 & H2 & [= <-])%tx_bind_ok)%tx_bind_ok Hd.
  assert (Hd1 : role_tables d1).
  { unfold insert_role in H1. case_decide as Hnew; [|done]. injection H1 as <-.
    destruct Hnew as [Hfree Hname], Hd as [Hn Hb Hp]. split; simpl.
    - intros i1 i2 r1 r2 [[<- <-]|[_ H1]]%lookup_insert_Some [[<- <-]|[_ H2']]%lookup_insert_Some Ho1 Ho2 He;
        try done.
      + by destruct (Hname _ _ H2' (eq_sym He)).
      + by destruct (Hname _ _ H1 He).
      + by eapply Hn.
    - intros i1 r1 [[<- <-]|[_ H1]]%lookup_insert_Some Ho; [done|by eapply Hb].
    - intros i1 [Hl _]%lookup_insert_None. by apply Hp. }
  assert (Hd2 : role_tables d2).
  { eapply run_all_preserves; [|exact H2|done]. intros p e e' _. apply insert_permission_tables. }
  by destruct Hd2.
Qed.

Lemma apply_update_tables prov u d d' :
  apply_update prov u d = Ok (tt, d') -> role_tables d -> role_tables d'.
Proof.
  unfold apply_update.
  intros ([] & d1 & H1 & ([] & d2 & H2 & ([] & d3 & H3 & [= <-])%tx_bind_ok)%tx_bind_ok)%tx_bind_ok Hd.
  assert (Hd1 : role_tables d1).
  { destruct (RowChanged u); injection H1 as <-; [|done]. destruct Hd as [Hn Hb Hp]. split; simpl.
    - intros i1 i2 r1 r2 Hl1 Hl2.
      apply lookup_alter_Some in Hl1 as [(<- & x1 & Hl1 & ->)|[_ Hl1]];
        apply lookup_alter_Some in Hl2 as [(<- & x2 & Hl2 & ->)|[_ Hl2]]; eauto.
    - intros i1 r1 [(<- & x1 & Hl1 & ->)|[_ Hl1]]%lookup_alter_Some; [|eauto]. exact (Hb _ _ Hl1).
    - intros i1 Hl. apply Hp. by apply lookup_alter_None in Hl. }
  assert (Hd2 : role_tables d2).
  { eapply run_all_preserves; [|exact H2|done]. intros p e e' _ [= <-] [Hn Hb Hp]. split; try done.
    intros i Hi. rewrite perms_set_perms. simpl in Hi. specialize (Hp i Hi).
    case_decide; subst; [rewrite Hp; set_solver|done]. }
  assert (Hd3 : role_tables d3).
  { eapply run_all_preserves; [|exact H3|done]. intros p e e' _. apply insert_permission_tables. }
  by destruct Hd3.
Qed.

Lemma apply_remove_tables prov r d d' :
  apply_remove prov r d = Ok (tt, d') -> role_tables d -> role_tables d'.
Proof.
  intros [= <-] [Hn Hb Hp]. split; simpl.
  - intros i1 i2 r1 r2 [_ H1]%lookup_delete_Some [_ H2]%lookup_delete_Some. by eapply Hn.
  - intros i1 r1 [_ H1]%lookup_delete_Some. by eapply Hb.
  - intros i1 Hl. unfold perms_of. simpl. destruct (decide (rm_role_id r = i1)) as [<- |Hne].
    + by rewrite lookup_delete_eq.
    + apply lookup_delete_None in Hl as [?|Hl]; [done|].
      rewrite lookup_delete_ne by done. by apply Hp.
Qed.

Lemma apply_plan_tables plan prov d d' :
  applyRoleCatalogPlan new_id now plan prov d = Ok (tt, d') -> role_tables d -> role_tables d'.
Proof.
  unfold applyRoleCatalogPlan.
  intros ([] & d1 & H1 & ([] & d2 & H2 & H3)%tx_bind_ok)%tx_bind_ok Hd.
  eapply run_all_preserves; [|exact H3|].
  { intros x e e' _. apply apply_remove_tables. }
  eapply run_all_preserves; [|exact H2|].
  { intros x e e' _. apply apply_update_tables. }
  eapply run_all_preserves; [|exact H1|done].
  intros x e e' _. apply apply_create_tables.
Qed.

(** *** The import *)
Abbreviation import := (ImportRoleCatalog json_marshal sha256_hex collate new_id now).
Abbreviation plan_of cat d := (Diff (snapshotBuiltinRoles collate d) cat).

Lemma import_run cat opts d :
  role_tables d -> canonical cat -> fresh_ids d ->
  exists res d', import id cat opts d = Ok (res, d') /\ ir_plan res = plan_of cat d /\
    if ir_applied res
    then io_dry_run opts = false /\ refuseImport cat (plan_of cat d) (io_force opts) = ("", false) /\
         applied cat d d' /\ role_tables d'
    else d' = d /\ (io_dry_run opts = true \/ io_force opts = false).
Proof.
  intros Ht Hc Hf. unfold ImportRoleCatalog. cbv zeta.
  change (id d) with d.
  destruct (io_dry_run opts).
  { eexists _, _; split; [reflexivity|]; split; [reflexivity|]. split; [done|by left]. }
  destruct (refuseImport cat (plan_of cat d) (io_force opts)) as [reason refused] eqn:Href.
  destruct refused.
  { eexists _, _; split; [reflexivity|]; split; [reflexivity|]. split; [done|right].
    unfold refuseImport in Href.
    by destruct (io_force opts). }
  destruct (apply_plan cat d Ht Hc (catalogProvenance json_marshal sha256_hex cat (io_source opts)) Hf)
    as (d' & Hd' & Ha).
  rewrite (tx_bind_run _ _ _ _ _ Hd').
  eexists _, _; split; [reflexivity|]; split; [reflexivity|]. simpl. split_and!; try done.
  - unfold refuseImport in Href. repeat case_match; simplify_eq; done.
  - by eapply apply_plan_tables.
Qed.

Lemma reconciled_noop cat d d' :
  role_tables d' -> canonical cat -> reconciled cat d d' -> Plan_Empty (plan_of cat d') = true.
Proof.
  intros Ht Hc [Hwanted Hmanaged _]. pose proof (plan_ok cat d' Ht Hc) as Hp.
  assert (Hnil : forall A (l : list A), (forall x, x ∉ l) -> length l = 0%nat).
  { intros A [|x l] Hx; [done|]. by destruct (Hx x (list_elem_of_here _ _)). }
  unfold Plan_Empty. rewrite !bool_decide_true; [done|..]; apply Hnil.
  - intros r (cur & Hcur & -> & Hm & Hnot)%(pf_removes _ _ _ Hp).
    destruct (state_row d' cur Hcur) as (row & Hr & Hs & Ho).
    apply Hnot. rewrite (so_name _ _ _ _ Ho). apply (Hmanaged _ _ Hr Hs).
    by rewrite <- (so_managed _ _ _ _ Ho).
  - intros u (want & cur & Hw & Hcur & Hn & Hd)%(pf_updates _ _ _ Hp).
    apply diffRole_spec in Hd.
    destruct (Hwanted want Hw) as (id & row & Hr & Hs & Hm & Hnm & Hdesc & Hsc & Hps & _).
    destruct (state_row d' cur Hcur) as (row' & Hr' & Hs' & Ho).
    assert (sr_id cur = id) as Hid.
    { apply (rt_names _ Ht _ _ _ _ Hr' Hr); try by apply in_snapshot_platform.
      by rewrite <- (so_name _ _ _ _ Ho), Hn, Hnm. }
    rewrite Hid in Hr', Ho. rewrite Hr in Hr'. injection Hr' as <-.
    enough (true = false) by done. apply (rd_unchanged _ _ _ _ Hd). split.
    + apply (rd_same_row _ _ _ _ Hd).
      by rewrite (so_managed _ _ _ _ Ho), (so_description _ _ _ _ Ho), (so_scope _ _ _ _ Ho).
    + intros p. rewrite (so_permissions _ _ _ _ Ho), Hps. apply elem_of_list_to_set.
  - intros c [Hw Hnone]%(pf_creates _ _ _ Hp).
    destruct (Hwanted _ Hw) as (id & row & Hr & Hs & _ & Hnm & _).
    destruct (state_complete d' id row Hr Hs) as (sr & Hsr & Ho).
    apply (Hnone sr Hsr). by rewrite (so_name _ _ _ _ Ho).
Qed.

Lemma empty_plan_import cat opts d :
  io_dry_run opts = false -> Plan_Empty (plan_of cat d) = true ->
  exists res, import id cat opts d = Ok (res, d) /\ ir_applied res = true /\
    ir_plan res = plan_of cat d.
Proof.
  intros Hdry He. unfold ImportRoleCatalog. cbv zeta. change (id d) with d. rewrite Hdry.
  destruct (plan_of cat d) as [cs us rs] eqn:Hp. unfold Plan_Empty in He. simpl in He.
  rewrite !andb_true_iff, !bool_decide_eq_true in He. destruct He as ((Hcs & Hus) & Hrs).
  destruct cs, us, rs; try done.
  assert (Hr : refuseImport cat {| pl_creates := []; pl_updates := []; pl_removes := [] |}
      (io_force opts) = ("", false)).
  { unfold refuseImport, OrphaningRemovals. simpl. rewrite andb_false_r. by destruct (io_force opts). }
  rewrite Hr. eexists. by split_and!.
Qed.

(** C40. With no other transaction committing between its snapshot and its writes and with
    fresh ids, an import of a parsed catalog never fails on well-formed tables, and when it
    applies (always, unless it is a dry run or a guard refuses
    it) the database is reconciled with the catalog: every catalog role is a
    managed built-in with the catalog's description, scope and exactly its
    permissions, keeping its id if it existed; no other managed built-in is left;
    every other role, built-in or not, is as it was.  Otherwise nothing changed. *)
Theorem import_reconciles decode doc cat opts d :
  role_tables d -> fresh_ids d -> Parse decode doc = Ok cat ->
  exists res d', import id cat opts d = Ok (res, d') /\
    (if ir_applied res then io_dry_run opts = false /\ reconciled cat d d' else d' = d) /\
    (io_dry_run opts = false -> io_force opts = true -> ir_applied res = true).
Proof.
  intros Ht Hf Hc%Parse_canonical. destruct (import_run cat opts d Ht Hc Hf) as (res & d' & Hi & _ & Hres).
  exists res, d'. split; [done|]. destruct (ir_applied res).
  - destruct Hres as (Hdry & _ & Ha & _). split; [|done]. split; [done|]. by apply applied_reconciled.
  - destruct Hres as (-> & Hwhy). split; [done|]. intros Hd Hforce. destruct Hwhy; congruence.
Qed.

(** Without force an import takes no role assignment from anybody, and a catalog
    that declares no roles changes nothing at all. *)
Theorem unforced_import_keeps_assignments decode doc cat opts d res d' :
  role_tables d -> fresh_ids d -> Parse decode doc = Ok cat -> io_force opts = false ->
  import id cat opts d = Ok (res, d') ->
  role_assignments d' = role_assignments d /\ (cat_roles cat = [] -> d' = d).
Proof.
  intros Ht Hf Hc%Parse_canonical Hforce Hi.
  destruct (import_run cat opts d Ht Hc Hf) as (res0 & d0 & Hi0 & _ & Hres).
  rewrite Hi in Hi0. injection Hi0 as <- <-. destruct (ir_applied res) eqn:Happ.
  2: { by destruct Hres as [-> _]. }
  destruct Hres as (Hdry & Href & Ha & _). unfold refuseImport in Href. rewrite Hforce in Href.
  split.
  - apply (no_orphans cat d Ht Hc _ Ha). destruct (OrphaningRemovals _); [done|].
    simpl in Href. by case_match.
  - intros Hnil. pose proof (plan_ok cat d Ht Hc) as Hp.
    assert (He : Plan_Empty (plan_of cat d) = true).
    { unfold Plan_Empty. rewrite !bool_decide_true; [done|..].
      - rewrite Hnil in Href. simpl in Href. by destruct (pl_removes _).
      - destruct (pl_updates _) as [|u us] eqn:Hu; [done|]. exfalso.
        destruct (proj1 (pf_updates _ _ _ Hp u)) as (w & _ & Hw & _); [rewrite Hu; apply list_elem_of_here|].
        rewrite Hnil in Hw. by apply elem_of_nil in Hw.
      - destruct (pl_creates _) as [|c cs] eqn:Hcr; [done|]. exfalso.
        destruct (proj1 (pf_creates _ _ _ Hp c)) as [Hw _]; [rewrite Hcr; apply list_elem_of_here|].
        rewrite Hnil in Hw. by apply elem_of_nil in Hw. }
    destruct (empty_plan_import cat opts d Hdry He) as (res' & Hi' & _). congruence.
Qed.
End Importing.

Section Twice.
Context (json_marshal : Catalog -> result string string).
Context (sha256_hex : string -> string).
Context (collate : string -> string -> Prop) `{!RelDecision collate}.

(** Imports converge in one step: after an applied import of a catalog, importing
    it again, whatever the options but a dry run, applies an empty plan and leaves
    the database exactly as it is, the audit log included. *)
Theorem second_import_is_noop decode doc cat new_id now opts d res d' new_id' now' opts' :
  role_tables d -> fresh_ids new_id d -> Parse decode doc = Ok cat ->
  ImportRoleCatalog json_marshal sha256_hex collate new_id now id cat opts d = Ok (res, d') ->
  ir_applied res = true -> io_dry_run opts' = false ->
  exists res', ImportRoleCatalog json_marshal sha256_hex collate new_id' now' id cat opts' d'
      = Ok (res', d') /\
    ir_applied res' = true /\ Plan_Empty (ir_plan res') = true.
Proof.
  intros Ht Hf Hc%Parse_canonical Hi Happ Hdry.
  destruct (import_run json_marshal sha256_hex collate new_id now cat opts d Ht Hc Hf)
    as (res0 & d0 & Hi0 & _ & Hres).
  rewrite Hi in Hi0. injection Hi0 as <- <-. rewrite Happ in Hres. destruct Hres as (_ & _ & Ha & Ht').
  assert (He : Plan_Empty (Diff (snapshotBuiltinRoles collate d') cat) = true).
  { eapply (reconciled_noop collate cat d); [done..|]. eapply applied_reconciled; eassumption. }
  destruct (empty_plan_import json_marshal sha256_hex collate new_id' now' cat opts' d' Hdry He)
    as (res' & Hi' & Ha' & Hp').
  exists res'. by rewrite Hp'.
Qed.
End Twice.

(** ** Parsing *)

(** Two roles that list the same permissions in any order, and two catalogs that
    list such roles in any order. *)
Definition same_role (x y : Role) : Prop :=
  r_name x = r_name y /\ r_description x = r_description y /\ r_scope x = r_scope y /\
  r_permissions x ≡ₚ r_permissions y.
Definition same_catalog (c c' : Catalog) : Prop :=
  cat_version c = cat_version c' /\
  exists rs, cat_roles c ≡ₚ rs /\ Forall2 same_role rs (cat_roles c').

Lemma same_role_canonical x y : same_role x y -> canonical_role x = canonical_role y.
Proof.
  intros (Hn & Hd & Hs & Hp). unfold canonical_role. rewrite Hn, Hd, Hs.
  by rewrite (sort_perms_unique _ _ Hp).
Qed.

Lemma same_role_good x y : same_role x y -> good_role x = good_role y.
Proof.
  intros (Hn & _ & Hs & Hp). unfold good_role. rewrite Hn, Hs. f_equal; [f_equal|].
  - apply eq_bool_prop_intro. rewrite !Is_true_true, !forallb_forall.
    setoid_rewrite <- list_elem_of_In. by setoid_rewrite Hp.
  - apply bool_decide_ext. by rewrite Hp.
Qed.

Lemma good_roles_perm rs rs' : rs ≡ₚ rs' -> forallb good_role rs = true -> forallb good_role rs' = true.
Proof.
  intros Hp. rewrite !forallb_forall. setoid_rewrite <- list_elem_of_In. by setoid_rewrite Hp.
Qed.

(** Parsing is canonical: an accepted document has the supported version, and its
    roles come back sorted by name without duplicates, each with its permissions
    sorted without duplicates; and any document that decodes to the same roles and
    permissions in another order parses to the very same catalog, hence to the same
    fingerprint, plan and rendering. *)
Theorem parse_is_canonical decode doc doc' c0 c0' cat :
  decode doc = Ok (c0, false) -> decode doc' = Ok (c0', false) -> same_catalog c0 c0' ->
  Parse decode doc = Ok cat ->
  Parse decode doc' = Ok cat /\ cat_version cat = SupportedVersion /\
  Sorted (name_le r_name) (cat_roles cat) /\ NoDup (map r_name (cat_roles cat)) /\
  Forall (fun r => Sorted perm_le (r_permissions r) /\ NoDup (r_permissions r)) (cat_roles cat).
Proof.
  intros Hd Hd' (Hv & rs & Hp & Hrs) Hparse. pose proof (Parse_canonical _ _ _ Hparse) as [Hn Hps].
  apply Parse_ok in Hparse as (c & Hc & Hver & Hg & Hnd & ->). rewrite Hd in Hc. injection Hc as <-.
  assert (Hcan : map canonical_role rs = map canonical_role (cat_roles c0')).
  { clear -Hrs. induction Hrs as [|x y l l' Hs Hrs IH]; simpl; [done|].
    by rewrite (same_role_canonical _ _ Hs), IH. }
  simpl in *. split_and!; try done.
  - apply Parse_ok. exists c0'. split_and!; [done|congruence| | |].
    + apply (good_roles_perm _ _ Hp) in Hg. clear -Hrs Hg.
      induction Hrs as [|x y l l' Hs Hrs IH]; [done|]. simpl in *.
      rewrite <- (same_role_good _ _ Hs). apply andb_true_iff in Hg as [-> Hg]. by rewrite IH.
    + rewrite <- names_canonical, <- Hcan, names_canonical.
      by rewrite <- (fmap_Permutation r_name _ _ Hp).
    + f_equal. rewrite <- Hcan. apply sort_names_perm; [by rewrite names_canonical|].
      by apply fmap_Permutation.
  - apply (Sorted_merge_sort _).
  - rewrite Forall_forall in *. intros r Hr. split; [|by apply Hps].
    rewrite sort_names_elem in Hr. apply list_elem_of_fmap in Hr as (r0 & -> & _).
    apply (Sorted_merge_sort _).
Qed.

(** ** The audit trail *)
Section Audit.
Context (json_marshal : Catalog -> result string string).
Context (sha256_hex : string -> string).
Context (collate : string -> string -> Prop) `{!RelDecision collate}.
Context (new_id : nat -> string) (now : instant).

(** What an audit entry of an import says: the change, the role's name, the
    fingerprint of the catalog. *)
Definition entry (a : RoleAudit) : RoleEvent * option string * option string :=
  (ra_event a, ra_payload a !! "name", ra_payload a !! "catalog_sha256").
Definition says (event : RoleEvent) (fp name : string)
    : RoleEvent * option string * option string := (event, Some name, Some fp).

Lemma run_all_audit {A} (f : A -> tx RoleDb RoleError unit) (g : A -> _) l d d' :
  (forall x d d', f x d = Ok (tt, d') ->
     exists a, role_audit d' = role_audit d ++ [a] /\ entry a = g x) ->
  run_all f l d = Ok (tt, d') ->
  exists new, role_audit d' = role_audit d ++ new /\ map entry new = map g l.
Proof.
  intros Hf. revert d. induction l as [|x l IH]; intros d; simpl.
  { intros [= <-]. exists []. by rewrite app_nil_r. }
  intros ([] & d1 & H1 & H2)%tx_bind_ok. destruct (Hf _ _ _ H1) as (a & Ha & Hg).
  destruct (IH _ H2) as (new & Hn & Hm). exists (a :: new). rewrite Hn, Ha, <- app_assoc.
  simpl. by rewrite Hg, Hm.
Qed.

Lemma perms_audit id ps d d' :
  run_all (insertRolePermission id) ps d = Ok (tt, d') \/
  run_all (delete_permission id) ps d = Ok (tt, d') -> role_audit d' = role_audit d.
Proof.
  intros [H|H]; (eapply (run_all_preserves _ (fun e => role_audit e = role_audit d)); [|exact H|done]);
    intros p e e' _.
  - unfold insertRolePermission. by do 2 (case_decide; [done|]); intros [= <-].
  - by intros [= <-].
Qed.

Lemma entry_name event id (metadata provenance : gmap string string) name fp :
  provenance !! "name" = None -> provenance !! "catalog_sha256" = Some fp ->
  entry {| ra_event := event; ra_role := id;
           ra_payload := provenance ∪ <["name" := name]> metadata |} = says event fp name.
Proof.
  intros Hn Hfp. unfold entry, says. simpl. f_equal; [f_equal|].
  - by rewrite lookup_union_r, lookup_insert_eq.
  - by apply lookup_union_Some_l.
Qed.

Lemma provenance_keys cat source :
  catalogProvenance json_marshal sha256_hex cat source !! "name" = None /\
  catalogProvenance json_marshal sha256_hex cat source !! "catalog_sha256" =
    Some (Fingerprint json_marshal sha256_hex cat).
Proof. unfold catalogProvenance. by case_decide. Qed.

(** Every change an import applies is on the audit log, in the transaction of
    the change and whatever else is committed meanwhile: one entry per created,
    then updated, then removed role, naming the role and carrying the fingerprint
    of the catalog; and an import that applies nothing writes no entry. *)
Theorem import_is_audited concurrent cat opts d res d' :
  ImportRoleCatalog json_marshal sha256_hex collate new_id now concurrent cat opts d = Ok (res, d') ->
  let fp := Fingerprint json_marshal sha256_hex cat in
  let p := ir_plan res in
  exists new, role_audit d' = role_audit (concurrent d) ++ new /\
    map entry new =
      if ir_applied res
      then map (fun c => says EventRoleCreated fp (r_name (rc_role c))) (pl_creates p) ++
           map (fun u => says EventRoleUpdated fp (ru_name u)) (pl_updates p) ++
           map (fun r => says EventRoleDeleted fp (rm_name r)) (pl_removes p)
      else [].
Proof.
  unfold ImportRoleCatalog. cbv zeta. set (plan := Diff _ cat).
  destruct (io_dry_run opts); [intros [= <- <-]; exists []; by rewrite app_nil_r|].
  destruct (refuseImport cat plan (io_force opts)) as [reason []];
    [intros [= <- <-]; exists []; by rewrite app_nil_r|].
  intros ([] & d3 & Happly & [= <- <-])%tx_bind_ok. simpl.
  destruct (provenance_keys cat (io_source opts)) as [Hnone Hfp].
  set (prov := catalogProvenance _ _ _ _) in *. set (fp := Fingerprint _ _ _) in *.
  unfold applyRoleCatalogPlan in Happly.
  apply tx_bind_ok in Happly as ([] & d1 & H1 & ([] & d2 & H2 & H3)%tx_bind_ok).
  apply (run_all_audit _ (fun x => says EventRoleCreated fp (r_name (rc_role x.2)))) in H1
    as (n1 & Hn1 & Hm1).
  2: { intros [i c] e e'. unfold apply_create.
       intros ([] & e1 & G1 & ([] & e2 & G2 & [= <-])%tx_bind_ok)%tx_bind_ok.
       eexists. split; [|by apply entry_name]. simpl.
       rewrite (perms_audit _ _ _ _ (or_introl G2)).
       unfold insert_role in G1. case_decide; [|done]. by injection G1 as <-. }
  apply (run_all_audit _ (fun u => says EventRoleUpdated fp (ru_name u))) in H2 as (n2 & Hn2 & Hm2).
  2: { intros u e e'. unfold apply_update.
       intros ([] & e1 & G1 & ([] & e2 & G2 & ([] & e3 & G3 & [= <-])%tx_bind_ok)%tx_bind_ok)%tx_bind_ok.
       eexists. split; [|by apply entry_name]. simpl.
       rewrite (perms_audit _ _ _ _ (or_introl G3)), (perms_audit _ _ _ _ (or_intror G2)).
       destruct (RowChanged u); by injection G1 as <-. }
  apply (run_all_audit _ (fun r => says EventRoleDeleted fp (rm_name r))) in H3 as (n3 & Hn3 & Hm3).
  2: { intros r e e' [= <-]. eexists. split; [|by apply entry_name]. done. }
  exists (n1 ++ n2 ++ n3). rewrite Hn3, Hn2, Hn1, <- !app_assoc. split; [done|].
  rewrite !map_app, Hm1, Hm2, Hm3.
  by rewrite (indexed_map (fun c => says EventRoleCreated fp (r_name (rc_role c)))).
Qed.
End Audit.

(** ** A concrete import *)
Module RoleRun.
Definition marshal (c : Catalog) : result string string := Ok "catalog".
Definition sha (s : string) : string := "sha256:" +:+ s.
Definition fresh (i : nat) : string := "new-" +:+ pretty.pretty i.
Definition row (name : string) (managed : bool) : RoleRow :=
  {| rr_name := name; rr_description := None; rr_built_in := true; rr_org_id := None;
     rr_scope := None; rr_catalog_managed := managed; rr_derived_from := None;
     rr_created_at := 0 |}.
Definition perm (resource action : string) : Permission :=
  {| p_resource := resource; p_action := action |}.
Definition held (on : string) : Holding :=
  {| h_role := "role-1"; h_subject := "ana"; h_org := Some "acme"; h_on := on; h_derived_from := None |}.
(** One catalog-managed role with a permission, a scope grant and a record share. *)
Definition db : RoleDb :=
  {| roles := {["role-1" := row "analyst" true]};
     role_permissions := {["role-1" := {[perm "report" "read"]}]};
     role_assignments := ∅;
     scope_grants := {["grant-1" := held "acme.lab"]};
     record_shares := {["share-1" := held "record-7"]};
     role_audit := [] |}.
Definition viewer : Role :=
  {| r_name := "viewer"; r_description := "reads"; r_scope := "";
     r_permissions := [perm "report" "read"; perm "*" "list"] |}.
Definition catalog : Catalog := {| cat_version := 1; cat_roles := [viewer] |}.
Definition parsed : Catalog := {| cat_version := 1; cat_roles := [canonical_role viewer] |}.
Definition decode (doc : string) : result string (Catalog * bool) := Ok (catalog, false).
Definition unforced : ImportOptions :=
  {| io_dry_run := false; io_force := false; io_source := "roles.json" |}.
Definition run (concurrent : RoleDb -> RoleDb) (d : RoleDb) :=
  ImportRoleCatalog marshal sha String.le fresh 1 concurrent parsed unforced d.

(** Another transaction grants the role to somebody. *)
Definition assign (d : RoleDb) : RoleDb :=
  {| roles := roles d; role_permissions := role_permissions d;
     role_assignments := <["assignment-1" := held ""]> (role_assignments d);
     scope_grants := scope_grants d; record_shares := record_shares d;
     role_audit := role_audit d |}.
Definition assigned : RoleDb := assign db.

Definition outcome (r : result RoleError (ImportResult * RoleDb)) : ImportResult * RoleDb :=
  match r with
  | Ok x => x
  | Err _ => ({| ir_plan := {| pl_creates := []; pl_updates := []; pl_removes := [] |};
                 ir_applied := false; ir_refused := false; ir_refusal_reason := "" |}, db)
  end.
Lemma outcome_ok r : is_ok r = true -> r = Ok (outcome r).
Proof. by destruct r as [[]|]. Qed.

Lemma tables_of d : roles d = roles db -> role_permissions d = role_permissions db -> role_tables d.
Proof.
  destruct d as [rs ps hs gs ss l]. cbn [roles role_permissions db]. intros -> ->.
  split; cbn [roles].
  - by intros i j r r' [<- <-]%lookup_singleton_Some [<- <-]%lookup_singleton_Some.
  - by intros i r [<- <-]%lookup_singleton_Some.
  - intros i Hi%lookup_singleton_None. unfold perms_of. cbn [role_permissions].
    by rewrite lookup_singleton_ne.
Qed.
Lemma fresh_of d : roles d = roles db -> fresh_ids fresh d.
Proof.
  intros Hr. split.
  - intros i j He. unfold fresh in He. simpl in He. injection He as He. by apply (inj pretty.pretty).
  - intros i. rewrite Hr. cbn [roles db]. by apply lookup_singleton_ne.
Qed.
Lemma parse_ok : Parse decode "roles.json" = Ok parsed.
Proof. vm_compute. reflexivity. Qed.
End RoleRun.
Import RoleRun.

(** The orphan guard does not see everything a removal takes away: scope grants
    and record shares cascade on the role's deletion like assignments do, and an
    unforced import that removes their role is applied and deletes them. *)
Theorem orphan_guard_ignores_grants :
  exists res d', run id db = Ok (res, d') /\ ir_applied res = true /\ ir_refused res = false /\
    scope_grants db <> ∅ /\ scope_grants d' = ∅ /\ record_shares db <> ∅ /\ record_shares d' = ∅.
Proof.
  exists (fst (outcome (run id db))), (snd (outcome (run id db))).
  split; [rewrite <- surjective_pairing; apply outcome_ok; vm_compute; reflexivity|].
  split_and!; try (vm_compute; reflexivity); by apply map_non_empty_singleton.
Qed.

(** Nor is the guard's count protected: the import reads it at READ COMMITTED
    without a lock, so an assignment another transaction commits after the count
    and before the deletion is deleted by an unforced import. *)
Theorem orphan_guard_races :
  exists res d', run assign db = Ok (res, d') /\ ir_applied res = true /\
    role_assignments (assign db) <> ∅ /\ role_assignments d' = ∅.
Proof.
  exists (fst (outcome (run assign db))), (snd (outcome (run assign db))).
  split; [rewrite <- surjective_pairing; apply outcome_ok; vm_compute; reflexivity|].
  split_and!; try (vm_compute; reflexivity). by apply insert_non_empty.
Qed.

(** The orphan guard protects less than it says: an unforced import that removes
    a role is applied and deletes the scope grants and the record shares that hold
    it, and an assignment that another transaction commits between the guard's
    count and the deletion. *)
Theorem orphan_guard_is_partial :
  (exists res d', run id db = Ok (res, d') /\ ir_applied res = true /\ ir_refused res = false /\
    scope_grants db <> ∅ /\ scope_grants d' = ∅ /\ record_shares db <> ∅ /\ record_shares d' = ∅) /\
  (exists res d', run assign db = Ok (res, d') /\ ir_applied res = true /\
    role_assignments (assign db) <> ∅ /\ role_assignments d' = ∅).
Proof. split; [exact orphan_guard_ignores_grants|exact orphan_guard_races]. Qed.

Lemma import_reconciles_witness :
  exists res d', run id db = Ok (res, d') /\
    (if ir_applied res then io_dry_run unforced = false /\ reconciled parsed db d' else d' = db) /\
    (io_dry_run unforced = false -> io_force unforced = true -> ir_applied res = true).
Proof.
  apply (import_reconciles marshal sha String.le fresh 1 decode "roles.json").
  - by apply tables_of.
  - by apply fresh_of.
  - apply parse_ok.
Defined.

Lemma unforced_import_keeps_assignments_witness :
  role_assignments (snd (outcome (run id assigned))) = role_assignments assigned.
Proof.
  apply (unforced_import_keeps_assignments marshal sha String.le fresh 1 decode "roles.json"
    parsed unforced assigned (fst (outcome (run id assigned)))).
  - by apply tables_of.
  - by apply fresh_of.
  - apply parse_ok.
  - reflexivity.
  - rewrite <- surjective_pairing. apply (outcome_ok (run id assigned)). vm_compute. reflexivity.
Defined.

Lemma second_import_is_noop_witness :
  exists res', run id (snd (outcome (run id db))) = Ok (res', snd (outcome (run id db))) /\
    ir_applied res' = true /\ Plan_Empty (ir_plan res') = true.
Proof.
  apply (second_import_is_noop marshal sha String.le decode "roles.json" parsed fresh 1 unforced db
    (fst (outcome (run id db)))).
  - by apply tables_of.
  - by apply fresh_of.
  - apply parse_ok.
  - rewrite <- surjective_pairing. apply (outcome_ok (run id db)). vm_compute. reflexivity.
  - vm_compute. reflexivity.
  - reflexivity.
Defined.

Lemma parse_is_canonical_witness :
  Parse decode "roles.json" = Ok parsed /\ Sorted (name_le r_name) (cat_roles parsed).
Proof.
  destruct (parse_is_canonical decode "roles.json" "roles.json" catalog catalog parsed)
    as (H1 & _ & H2 & _).
  - reflexivity.
  - reflexivity.
  - split; [done|]. exists (cat_roles catalog). split; [done|]. repeat constructor.
  - apply parse_ok.
  - by split.
Defined.

Lemma import_is_audited_witness :
  let res := fst (outcome (run id db)) in
  exists new, role_audit (snd (outcome (run id db))) = role_audit db ++ new /\
    map entry new = [says EventRoleCreated "sha256:catalog" "viewer";
                     says EventRoleDeleted "sha256:catalog" "analyst"].
Proof.
  destruct (import_is_audited marshal sha String.le fresh 1 id parsed unforced db
    (fst (outcome (run id db))) (snd (outcome (run id db)))) as (new & Hn & Hm).
  - rewrite <- surjective_pairing. apply (outcome_ok (run id db)). vm_compute. reflexivity.
  - exists new. split; [exact Hn|]. rewrite Hm. vm_compute. reflexivity.
Defined.
