(* ===== verification/RedisState.v ===== *)
(** The shared Redis state of the accounts service:
    accounts/code/pkg/redisstate (state.go, token_revoker.go,
    oauth_nonce_consumer.go, rate_limiter.go).

    [State] is the interface every user of the state is written against and
    [StateLaws] what an implementation promises: an entry is readable until it
    expires and is never evicted before (the no-eviction contract of the package),
    a marker that is set lives at least to the last whole millisecond of its time
    to live, an increment is atomic, and an operation may fail as unavailable.
    The in-memory implementation of state.go is an instance. *)
From S2P Require Import Prelude.
From Stdlib Require Import Ascii DecimalString DecimalZ DecimalFacts.

Local Open Scope Z_scope.

(** ** The interface *)
Inductive StateErr : Type := ErrNotFound | ErrUnavailable.
#[export] Instance StateErr_eq_dec : EqDecision StateErr.
Proof. solve_decision. Defined.

(** A value and the time it expires, if it does. *)
Record Entry : Type := {
  en_value : string;
  en_expires : option instant;
}.

Class State (s : Type) : Type := {
  Get : string -> instant -> s -> result StateErr string * s;
  Set_ : string -> string -> duration -> instant -> s -> option StateErr * s;
  Delete : list string -> instant -> s -> option StateErr * s;
  Incr : string -> duration -> instant -> s -> result StateErr Z * s;
}.

(** [strconv.FormatInt(n, 10)] and [strconv.ParseInt(s, 10, 64)] with its error
    ignored: 0 where the text is no number, the nearest bound out of range. *)
Definition FormatInt (n : Z) : string := NilEmpty.string_of_int (Z.to_int n).
Definition ParseInt (s : string) : Z :=
  match NilEmpty.int_of_string s with
  | None => 0
  | Some i => Z.max int64_min (Z.min int64_max (Z.of_int i))
  end.

(** Certainly readable at [t]; certainly gone at [t].  At the expiry itself an
    implementation may answer either way. *)
Definition live (t : instant) (e : Entry) : Prop :=
  match en_expires e with None => True | Some x => t < x end.
Definition dead (t : instant) (e : Entry) : Prop :=
  match en_expires e with None => False | Some x => x < t end.

(** An operation leaves an entry, or drops it when it has expired. *)
Definition kept (t : instant) (before after : option Entry) : Prop :=
  after = before \/ (after = None /\ exists e, before = Some e /\ ~ live t e).

(** Set at [t] with time to live [ttl]. *)
Definition armed (t : instant) (ttl : duration) (e : Entry) : Prop :=
  exists x, en_expires e = Some x /\ t + ttl - millisecond < x.

Class StateLaws (s : Type) `{State s} : Type := {
  entry : s -> string -> option Entry;
  get_keeps k t st k' : kept t (entry st k') (entry (snd (Get k t st)) k');
  get_found k t st v : fst (Get k t st) = Ok v ->
    exists e, entry st k = Some e /\ en_value e = v /\ ~ dead t e;
  get_missing k t st : fst (Get k t st) = Err ErrNotFound ->
    forall e, entry st k = Some e -> ~ live t e;
  set_keeps k v ttl t st k' : k' <> k ->
    kept t (entry st k') (entry (snd (Set_ k v ttl t st)) k');
  set_stores k v ttl t st : 0 < ttl -> fst (Set_ k v ttl t st) = None ->
    exists e, entry (snd (Set_ k v ttl t st)) k = Some e /\ en_value e = v /\ armed t ttl e;
  set_fails k v ttl t st : 0 < ttl -> fst (Set_ k v ttl t st) <> None ->
    kept t (entry st k) (entry (snd (Set_ k v ttl t st)) k) \/
    exists e, entry (snd (Set_ k v ttl t st)) k = Some e /\ en_value e = v /\ armed t ttl e;
  incr_keeps k ttl t st k' : k' <> k ->
    kept t (entry st k') (entry (snd (Incr k ttl t st)) k');
  incr_counts k ttl t st n : 0 < ttl -> fst (Incr k ttl t st) = Ok n ->
    exists e', entry (snd (Incr k ttl t st)) k = Some e' /\ en_value e' = FormatInt n /\
      ((exists e, entry st k = Some e /\ ~ dead t e /\ en_expires e' = en_expires e /\
          n = wrap64 (ParseInt (en_value e) + 1)) \/
       ((forall e, entry st k = Some e -> ~ live t e) /\ n = 1 /\ armed t ttl e'));
  (** A failed increment may have counted without the caller hearing of it. *)
  incr_fails k ttl t st e : 0 < ttl -> fst (Incr k ttl t st) = Err e ->
    kept t (entry st k) (entry (snd (Incr k ttl t st)) k) \/
    exists e', entry (snd (Incr k ttl t st)) k = Some e' /\
      ((exists e0, entry st k = Some e0 /\ ~ dead t e0 /\ en_expires e' = en_expires e0 /\
          en_value e' = FormatInt (wrap64 (ParseInt (en_value e0) + 1))) \/
       ((forall e0, entry st k = Some e0 -> ~ live t e0) /\ en_value e' = FormatInt 1 /\
         armed t ttl e'));
}.

(** ** The in-memory implementation *)
Definition memoryState : Type := gmap string Entry.

(** [!expiresAt.IsZero() && now.After(expiresAt)] *)
Definition past_expiry (t : instant) (e : Entry) : bool :=
  match en_expires e with None => false | Some x => time_after t x end.

Definition expiry (ttl : duration) (t : instant) : option instant :=
  if 0 <? ttl then Some (time_add t ttl) else None.

(** The read and the lazy deletion, two critical sections of the code, are one
    step. *)
Definition memory_Get (k : string) (t : instant) (m : memoryState)
    : result StateErr string * memoryState :=
  match m !! k with
  | None => (Err ErrNotFound, m)
  | Some e => if past_expiry t e then (Err ErrNotFound, delete k m) else (Ok (en_value e), m)
  end.

Definition memory_Set (k v : string) (ttl : duration) (t : instant) (m : memoryState)
    : option StateErr * memoryState :=
  (None, <[k := {| en_value := v; en_expires := expiry ttl t |}]> m).

Definition memory_Incr (k : string) (ttl : duration) (t : instant) (m : memoryState)
    : result StateErr Z * memoryState :=
  let '(count, exp) :=
    match m !! k with
    | Some e => if past_expiry t e then (0, expiry ttl t) else (ParseInt (en_value e), en_expires e)
    | None => (0, expiry ttl t)
    end in
  let count := wrap64 (count + 1) in
  (Ok count, <[k := {| en_value := FormatInt count; en_expires := exp |}]> m).

Definition memory_Delete (keys : list string) (t : instant) (m : memoryState)
    : option StateErr * memoryState :=
  (None, foldl (fun m k => delete k m) m keys).

#[export] Instance memory_State : State memoryState := {|
  Get := memory_Get; Set_ := memory_Set; Delete := memory_Delete; Incr := memory_Incr;
|}.

(** ** Revocation markers (token_revoker.go) *)
Definition tokenRevokerPrefix : string := "revoked-jti:".
Definition sessionRevokerPrefix : string := "revoked-session:".
Definition oauthNoncePrefix : string := "oauth-nonce:".
Definition rateLimitPrefix : string := "ratelimit:".
Definition marker : string := String (ascii_of_nat 1) EmptyString.

Section Users.
Context {s : Type} `{State s}.

Definition Revoke (jti : string) (ttl : duration) (t : instant) (st : s) : option StateErr * s :=
  if bool_decide (jti = "") || (ttl <=? 0) then (None, st)
  else Set_ (tokenRevokerPrefix +:+ jti) marker ttl t st.

Definition present (k : string) (t : instant) (st : s) : result StateErr bool * s :=
  match Get k t st with
  | (Ok _, st') => (Ok true, st')
  | (Err ErrNotFound, st') => (Ok false, st')
  | (Err e, st') => (Err e, st')
  end.

Definition IsRevoked (jti : string) (t : instant) (st : s) : result StateErr bool * s :=
  if decide (jti = "") then (Ok false, st) else present (tokenRevokerPrefix +:+ jti) t st.

Definition RevokeSession (sid : string) (ttl : duration) (t : instant) (st : s)
    : option StateErr * s :=
  if bool_decide (sid = "") || (ttl <=? 0) then (None, st)
  else Set_ (sessionRevokerPrefix +:+ sid) marker ttl t st.

Definition IsSessionRevoked (sid : string) (t : instant) (st : s) : result StateErr bool * s :=
  if decide (sid = "") then (Ok false, st) else present (sessionRevokerPrefix +:+ sid) t st.

(** ** Single-use nonces (oauth_nonce_consumer.go) *)
Definition Consume (nonce : string) (ttl : duration) (t : instant) (st : s)
    : result StateErr bool * s :=
  if decide (nonce = "") then (Ok false, st)
  else match Incr (oauthNoncePrefix +:+ nonce) ttl t st with
  | (Ok count, st') => (Ok (count =? 1), st')
  | (Err e, st') => (Err e, st')
  end.

(** ** Fixed-window rate limiting (rate_limiter.go) *)
Definition bucket_key (key : string) (window : duration) (t : instant) : string :=
  rateLimitPrefix +:+ key +:+ ":" +:+ FormatInt (time_unix (time_truncate t window)).

Record Allowance : Type := {
  al_allowed : bool;
  al_remaining : Z;
  al_reset_at : instant;
}.

(** [wired]: the limiter and its state are there. *)
Definition Allow (wired : bool) (key : string) (limit : Z) (window : duration)
    (t : instant) (st : s) : Allowance * s :=
  if negb wired || (limit <=? 0) || (window <=? 0)
  then ({| al_allowed := true; al_remaining := limit; al_reset_at := zero_time |}, st)
  else
    let resetAt := time_add (time_truncate t window) window in
    match Incr (bucket_key key window t) (window + 5 * second) t st with
    | (Err _, st') => ({| al_allowed := true; al_remaining := limit; al_reset_at := resetAt |}, st')
    | (Ok count, st') =>
        if limit <? count
        then ({| al_allowed := false; al_remaining := 0; al_reset_at := resetAt |}, st')
        else ({| al_allowed := true; al_remaining := limit - count; al_reset_at := resetAt |}, st')
    end.
End Users.
