(* ===== verification/RedisStateTheorems.v ===== *)
(** What the shared Redis state guarantees its users: the in-memory implementation
    keeps the laws of the interface, and over any implementation that keeps them
    revocation markers stick, nonces are single use and a rate limit grants exactly
    its budget. *)
From S2P Require Import Prelude RedisState.
From Stdlib Require Import Ascii DecimalString DecimalZ DecimalFacts.

Local Open Scope Z_scope.

(** ** Numbers as text *)
Lemma ParseInt_FormatInt n : in_int64 n -> ParseInt (FormatInt n) = n.
Proof.
  intros Hn. unfold ParseInt, FormatInt. rewrite NilEmpty.isi.
  rewrite DecimalZ.of_to. unfold in_int64, int64_min, int64_max in *. lia.
Qed.

(** ** The in-memory implementation *)
Lemma expiry_armed ttl t v :
  0 < ttl -> armed t ttl {| en_value := v; en_expires := expiry ttl t |}.
Proof.
  intros H. exists (t + ttl). unfold expiry, time_add, millisecond. simpl.
  destruct (Z.ltb_spec 0 ttl); [|lia]. split; [done|lia].
Qed.

Lemma past_expiry_dead t e : past_expiry t e = true <-> dead t e.
Proof.
  unfold past_expiry, dead, time_after. destruct (en_expires e); [|done]. by rewrite Z.ltb_lt.
Qed.
Lemma dead_not_live t e : dead t e -> ~ live t e.
Proof. unfold dead, live. destruct (en_expires e); [lia|done]. Qed.

#[export] Program Instance memory_laws : StateLaws memoryState := {|
  entry := fun m k => m !! k;
|}.
Next Obligation.
  intros k t m k'. simpl. unfold memory_Get, kept, memoryState in *.
  destruct (m !! k) as [e|] eqn:Hk; [|by left]. destruct (past_expiry t e) eqn:Hp; [|by left]. simpl.
  destruct (decide (k = k')) as [<-|Hne]; [right|left; by rewrite lookup_delete_ne].
  rewrite lookup_delete_eq. split; [done|]. exists e. split; [done|].
  by apply dead_not_live, past_expiry_dead.
Qed.
Next Obligation.
  intros k t m v. simpl. unfold memory_Get, memoryState in *. destruct (m !! k) as [e|] eqn:Hk; [|done].
  destruct (past_expiry t e) eqn:Hp; [done|]. simpl. intros [= <-]. exists e. split_and!; try done.
  intros Hd. apply past_expiry_dead in Hd. congruence.
Qed.
Next Obligation.
  intros k t m. simpl. unfold memory_Get, memoryState in *. destruct (m !! k) as [e|] eqn:Hk; [|naive_solver].
  destruct (past_expiry t e) eqn:Hp; [|done]. intros _ e' [= <-].
  by apply dead_not_live, past_expiry_dead.
Qed.
Next Obligation.
  intros k v ttl t m k' Hne. simpl. unfold memoryState in *. left. by rewrite lookup_insert_ne.
Qed.
Next Obligation.
  intros k v ttl t m Httl _. simpl. unfold memoryState in *. rewrite lookup_insert_eq. eexists. split_and!; [done|done|].
  by apply expiry_armed.
Qed.
Next Obligation. done. Qed.
Next Obligation.
  intros k ttl t m k' Hne. simpl. unfold memory_Incr, memoryState in *.
  destruct (match m !! k with Some _ => _ | None => _ end) as [c x]. left. simpl.
  by rewrite lookup_insert_ne.
Qed.
Next Obligation.
  intros k ttl t m n Httl. simpl. unfold memory_Incr, memoryState in *. destruct (m !! k) as [e|] eqn:Hk.
  - destruct (past_expiry t e) eqn:Hp; intros [= <-]; simpl; rewrite lookup_insert_eq;
      (eexists; split; [done|]; split; [done|]).
    + right. split_and!; [|done|by apply expiry_armed]. intros e' [= <-].
      by apply dead_not_live, past_expiry_dead.
    + left. exists e. split_and!; try done. rewrite <- past_expiry_dead. congruence.
  - intros [= <-]. simpl. rewrite lookup_insert_eq. eexists; split; [done|]; split; [done|].
    right. split_and!; [done|done|by apply expiry_armed].
Qed.
Next Obligation.
  intros k ttl t m e _. simpl. unfold memory_Incr, memoryState in *.
  by destruct (match m !! k with Some _ => _ | None => _ end).
Qed.

(** ** What everybody else does *)
Section Users.
Context {s : Type} `{Hstate : State s} `{Hlaws : !StateLaws s}.

(** Time passes; somebody reads any key, or writes or counts another one. *)
Inductive others (k : string) : instant * s -> instant * s -> Prop :=
| others_tick t t' st : t <= t' -> others k (t, st) (t', st)
| others_get t k' st : others k (t, st) (t, snd (Get k' t st))
| others_set t k' v ttl st : k' <> k -> others k (t, st) (t, snd (Set_ k' v ttl t st))
| others_incr t k' ttl st : k' <> k -> others k (t, st) (t, snd (Incr k' ttl t st)).

Lemma kept_live t o o' e : kept t o o' -> o = Some e -> live t e -> o' = Some e.
Proof. intros [->|(-> & e' & He & Hd)] Ho Hl; [done|]. by simplify_eq. Qed.

Lemma kept_none t o o' : kept t o o' -> o = None -> o' = None.
Proof. by intros [->|(-> & _)]. Qed.

Lemma others_kept k x y : others k x y ->
  fst x <= fst y /\ exists t, kept t (entry (snd x) k) (entry (snd y) k) /\ t <= fst y.
Proof.
  intros []; simpl; split; try lia.
  - exists t'. split; [by left|lia].
  - exists t. split; [apply get_keeps|lia].
  - exists t. split; [by apply set_keeps|lia].
  - exists t. split; [by apply incr_keeps|lia].
Qed.

Lemma live_before t t' e : t <= t' -> live t' e -> live t e.
Proof. unfold live. destruct (en_expires e); [lia|done]. Qed.

Lemma others_live k x y e :
  others k x y -> entry (snd x) k = Some e -> live (fst y) e -> entry (snd y) k = Some e.
Proof.
  intros (_ & t & Hk & Ht)%others_kept He Hl. eapply kept_live; [exact Hk|done|].
  by eapply live_before.
Qed.

(** An entry that lives until after [d]. *)
Definition outlives (d : instant) (e : Entry) : Prop :=
  exists x, en_expires e = Some x /\ d < x.
Lemma outlives_live d t e : outlives d e -> t <= d -> live t e.
Proof. intros (x & Hx & Hlt) Ht. unfold live. rewrite Hx. lia. Qed.
Lemma live_not_dead t e : live t e -> ~ dead t e.
Proof. unfold dead, live. destruct (en_expires e); [lia|tauto]. Qed.

(** *** Markers *)

(** [k] is set again, for long enough. *)
Inductive rearmed (k : string) (until : instant) : instant * s -> instant * s -> Prop :=
| rearmed_set t v ttl st : 0 < ttl -> until <= t + ttl ->
    rearmed k until (t, st) (t, snd (Set_ k v ttl t st)).

Definition marker_step (k : string) (until : instant) (x y : instant * s) : Prop :=
  others k x y \/ rearmed k until x y.

(** [k] is marked until [until], to the last whole millisecond. *)
Definition marked (k : string) (until : instant) (st : s) : Prop :=
  exists e, entry st k = Some e /\ outlives (until - millisecond) e.

Lemma armed_outlives t ttl until e :
  until <= t + ttl -> armed t ttl e -> outlives (until - millisecond) e.
Proof. intros Hu (x & Hx & Hlt). exists x. split; [done|lia]. Qed.

Lemma marker_step_time k until x y : marker_step k until x y -> fst x <= fst y.
Proof. intros [H|H]; [by apply others_kept in H as [? _]|]. destruct H. simpl. lia. Qed.

Lemma marker_step_marked k until x y :
  marker_step k until x y -> fst y <= until - millisecond ->
  marked k until (snd x) -> marked k until (snd y).
Proof.
  intros [H|H] Ht (e & He & Ho).
  - exists e. split; [|done]. eapply others_live; [exact H|done|]. by eapply outlives_live.
  - destruct H as [t v ttl st Httl Hu]. simpl in *.
    destruct (fst (Set_ k v ttl t st)) as [err|] eqn:Hr.
    + destruct (set_fails k v ttl t st Httl) as [Hk|(e' & He' & _ & Ha)]; [congruence| |].
      * exists e. split; [|done]. eapply kept_live; [exact Hk|done|]. by eapply outlives_live.
      * exists e'. split; [done|]. by eapply armed_outlives.
    + destruct (set_stores k v ttl t st Httl Hr) as (e' & He' & _ & Ha).
      exists e'. split; [done|]. by eapply armed_outlives.
Qed.

Lemma marker_steps_time k until x y : rtc (marker_step k until) x y -> fst x <= fst y.
Proof. induction 1 as [|x y z H _ IH]; [lia|]. apply marker_step_time in H. lia. Qed.

Lemma marker_steps_marked k until x y :
  rtc (marker_step k until) x y -> fst y <= until - millisecond ->
  marked k until (snd x) -> marked k until (snd y).
Proof.
  induction 1 as [|x y z H Hr IH]; [done|]. intros Ht Hm.
  apply IH; [done|]. eapply marker_step_marked; [exact H| |done].
  apply marker_steps_time in Hr. lia.
Qed.

Lemma marked_present k until t st :
  marked k until st -> t <= until - millisecond -> fst (present k t st) <> Ok false.
Proof.
  intros (e & He & Ho) Ht. unfold present.
  destruct (Get k t st) as [[v|[]] st'] eqn:Hg; simpl; try done.
  exfalso. eapply (get_missing k t st); [by rewrite Hg|exact He|]. by eapply outlives_live.
Qed.

Lemma Revoke_marks jti ttl t st :
  jti <> "" -> 0 < ttl -> fst (Revoke jti ttl t st) = None ->
  marked (tokenRevokerPrefix +:+ jti) (t + ttl) (snd (Revoke jti ttl t st)).
Proof.
  intros Hj Httl. unfold Revoke. rewrite bool_decide_false by done.
  destruct (Z.leb_spec ttl 0); [lia|]. simpl orb. cbv iota. intros Hr.
  destruct (set_stores _ _ _ _ _ Httl Hr) as (e & He & _ & Ha).
  exists e. split; [done|]. by eapply armed_outlives.
Qed.

(** A revocation sticks: once a token's marker is written, and whatever is done
    to the store meanwhile (other markers, nonces and counters, reads, and further
    revocations of the same token that cover its remaining life), nobody is told
    that the token is not revoked before its life, to the last millisecond, is
    over: the answer is revoked, or an error the caller refuses on. *)
Theorem revocation_sticks jti ttl t st t' st' :
  jti <> "" -> 0 < ttl -> fst (Revoke jti ttl t st) = None ->
  rtc (marker_step (tokenRevokerPrefix +:+ jti) (t + ttl))
    (t, snd (Revoke jti ttl t st)) (t', st') ->
  t' <= t + ttl - millisecond ->
  fst (IsRevoked jti t' st') <> Ok false.
Proof.
  intros Hj Httl Hr Hsteps Ht. unfold IsRevoked. rewrite decide_False by done.
  eapply marked_present; [|exact Ht].
  eapply (marker_steps_marked _ _ _ _ Hsteps); [done|]. by apply Revoke_marks.
Qed.

(** *** Nonces *)
Inductive consumed (nonce : string) : instant * s -> instant * s -> Prop :=
| consumed_by t ttl st : 0 < ttl -> consumed nonce (t, st) (t, snd (Consume nonce ttl t st)).
Definition nonce_step (nonce : string) (x y : instant * s) : Prop :=
  others (oauthNoncePrefix +:+ nonce) x y \/ consumed nonce x y.

(** The counter of [k] stands between 1 and [c], until after [d]. *)
Definition counted (k : string) (d : instant) (c : Z) (st : s) : Prop :=
  exists e n, entry st k = Some e /\ en_value e = FormatInt n /\ 1 <= n <= c /\ outlives d e.

Lemma Consume_state nonce ttl t st :
  nonce <> "" -> snd (Consume nonce ttl t st) = snd (Incr (oauthNoncePrefix +:+ nonce) ttl t st).
Proof. intros Hn. unfold Consume. rewrite decide_False by done. by destruct (Incr _ _ _ _) as [[]]. Qed.

Lemma counted_incr k d c t ttl st :
  counted k d c st -> 0 < ttl -> t <= d -> c < int64_max ->
  counted k d (c + 1) (snd (Incr k ttl t st)) /\
  forall n, fst (Incr k ttl t st) = Ok n -> 2 <= n.
Proof.
  intros (e & n & He & Hv & Hn & Ho) Httl Ht Hc.
  assert (Hl : live t e) by by eapply outlives_live.
  assert (Hp : wrap64 (ParseInt (en_value e) + 1) = n + 1).
  { rewrite Hv, ParseInt_FormatInt; [|unfold in_int64, int64_min, int64_max in *; lia].
    apply wrap64_id. unfold in_int64, int64_min, int64_max in *. lia. }
  assert (Hstep : forall e', (exists e0, entry st k = Some e0 /\ ~ dead t e0 /\
      en_expires e' = en_expires e0 /\ en_value e' = FormatInt (wrap64 (ParseInt (en_value e0) + 1))) ->
      entry (snd (Incr k ttl t st)) k = Some e' -> counted k d (c + 1) (snd (Incr k ttl t st))).
  { intros e' (e0 & He0 & _ & Hx & Hv') He'. rewrite He in He0. injection He0 as <-.
    exists e', (n + 1). split_and!; [done|by rewrite Hv', Hp|lia|lia|].
    destruct Ho as (x & Hxx & Hlt). exists x. by rewrite Hx. }
  destruct (fst (Incr k ttl t st)) as [m|err] eqn:Hr.
  - destruct (incr_counts k ttl t st m Httl Hr) as (e' & He' & Hv' & Hcase).
    destruct Hcase as [(e0 & He0 & Hd & Hx & Hm)|(Hnone & _)]; [|by destruct (Hnone e He)].
    assert (Hm' : m = n + 1) by (rewrite He in He0; injection He0 as <-; by rewrite Hm).
    split; [|intros ? [= <-]; lia].
    apply (Hstep e'); [|done]. exists e0. split_and!; try done. by rewrite Hv', Hm.
  - split; [|done]. destruct (incr_fails k ttl t st err Httl Hr) as [Hk|(e' & He' & Hcase)].
    + exists e, n. split_and!; try done; try lia. by eapply kept_live.
    + destruct Hcase as [Hcase|(Hnone & _)]; [|by destruct (Hnone e He)]. by apply (Hstep e').
Qed.

Lemma nonce_step_time nonce x y : nonce_step nonce x y -> fst x <= fst y.
Proof. intros [H|H]; [by apply others_kept in H as [? _]|]. destruct H. simpl. lia. Qed.

Lemma nonce_steps_counted nonce d n x y c :
  nonce <> "" -> nsteps (nonce_step nonce) n x y -> fst y <= d ->
  counted (oauthNoncePrefix +:+ nonce) d c (snd x) -> c + Z.of_nat n < int64_max ->
  counted (oauthNoncePrefix +:+ nonce) d (c + Z.of_nat n) (snd y).
Proof.
  intros Hne Hs. revert c. induction Hs as [x|n x y z Hs Hr IH]; intros c Ht Hc Hlt.
  { by rewrite Z.add_0_r. }
  assert (Hty : fst y <= fst z).
  { clear -Hr Hlaws. induction Hr as [|n x y z Hs _ IH]; [lia|]. apply nonce_step_time in Hs. lia. }
  replace (c + Z.of_nat (S n)) with (c + 1 + Z.of_nat n) in * by lia.
  apply IH; [done| |lia]. destruct Hs as [Ho|Hcons].
  - destruct Hc as (e & m & He & Hv & Hm & Hout). exists e, m. split_and!; try done; try lia.
    eapply others_live; [exact Ho|done|]. eapply outlives_live; [done|lia].
  - destruct Hcons as [t ttl st Httl]. simpl in *. rewrite Consume_state by done.
    apply (counted_incr _ _ c); [done|done|lia|lia].
Qed.

(** The nonce's key holds a counter, if anything: only [Consume] writes there. *)
Definition nonce_counter (nonce : string) (st : s) : Prop :=
  forall e, entry st (oauthNoncePrefix +:+ nonce) = Some e ->
    1 <= ParseInt (en_value e) < int64_max.

(** A nonce is single use: after a consumption that answers "first use", and
    whatever is done to the store meanwhile, no other consumption of it is told so
    within its time to live, to the last millisecond (and fewer than 2^63 - 2
    operations). *)
Theorem nonce_is_single_use nonce ttl t st n t' st' ttl' :
  nonce_counter nonce st -> 0 < ttl -> fst (Consume nonce ttl t st) = Ok true ->
  nsteps (nonce_step nonce) n (t, snd (Consume nonce ttl t st)) (t', st') ->
  t' <= t + ttl - millisecond -> 1 + Z.of_nat n < int64_max -> 0 < ttl' ->
  fst (Consume nonce ttl' t' st') <> Ok true.
Proof.
  intros Hcount Httl Hc Hs Ht Hn Httl'.
  assert (Hne : nonce <> "").
  { intros ->. unfold Consume in Hc. by rewrite decide_True in Hc. }
  rewrite Consume_state in Hs by done. set (k := oauthNoncePrefix +:+ nonce) in *.
  assert (H0 : counted k (t + ttl - millisecond) 1 (snd (Incr k ttl t st))).
  { unfold Consume in Hc. rewrite decide_False in Hc by done. fold k in Hc.
    destruct (Incr k ttl t st) as [[m|] st1] eqn:Hi; [|done]. simpl in Hc.
    injection Hc as Hm. apply Z.eqb_eq in Hm. subst m.
    destruct (incr_counts k ttl t st 1 Httl) as (e & He & Hv & Hcase); [by rewrite Hi|].
    rewrite Hi in He. exists e, 1. split_and!; try done.
    destruct Hcase as [(e0 & He0 & Hd & Hx & Hw)|(_ & _ & Ha)]; [|by eapply armed_outlives].
    specialize (Hcount e0 He0). rewrite wrap64_id in Hw by (unfold in_int64, int64_min in *; lia).
    lia. }
  pose proof (nonce_steps_counted nonce _ n _ _ _ Hne Hs Ht H0 Hn) as H1. simpl in H1.
  destruct (counted_incr k _ _ t' ttl' st' H1 Httl' Ht Hn) as [_ H2].
  unfold Consume. rewrite decide_False by done. fold k.
  destruct (Incr k ttl' t' st') as [[m|] st1] eqn:Hi; [|done]. simpl in *.
  specialize (H2 m eq_refl). intros [= Hm]. apply Z.eqb_eq in Hm. lia.
Qed.
(** *** Rate limiting *)

(** The traffic of one bucket: hits that are counted, in one window, amid what
    everybody else does; with the answers, in order. *)
Inductive traffic (key : string) (limit : Z) (window : duration) (from : instant)
    : list bool -> instant * s -> instant * s -> Prop :=
| traffic_end x : traffic key limit window from [] x x
| traffic_others answers x y z :
    others (bucket_key key window from) x y ->
    traffic key limit window from answers y z ->
    traffic key limit window from answers x z
| traffic_hit answers t st z :
    time_truncate t window = time_truncate from window ->
    is_ok (fst (Incr (bucket_key key window t) (window + 5 * second) t st)) = true ->
    traffic key limit window from answers (t, snd (Allow true key limit window t st)) z ->
    traffic key limit window from
      (al_allowed (fst (Allow true key limit window t st)) :: answers) (t, st) z.

(** The counter of [k] stands at [c], until after [d]. *)
Definition tally (k : string) (d : instant) (c : Z) (st : s) : Prop :=
  (c = 0 /\ entry st k = None) \/
  (1 <= c /\ exists e, entry st k = Some e /\ en_value e = FormatInt c /\ outlives d e).

Lemma tally_others k d c x y :
  others k x y -> fst y <= d -> tally k d c (snd x) -> tally k d c (snd y).
Proof.
  intros Ho Hd [[-> He]|(Hc & e & He & Hv & Hout)].
  - left. split; [done|]. apply others_kept in Ho as (_ & t & Hk & _). by eapply kept_none.
  - right. split; [done|]. exists e. split_and!; try done.
    eapply others_live; [exact Ho|done|]. by eapply outlives_live.
Qed.

Lemma tally_incr k d c t ttl st n :
  tally k d c st -> 0 < ttl -> t <= d -> d <= t + ttl - millisecond -> c < int64_max ->
  fst (Incr k ttl t st) = Ok n -> n = c + 1 /\ tally k d (c + 1) (snd (Incr k ttl t st)).
Proof.
  intros Hta Httl Ht Hd Hc Hr.
  destruct (incr_counts k ttl t st n Httl Hr) as (e' & He' & Hv' & Hcase).
  destruct Hta as [[-> He]|(Hc1 & e & He & Hv & Hout)].
  - destruct Hcase as [(e0 & He0 & _)|(_ & -> & x & Hx & Hlt)]; [congruence|].
    split; [done|]. right. split; [lia|]. exists e'. split_and!; try done. exists x. split; [done|lia].
  - destruct Hcase as [(e0 & He0 & _ & Hx & ->)|(Hnone & _)].
    2: { destruct (Hnone e He). by eapply outlives_live. }
    rewrite He in He0. injection He0 as <-.
    assert (Hp : wrap64 (ParseInt (en_value e) + 1) = c + 1).
    { rewrite Hv, ParseInt_FormatInt; [apply wrap64_id|];
        unfold in_int64, int64_min, int64_max in *; lia. }
    split; [done|]. right. split; [lia|]. exists e'. rewrite Hp in Hv'. split_and!; try done.
    destruct Hout as (x & Hxx & Hlt). exists x. by rewrite Hx.
Qed.

Lemma Allow_counted key limit window t st n :
  0 < limit -> 0 < window ->
  fst (Incr (bucket_key key window t) (window + 5 * second) t st) = Ok n ->
  al_allowed (fst (Allow true key limit window t st)) = negb (limit <? n) /\
  snd (Allow true key limit window t st) =
    snd (Incr (bucket_key key window t) (window + 5 * second) t st).
Proof.
  intros Hl Hw. unfold Allow. destruct (Z.leb_spec limit 0), (Z.leb_spec window 0); try lia. simpl.
  destruct (Incr _ _ _ _) as [r st'] eqn:Hi. simpl. intros ->. by destruct (limit <? n).
Qed.

Lemma traffic_answers key limit window from answers x z c :
  0 < limit -> 0 < window -> traffic key limit window from answers x z ->
  time_truncate from window <= fst x ->
  (fst x <= time_truncate from window + window ->
    tally (bucket_key key window from) (time_truncate from window + window) (Z.of_nat c) (snd x)) ->
  Z.of_nat c + Z.of_nat (length answers) < int64_max ->
  answers = map (fun i => bool_decide (Z.of_nat i < limit)) (seq c (length answers)).
Proof.
  intros Hl Hw Htr. revert c. induction Htr as [x|answers x y z Ho _ IH|answers t st z Ht Hok _ IH];
    intros c Hfrom Hta Hlen; [done| |].
  - apply IH; [|intros Hy|done].
    + apply others_kept in Ho as [? _]. lia.
    + eapply tally_others; [exact Ho|done|]. apply Hta. apply others_kept in Ho as [? _]. lia.
  - assert (Hk : bucket_key key window t = bucket_key key window from)
      by (unfold bucket_key; by rewrite Ht).
    destruct (fst (Incr (bucket_key key window t) (window + 5 * second) t st)) as [n|] eqn:Hr; [|done].
    destruct (Allow_counted _ _ _ _ _ _ Hl Hw Hr) as [-> Hst]. rewrite Hst in *.
    pose proof (time_truncate_bounds t window Hw) as Hb. rewrite Ht in Hb. rewrite Hk in *.
    simpl in Hta, Hfrom, Hlen. simpl length in *.
    assert (n = Z.of_nat c + 1 /\ tally (bucket_key key window from)
      (time_truncate from window + window) (Z.of_nat c + 1)
      (snd (Incr (bucket_key key window from) (window + 5 * second) t st))) as [-> Hta'].
    { eapply tally_incr; [apply Hta| | | | |exact Hr]; unfold second, millisecond; lia. }
    simpl. f_equal.
    + destruct (Z.ltb_spec limit (Z.of_nat c + 1)), (bool_decide_reflect (Z.of_nat c < limit));
        simpl; lia || done.
    + apply IH; simpl; [lia| |lia]. intros _. by replace (Z.of_nat (S c)) with (Z.of_nat c + 1) by lia.
Qed.

(** The rate limit grants exactly its budget: of the hits that are counted in
    one window of one key, whatever is done to the store's other keys meanwhile and
    however far into the window the first one came, the first [limit] are allowed
    and every later one is refused. *)
Theorem budget_is_exact key limit window answers x z :
  0 < limit -> 0 < window ->
  entry (snd x) (bucket_key key window (fst x)) = None ->
  traffic key limit window (fst x) answers x z ->
  Z.of_nat (length answers) < int64_max ->
  answers = map (fun i => bool_decide (Z.of_nat i < limit)) (seq 0 (length answers)).
Proof.
  intros Hl Hw He Htr Hlen. eapply traffic_answers; [done|done|exact Htr| | |lia].
  - pose proof (time_truncate_bounds (fst x) window Hw). lia.
  - intros _. by left.
Qed.
End Users.

(** ** The theorems at work on the in-memory state *)
Module RedisRun.
Definition t0 : instant := 1700000000 * second.

Definition after_revoke : memoryState := snd (Revoke "jti-1" (10 * minute) t0 ∅).

Lemma revocation_sticks_witness :
  fst (IsRevoked "jti-1" (t0 + 9 * minute) after_revoke) <> Ok false.
Proof.
  apply (revocation_sticks "jti-1" (10 * minute) t0 ∅); [done|done|reflexivity| |done].
  apply rtc_once. left. apply others_tick. done.
Defined.

Lemma nonce_is_single_use_witness :
  fst (Consume "n-1" (10 * minute) (t0 + minute)
    (snd (Consume "n-1" (10 * minute) t0 (∅ : memoryState)))) <> Ok true.
Proof.
  apply (nonce_is_single_use "n-1" (10 * minute) t0 ∅ 1 (t0 + minute) _ (10 * minute));
    [done|done|reflexivity| |done|done|done].
  apply nsteps_once. left. apply others_tick. done.
Defined.

Definition hit (t : instant) (m : memoryState) := Allow true "ip-1" 2 minute t m.

Lemma traffic_hit_as {s : Type} `{State s, !StateLaws s} key limit window from b answers t (st : s) z :
  time_truncate t window = time_truncate from window ->
  is_ok (fst (Incr (bucket_key key window t) (window + 5 * second) t st)) = true ->
  al_allowed (fst (Allow true key limit window t st)) = b ->
  traffic key limit window from answers (t, snd (Allow true key limit window t st)) z ->
  traffic key limit window from (b :: answers) (t, st) z.
Proof. intros ? ? <- ?. by apply traffic_hit. Qed.

Lemma budget_is_exact_witness :
  [true; true; false] = map (fun i => bool_decide (Z.of_nat i < 2)) (seq 0 3).
Proof.
  apply (budget_is_exact "ip-1" 2 minute [true; true; false]
    (t0, ∅ : memoryState)
    (t0 + second, snd (hit (t0 + second) (snd (hit t0 (snd (hit t0 ∅)))))));
    [done|done|reflexivity| |done].
  apply (traffic_hit_as _ _ _ _ true [true; false] t0 ∅); [reflexivity..|].
  apply (traffic_hit_as _ _ _ _ true [false] t0); [reflexivity..|].
  eapply traffic_others; [apply (others_tick _ t0 (t0 + second)); done|].
  apply (traffic_hit_as _ _ _ _ false [] (t0 + second)); [reflexivity..|].
  apply traffic_end.
Defined.
End RedisRun.
