(* ===== verification/Revocation.v ===== *)
(** Token revocation at the auth gateway: auth-gateway/code/revocation.go and the
    revocation part of the access check of ext_authz.go.

    The gateway reads the markers the accounts service writes (RedisState) through
    a local cache.  [Revoker] is the interface the access check is written against,
    with the two implementations of the code: [noopRevoker] and [cachedRevoker].
    The sequence in which Go ranges over a map is an argument, [ranged]. *)
From S2P Require Import Prelude RedisState.
From Stdlib Require Import Ascii.

Local Open Scope Z_scope.

Definition revocationKeyPrefix : string := "revoked-jti:".
Definition sessionRevocationKeyPrefix : string := "revoked-session:".
Definition defaultRevocationCacheTTL : duration := 3 * second.
Definition revocationCacheMaxEntries : Z := 50000.
Definition revocationCacheEvictBatch : Z := revocationCacheMaxEntries / 10.

(** ** The cache *)
Record revocationCacheEntry : Type := {
  rc_revoked : bool;
  rc_expiresAt : instant;
}.
Abbreviation cache := (gmap string revocationCacheEntry) (only parsing).

(** [cached] at [t]: the answer, if there is one. *)
Definition cached (ttl : duration) (key : string) (t : instant) (c : cache) : option bool :=
  if ttl <=? 0 then None
  else match c !! key with
  | None => None
  | Some e => if negb (time_before t (rc_expiresAt e)) then None else Some (rc_revoked e)
  end.

(** The order [sort.Slice] sorts by; entries of one expiry end up in any order. *)
Definition expires_first (x y : string * revocationCacheEntry) : Prop :=
  rc_expiresAt (snd x) <= rc_expiresAt (snd y).
#[export] Instance expires_first_dec : RelDecision expires_first.
Proof. intros x y. apply Z_le_dec. Defined.

Definition delete_all (keys : list string) (c : cache) : cache :=
  foldl (fun c key => delete key c) c keys.

Definition evictOldest (ranged : list (string * revocationCacheEntry)) (n : Z) (c : cache)
    : cache :=
  if n <=? 0 then c
  else
    let ordered := merge_sort expires_first ranged in
    let n := if Z.of_nat (length ordered) <? n then Z.of_nat (length ordered) else n in
    delete_all (map fst (take (Z.to_nat n) ordered)) c.

(** The sweep: what has expired goes. *)
Definition sweep (t : instant) (c : cache) : cache :=
  filter (fun kv => time_before t (rc_expiresAt (snd kv)) = true) c.

Definition store (ttl : duration) (ranged : list (string * revocationCacheEntry))
    (key : string) (revoked : bool) (t : instant) (c : cache) : cache :=
  if ttl <=? 0 then c
  else
    let c :=
      if revocationCacheMaxEntries <=? Z.of_nat (size c)
      then
        let swept := sweep t c in
        let freed := Z.of_nat (size c) - Z.of_nat (size swept) in
        if freed =? 0 then evictOldest ranged revocationCacheEvictBatch swept else swept
      else c in
    <[key := {| rc_revoked := revoked; rc_expiresAt := time_add t ttl |}]> c.

Definition Forget (jti : string) (c : cache) : cache := delete (revocationKeyPrefix +:+ jti) c.

(** ** The store behind it *)
Section Store.
Context {s : Type} `{State s}.

Definition markerPresent (key : string) (t : instant) (st : s) : result StateErr bool * s :=
  match Get key t st with
  | (Ok _, st') => (Ok true, st')
  | (Err ErrNotFound, st') => (Ok false, st')
  | (Err e, st') => (Err e, st')
  end.
Definition revoked (jti : string) (t : instant) (st : s) : result StateErr bool * s :=
  markerPresent (revocationKeyPrefix +:+ jti) t st.
Definition revokedSession (sessionID : string) (t : instant) (st : s)
    : result StateErr bool * s :=
  markerPresent (sessionRevocationKeyPrefix +:+ sessionID) t st.
End Store.

(** ** The interface *)
Class Revoker (w : Type) : Type := {
  Revoked : string -> w -> result StateErr bool * w;
  RevokedSession : string -> w -> result StateErr bool * w;
  Forget_jti : string -> w -> w;
}.

(** Without a store nothing is ever revoked. *)
Record noopRevoker : Type := NoopRevoker {}.
#[export] Instance noop_Revoker : Revoker noopRevoker := {|
  Revoked := fun _ w => (Ok false, w);
  RevokedSession := fun _ w => (Ok false, w);
  Forget_jti := fun _ w => w;
|}.

(** The cached revoker in its surroundings: the clock, read as often as
    [cr_reads] says, the shared store and the order maps are ranged over in. *)
Record cachedRevoker (s : Type) : Type := {
  cr_ttl : duration;
  cr_clock : nat -> instant;
  cr_reads : nat;
  cr_store : s;
  cr_ranged : cache -> list (string * revocationCacheEntry);
  cr_entries : cache;
}.
Arguments cr_ttl {s}. Arguments cr_clock {s}. Arguments cr_reads {s}.
Arguments cr_store {s}. Arguments cr_ranged {s}. Arguments cr_entries {s}.

Section Cached.
Context {s : Type} `{State s}.

Definition now (w : cachedRevoker s) : instant := cr_clock w (cr_reads w).
(** Go on with [st] and [c], with the clock read once more ([tick]) or as it was. *)
Definition proceed (tick : nat) (st : s) (c : cache) (w : cachedRevoker s) : cachedRevoker s :=
  {| cr_ttl := cr_ttl w; cr_clock := cr_clock w; cr_reads := tick + cr_reads w;
     cr_store := st; cr_ranged := cr_ranged w; cr_entries := c |}.

(** From the cache, or from the store and then cached; a store error is not
    cached. *)
Definition answer (cacheKey arg : string)
    (lookup : string -> instant -> s -> result StateErr bool * s)
    (w : cachedRevoker s) : result StateErr bool * cachedRevoker s :=
  match cached (cr_ttl w) cacheKey (now w) (cr_entries w) with
  | Some revoked => (Ok revoked, proceed 1 (cr_store w) (cr_entries w) w)
  | None =>
      let w := proceed 1 (cr_store w) (cr_entries w) w in
      match lookup arg (now w) (cr_store w) with
      | (Err e, st) => (Err e, proceed 1 st (cr_entries w) w)
      | (Ok revoked, st) =>
          let w := proceed 1 st (cr_entries w) w in
          let ranged := cr_ranged w (sweep (now w) (cr_entries w)) in
          let entries := store (cr_ttl w) ranged cacheKey revoked (now w) (cr_entries w) in
          (Ok revoked, proceed 1 (cr_store w) entries w)
      end
  end.

Definition cached_Revoked (jti : string) (w : cachedRevoker s)
    : result StateErr bool * cachedRevoker s :=
  if decide (jti = "") then (Ok false, w)
  else answer (revocationKeyPrefix +:+ jti) jti revoked w.

Definition cached_RevokedSession (sessionID : string) (w : cachedRevoker s)
    : result StateErr bool * cachedRevoker s :=
  if decide (sessionID = "") then (Ok false, w)
  else answer (sessionRevocationKeyPrefix +:+ sessionID) sessionID revokedSession w.

Definition cached_Forget (jti : string) (w : cachedRevoker s) : cachedRevoker s :=
  proceed 0 (cr_store w) (Forget jti (cr_entries w)) w.

#[export] Instance cached_Revoker : Revoker (cachedRevoker s) := {|
  Revoked := cached_Revoked;
  RevokedSession := cached_RevokedSession;
  Forget_jti := cached_Forget;
|}.
End Cached.

(** ** Which one is wired *)
Inductive wiring : Type := Noop | Cached (url : string) (ttl : duration).
Inductive wiring_err : Type := NoStore | BadRedisURL.

(** [TrimSpace] and [parses], whether the Redis client accepts the URL, are given. *)
Definition newRevoker (blank parses : string -> bool) (redisURL : string) (ttl : duration)
    (isLocal : bool) : result wiring_err wiring :=
  if blank redisURL then (if negb isLocal then Err NoStore else Ok Noop)
  else if negb (parses redisURL) then Err BadRedisURL
  else Ok (Cached redisURL ttl).

(** ** The access check *)
Record sessionClaims : Type := {
  cl_ID : string;
  cl_SessionID : string;
  cl_FamilyID : string;
}.

(** [pathOnly, _, _ := strings.Cut(path, "?")] *)
Definition before_query (path : string) : string := before_byte "?" path.

Definition logoutPaths : list string :=
  ["/v1/auth/logout"; "/saas.accounts.v1.AuthService/Logout"; "/customers.AuthService/Logout"].

Record denial : Type := Deny { de_status : Z; de_reason : string }.

Section Check.
Context {w : Type} `{Revoker w}.

(** What an answer means: [None] is to go on. *)
Definition judge (failOpen : bool) (why : string) (r : result StateErr bool) : option denial :=
  match r with
  | Err _ => if negb failOpen then Some (Deny 503 "revocation check unavailable") else None
  | Ok true => Some (Deny 401 why)
  | Ok false => None
  end.

Definition check_token (failOpen : bool) (claims : sessionClaims) (path : string) (x : w)
    : option denial * w :=
  if decide (cl_ID claims = "") then (None, x)
  else
    let '(r, x) := Revoked (cl_ID claims) x in
    match judge failOpen "token revoked" r with
    | Some d => (Some d, x)
    | None =>
        (None, if contains_string logoutPaths (before_query path)
               then Forget_jti (cl_ID claims) x else x)
    end.

Fixpoint check_sessions (failOpen : bool) (keys : list string) (x : w) : option denial * w :=
  match keys with
  | [] => (None, x)
  | key :: keys =>
      if decide (key = "") then check_sessions failOpen keys x
      else
        let '(r, x) := RevokedSession key x in
        match judge failOpen "session revoked" r with
        | Some d => (Some d, x)
        | None => check_sessions failOpen keys x
        end
  end.

(** The revocation part of the check: [None] lets the request through to the
    checks that follow. *)
Definition checkRevocation (failOpen : bool) (claims : sessionClaims) (path : string) (x : w)
    : option denial * w :=
  match check_token failOpen claims path x with
  | (Some d, x) => (Some d, x)
  | (None, x) => check_sessions failOpen [cl_SessionID claims; cl_FamilyID claims] x
  end.
End Check.
