(* ===== verification/RevocationTheorems.v ===== *)
(** What the gateway's revocation check guarantees: its cache stays bounded, a
    revoked token is refused from a bounded time after its revocation on, and in
    strict mode only an authoritative "not revoked" lets a request through. *)
From S2P Require Import Prelude RedisState RedisStateTheorems Revocation.

Local Open Scope Z_scope.

(** ** The cache *)
Lemma delete_all_lookup keys c k e :
  delete_all keys c !! k = Some e <-> c !! k = Some e /\ k ∉ keys.
Proof.
  unfold delete_all. revert c. induction keys as [|key keys IH]; intros c; simpl.
  { set_solver. }
  rewrite IH, lookup_delete_Some, not_elem_of_cons. naive_solver.
Qed.

Lemma delete_all_subseteq keys c : delete_all keys c ⊆ c.
Proof. apply map_subseteq_spec. intros k e He. by apply delete_all_lookup in He as [? _]. Qed.

Lemma sweep_subseteq t c : sweep t c ⊆ c.
Proof. apply map_filter_subseteq. Qed.

Lemma evictOldest_subseteq ranged n c : evictOldest ranged n c ⊆ c.
Proof. unfold evictOldest. destruct (n <=? 0); [done|]. apply delete_all_subseteq. Qed.

Lemma delete_all_shrinks keys c k : k ∈ keys -> is_Some (c !! k) -> (size (delete_all keys c) < size c)%nat.
Proof.
  intros Hk [e He]. apply map_subset_size, map_subset_alt. split; [apply delete_all_subseteq|].
  exists k. split; [|by exists e].
  apply eq_None_not_Some. intros [e' He']. by apply delete_all_lookup in He' as [_ ?].
Qed.

Lemma evictOldest_shrinks ranged n c :
  0 < n -> ranged ≡ₚ map_to_list c -> (0 < size c)%nat ->
  (size (evictOldest ranged n c) < size c)%nat.
Proof.
  intros Hn Hr Hc. unfold evictOldest. destruct (Z.leb_spec n 0); [lia|].
  set (ordered := merge_sort expires_first ranged).
  assert (Hp : ordered ≡ₚ map_to_list c) by (etrans; [apply merge_sort_Permutation|done]).
  assert (Hlen : length ordered = size c) by (by rewrite Hp, length_map_to_list).
  destruct ordered as [|[k e] rest] eqn:Ho; [simpl in Hlen; lia|].
  apply (delete_all_shrinks _ _ k).
  - destruct (_ <? n); destruct (Z.to_nat _) eqn:Hz; simpl in *; try lia; by left.
  - exists e. apply elem_of_map_to_list. rewrite <- Hp. by left.
Qed.

Definition bounded (c : cache) : Prop := Z.of_nat (size c) <= revocationCacheMaxEntries.

Lemma insert_size (k : string) (e : revocationCacheEntry) (c : cache) :
  (size (<[k := e]> c) <= S (size c))%nat.
Proof. destruct (c !! k) eqn:Hk; [rewrite map_size_insert_Some|rewrite map_size_insert_None]; eauto. Qed.

Lemma store_bounded ttl ranged key b t c :
  ranged ≡ₚ map_to_list (sweep t c) -> bounded c -> bounded (store ttl ranged key b t c).
Proof.
  intros Hr Hc. unfold store, bounded in *. destruct (ttl <=? 0); [done|].
  match goal with |- Z.of_nat (size (<[key := ?e]> ?c')) <= _ =>
    assert (Z.of_nat (size c') < revocationCacheMaxEntries) end.
  2: { etrans; [apply Nat2Z.inj_le, insert_size|]. lia. }
  destruct (Z.leb_spec revocationCacheMaxEntries (Z.of_nat (size c))) as [Hfull|]; [|done].
  pose proof (map_subseteq_size _ _ (sweep_subseteq t c)) as Hsw.
  destruct (Z.eqb_spec (Z.of_nat (size c) - Z.of_nat (size (sweep t c))) 0); [|lia].
  pose proof (evictOldest_shrinks ranged revocationCacheEvictBatch (sweep t c)) as He.
  unfold revocationCacheMaxEntries in *. specialize (He ltac:(done) Hr ltac:(lia)). lia.
Qed.

(** What [store] leaves of other answers it has not touched, and its own expires a
    time to live later. *)
Lemma store_lookup ttl ranged key b t c k e :
  store ttl ranged key b t c !! k = Some e ->
  c !! k = Some e \/ (k = key /\ e = {| rc_revoked := b; rc_expiresAt := t + ttl |}).
Proof.
  unfold store. destruct (ttl <=? 0); [by left|].
  intros [[<- <-]|[_ He]]%lookup_insert_Some; [by right|]. left.
  destruct (revocationCacheMaxEntries <=? _); [|done].
  eapply lookup_weaken; [exact He|]. destruct (_ =? 0); [|apply sweep_subseteq].
  etrans; [apply evictOldest_subseteq|apply sweep_subseteq].
Qed.

(** ** The gateway at work *)

(** A lookup whose answer is not in the cache yet. *)
Record flight : Type := {
  fl_key : string;
  fl_answer : bool;
  fl_since : instant;
}.

Section Gateway.
Context {s : Type} `{Hstate : State s} `{Hlaws : !StateLaws s}.
(** The cache's time to live, and how long a lookup takes to reach the cache. *)
Context (ttl latency : duration).

Record gateway : Type := {
  gw_clock : instant;
  gw_store : s;
  gw_cache : cache;
  gw_flights : list flight;
}.

Definition idle (t : instant) (st : s) : gateway :=
  {| gw_clock := t; gw_store := st; gw_cache := ∅; gw_flights := [] |}.
Definition with_store (st : s) (g : gateway) : gateway :=
  {| gw_clock := gw_clock g; gw_store := st; gw_cache := gw_cache g; gw_flights := gw_flights g |}.

(** Requests of one gateway, interleaved: each misses the cache and consults the
    store, and later caches the answer; [others_do] is what everybody else does to
    the store. *)
Inductive gateway_step (others_do : instant * s -> instant * s -> Prop) : gateway -> gateway -> Prop :=
| gateway_tick t t' st c fs :
    t <= t' -> Forall (fun f => t' <= fl_since f + latency) fs ->
    gateway_step others_do
      {| gw_clock := t; gw_store := st; gw_cache := c; gw_flights := fs |}
      {| gw_clock := t'; gw_store := st; gw_cache := c; gw_flights := fs |}
| gateway_lookup key b st' t st c fs :
    cached ttl key t c = None -> markerPresent key t st = (Ok b, st') ->
    gateway_step others_do
      {| gw_clock := t; gw_store := st; gw_cache := c; gw_flights := fs |}
      {| gw_clock := t; gw_store := st'; gw_cache := c;
         gw_flights := {| fl_key := key; fl_answer := b; fl_since := t |} :: fs |}
| gateway_lookup_fails key e st' t st c fs :
    cached ttl key t c = None -> markerPresent key t st = (Err e, st') ->
    gateway_step others_do
      {| gw_clock := t; gw_store := st; gw_cache := c; gw_flights := fs |}
      {| gw_clock := t; gw_store := st'; gw_cache := c; gw_flights := fs |}
| gateway_answer f ranged t st c fs1 fs2 :
    ranged ≡ₚ map_to_list (sweep t c) ->
    gateway_step others_do
      {| gw_clock := t; gw_store := st; gw_cache := c; gw_flights := fs1 ++ f :: fs2 |}
      {| gw_clock := t; gw_store := st;
         gw_cache := store ttl ranged (fl_key f) (fl_answer f) t c; gw_flights := fs1 ++ fs2 |}
| gateway_forget jti t st c fs :
    gateway_step others_do
      {| gw_clock := t; gw_store := st; gw_cache := c; gw_flights := fs |}
      {| gw_clock := t; gw_store := st; gw_cache := Forget jti c; gw_flights := fs |}
| gateway_others t st st' c fs :
    others_do (t, st) (t, st') ->
    gateway_step others_do
      {| gw_clock := t; gw_store := st; gw_cache := c; gw_flights := fs |}
      {| gw_clock := t; gw_store := st'; gw_cache := c; gw_flights := fs |}.

(** The cache is bounded: from an empty one it never holds more than
    revocationCacheMaxEntries answers, however many distinct tokens are presented
    and in whatever order Go ranges over the map. *)
Theorem cache_is_bounded others_do t st g :
  rtc (gateway_step others_do) (idle t st) g ->
  Z.of_nat (size (gw_cache g)) <= revocationCacheMaxEntries.
Proof.
  intros Hs. change (bounded (gw_cache g)). revert Hs.
  assert (H0 : bounded (gw_cache (idle t st))) by done. revert H0.
  generalize (idle t st). intros g0 H0 Hs. induction Hs as [g|g1 g2 g3 H _ IH]; [done|].
  apply IH. destruct H; simpl in *; try done.
  - by apply store_bounded.
  - unfold bounded, Forget in *. etrans; [|exact H0].
    apply inj_le, map_subseteq_size, delete_subseteq.
Qed.

(** Lookups are not older than [latency], answers are cached for [ttl] at most. *)
Definition gateway_ok (g : gateway) : Prop :=
  (forall f, f ∈ gw_flights g -> fl_since f <= gw_clock g <= fl_since f + latency) /\
  (forall k e, gw_cache g !! k = Some e -> rc_expiresAt e <= gw_clock g + ttl).

Lemma gateway_step_time others_do g g' : gateway_step others_do g g' -> gw_clock g <= gw_clock g'.
Proof. intros []; simpl; lia. Qed.

Lemma gateway_steps_time others_do g g' :
  rtc (gateway_step others_do) g g' -> gw_clock g <= gw_clock g'.
Proof. induction 1 as [|g1 g2 g3 H _ IH]; [lia|]. apply gateway_step_time in H. lia. Qed.

Lemma gateway_step_ok others_do g g' :
  0 <= latency -> gateway_step others_do g g' -> gateway_ok g -> gateway_ok g'.
Proof.
  intros HL H [Hf Hc]. destruct H as [t t' st c fs Ht Hall| | |f ranged t st c fs1 fs2 Hr| |]; simpl in *.
  - split; simpl; [|intros k e He; specialize (Hc k e He); lia].
    intros f Hin. rewrite Forall_forall in Hall. specialize (Hall f Hin). specialize (Hf f Hin). lia.
  - split; simpl; [|done]. intros f [->|Hin]%elem_of_cons; simpl; [lia|by apply Hf].
  - by split.
  - split; simpl; [intros f' Hin; apply Hf; set_solver|].
    intros k e [He|[_ ->]]%store_lookup; [by apply (Hc k)|simpl; lia].
  - split; simpl; [done|]. unfold Forget. intros k e [_ He]%lookup_delete_Some. by apply (Hc k).
  - by split.
Qed.

Lemma gateway_steps_ok others_do g g' :
  0 <= latency -> rtc (gateway_step others_do) g g' -> gateway_ok g -> gateway_ok g'.
Proof. intros HL. induction 1; eauto using gateway_step_ok. Qed.

Lemma idle_ok t st : gateway_ok (idle t st).
Proof. split; simpl; [set_solver|]. intros k e He. by rewrite lookup_empty in He. Qed.

(** The state of affairs after [k] was marked at [t0]: the marker is there, a "not
    revoked" in the cache is an old one, and a lookup that says so an older one. *)
Definition fenced (k : string) (t0 until : instant) (g : gateway) : Prop :=
  marked k until (gw_store g) /\
  (forall e, gw_cache g !! k = Some e -> rc_revoked e = false ->
    rc_expiresAt e <= t0 + latency + ttl) /\
  (forall f, f ∈ gw_flights g -> fl_key f = k -> fl_answer f = false -> fl_since f <= t0).

Lemma markerPresent_marked k until t st b st' :
  marked k until st -> t <= until - millisecond -> markerPresent k t st = (Ok b, st') -> b = true.
Proof.
  intros Hm Ht Hp. pose proof (marked_present k until t st Hm Ht) as H.
  unfold markerPresent, present in *. rewrite Hp in H. by destruct b.
Qed.

Lemma markerPresent_state k t st r st' : markerPresent k t st = (r, st') -> st' = snd (Get k t st).
Proof. unfold markerPresent. by destruct (Get k t st) as [[?|[]] ?]; intros [= _ <-]. Qed.

Lemma markerPresent_marks k until key t st r st' :
  marked k until st -> t <= until - millisecond -> markerPresent key t st = (r, st') ->
  marked k until st'.
Proof.
  intros Hm Ht Hp%markerPresent_state. subst st'.
  apply (marker_step_marked k until (t, st) (t, _)); [|done|done]. left. apply others_get.
Qed.

Lemma gateway_step_fenced k t0 until g g' :
  gateway_step (marker_step k until) g g' -> gw_clock g' <= until - millisecond ->
  gateway_ok g -> fenced k t0 until g -> fenced k t0 until g'.
Proof.
  intros H Ht [Hok _] (Hm & Hc & Hf).
  destruct H as [| | |f ranged t st c fs1 fs2 Hr| |t st st' c fs Ho]; simpl in *.
  - by split_and!.
  - split_and!; simpl; [by eapply markerPresent_marks|done|].
    intros f [->|Hin]%elem_of_cons; simpl; [|by apply Hf]. intros <- ->.
    exfalso. by pose proof (markerPresent_marked _ _ _ _ _ _ Hm Ht H0).
  - split_and!; simpl; [by eapply markerPresent_marks|done|done].
  - split_and!; simpl; [done| |intros f' Hin; apply Hf; set_solver].
    intros e [He|[-> ->]]%store_lookup; [by apply Hc|]. simpl. intros Hb.
    assert (Hin : f ∈ fs1 ++ f :: fs2) by set_solver.
    specialize (Hf f Hin eq_refl Hb). specialize (Hok f Hin). lia.
  - split_and!; simpl; [done| |done]. unfold Forget. intros e [_ He]%lookup_delete_Some. by apply Hc.
  - split_and!; simpl; [|done|done]. by eapply (marker_step_marked _ _ (t, st) (t, st')).
Qed.

Lemma gateway_steps_fenced k t0 until g g' :
  0 <= latency -> rtc (gateway_step (marker_step k until)) g g' ->
  gw_clock g' <= until - millisecond ->
  gateway_ok g -> fenced k t0 until g -> fenced k t0 until g'.
Proof.
  intros HL Hs Ht. induction Hs as [|g1 g2 g3 H Hs IH]; [done|]. intros Hok Hf.
  pose proof (gateway_steps_time _ _ _ Hs). apply IH; [done|by eapply gateway_step_ok|].
  eapply gateway_step_fenced; [exact H|lia|done|done].
Qed.

(** Whoever consults a fenced gateway late enough is not told "not revoked". *)
Lemma fenced_answer k arg lookup t0 until g (v : cachedRevoker s) :
  fenced k t0 until g -> cr_ttl v = ttl -> cr_store v = gw_store g -> cr_entries v = gw_cache g ->
  lookup arg = markerPresent k ->
  (forall i, t0 + latency + ttl <= cr_clock v i <= until - millisecond) ->
  fst (answer k arg lookup v) <> Ok false.
Proof.
  intros (Hm & Hc & _) Hv Hst Hen Hl Ht. unfold answer. rewrite Hen, Hv.
  destruct (cached ttl k (now v) (gw_cache g)) as [b|] eqn:Hca; simpl.
  - intros [= ->]. unfold cached in Hca. destruct (ttl <=? 0); [done|].
    destruct (gw_cache g !! k) as [e|] eqn:He; [|done]. unfold time_before in Hca.
    specialize (Ht (cr_reads v)). fold (now v) in Ht.
    destruct (Z.ltb_spec (now v) (rc_expiresAt e)); [|done]. injection Hca as Hb.
    specialize (Hc e eq_refl Hb). lia.
  - rewrite Hst, Hl. simpl.
    destruct (markerPresent k _ _) as [[b|e] st'] eqn:Hp; simpl; [|done].
    intros [= ->]. by pose proof (markerPresent_marked _ _ _ _ _ _ Hm (proj2 (Ht _)) Hp).
Qed.

Lemma judge_refuses why r : r <> Ok false -> judge false why r <> None.
Proof. by destruct r as [[]|]. Qed.

(** C6. A revoked token is refused: whatever the gateway did before the accounts
    service revoked the token, and whatever it and everybody else do afterwards,
    from the cache's time to live plus the latency of a lookup after the
    revocation until the last millisecond of the marker's life, a strict gateway
    lets no request with the token through. *)
Theorem revocation_window before ts sts g jti life g' claims path (v : cachedRevoker s) :
  0 <= latency -> cl_ID claims = jti -> jti <> "" -> 0 < life ->
  rtc (gateway_step before) (idle ts sts) g ->
  fst (Revoke jti life (gw_clock g) (gw_store g)) = None ->
  rtc (gateway_step (marker_step (tokenRevokerPrefix +:+ jti) (gw_clock g + life)))
    (with_store (snd (Revoke jti life (gw_clock g) (gw_store g))) g) g' ->
  gw_clock g' <= gw_clock g + life - millisecond ->
  cr_ttl v = ttl -> cr_store v = gw_store g' -> cr_entries v = gw_cache g' ->
  (forall i, gw_clock g + latency + ttl <= cr_clock v i <= gw_clock g + life - millisecond) ->
  fst (checkRevocation false claims path v) <> None.
Proof.
  intros HL <- Hj Hlife Hbefore Hr Hafter Ht' Hv Hst Hen Ht.
  assert (Hok : gateway_ok g) by (eapply gateway_steps_ok; [done|exact Hbefore|apply idle_ok]).
  assert (Hf : fenced (tokenRevokerPrefix +:+ cl_ID claims) (gw_clock g) (gw_clock g + life) g').
  { eapply gateway_steps_fenced; [done|exact Hafter|done|done|]. split_and!; simpl.
    - by apply Revoke_marks.
    - intros e He _. pose proof (proj2 Hok _ _ He). lia.
    - intros f Hin _ _. apply (proj1 Hok f Hin). }
  pose proof (fenced_answer _ (cl_ID claims) revoked _ _ _ v Hf Hv Hst Hen eq_refl Ht) as Ha.
  unfold checkRevocation, check_token. rewrite decide_False by done. simpl.
  unfold cached_Revoked. rewrite decide_False by done.
  change revocationKeyPrefix with tokenRevokerPrefix.
  destruct (answer _ _ _ _) as [r v']. simpl in Ha. apply (judge_refuses "token revoked") in Ha.
  by destruct (judge _ _ r).
Qed.
End Gateway.

(** ** The access check *)
Section Check.
Context {w : Type} `{Revoker w}.

(** What the check asks: nothing for an empty key. *)
Definition ask (question : string -> w -> result StateErr bool * w) (key : string) (x : w)
    : result StateErr bool * w :=
  if decide (key = "") then (Ok false, x) else question key x.

Lemma check_two sid fam (x : w) :
  let r := fst (ask RevokedSession sid x) in
  let r' := fst (ask RevokedSession fam (snd (ask RevokedSession sid x))) in
  fst (check_sessions false [sid; fam] x) =
    match filter (fun r => r <> Ok false) [r; r'] with
    | [] => None
    | Err _ :: _ => Some (Deny 503 "revocation check unavailable")
    | Ok _ :: _ => Some (Deny 401 "session revoked")
    end.
Proof.
  cbv zeta. unfold ask. simpl. destruct (decide (sid = "")) as [_|_]; simpl.
  - destruct (decide (fam = "")) as [_|_]; [done|]. by destruct (RevokedSession fam x) as [[[]|e] x1].
  - destruct (RevokedSession sid x) as [[[]|e] x1]; simpl; [done| |done].
    destruct (decide (fam = "")) as [_|_]; [done|]. by destruct (RevokedSession fam x1) as [[[]|e'] x2].
Qed.

(** In strict mode the check fails closed: a request goes on exactly when its
    token and then both of its session keys, each asked where the one before left
    the revoker, are authoritatively not revoked; any error is a 503 and any
    revocation a 401. *)
Theorem strict_check_fails_closed claims path x :
  let x1 := snd (check_token false claims path x) in
  let x2 := snd (ask RevokedSession (cl_SessionID claims) x1) in
  let answers := [fst (ask Revoked (cl_ID claims) x);
                  fst (ask RevokedSession (cl_SessionID claims) x1);
                  fst (ask RevokedSession (cl_FamilyID claims) x2)] in
  fst (checkRevocation false claims path x) =
    match filter (fun r => r <> Ok false) answers with
    | [] => None
    | Err _ :: _ => Some (Deny 503 "revocation check unavailable")
    | Ok _ :: _ => Some (Deny 401 (if decide (hd (Ok false) answers = Ok false)
                                   then "session revoked" else "token revoked"))
    end.
Proof.
  cbv zeta. unfold checkRevocation, check_token, ask. simpl check_sessions.
  destruct (decide (cl_ID claims = "")) as [_|_].
  - simpl. apply check_two.
  - destruct (Revoked (cl_ID claims) x) as [r x0]. destruct r as [[]|e]; simpl; [done| |done].
    apply check_two.
Qed.
End Check.

(** ** A gateway at work on the in-memory state

    The default cache lifetime and a lookup that takes two seconds, the read
    timeout of the gateway's Redis client. *)
Module GatewayRun.
Definition t0 : instant := 1700000000 * second.
Definition life : duration := 10 * minute.
Definition key : string := tokenRevokerPrefix +:+ "jti-1".
Definition claims : sessionClaims := {| cl_ID := "jti-1"; cl_SessionID := ""; cl_FamilyID := "" |}.
Definition ttl : duration := defaultRevocationCacheTTL.
Definition latency : duration := 2 * second.
Definition idle_others (x y : instant * memoryState) : Prop := x = y.

(** A request has asked for the token, the answer is on its way. *)
Definition asked : gateway :=
  {| gw_clock := t0; gw_store := (∅ : memoryState); gw_cache := ∅;
     gw_flights := [{| fl_key := key; fl_answer := false; fl_since := t0 |}] |}.
(** It is cached two seconds later, and the clock goes on to [t]. *)
Definition answered (st : memoryState) (t : instant) : gateway :=
  {| gw_clock := t; gw_store := st;
     gw_cache := {[ key := {| rc_revoked := false; rc_expiresAt := t0 + latency + ttl |} ]};
     gw_flights := [] |}.
Definition consulted (g : gateway (s := memoryState)) : cachedRevoker memoryState :=
  {| cr_ttl := ttl; cr_clock := fun _ => gw_clock g; cr_reads := 0; cr_store := gw_store g;
     cr_ranged := map_to_list; cr_entries := gw_cache g |}.

Lemma asked_run (others_do : instant * memoryState -> instant * memoryState -> Prop) :
  rtc (gateway_step ttl latency others_do) (idle t0 (∅ : memoryState)) asked.
Proof. apply rtc_once. by apply (gateway_lookup _ _ _ key false). Qed.

Lemma answered_run others_do (st : memoryState) t : t0 + latency <= t ->
  rtc (gateway_step ttl latency others_do) (with_store st asked) (answered st t).
Proof.
  intros Ht. eapply rtc_l; [apply (gateway_tick _ _ _ t0 (t0 + latency)); [done|]|].
  { by apply Forall_singleton. }
  eapply rtc_l; [apply (gateway_answer _ _ _ _ [] _ _ _ [] []); reflexivity|].
  apply rtc_once. by apply (gateway_tick _ _ _ (t0 + latency) t).
Qed.

Lemma cache_is_bounded_witness :
  Z.of_nat (size (gw_cache (answered (∅ : memoryState) (t0 + minute)))) <= revocationCacheMaxEntries.
Proof.
  apply (cache_is_bounded ttl latency idle_others t0 ∅).
  etrans; [apply asked_run|]. by apply answered_run.
Defined.

Definition revoked_store : memoryState := snd (Revoke "jti-1" life t0 (∅ : memoryState)).

Lemma revocation_window_witness :
  fst (checkRevocation false claims "/v1/users" (consulted (answered revoked_store (t0 + 6 * second))))
    <> None.
Proof.
  apply (revocation_window ttl latency idle_others t0 ∅ asked "jti-1" life
    (answered revoked_store (t0 + 6 * second)) claims "/v1/users"); try done.
  - apply asked_run.
  - by apply answered_run.
Defined.

(** The documented window is not the real one: with the default cache lifetime
    of three seconds, a strict gateway still lets a revoked token through four
    seconds after its revocation, because the cached answer's life starts when the
    answer is cached and not when the store was asked. *)
Theorem stale_answer_outlives_ttl :
  exists (g g' : gateway (s := memoryState)),
    rtc (gateway_step defaultRevocationCacheTTL (2 * second) idle_others) (idle t0 ∅) g /\
    fst (Revoke "jti-1" life (gw_clock g) (gw_store g)) = None /\
    rtc (gateway_step defaultRevocationCacheTTL (2 * second) idle_others)
      (with_store (snd (Revoke "jti-1" life (gw_clock g) (gw_store g))) g) g' /\
    gw_clock g' = gw_clock g + 4 * second /\
    fst (checkRevocation false claims "/v1/users" (consulted g')) = None.
Proof.
  exists asked, (answered revoked_store (t0 + 4 * second)).
  split_and!; [apply asked_run|done|by apply answered_run|done|by vm_compute].
Qed.
End GatewayRun.
