(* ===== verification/PolicyConditions.v ===== *)
(** The attribute predicates of the method policy:
    accounts/code/pkg/policy/condition/condition.go.

    A condition is a message of saas/policy/v1/options.proto and may be missing
    (nil), as may its window; its getters answer the zero value then.  The time-zone
    database is given: [LoadLocation] and the offset of a location at an instant.
    [locationCache] is threaded through every call that loads a location. *)
From S2P Require Import Prelude.

Local Open Scope Z_scope.

Definition minutesPerDay : Z := 24 * 60.

(** ** Messages *)
Definition ATTRIBUTE_UNSPECIFIED : Z := 0.
Definition ATTRIBUTE_OWNER_TEAM : Z := 1.
Definition ATTRIBUTE_STATUS : Z := 2.
Definition ATTRIBUTE_CLASSIFICATION : Z := 3.
Definition ATTRIBUTE_TIME_WINDOW : Z := 4.

Record TimeWindow : Type := {
  StartMinute : Z;
  EndMinute : Z;
  Timezone : string;
}.

Record Condition : Type := {
  Attribute : Z;
  AllowedStatuses : list string;
  Window : option TimeWindow;
}.

Definition GetAttribute (c : option Condition) : Z := from_option Attribute ATTRIBUTE_UNSPECIFIED c.
Definition GetAllowedStatuses (c : option Condition) : list string := from_option AllowedStatuses [] c.
Definition GetTimeWindow (c : option Condition) : option TimeWindow := c ≫= Window.
Definition GetStartMinute (w : option TimeWindow) : Z := from_option StartMinute 0 w.
Definition GetEndMinute (w : option TimeWindow) : Z := from_option EndMinute 0 w.
Definition GetTimezone (w : option TimeWindow) : string := from_option Timezone "" w.

Record Input : Type := {
  CallerTeamIDs : list string;
  RecordOwnerTeamID : string;
  RecordStatus : string;
  RecordClassification : option Z;
  CallerClearance : option Z;
  Now : instant;
}.

Definition callerOwnsTeam (input : Input) : bool :=
  if decide (RecordOwnerTeamID input = "") then false
  else contains_string (CallerTeamIDs input) (RecordOwnerTeamID input).

Definition callerCleared (input : Input) : bool :=
  match RecordClassification input, CallerClearance input with
  | Some record, Some caller => record <=? caller
  | _, _ => false
  end.

(** ** Errors *)
Inductive cond_err : Type :=
| ErrUnknownAttribute (attribute : Z)
| ErrTimezone (name : string)
| ErrMissing
| ErrTakesNoParameters (attribute : Z)
| ErrStatusSetsWindow
| ErrNoStatuses
| ErrEmptyStatus
| ErrWindowSetsStatuses
| ErrNoWindow
| ErrStart (minute : Z)
| ErrEnd (minute : Z)
| ErrEqualBounds (minute : Z).

Section Zones.
Context {Location : Type}.
(** [time.LoadLocation], [None] its error; seconds east of UTC. *)
Variable LoadLocation : string -> option Location.
Variable offset : Location -> instant -> Z.

Abbreviation locationCache := (gmap string (option Location)) (only parsing).

Definition loadLocation (name : string) (cache : locationCache)
    : option Location * locationCache :=
  match cache !! name with
  | Some r => (r, cache)
  | None => let loc := LoadLocation name in (loc, <[name := loc]> cache)
  end.

(** [now.In(loc)]: the second of the local day, its hour and its minute. *)
Definition local_second (now : instant) (loc : Location) : Z :=
  (time_unix now + offset loc now) mod 86400.
Definition Hour (now : instant) (loc : Location) : Z := local_second now loc / 3600.
Definition Minute (now : instant) (loc : Location) : Z := (local_second now loc mod 3600) / 60.

Definition withinWindow (w : option TimeWindow) (now : instant) (cache : locationCache)
    : result cond_err bool * locationCache :=
  let '(loc, cache) := loadLocation (GetTimezone w) cache in
  match loc with
  | None => (Err (ErrTimezone (GetTimezone w)), cache)
  | Some loc =>
      let minute := Hour now loc * 60 + Minute now loc in
      let start := GetStartMinute w in
      let stop := GetEndMinute w in
      (Ok (if start =? stop then false
           else if start <? stop then (start <=? minute) && (minute <? stop)
           else (start <=? minute) || (minute <? stop)), cache)
  end.

Definition evaluate (c : option Condition) (input : Input) (cache : locationCache)
    : result cond_err bool * locationCache :=
  if GetAttribute c =? ATTRIBUTE_OWNER_TEAM then (Ok (callerOwnsTeam input), cache)
  else if GetAttribute c =? ATTRIBUTE_STATUS
  then (Ok (contains_string (GetAllowedStatuses c) (RecordStatus input)), cache)
  else if GetAttribute c =? ATTRIBUTE_CLASSIFICATION then (Ok (callerCleared input), cache)
  else if GetAttribute c =? ATTRIBUTE_TIME_WINDOW
  then withinWindow (GetTimeWindow c) (Now input) cache
  else (Err (ErrUnknownAttribute (GetAttribute c)), cache).

Fixpoint EvaluateAll (conditions : list (option Condition)) (input : Input)
    (cache : locationCache) : result cond_err bool * locationCache :=
  match conditions with
  | [] => (Ok true, cache)
  | c :: conditions =>
      match evaluate c input cache with
      | (Err e, cache) => (Err e, cache)
      | (Ok false, cache) => (Ok false, cache)
      | (Ok true, cache) => EvaluateAll conditions input cache
      end
  end.

(** ** Validation; [None] is no error *)
Definition validateWindow (w : option TimeWindow) (cache : locationCache)
    : option cond_err * locationCache :=
  match w with
  | None => (Some ErrNoWindow, cache)
  | Some _ =>
      if minutesPerDay <=? GetStartMinute w then (Some (ErrStart (GetStartMinute w)), cache)
      else if (GetEndMinute w =? 0) || (minutesPerDay <? GetEndMinute w)
      then (Some (ErrEnd (GetEndMinute w)), cache)
      else if GetStartMinute w =? GetEndMinute w
      then (Some (ErrEqualBounds (GetStartMinute w)), cache)
      else
        let '(loc, cache) := loadLocation (GetTimezone w) cache in
        match loc with
        | None => (Some (ErrTimezone (GetTimezone w)), cache)
        | Some _ => (None, cache)
        end
  end.

Definition validate (c : option Condition) (cache : locationCache)
    : option cond_err * locationCache :=
  match c with
  | None => (Some ErrMissing, cache)
  | Some _ =>
      let hasStatuses := (0 <? Z.of_nat (length (GetAllowedStatuses c))) in
      let hasWindow := bool_decide (is_Some (GetTimeWindow c)) in
      if (GetAttribute c =? ATTRIBUTE_OWNER_TEAM) || (GetAttribute c =? ATTRIBUTE_CLASSIFICATION)
      then (if hasStatuses || hasWindow then Some (ErrTakesNoParameters (GetAttribute c)) else None,
            cache)
      else if GetAttribute c =? ATTRIBUTE_STATUS
      then (if hasWindow then Some ErrStatusSetsWindow
            else if negb hasStatuses then Some ErrNoStatuses
            else if contains_string (GetAllowedStatuses c) "" then Some ErrEmptyStatus
            else None, cache)
      else if GetAttribute c =? ATTRIBUTE_TIME_WINDOW
      then (if hasStatuses then (Some ErrWindowSetsStatuses, cache)
            else validateWindow (GetTimeWindow c) cache)
      else (Some (ErrUnknownAttribute (GetAttribute c)), cache)
  end.

Fixpoint Validate (conditions : list (option Condition)) (cache : locationCache)
    : option cond_err * locationCache :=
  match conditions with
  | [] => (None, cache)
  | c :: conditions =>
      match validate c cache with
      | (Some e, cache) => (Some e, cache)
      | (None, cache) => Validate conditions cache
      end
  end.

(** ** What the conditions mean *)

(** [minute] is one of the minutes from [start] on, around midnight if need be,
    until [stop]. *)
Definition in_window (start stop minute : Z) : Prop :=
  (minute - start) mod minutesPerDay <
    (if start <? stop then stop - start else stop + minutesPerDay - start).

Definition local_minute (loc : Location) (t : instant) : Z :=
  ((time_unix t + offset loc t) / 60) mod minutesPerDay.

(** A well-formed condition. *)
Inductive wf_condition : option Condition -> Prop :=
| wf_owner : wf_condition
    (Some {| Attribute := ATTRIBUTE_OWNER_TEAM; AllowedStatuses := []; Window := None |})
| wf_classification : wf_condition
    (Some {| Attribute := ATTRIBUTE_CLASSIFICATION; AllowedStatuses := []; Window := None |})
| wf_status statuses : statuses <> [] -> "" ∉ statuses -> wf_condition
    (Some {| Attribute := ATTRIBUTE_STATUS; AllowedStatuses := statuses; Window := None |})
| wf_window start stop zone loc :
    start < minutesPerDay -> stop <> 0 -> stop <= minutesPerDay -> start <> stop ->
    LoadLocation zone = Some loc -> wf_condition
    (Some {| Attribute := ATTRIBUTE_TIME_WINDOW; AllowedStatuses := [];
             Window := Some {| StartMinute := start; EndMinute := stop; Timezone := zone |} |}).

(** A condition that the input meets, where [inside] tells a window from its
    complement. *)
Inductive meets (inside : Z -> Z -> Z -> Prop) (input : Input) : option Condition -> Prop :=
| meets_owner c : Attribute c = ATTRIBUTE_OWNER_TEAM -> RecordOwnerTeamID input <> "" ->
    RecordOwnerTeamID input ∈ CallerTeamIDs input -> meets inside input (Some c)
| meets_status c : Attribute c = ATTRIBUTE_STATUS ->
    RecordStatus input ∈ AllowedStatuses c -> meets inside input (Some c)
| meets_classification c record caller : Attribute c = ATTRIBUTE_CLASSIFICATION ->
    RecordClassification input = Some record -> CallerClearance input = Some caller ->
    record <= caller -> meets inside input (Some c)
| meets_window c loc : Attribute c = ATTRIBUTE_TIME_WINDOW ->
    LoadLocation (GetTimezone (Window c)) = Some loc ->
    inside (GetStartMinute (Window c)) (GetEndMinute (Window c)) (local_minute loc (Now input)) ->
    meets inside input (Some c).

(** A condition that cannot be evaluated. *)
Inductive senseless : option Condition -> Prop :=
| senseless_attribute c :
    GetAttribute c ∉ [ATTRIBUTE_OWNER_TEAM; ATTRIBUTE_STATUS; ATTRIBUTE_CLASSIFICATION;
                      ATTRIBUTE_TIME_WINDOW] -> senseless c
| senseless_zone c : GetAttribute c = ATTRIBUTE_TIME_WINDOW ->
    LoadLocation (GetTimezone (GetTimeWindow c)) = None -> senseless c.
End Zones.

(** The comparison the code makes, whatever the bounds. *)
Definition inside_bounds (start stop minute : Z) : Prop :=
  (start < stop /\ start <= minute < stop) \/ (stop < start /\ (start <= minute \/ minute < stop)).
