(* ===== verification/PolicyConditionsTheorems.v ===== *)
(** What the policy conditions decide: validation accepts exactly the well-formed
    ones, those always evaluate, and evaluation admits exactly the inputs that meet
    every condition. *)
From S2P Require Import Prelude PolicyConditions.

Local Open Scope Z_scope.

Section Zones.
Context {Location : Type} (LoadLocation : string -> option Location).
Context (offset : Location -> instant -> Z).

(** ** The location cache *)
Definition memo_ok (cache : gmap string (option Location)) : Prop :=
  forall name r, cache !! name = Some r -> r = LoadLocation name.

Lemma loadLocation_ok name cache : memo_ok cache ->
  exists cache', loadLocation LoadLocation name cache = (LoadLocation name, cache') /\ memo_ok cache'.
Proof.
  intros Hm. unfold loadLocation. destruct (cache !! name) as [r|] eqn:Hc.
  - exists cache. by rewrite (Hm _ _ Hc).
  - eexists. split; [done|]. intros name' r [[<- <-]|[_ H]]%lookup_insert_Some; [done|by apply Hm].
Qed.

(** ** The minute of the day *)
Lemma minute_of_day t loc :
  Hour offset t loc * 60 + Minute offset t loc = local_minute offset loc t.
Proof.
  unfold Hour, Minute, local_second, local_minute. change minutesPerDay with 1440.
  generalize (time_unix t + offset loc t). intros x.
  Z.to_euclidean_division_equations. lia.
Qed.

Lemma local_minute_range loc t : 0 <= local_minute offset loc t < 1440.
Proof. apply Z.mod_pos_bound. done. Qed.

Lemma in_window_spec start stop minute :
  0 <= start < 1440 -> 0 <= stop <= 1440 -> start <> stop -> 0 <= minute < 1440 ->
  in_window start stop minute <->
  (if start <? stop then (start <=? minute) && (minute <? stop)
   else (start <=? minute) || (minute <? stop)) = true.
Proof.
  intros Hs He Hne Hm. unfold in_window. change minutesPerDay with 1440.
  assert (Hmod : (minute - start) mod 1440 =
    if start <=? minute then minute - start else minute - start + 1440).
  { destruct (Z.leb_spec start minute); [rewrite Z.mod_small; lia|].
    rewrite <- (Z.mod_add _ 1), Z.mod_small; lia. }
  rewrite Hmod. destruct (Z.ltb_spec start stop), (Z.leb_spec start minute),
    (Z.ltb_spec minute stop); simpl; (split; [|lia || done]); done || lia.
Qed.

(** ** One condition *)
Lemma callerOwnsTeam_spec input :
  callerOwnsTeam input = true <->
  RecordOwnerTeamID input <> "" /\ RecordOwnerTeamID input ∈ CallerTeamIDs input.
Proof.
  unfold callerOwnsTeam. rewrite <- contains_string_spec. case_decide; naive_solver.
Qed.

Lemma callerCleared_spec input :
  callerCleared input = true <->
  exists record caller, RecordClassification input = Some record /\
    CallerClearance input = Some caller /\ record <= caller.
Proof.
  unfold callerCleared. destruct (RecordClassification input) as [r|]; [|naive_solver].
  destruct (CallerClearance input) as [c|]; [|naive_solver]. rewrite Z.leb_le. naive_solver.
Qed.

Lemma inside_bounds_spec start stop minute :
  inside_bounds start stop minute <->
  (if start =? stop then false
   else if start <? stop then (start <=? minute) && (minute <? stop)
   else (start <=? minute) || (minute <? stop)) = true.
Proof.
  unfold inside_bounds. destruct (Z.eqb_spec start stop), (Z.ltb_spec start stop),
    (Z.leb_spec start minute), (Z.ltb_spec minute stop); simpl; (split; [|lia || done]); done || lia.
Qed.

#[local] Instance inside_bounds_dec start stop minute : Decision (inside_bounds start stop minute).
Proof. unfold inside_bounds. apply _. Defined.

Lemma eq_bool_decide (P : Prop) `{Decision P} b : (P <-> b = true) -> b = bool_decide P.
Proof. intros H'. destruct b; symmetry; [apply bool_decide_eq_true|apply bool_decide_eq_false]; naive_solver. Qed.

Lemma withinWindow_spec w now cache : memo_ok cache ->
  exists cache', memo_ok cache' /\
    withinWindow LoadLocation offset w now cache =
      (match LoadLocation (GetTimezone w) with
       | None => Err (ErrTimezone (GetTimezone w))
       | Some loc => Ok (bool_decide
           (inside_bounds (GetStartMinute w) (GetEndMinute w) (local_minute offset loc now)))
       end, cache').
Proof.
  intros Hm. destruct (loadLocation_ok (GetTimezone w) cache Hm) as (cache' & Hl & Hm').
  exists cache'. split; [done|]. unfold withinWindow. rewrite Hl.
  destruct (LoadLocation _) as [loc|]; [|done]. rewrite minute_of_day. do 2 f_equal.
  apply eq_bool_decide, inside_bounds_spec.
Qed.

Abbreviation Met := (meets LoadLocation offset).
Abbreviation Senseless := (senseless LoadLocation).

(** An answer says whether the condition is met, an error that it has no meaning. *)
Definition sound (input : Input) (c : option Condition) (r : result cond_err bool) : Prop :=
  match r with
  | Ok b => (b = true <-> Met inside_bounds input c) /\ ~ Senseless c
  | Err _ => Senseless c
  end.

(** The attribute picks one way of being met. *)
Ltac by_attribute :=
  unfold ATTRIBUTE_UNSPECIFIED, ATTRIBUTE_OWNER_TEAM, ATTRIBUTE_STATUS, ATTRIBUTE_CLASSIFICATION,
    ATTRIBUTE_TIME_WINDOW in *; simpl in *; congruence || lia.

Lemma meaningful c a :
  Attribute c = a -> a ∈ [ATTRIBUTE_OWNER_TEAM; ATTRIBUTE_STATUS; ATTRIBUTE_CLASSIFICATION] ->
  ~ Senseless (Some c).
Proof.
  intros Ha Hin H. inversion H as [? Hn|? Ht]; subst; simpl in *.
  - apply Hn. set_solver.
  - rewrite Ht in Hin. unfold ATTRIBUTE_UNSPECIFIED, ATTRIBUTE_OWNER_TEAM, ATTRIBUTE_STATUS,
      ATTRIBUTE_CLASSIFICATION, ATTRIBUTE_TIME_WINDOW in *. set_solver.
Qed.

Lemma evaluate_sound c input cache : memo_ok cache ->
  sound input c (fst (evaluate LoadLocation offset c input cache)) /\
  memo_ok (snd (evaluate LoadLocation offset c input cache)).
Proof.
  intros Hm. unfold evaluate. destruct c as [c|]; simpl.
  2: { split; [|done]. constructor. simpl. unfold ATTRIBUTE_UNSPECIFIED. set_solver. }
  destruct (Z.eqb_spec (Attribute c) ATTRIBUTE_OWNER_TEAM) as [Ha|H1]; simpl.
  { split_and!; [|eapply meaningful; [exact Ha|set_solver]|done]. rewrite callerOwnsTeam_spec. split.
    - intros [? ?]. by apply meets_owner.
    - inversion 1; [done|by_attribute..]. }
  destruct (Z.eqb_spec (Attribute c) ATTRIBUTE_STATUS) as [Ha|H2]; simpl.
  { split_and!; [|eapply meaningful; [exact Ha|set_solver]|done]. rewrite contains_string_spec. split.
    - intros ?. by apply meets_status.
    - inversion 1; [by_attribute|done|by_attribute..]. }
  destruct (Z.eqb_spec (Attribute c) ATTRIBUTE_CLASSIFICATION) as [Ha|H3]; simpl.
  { split_and!; [|eapply meaningful; [exact Ha|set_solver]|done]. rewrite callerCleared_spec. split.
    - intros (r & k & ? & ? & ?). by eapply meets_classification.
    - inversion 1; [by_attribute..|eauto|by_attribute]. }
  destruct (Z.eqb_spec (Attribute c) ATTRIBUTE_TIME_WINDOW) as [Ha|H4]; simpl.
  - destruct (withinWindow_spec (Window c) (Now input) cache Hm) as (cache' & Hm' & ->).
    split; [|done]. simpl. destruct (LoadLocation _) as [loc|] eqn:Hl; simpl.
    + rewrite bool_decide_eq_true. split; [split|].
      * intros ?. by eapply meets_window.
      * inversion 1; simplify_eq; [by_attribute..|done].
      * inversion 1 as [? Hn|]; simpl in *; [|congruence]. apply Hn. rewrite Ha. set_solver.
    + by apply senseless_zone.
  - split; [|done]. apply senseless_attribute. simpl. set_solver.
Qed.

(** ** Every condition *)

(** Evaluation fails closed: for any conditions, malformed ones included, the
    answer is yes only when the input meets every one of them; no when it meets
    those before the first it does not meet; and an error exactly when it meets
    those before one that is missing, names no known attribute or an unknown time
    zone.  The memo of time zones changes nothing. *)
Theorem evaluation_fails_closed conditions input cache :
  memo_ok cache ->
  match fst (EvaluateAll LoadLocation offset conditions input cache) with
  | Ok true => Forall (Met inside_bounds input) conditions
  | Ok false => exists before c after, conditions = before ++ c :: after /\
      Forall (Met inside_bounds input) before /\ ~ Met inside_bounds input c /\ ~ Senseless c
  | Err _ => exists before c after, conditions = before ++ c :: after /\
      Forall (Met inside_bounds input) before /\ Senseless c
  end.
Proof.
  revert cache. induction conditions as [|c conditions IH]; intros cache Hm; simpl; [constructor|].
  destruct (evaluate_sound c input cache Hm) as [Hs Hm'].
  destruct (evaluate _ _ c input cache) as [[b|e] cache']; simpl in *.
  2: { by exists [], c, conditions. }
  destruct Hs as [Hb Hn]. destruct b; simpl.
  2: { exists [], c, conditions. split_and!; try done. by intros ?%Hb. }
  assert (Hc : Met inside_bounds input c) by by apply Hb.
  specialize (IH cache' Hm'). destruct (fst _) as [[]|e].
  - by constructor.
  - destruct IH as (before & c' & after & -> & Hbf & ?). exists (c :: before), c', after.
    split_and!; try done; [by constructor|tauto..].
  - destruct IH as (before & c' & after & -> & Hbf & ?). exists (c :: before), c', after.
    split_and!; try done. by constructor.
Qed.

(** ** Validation *)
Definition uint32_bounds (c : option Condition) : Prop :=
  0 <= GetStartMinute (GetTimeWindow c) < 2 ^ 32 /\ 0 <= GetEndMinute (GetTimeWindow c) < 2 ^ 32.

Lemma validateWindow_spec w cache : memo_ok cache ->
  (fst (validateWindow LoadLocation w cache) = None <->
   exists start stop zone loc,
     w = Some {| StartMinute := start; EndMinute := stop; Timezone := zone |} /\
     start < minutesPerDay /\ stop <> 0 /\ stop <= minutesPerDay /\ start <> stop /\
     LoadLocation zone = Some loc) /\
  memo_ok (snd (validateWindow LoadLocation w cache)).
Proof.
  intros Hm. unfold validateWindow. destruct w as [[start stop zone]|]; simpl; [|naive_solver].
  destruct (Z.leb_spec minutesPerDay start); simpl; [split; [|done]; split; [done|]; naive_solver lia|].
  destruct (Z.eqb_spec stop 0); simpl; [split; [|done]; naive_solver|].
  destruct (Z.ltb_spec minutesPerDay stop); simpl; [split; [|done]; split; [done|]; naive_solver lia|].
  destruct (Z.eqb_spec start stop); simpl; [split; [|done]; naive_solver|].
  destruct (loadLocation_ok zone cache Hm) as (cache' & -> & Hm').
  destruct (LoadLocation zone) as [loc|] eqn:Hl; simpl; split; try done.
  - split; [|done]. intros _. by exists start, stop, zone, loc.
  - naive_solver.
Qed.

Lemma validate_spec c cache : memo_ok cache ->
  (fst (validate LoadLocation c cache) = None <-> wf_condition LoadLocation c) /\
  memo_ok (snd (validate LoadLocation c cache)).
Proof.
  intros Hm. unfold validate. destruct c as [[a statuses w]|]; simpl.
  2: { split; [|done]. split; [done|by inversion 1]. }
  destruct (Z.eqb_spec a ATTRIBUTE_OWNER_TEAM) as [->|H1]; simpl.
  { split; [|done]. destruct statuses, w; simpl; (split; [|by inversion 1]); try done. constructor. }
  destruct (Z.eqb_spec a ATTRIBUTE_CLASSIFICATION) as [->|H2]; simpl.
  { split; [|done]. destruct statuses, w; simpl; (split; [|by inversion 1]); try done. constructor. }
  destruct (Z.eqb_spec a ATTRIBUTE_STATUS) as [->|H3]; simpl.
  { split; [|done]. destruct w; simpl; [split; [done|by inversion 1]|].
    destruct statuses as [|st statuses]; simpl; [split; [done|by inversion 1]|].
    destruct (contains_string (st :: statuses) "") eqn:Hc.
    - change (contains_string (st :: statuses) "") with
        (if decide (st = "") then true else contains_string statuses "") in Hc. rewrite Hc.
      split; [done|]. inversion 1 as [| |? ? Hn|]; subst; [by_attribute..|].
      by apply contains_string_false in Hn; simpl in Hn; rewrite Hc in Hn.
    - pose proof Hc as Hn. apply contains_string_false in Hn. simpl in Hc. rewrite Hc.
      split; [intros _; by constructor|done]. }
  destruct (Z.eqb_spec a ATTRIBUTE_TIME_WINDOW) as [->|H4]; simpl.
  2: { split; [|done]. split; [done|]. inversion 1; by_attribute. }
  destruct statuses as [|st statuses]; simpl; [|split; [split; [done|by inversion 1]|done]].
  destruct (validateWindow_spec w cache Hm) as [Hv Hm']. split; [|done]. rewrite Hv. split.
  - intros (start & stop & zone & loc & -> & ? & ? & ? & ? & ?). by econstructor.
  - inversion 1; subst; [by_attribute..|]. naive_solver.
Qed.

Lemma Validate_spec conditions cache : memo_ok cache ->
  fst (Validate LoadLocation conditions cache) = None <-> Forall (wf_condition LoadLocation) conditions.
Proof.
  revert cache. induction conditions as [|c conditions IH]; intros cache Hm; simpl.
  { split; [constructor|done]. }
  destruct (validate_spec c cache Hm) as [Hv Hm'].
  destruct (validate LoadLocation c cache) as [[e|] cache']; simpl in *.
  - split; [done|]. intros [Hc _]%Forall_cons. by apply Hv in Hc.
  - rewrite (IH cache' Hm'), Forall_cons. naive_solver.
Qed.

(** A well-formed condition has a meaning, and its window is a stretch of minutes. *)
Lemma wf_meaning input c :
  wf_condition LoadLocation c -> uint32_bounds c ->
  ~ Senseless c /\ (Met inside_bounds input c <-> Met in_window input c).
Proof.
  intros Hwf [Hstart Hstop]. split.
  { destruct Hwf; inversion 1 as [? Hn|]; simpl in *;
      first [by apply Hn; set_solver|by by_attribute|congruence]. }
  destruct Hwf as [| | |start stop zone loc Hs He0 He Hne Hl]; simpl in *.
  1-3: split; inversion 1; simpl in *; simplify_eq;
    first [by eapply meets_owner|by eapply meets_status|by eapply meets_classification|by by_attribute].
  assert (Hw : forall t, inside_bounds start stop (local_minute offset loc t) <->
                         in_window start stop (local_minute offset loc t)).
  { intros t. unfold minutesPerDay in *. rewrite inside_bounds_spec.
    rewrite in_window_spec by (done || lia || apply local_minute_range).
    by destruct (Z.eqb_spec start stop). }
  split; inversion 1; simpl in *; simplify_eq; try (by by_attribute).
  all: (eapply meets_window; [done|done|by apply Hw]).
Qed.

(** C39. Validation is what evaluation needs: it accepts exactly the well-formed
    conditions, and a list it accepts never fails to evaluate, for no input and no
    instant: the answer is yes exactly when the input meets every condition, a time
    window being the minutes from its start up to its end around midnight. *)
Theorem validated_conditions_decide conditions input cache cache' :
  memo_ok cache -> memo_ok cache' -> Forall uint32_bounds conditions ->
  (fst (Validate LoadLocation conditions cache) = None <->
   Forall (wf_condition LoadLocation) conditions) /\
  (fst (Validate LoadLocation conditions cache) = None ->
   exists b, fst (EvaluateAll LoadLocation offset conditions input cache') = Ok b /\
     (b = true <-> Forall (Met in_window input) conditions)).
Proof.
  intros Hm Hm' Hb. rewrite (Validate_spec conditions cache Hm). split; [done|]. intros Hwf.
  revert cache' Hm'. induction conditions as [|c conditions IH]; intros cache' Hm'; simpl.
  { exists true. split; [done|]. split; [constructor|done]. }
  apply Forall_cons in Hb as [Hb Hbs], Hwf as [Hc Hwf].
  destruct (wf_meaning input c Hc Hb) as [Hns Heq].
  destruct (evaluate_sound c input cache' Hm') as [Hs Hm2].
  destruct (evaluate _ _ c input cache') as [[b|e] cache2]; simpl in *; [|done].
  destruct Hs as [Hbb _]. destruct b; simpl.
  - destruct (IH Hbs Hwf cache2 Hm2) as (b & -> & Hall). exists b. split; [done|].
    rewrite Forall_cons. tauto.
  - exists false. split; [done|]. rewrite Forall_cons. split; [done|]. tauto.
Qed.
End Zones.

(** ** A night window *)
Module ConditionRun.
(** Two zones, of UTC and two hours east of it. *)
Definition LoadLocation (name : string) : option Z :=
  if decide (name = "UTC" \/ name = "") then Some 0
  else if decide (name = "Africa/Cairo") then Some 7200 else None.
Definition offset (loc : Z) (_ : instant) : Z := loc.

Definition night : option Condition :=
  Some {| Attribute := ATTRIBUTE_TIME_WINDOW; AllowedStatuses := [];
          Window := Some {| StartMinute := 1320; EndMinute := 360; Timezone := "Africa/Cairo" |} |}.
Definition cleared : option Condition :=
  Some {| Attribute := ATTRIBUTE_CLASSIFICATION; AllowedStatuses := []; Window := None |}.
Definition at_hour (h : Z) : Input :=
  {| CallerTeamIDs := []; RecordOwnerTeamID := ""; RecordStatus := "";
     RecordClassification := Some 2; CallerClearance := Some 2; Now := h * hour |}.

Example night_hours :
  map (fun h => fst (EvaluateAll LoadLocation offset [night; cleared] (at_hour h) ∅)) [3; 4; 19; 20] =
  [Ok true; Ok false; Ok false; Ok true].
Proof. reflexivity. Qed.

Lemma evaluation_fails_closed_witness :
  exists before c after, [cleared; None; night] = before ++ c :: after /\
    Forall (meets LoadLocation offset inside_bounds (at_hour 3)) before /\ senseless LoadLocation c.
Proof.
  apply (evaluation_fails_closed LoadLocation offset [cleared; None; night] (at_hour 3) ∅).
  intros name r Hr. by rewrite lookup_empty in Hr.
Defined.

Lemma validated_conditions_decide_witness :
  exists b, fst (EvaluateAll LoadLocation offset [night; cleared] (at_hour 3) ∅) = Ok b /\
    (b = true <-> Forall (meets LoadLocation offset in_window (at_hour 3)) [night; cleared]).
Proof.
  apply (validated_conditions_decide LoadLocation offset [night; cleared] (at_hour 3) ∅ ∅);
    [by intros name r Hr; rewrite lookup_empty in Hr..| |reflexivity].
  repeat constructor; done.
Defined.
End ConditionRun.
