(* ===== verification/DelegationGrants.v ===== *)
(** Delegation grants: the engine of accounts/code/pkg/business/delegation_grants.go
    over the table of accounts/code/pkg/infra/postgres_delegation_grants.go, and the
    RPC server of accounts/code/pkg/adapters/delegation_rpcs.go.

    A one-shot grant is a request an actor makes and a grantor decides; a pattern
    grant approves the requests it matches, up to its number of uses.  Every store
    call is a transaction on the table and the audit spine.  JSON documents,
    SHA-256 and the minting of tokens are given, as are the answers of the
    authorization checks; notifications are left out. *)
From S2P Require Import Prelude.
From Stdlib Require Import Ascii.

Local Open Scope Z_scope.

(** ** Types *)
Inductive DelegationGrantStatus : Type :=
| GrantStatusPending | GrantStatusApproved | GrantStatusDenied
| GrantStatusExpired | GrantStatusCancelled | GrantStatusActive.
#[export] Instance DelegationGrantStatus_eq_dec : EqDecision DelegationGrantStatus.
Proof. solve_decision. Defined.

Inductive DelegationGrantKind : Type := GrantKindOneShot | GrantKindPattern.
#[export] Instance DelegationGrantKind_eq_dec : EqDecision DelegationGrantKind.
Proof. solve_decision. Defined.

Abbreviation RiskLevel := string (only parsing).
Definition RiskLevelLow : RiskLevel := "low".
Definition RiskLevelMedium : RiskLevel := "medium".
Definition RiskLevelHigh : RiskLevel := "high".
Definition RiskLevelCritical : RiskLevel := "critical".

Inductive DelegationError : Type :=
| GrantNotFound
| GrantConflict (status : DelegationGrantStatus)
| PatternConflict
| GrantInvalid (why : string)
| StoreFailed (what : string).

Inductive DelegationAuditEvent : Type :=
| EventDelegationRequested | EventDelegationApproved
| EventDelegationDenied | EventDelegationAutoApproved.

Record DelegationAudit : Type := {
  da_actor : string;
  da_actor_type : string;
  da_event : DelegationAuditEvent;
  da_grant : string;
  da_org : string;
}.

(** What is read of a principal. *)
Record Principal : Type := {
  pr_ID : string;
  pr_AgentIdentifier : string;
  pr_AllowedScopes : list string;
  pr_DisabledAt : option instant;
  pr_RevokedAt : option instant;
}.
Definition IsDisabled (p : Principal) : bool := bool_decide (is_Some (pr_DisabledAt p)).
Definition AllowsResourceKind (p : Principal) (kind : string) : bool :=
  if decide (pr_AllowedScopes p = []) then true else contains_string (pr_AllowedScopes p) kind.

Section Engine.
Context {Json : Type}.
(** A string as a JSON value, and whether [json.Marshal] accepts a document. *)
Context (json_string : string -> Json) (marshals : gmap string Json -> bool).
Context (sha256_hex : string -> string).

Abbreviation Document := (gmap string Json) (only parsing).

(** A row, with NULL texts read as COALESCE reads them. *)
Record DelegationGrant : Type := {
  dg_ID : string;
  dg_OrgID : string;
  dg_ActorPrincipalID : string;
  dg_GrantorPrincipalID : string;
  dg_Action : string;
  dg_Resource : string;
  dg_ResourceID : string;
  dg_Justification : string;
  dg_RequestContext : Document;
  dg_RiskLevel : RiskLevel;
  dg_Kind : DelegationGrantKind;
  dg_Status : DelegationGrantStatus;
  dg_CreatedAt : instant;
  dg_DecidedAt : option instant;
  dg_DecisionReason : string;
  dg_ExpiresAt : instant;
  dg_ActionPattern : string;
  dg_ResourcePattern : string;
  dg_MaxUses : option Z;
  dg_UseCount : Z;
  dg_MintedTokenID : string;
  dg_RequestHash : option string;
}.

Definition IsTerminal_status (s : DelegationGrantStatus) : bool :=
  match s with
  | GrantStatusApproved | GrantStatusDenied | GrantStatusExpired | GrantStatusCancelled => true
  | GrantStatusPending | GrantStatusActive => false
  end.
Definition IsTerminal_grant (g : DelegationGrant) : bool := IsTerminal_status (dg_Status g).

Record RequestDelegationInput : Type := {
  rd_OrgID : string;
  rd_ActorPrincipalID : string;
  rd_Action : string;
  rd_Resource : string;
  rd_ResourceID : string;
  rd_Justification : string;
  rd_Context : Document;
  rd_RiskLevel : RiskLevel;
  rd_Timeout : duration;
  rd_Grantor : string;
  rd_RequestHash : string;
}.

Definition Validate (r : RequestDelegationInput) : result DelegationError unit :=
  if decide (rd_OrgID r = "") then Err (GrantInvalid "org_id required")
  else if decide (rd_ActorPrincipalID r = "") then Err (GrantInvalid "actor_principal_id required")
  else if decide (rd_Action r = "") then Err (GrantInvalid "action required")
  else if decide (TrimSpace (rd_Justification r) = "")
  then Err (GrantInvalid "justification required")
  else if rd_Timeout r <=? 0 then Err (GrantInvalid "timeout must be > 0")
  else if contains_string
    ["" ; RiskLevelLow; RiskLevelMedium; RiskLevelHigh; RiskLevelCritical] (rd_RiskLevel r)
  then Ok tt else Err (GrantInvalid "risk_level").

Definition nul : string := String Ascii.zero "".
Definition ComputeRequestHash (r : RequestDelegationInput) : string :=
  sha256_hex (rd_OrgID r +:+ nul +:+ rd_ActorPrincipalID r +:+ nul +:+ rd_Action r +:+ nul +:+
              rd_Resource r +:+ nul +:+ TrimSpace (rd_Justification r)).

(** The hash the service goes by. *)
Definition request_hash (r : RequestDelegationInput) : string :=
  if decide (rd_RequestHash r = "") then ComputeRequestHash r else rd_RequestHash r.

(** ** The database *)
Record Db : Type := {
  grants : gmap string DelegationGrant;
  spine : list DelegationAudit;
}.
Definition set_grants (gs : gmap string DelegationGrant) (d : Db) : Db :=
  {| grants := gs; spine := spine d |}.
Abbreviation M := (tx Db DelegationError) (only parsing).

(** What a call reads from the world: the clock, the transaction's
    CURRENT_TIMESTAMP, gen_random_uuid(), the id a token is minted with, the principals and the audit wiring
    ([None]: no emitter; otherwise the entries the emitter refuses). *)
Record World : Type := {
  now : instant;
  tx_now : instant;
  new_id : string;
  new_token : string;
  principals : gmap string Principal;
  audit_refuses : option (DelegationAudit -> bool);
}.

(** *** Row updates *)
Definition decided_row (status : DelegationGrantStatus) (reason grantor : string) (t : instant)
    (g : DelegationGrant) : DelegationGrant :=
  {| dg_ID := dg_ID g; dg_OrgID := dg_OrgID g; dg_ActorPrincipalID := dg_ActorPrincipalID g;
     dg_GrantorPrincipalID := grantor; dg_Action := dg_Action g; dg_Resource := dg_Resource g;
     dg_ResourceID := dg_ResourceID g; dg_Justification := dg_Justification g;
     dg_RequestContext := dg_RequestContext g; dg_RiskLevel := dg_RiskLevel g;
     dg_Kind := dg_Kind g; dg_Status := status; dg_CreatedAt := dg_CreatedAt g;
     dg_DecidedAt := Some t; dg_DecisionReason := reason; dg_ExpiresAt := dg_ExpiresAt g;
     dg_ActionPattern := dg_ActionPattern g; dg_ResourcePattern := dg_ResourcePattern g;
     dg_MaxUses := dg_MaxUses g; dg_UseCount := dg_UseCount g;
     dg_MintedTokenID := dg_MintedTokenID g; dg_RequestHash := dg_RequestHash g |}.
Definition minted_row (token : string) (g : DelegationGrant) : DelegationGrant :=
  {| dg_ID := dg_ID g; dg_OrgID := dg_OrgID g; dg_ActorPrincipalID := dg_ActorPrincipalID g;
     dg_GrantorPrincipalID := dg_GrantorPrincipalID g; dg_Action := dg_Action g;
     dg_Resource := dg_Resource g; dg_ResourceID := dg_ResourceID g;
     dg_Justification := dg_Justification g; dg_RequestContext := dg_RequestContext g;
     dg_RiskLevel := dg_RiskLevel g; dg_Kind := dg_Kind g; dg_Status := dg_Status g;
     dg_CreatedAt := dg_CreatedAt g; dg_DecidedAt := dg_DecidedAt g;
     dg_DecisionReason := dg_DecisionReason g; dg_ExpiresAt := dg_ExpiresAt g;
     dg_ActionPattern := dg_ActionPattern g; dg_ResourcePattern := dg_ResourcePattern g;
     dg_MaxUses := dg_MaxUses g; dg_UseCount := dg_UseCount g;
     dg_MintedTokenID := token; dg_RequestHash := dg_RequestHash g |}.
Definition used_row (g : DelegationGrant) : DelegationGrant :=
  {| dg_ID := dg_ID g; dg_OrgID := dg_OrgID g; dg_ActorPrincipalID := dg_ActorPrincipalID g;
     dg_GrantorPrincipalID := dg_GrantorPrincipalID g; dg_Action := dg_Action g;
     dg_Resource := dg_Resource g; dg_ResourceID := dg_ResourceID g;
     dg_Justification := dg_Justification g; dg_RequestContext := dg_RequestContext g;
     dg_RiskLevel := dg_RiskLevel g; dg_Kind := dg_Kind g; dg_Status := dg_Status g;
     dg_CreatedAt := dg_CreatedAt g; dg_DecidedAt := dg_DecidedAt g;
     dg_DecisionReason := dg_DecisionReason g; dg_ExpiresAt := dg_ExpiresAt g;
     dg_ActionPattern := dg_ActionPattern g; dg_ResourcePattern := dg_ResourcePattern g;
     dg_MaxUses := dg_MaxUses g; dg_UseCount := dg_UseCount g + 1;
     dg_MintedTokenID := dg_MintedTokenID g; dg_RequestHash := dg_RequestHash g |}.

Section Call.
Context (w : World).

(** ** The store *)

(** WHERE id = $1 AND org_id = $2 *)
Definition find_grant (id org : string) (d : Db) : option DelegationGrant :=
  g ← grants d !! id; guard (dg_OrgID g = org);; Some g.

Definition GetDelegationGrant (id org : string) : M DelegationGrant := fun d =>
  match find_grant id org d with Some g => Ok (g, d) | None => Err GrantNotFound end.

(** The rows of UNIQUE (org_id, request_hash). *)
Definition with_hash (org hash : string) (d : Db) : list (string * DelegationGrant) :=
  filter (fun kg => dg_OrgID (snd kg) = org /\ dg_RequestHash (snd kg) = Some hash)
    (map_to_list (grants d)).

Definition or_low (risk : RiskLevel) : RiskLevel :=
  if decide (risk = "") then RiskLevelLow else risk.

(** CHECK constraints (that of the justification follows from [Validate]), then
    ON CONFLICT (org_id, request_hash) DO UPDATE SET id = id,
    then the new row with its primary key and foreign keys. *)
Definition insert_grant (g : DelegationGrant) : M string := fun d =>
  if contains_string [RiskLevelLow; RiskLevelMedium; RiskLevelHigh; RiskLevelCritical] (dg_RiskLevel g)
  then
    match with_hash (dg_OrgID g) (default "" (dg_RequestHash g)) d with
    | (id, _) :: _ => Ok (id, d)
    | [] =>
        if decide (is_Some (grants d !! dg_ID g)) then Err (StoreFailed "primary key")
        else if decide (is_Some (principals w !! dg_ActorPrincipalID g) /\
          (dg_GrantorPrincipalID g <> "" -> is_Some (principals w !! dg_GrantorPrincipalID g)))
        then Ok (dg_ID g, set_grants (<[dg_ID g := g]> (grants d)) d)
        else Err (StoreFailed "foreign key")
    end
  else Err (StoreFailed "risk_level").

Definition one_shot (r : RequestDelegationInput) (hash : string) (expiresAt : instant)
    (status : DelegationGrantStatus) (grantor : string) (decidedAt : option instant)
    (context : Document) : DelegationGrant :=
  {| dg_ID := new_id w; dg_OrgID := rd_OrgID r; dg_ActorPrincipalID := rd_ActorPrincipalID r;
     dg_GrantorPrincipalID := grantor; dg_Action := rd_Action r; dg_Resource := rd_Resource r;
     dg_ResourceID := rd_ResourceID r; dg_Justification := rd_Justification r;
     dg_RequestContext := context; dg_RiskLevel := or_low (rd_RiskLevel r);
     dg_Kind := GrantKindOneShot; dg_Status := status; dg_CreatedAt := tx_now w;
     dg_DecidedAt := decidedAt; dg_DecisionReason := ""; dg_ExpiresAt := expiresAt;
     dg_ActionPattern := ""; dg_ResourcePattern := ""; dg_MaxUses := None; dg_UseCount := 0;
     dg_MintedTokenID := ""; dg_RequestHash := Some hash |}.

Definition Insert (r : RequestDelegationInput) (hash : string) (expiresAt : instant) : M string :=
  if bool_decide (rd_Context r <> ∅) && negb (marshals (rd_Context r))
  then tx_fail (StoreFailed "marshal request_context")
  else insert_grant (one_shot r hash expiresAt GrantStatusPending "" None (rd_Context r)).

Definition InsertAutoApproved (r : RequestDelegationInput) (hash : string) (expiresAt : instant)
    (viaPattern : DelegationGrant) : M string :=
  let caveatedContext :=
    <["pattern_grantor" := json_string (dg_GrantorPrincipalID viaPattern)]>
      (<["via_pattern" := json_string (dg_ID viaPattern)]> (rd_Context r)) in
  if negb (marshals caveatedContext)
  then tx_fail (StoreFailed "marshal request_context with via_pattern caveat")
  else if decide (dg_GrantorPrincipalID viaPattern = "")
  then tx_fail (StoreFailed "invalid input syntax for type uuid")
  else insert_grant (one_shot r hash expiresAt GrantStatusApproved
         (dg_GrantorPrincipalID viaPattern) (Some (tx_now w)) caveatedContext).

Definition Decide (id org grantorID : string) (status : DelegationGrantStatus) (reason : string)
    : M DelegationGrant := fun d =>
  match find_grant id org d with
  | None => Err GrantNotFound
  | Some g =>
      if decide (dg_Status g = GrantStatusPending) then
        if decide (is_Some (principals w !! grantorID)) then
          let g' := decided_row status reason grantorID (tx_now w) g in
          Ok (g', set_grants (<[id := g']> (grants d)) d)
        else Err (StoreFailed "decide")
      else if IsTerminal_grant g then Err (GrantConflict (dg_Status g))
      else Err (StoreFailed "decide: 0 rows affected but grant is non-terminal")
  end.

Definition SetMintedToken_store (id org token : string) : M unit := fun d =>
  match find_grant id org d with
  | None => Err GrantNotFound
  | Some g => Ok (tt, set_grants (<[id := minted_row token g]> (grants d)) d)
  end.

Definition risk_rank (risk : RiskLevel) : Z :=
  if decide (risk = RiskLevelCritical) then 0
  else if decide (risk = RiskLevelHigh) then 1
  else if decide (risk = RiskLevelMedium) then 2 else 3.

(** ORDER BY the rank of the risk, created_at DESC; ties come in the order of the
    map, which stands for any order. *)
Definition pending_before (g h : DelegationGrant) : Prop :=
  lex_le [risk_rank (dg_RiskLevel g); - dg_CreatedAt g] [risk_rank (dg_RiskLevel h); - dg_CreatedAt h].
#[local] Instance pending_before_dec : RelDecision pending_before.
Proof. intros g h. unfold pending_before. apply _. Defined.

Definition rows (d : Db) : list DelegationGrant := map snd (map_to_list (grants d)).

(** At most [pageSize + 1] rows are read, the last one only to see that there is a
    next page. *)
Definition ListPending (org : string) (pageSize : Z) (pageToken : string) (d : Db)
    : list DelegationGrant * string :=
  let matching := filter (fun g => dg_OrgID g = org /\ dg_Status g = GrantStatusPending /\
    (pageToken = "" \/ String.ltb (dg_ID g) pageToken = true)) (rows d) in
  let page := take (Z.to_nat (pageSize + 1)) (merge_sort pending_before matching) in
  if pageSize <? Z.of_nat (length page)
  then (take (Z.to_nat pageSize) page,
        default "" (dg_ID <$> page !! Z.to_nat (pageSize - 1)))
  else (page, "").

(** *** Patterns *)
Definition globMatchPattern (pattern s : string) : bool :=
  if bool_decide (pattern = "") || bool_decide (pattern = "*") then true
  else if decide (pattern = s) then true
  else
    let n := (String.length pattern - 1)%nat in
    if bool_decide (String.get n pattern = Some "*"%char)
    then String.prefix (String.substring 0 n pattern) s
    else false.

Definition active_pattern (org actor : string) (g : DelegationGrant) : Prop :=
  dg_OrgID g = org /\ dg_ActorPrincipalID g = actor /\ dg_Kind g = GrantKindPattern /\
  dg_Status g = GrantStatusActive /\ tx_now w < dg_ExpiresAt g.

(** ORDER BY created_at DESC *)
Definition newer (g h : DelegationGrant) : Prop := dg_CreatedAt h <= dg_CreatedAt g.
#[local] Instance newer_dec : RelDecision newer.
Proof. intros g h. apply Z_le_dec. Defined.

Definition matches (action resource : string) (g : DelegationGrant) : bool :=
  globMatchPattern (dg_ActionPattern g) action && globMatchPattern (dg_ResourcePattern g) resource.

#[local] Instance active_pattern_dec org actor g : Decision (active_pattern org actor g).
Proof. unfold active_pattern. apply _. Defined.

Definition MatchPattern (org actor action resource : string) (d : Db) : option DelegationGrant :=
  let candidates := take 50 (merge_sort newer (filter (active_pattern org actor) (rows d))) in
  snd <$> list_find (fun g => matches action resource g = true) candidates.

Definition IncrementPatternUse (id org : string) : M DelegationGrant := fun d =>
  match find_grant id org d with
  | None => Err PatternConflict
  | Some g =>
      if decide (dg_Kind g = GrantKindPattern /\ dg_Status g = GrantStatusActive)
      then
        if match dg_MaxUses g with None => true | Some m => dg_UseCount g <? m end
        then
          if 2 ^ 31 - 1 <? dg_UseCount g + 1 then Err (StoreFailed "increment pattern use")
          else Ok (used_row g, set_grants (<[id := used_row g]> (grants d)) d)
        else Err PatternConflict
      else Err PatternConflict
  end.

(** ** The service *)
Definition emitTx (actor actor_type : string) (event : DelegationAuditEvent) (id org : string)
    : M unit := fun d =>
  let e := {| da_actor := actor; da_actor_type := actor_type; da_event := event;
              da_grant := id; da_org := org |} in
  match audit_refuses w with
  | None => Ok (tt, d)
  | Some refuses => if refuses e then Err (StoreFailed "audit")
                    else Ok (tt, {| grants := grants d; spine := spine d ++ [e] |})
  end.

Definition insert_auto_approved (r : RequestDelegationInput) (hash : string) (expiresAt : instant)
    (pattern : DelegationGrant) : M string :=
  id ← InsertAutoApproved r hash expiresAt pattern;
  emitTx (rd_ActorPrincipalID r) "agent" EventDelegationAutoApproved id (rd_OrgID r);;
  mret id.

Definition insert_requested (r : RequestDelegationInput) (hash : string) (expiresAt : instant)
    : M string :=
  id ← Insert r hash expiresAt;
  emitTx (rd_ActorPrincipalID r) "agent" EventDelegationRequested id (rd_OrgID r);;
  mret id.

(** Three transactions; what others commit between them is left to the step
    relation below. *)
Definition RequestDelegation (r : RequestDelegationInput) (d : Db)
    : result DelegationError string * Db :=
  match Validate r with
  | Err e => (Err e, d)
  | Ok _ =>
      let hash := request_hash r in
      let expiresAt := time_add (now w) (rd_Timeout r) in
      match MatchPattern (rd_OrgID r) (rd_ActorPrincipalID r) (rd_Action r) (rd_Resource r) d with
      | None => run_tx (insert_requested r hash expiresAt) d
      | Some pattern =>
          match run_tx (IncrementPatternUse (dg_ID pattern) (rd_OrgID r)) d with
          | (Ok _, d) => run_tx (insert_auto_approved r hash expiresAt pattern) d
          | (Err _, d) => run_tx (insert_requested r hash expiresAt) d
          end
      end
  end.

Definition decide_tx (id org grantorID : string) (decision : DelegationGrantStatus)
    (reason : string) : M DelegationGrant :=
  grant ← Decide id org grantorID decision reason;
  emitTx grantorID "user"
    (if decide (decision = GrantStatusDenied) then EventDelegationDenied
     else EventDelegationApproved) (dg_ID grant) (dg_OrgID grant);;
  mret grant.

Definition DecideDelegation (id org grantorID : string) (decision : DelegationGrantStatus)
    (reason : string) (d : Db) : result DelegationError DelegationGrant * Db :=
  if decide (id = "") then (Err (GrantInvalid "grant id required"), d)
  else if decide (grantorID = "") then (Err (GrantInvalid "grantor_id required"), d)
  else if decide (decision <> GrantStatusApproved /\ decision <> GrantStatusDenied)
  then (Err (GrantInvalid "decision must be approved or denied"), d)
  else if decide (decision = GrantStatusDenied /\ TrimSpace reason = "")
  then (Err (GrantInvalid "denied decisions require a reason"), d)
  else run_tx (decide_tx id org grantorID decision reason) d.

Definition SetMintedToken (id org tokenID : string) (d : Db) : result DelegationError unit * Db :=
  if decide (tokenID = "") then (Err (GrantInvalid "token_id required"), d)
  else run_tx (SetMintedToken_store id org tokenID) d.

Definition GetDelegation (id org : string) (d : Db) : result DelegationError DelegationGrant :=
  if decide (id = "") then Err (GrantInvalid "grant id required")
  else fst (run_tx (GetDelegationGrant id org) d).

Definition ListPendingDelegations (org : string) (pageSize : Z) (pageToken : string) (d : Db)
    : result DelegationError (list DelegationGrant * string) :=
  if decide (org = "") then Err (GrantInvalid "org_id required")
  else
    let pageSize := if pageSize <=? 0 then 50 else pageSize in
    let pageSize := if 200 <? pageSize then 200 else pageSize in
    Ok (ListPending org pageSize pageToken d).

Definition GetPrincipal (id : string) : option Principal :=
  p ← principals w !! id; guard (pr_RevokedAt p = None);; Some p.
End Call.

(** ** Streaming (Subscribe) *)
Record DelegationDecisionEvent : Type := {
  ev_GrantID : string;
  ev_Status : DelegationGrantStatus;
  ev_DecidedAt : option instant;
  ev_Reason : string;
  ev_GrantorID : string;
  ev_TokenSet : bool;
  ev_Token : string;
}.

Definition emitDelegationEvent (g : DelegationGrant) : DelegationDecisionEvent :=
  {| ev_GrantID := dg_ID g; ev_Status := dg_Status g; ev_DecidedAt := dg_DecidedAt g;
     ev_Reason := dg_DecisionReason g; ev_GrantorID := dg_GrantorPrincipalID g;
     ev_TokenSet := bool_decide (dg_MintedTokenID g <> ""); ev_Token := "" |}.

(** After each notification the row is read again ([None]: the read failed); the
    consumer keeps up with the channel. *)
Fixpoint on_notifications (reads : list (option DelegationGrant)) : list DelegationDecisionEvent :=
  match reads with
  | [] => []
  | None :: reads => on_notifications reads
  | Some latest :: reads =>
      emitDelegationEvent latest ::
        (if IsTerminal_grant latest then [] else on_notifications reads)
  end.
Definition Subscribe (snapshot : option DelegationGrant) (reads : list (option DelegationGrant))
    : list DelegationDecisionEvent :=
  match snapshot with
  | None => []
  | Some grant => if IsTerminal_grant grant then [emitDelegationEvent grant]
                  else on_notifications reads
  end.

(** ** The server (delegation_rpcs.go) *)
Record MintInput : Type := {
  mi_Principal : Principal;
  mi_Action : string;
  mi_Resource : string;
  mi_TTL : duration;
  mi_MaxUses : Z;
  mi_grant_id : string;
  mi_grantor_id : string;
  mi_approved_at : Z;
}.
(** An encoded token and its id; the minting of both kinds of token is given. *)
Context (MintEd25519 Mint : string -> MintInput -> option (string * string)).

Record mintedToken : Type := {
  mt_Token : string;
  mt_TokenID : string;
  mt_cachedAt : instant;
}.
Definition mintedTokenTTL : duration := 60 * second.

(** The lengths of the signing keys, and the tokens minted lately by grant id. *)
Record DelegationServer : Type := {
  SigningSecret : Z;
  SigningEd25519Key : Z;
  mintCache : gmap string mintedToken;
}.
Definition set_cache (c : gmap string mintedToken) (sv : DelegationServer) : DelegationServer :=
  {| SigningSecret := SigningSecret sv; SigningEd25519Key := SigningEd25519Key sv; mintCache := c |}.

Definition cacheMintedToken (t : instant) (grantID : string) (token tokenID : string)
    (sv : DelegationServer) : DelegationServer :=
  let cutoff := time_add t (- mintedTokenTTL) in
  let mt := {| mt_Token := token; mt_TokenID := tokenID; mt_cachedAt := t |} in
  set_cache (filter (fun kv => time_before (mt_cachedAt (snd kv)) cutoff = false)
    (<[grantID := mt]> (mintCache sv))) sv.

Definition lookupMintedToken (t : instant) (grantID : string) (sv : DelegationServer)
    : option mintedToken * DelegationServer :=
  match mintCache sv !! grantID with
  | None => (None, sv)
  | Some mt =>
      if mintedTokenTTL <? t - mt_cachedAt mt
      then (None, set_cache (delete grantID (mintCache sv)) sv)
      else (Some mt, sv)
  end.

Definition resourceKind (resource : string) : string := before_byte ":" resource.

Definition mint_input (w : World) (actor : Principal) (grant : DelegationGrant) : MintInput :=
  {| mi_Principal := actor; mi_Action := dg_Action grant; mi_Resource := dg_Resource grant;
     mi_TTL := 5 * minute; mi_MaxUses := 1; mi_grant_id := dg_ID grant;
     mi_grantor_id := dg_GrantorPrincipalID grant;
     mi_approved_at := time_unix (default (now w) (dg_DecidedAt grant)) |}.

Definition mintApprovedToken (w : World) (sv : DelegationServer) (actor : Principal)
    (grant : DelegationGrant) : option (string * string) :=
  if (SigningSecret sv =? 0) && (SigningEd25519Key sv =? 0) then None
  else if decide (dg_Resource grant <> "" /\
                  AllowsResourceKind actor (resourceKind (dg_Resource grant)) = false) then None
  else if SigningEd25519Key sv =? 64 then MintEd25519 (new_token w) (mint_input w actor grant)
  else if 32 <=? SigningSecret sv then Mint (new_token w) (mint_input w actor grant)
  else None.

(** Mint for an approved grant, record the token's id and cache the token; every
    failure is only logged. *)
Definition mint_for (w : World) (grant : DelegationGrant) (sv : DelegationServer) (d : Db)
    : DelegationGrant * DelegationServer * Db :=
  match GetPrincipal w (dg_ActorPrincipalID grant) with
  | None => (grant, sv, d)
  | Some actor =>
      if IsDisabled actor then (grant, sv, d)
      else match mintApprovedToken w sv actor grant with
      | None => (grant, sv, d)
      | Some (token, tokenID) =>
          let d := snd (SetMintedToken (dg_ID grant) (dg_OrgID grant) tokenID d) in
          (minted_row tokenID grant, cacheMintedToken (now w) (dg_ID grant) token tokenID sv, d)
      end
  end.

Inductive RpcError : Type :=
| InvalidArgument | Unauthenticated | PermissionDenied | NotFound | FailedPrecondition | Internal.

(** The answers of the checks every handler begins with, for the request's
    organization. *)
Record Caller : Type := {
  ca_valid : bool;
  ca_auth : option string;
  ca_member : bool;
  ca_admin : bool;
}.

Definition mapDelegationError (e : DelegationError) : RpcError :=
  match e with
  | GrantNotFound => NotFound
  | GrantConflict _ | PatternConflict => FailedPrecondition
  | GrantInvalid _ | StoreFailed _ => Internal
  end.

(** The request as the input of the service; no timeout is five minutes. *)
Definition with_timeout (timeoutSeconds : Z) (r : RequestDelegationInput) : RequestDelegationInput :=
  let timeout := timeoutSeconds * second in
  {| rd_OrgID := rd_OrgID r; rd_ActorPrincipalID := rd_ActorPrincipalID r;
     rd_Action := rd_Action r; rd_Resource := rd_Resource r; rd_ResourceID := rd_ResourceID r;
     rd_Justification := rd_Justification r; rd_Context := rd_Context r;
     rd_RiskLevel := rd_RiskLevel r; rd_Timeout := if timeout =? 0 then 5 * minute else timeout;
     rd_Grantor := rd_Grantor r; rd_RequestHash := rd_RequestHash r |}.

Record RequestDelegationResponse : Type := {
  rs_Id : string;
  rs_Status : DelegationGrantStatus;
  rs_ExpiresAt : instant;
}.

Definition Server_RequestDelegation (w : World) (caller : Caller) (timeoutSeconds : Z)
    (req : RequestDelegationInput) (sv : DelegationServer) (d : Db)
    : result RpcError RequestDelegationResponse * DelegationServer * Db :=
  if negb (ca_valid caller) then (Err InvalidArgument, sv, d)
  else match ca_auth caller with
  | None => (Err Unauthenticated, sv, d)
  | Some actorID =>
      if negb (ca_member caller) then (Err PermissionDenied, sv, d)
      else if bool_decide (rd_ActorPrincipalID req <> actorID) && negb (ca_admin caller)
      then (Err PermissionDenied, sv, d)
      else match RequestDelegation w (with_timeout timeoutSeconds req) d with
      | (Err _, d) => (Err Internal, sv, d)
      | (Ok id, d) =>
          match GetDelegation id (rd_OrgID req) d with
          | Err _ => (Err Internal, sv, d)
          | Ok grant =>
              let '(sv, d) :=
                if decide (dg_Status grant = GrantStatusApproved /\ dg_Kind grant = GrantKindOneShot)
                then let '(_, sv, d) := mint_for w grant sv d in (sv, d) else (sv, d) in
              (Ok {| rs_Id := id; rs_Status := dg_Status grant; rs_ExpiresAt := dg_ExpiresAt grant |},
               sv, d)
          end
      end
  end.

Definition Server_DecideDelegation (w : World) (caller : Caller) (id org : string)
    (decision : DelegationGrantStatus) (reason : string) (sv : DelegationServer) (d : Db)
    : result RpcError DelegationGrant * DelegationServer * Db :=
  if negb (ca_valid caller) then (Err InvalidArgument, sv, d)
  else match ca_auth caller with
  | None => (Err Unauthenticated, sv, d)
  | Some actorID =>
      if negb (ca_admin caller) then (Err PermissionDenied, sv, d)
      else match DecideDelegation w id org actorID decision reason d with
      | (Err e, d) => (Err (mapDelegationError e), sv, d)
      | (Ok grant, d) =>
          if decide (decision = GrantStatusApproved)
          then let '(grant, sv, d) := mint_for w grant sv d in (Ok grant, sv, d)
          else (Ok grant, sv, d)
      end
  end.

(** One event of the stream as the client gets it: status, token and token id. *)
Definition wait_event (t : instant) (ev : DelegationDecisionEvent) (sv : DelegationServer)
    : (DelegationGrantStatus * string * string) * DelegationServer :=
  if decide (ev_Status ev = GrantStatusApproved) then
    match lookupMintedToken t (ev_GrantID ev) sv with
    | (Some minted, sv) => ((ev_Status ev, mt_Token minted, mt_TokenID minted), sv)
    | (None, sv) => ((ev_Status ev, "", ""), sv)
    end
  else ((ev_Status ev, "", ""), sv).
End Engine.
