(* ===== verification/DelegationGrantsProofs.v ===== *)
(** Delegation grants at work: what one transaction does to the rows, the requests
    of many servers interleaved as a step relation, and its invariants. *)
From S2P Require Import Prelude DelegationGrants.

Local Open Scope Z_scope.

Section Engine.
Context {Json : Type}.
Abbreviation Grant := (@DelegationGrant Json) (only parsing).
Abbreviation Database := (@Db Json) (only parsing).

(** ** One row *)

(** The columns nothing changes. *)
Definition same_request (g g' : Grant) : Prop :=
  dg_ID g' = dg_ID g /\ dg_OrgID g' = dg_OrgID g /\
  dg_ActorPrincipalID g' = dg_ActorPrincipalID g /\ dg_Action g' = dg_Action g /\
  dg_Resource g' = dg_Resource g /\ dg_ResourceID g' = dg_ResourceID g /\
  dg_Justification g' = dg_Justification g /\ dg_RequestContext g' = dg_RequestContext g /\
  dg_RiskLevel g' = dg_RiskLevel g /\ dg_Kind g' = dg_Kind g /\
  dg_CreatedAt g' = dg_CreatedAt g /\ dg_ExpiresAt g' = dg_ExpiresAt g /\
  dg_ActionPattern g' = dg_ActionPattern g /\ dg_ResourcePattern g' = dg_ResourcePattern g /\
  dg_MaxUses g' = dg_MaxUses g /\ dg_RequestHash g' = dg_RequestHash g.

#[export] Instance same_request_preorder : PreOrder same_request.
Proof.
  split; [intros g; unfold same_request; by split_and!|].
  unfold same_request. intros g1 g2 g3 H1 H2. destruct_and! H1. destruct_and! H2.
  split_and!; congruence.
Qed.

(** What was decided, by whom, when and why. *)
Definition verdict (g : Grant) : DelegationGrantStatus * string * option instant * string :=
  (dg_Status g, dg_GrantorPrincipalID g, dg_DecidedAt g, dg_DecisionReason g).

Definition decided (g : Grant) : Prop :=
  (dg_Status g = GrantStatusApproved \/ dg_Status g = GrantStatusDenied) /\
  dg_GrantorPrincipalID g <> "" /\ is_Some (dg_DecidedAt g).

(** A grant's life: a pending one may be decided, once, and a decided one stays. *)
Definition evolves (g g' : Grant) : Prop :=
  same_request g g' /\ dg_UseCount g <= dg_UseCount g' /\
  (verdict g' = verdict g \/ (dg_Status g = GrantStatusPending /\ decided g') \/
   (dg_Kind g = GrantKindPattern /\ dg_Status g <> GrantStatusPending /\
    dg_Status g' <> GrantStatusPending /\ dg_GrantorPrincipalID g' = dg_GrantorPrincipalID g)).

Lemma evolves_refl g : evolves g g.
Proof. split_and!; [reflexivity|lia|by left]. Qed.

Lemma verdict_status (g g' : Grant) : verdict g' = verdict g ->
  dg_Status g' = dg_Status g /\ dg_GrantorPrincipalID g' = dg_GrantorPrincipalID g.
Proof. by intros [= -> -> _ _]. Qed.

Lemma decided_verdict (g g' : Grant) : verdict g' = verdict g -> decided g -> decided g'.
Proof. unfold decided. intros [= -> -> -> _]. done. Qed.

Lemma decided_not_pending (g : Grant) : decided g -> dg_Status g <> GrantStatusPending.
Proof. intros [[->| ->] _]; done. Qed.

(** A pattern that is decided would have been pending: no such row is reachable. *)
Definition sane (g : Grant) : Prop := dg_Kind g = GrantKindPattern -> dg_Status g <> GrantStatusPending.

Lemma evolves_sane g g' : evolves g g' -> sane g -> sane g'.
Proof.
  intros (Hs & _ & Hv) Hg Hk. destruct_and! Hs.
  assert (Hk' : dg_Kind g = GrantKindPattern) by congruence. specialize (Hg Hk').
  destruct Hv as [Hv|[[? ?]|(_ & _ & ? & _)]]; [|done|done]. apply verdict_status in Hv as [-> _]. done.
Qed.

Lemma evolves_trans g1 g2 g3 : sane g1 -> evolves g1 g2 -> evolves g2 g3 -> evolves g1 g3.
Proof.
  intros Hsane (Hs1 & Hu1 & Hv1) (Hs2 & Hu2 & Hv2). split_and!; [by etrans|lia|].
  assert (Hk : dg_Kind g2 = dg_Kind g1) by (destruct_and! Hs1; done).
  destruct Hv1 as [Hv1|[[Hp1 Hd1]|(Hk1 & Hp1 & Hp1' & Hg1)]].
  - pose proof (verdict_status _ _ Hv1) as [Hst Hgr].
    destruct Hv2 as [Hv2|[[Hp2 Hd2]|(Hk2 & Hp2 & Hp2' & Hg2)]].
    + left. congruence.
    + right. left. split; [congruence|done].
    + right. right. split_and!; congruence.
  - right. left. split; [done|]. destruct Hv2 as [Hv2|[[Hp2 Hd2]|(Hk2 & _)]].
    + by eapply decided_verdict.
    + by apply decided_not_pending in Hd1.
    + exfalso. apply Hsane; [congruence|done].
  - right. right. destruct Hv2 as [Hv2|[[Hp2 _]|(Hk2 & _ & Hp2' & Hg2)]].
    + apply verdict_status in Hv2 as [-> ->]. done.
    + done.
    + split_and!; congruence.
Qed.

(** ** One transaction *)

(** The rows after a step: as they were, with a new one, or with one that went on. *)
Inductive change (d d' : gmap string Grant) : Prop :=
| change_none : d' = d -> change d d'
| change_new g : d !! dg_ID g = None -> sane g -> 0 <= dg_UseCount g ->
    (forall id h hash, d !! id = Some h -> dg_RequestHash g = Some hash ->
       dg_OrgID h = dg_OrgID g -> dg_RequestHash h <> Some hash) ->
    (dg_Kind g = GrantKindPattern -> match dg_MaxUses g with Some m => dg_UseCount g <= m | None => True end) ->
    d' = <[dg_ID g := g]> d -> change d d'
| change_row id g g' : d !! id = Some g -> evolves g g' ->
    (dg_Kind g = GrantKindPattern -> dg_UseCount g' = dg_UseCount g \/
       match dg_MaxUses g with Some m => dg_UseCount g' <= m | None => True end) ->
    d' = <[id := g']> d -> change d d'.

Lemma with_hash_nil org hash (d : Database) :
  with_hash org hash d = [] ->
  forall id h, grants d !! id = Some h -> dg_OrgID h = org -> dg_RequestHash h <> Some hash.
Proof.
  intros Hn id h Hid Ho Hh. assert (Hin : (id, h) ∈ with_hash org hash d).
  { apply list_elem_of_filter. split; [done|]. by apply elem_of_map_to_list. }
  rewrite Hn in Hin. by apply elem_of_nil in Hin.
Qed.

Lemma with_hash_cons org hash (d : Database) id h l :
  with_hash org hash d = (id, h) :: l ->
  grants d !! id = Some h /\ dg_OrgID h = org /\ dg_RequestHash h = Some hash.
Proof.
  intros Hc. assert (Hin : (id, h) ∈ with_hash org hash d) by (rewrite Hc; by left).
  apply list_elem_of_filter in Hin as [[? ?] Hin]. by apply elem_of_map_to_list in Hin.
Qed.

(** An insertion answers the row of its hash, or makes one. *)
Lemma insert_grant_spec w (g : Grant) hash d id d' :
  dg_RequestHash g = Some hash -> insert_grant w g d = Ok (id, d') ->
  spine d' = spine d /\
  ((grants d' = grants d /\ exists h, grants d !! id = Some h /\
      dg_OrgID h = dg_OrgID g /\ dg_RequestHash h = Some hash) \/
   (id = dg_ID g /\ grants d !! id = None /\ with_hash (dg_OrgID g) hash d = [] /\
    grants d' = <[id := g]> (grants d))).
Proof.
  intros Hh. unfold insert_grant. destruct (contains_string _ _); [|done]. rewrite Hh. simpl default.
  destruct (with_hash (dg_OrgID g) hash d) as [|[k h] l] eqn:Hw.
  - case_decide as Hp; [done|]. case_decide; [|done]. intros [= <- <-]. split; [done|]. right.
    split_and!; try done. by apply eq_None_not_Some.
  - intros [= <- <-]. split; [done|]. left. split; [done|]. apply with_hash_cons in Hw as (? & ? & ?).
    by exists h.
Qed.

Lemma one_shot_change w r hash x st gr t ctx d id d' :
  insert_grant w (one_shot w r hash x st gr t ctx) d = Ok (id, d') -> change (grants d) (grants d').
Proof.
  intros H. apply (insert_grant_spec _ _ hash) in H as [_ [[-> _]|(-> & Hn & Hw & ->)]]; [by apply change_none| |done].
  eapply change_new; [exact Hn|done|done| |done|done].
  intros k h hash' Hk [= <-] Ho. by eapply with_hash_nil.
Qed.

Lemma emitTx_grants w a t e i o (d d' : Database) u : emitTx w a t e i o d = Ok (u, d') -> grants d' = grants d.
Proof. unfold emitTx. destruct (audit_refuses w) as [f|]; [destruct (f _); [done|]|]; by intros [= _ <-]. Qed.

Lemma find_grant_spec id org (d : Database) g :
  find_grant id org d = Some g <-> grants d !! id = Some g /\ dg_OrgID g = org.
Proof.
  unfold find_grant. destruct (grants d !! id) as [h|]; simpl; [|naive_solver].
  case_guard; simpl; naive_solver.
Qed.

Lemma run_tx_ind {A} (m : tx Database DelegationError A) d (P : Database -> Prop) :
  P d -> (forall a d', m d = Ok (a, d') -> P d') -> P (snd (run_tx m d)).
Proof. intros H0 H1. unfold run_tx. destruct (m d) as [[a d']|e] eqn:Hm; [by eapply H1|done]. Qed.

(** A use is counted on an active pattern with uses left, and nothing else. *)
Lemma increment_spec id org (d : Database) g' d' :
  IncrementPatternUse id org d = Ok (g', d') ->
  exists g, grants d !! id = Some g /\ dg_OrgID g = org /\ dg_Kind g = GrantKindPattern /\
    g' = used_row g /\ grants d' = <[id := used_row g]> (grants d) /\
    match dg_MaxUses g with Some m => dg_UseCount g < m | None => True end.
Proof.
  unfold IncrementPatternUse. destruct (find_grant id org d) as [g|] eqn:Hf; [|done].
  apply find_grant_spec in Hf as [Hg Ho]. case_decide as Hk; [|done].
  destruct (match dg_MaxUses g with Some _ => _ | None => _ end) eqn:Hm; [|done].
  destruct (_ <? _); [done|]. intros [= <- <-]. exists g. split_and!; try done; [by destruct Hk|].
  destruct (dg_MaxUses g); [lia|done].
Qed.

Lemma used_evolves (g : Grant) : evolves g (used_row g).
Proof. split_and!; try done; [simpl; lia|by left]. Qed.
Lemma minted_evolves token (g : Grant) : evolves g (minted_row token g).
Proof. split_and!; try done. by left. Qed.
Lemma decided_evolves status reason grantor t (g : Grant) :
  dg_Status g = GrantStatusPending -> grantor <> "" ->
  status = GrantStatusApproved \/ status = GrantStatusDenied ->
  evolves g (decided_row status reason grantor t g).
Proof. intros. split_and!; try done. right. left. split; [done|]. split_and!; done. Qed.

Lemma increment_change id org (d : Database) :
  change (grants d) (grants (snd (run_tx (IncrementPatternUse id org) d))).
Proof.
  apply run_tx_ind; [by apply change_none|].
  intros g' d' (g & Hg & _ & _ & _ & -> & Hm)%increment_spec.
  eapply change_row; [exact Hg|apply used_evolves| |done].
  intros _. right. destruct (dg_MaxUses g); simpl; [lia|done].
Qed.

(** A decision that commits is about a pending grant. *)
Lemma decide_spec w id org grantor decision reason (d : Database) g' d' :
  DecideDelegation w id org grantor decision reason d = (Ok g', d') ->
  exists g, grants d !! id = Some g /\ dg_OrgID g = org /\ dg_Status g = GrantStatusPending /\
    grantor <> "" /\ (decision = GrantStatusApproved \/ decision = GrantStatusDenied) /\
    g' = decided_row decision reason grantor (tx_now w) g /\
    grants d' = <[id := g']> (grants d).
Proof.
  unfold DecideDelegation. repeat (case_decide; [done|]).
  intros Hrun%run_tx_commit. unfold decide_tx in Hrun. tx_inv.
  match goal with He : emitTx _ _ _ _ _ _ _ = _ |- _ => apply emitTx_grants in He as -> end.
  unfold Decide in *. destruct (find_grant id org d) as [g|] eqn:Hf; [|done].
  apply find_grant_spec in Hf as [Hg Ho]. case_decide; [|by destruct (IsTerminal_grant g)].
  case_decide; [|done]. simplify_eq. exists g. split_and!; try done.
  destruct decision; naive_solver.
Qed.

Lemma decide_failed w id org grantor decision reason (d : Database) e d' :
  DecideDelegation w id org grantor decision reason d = (Err e, d') -> d' = d.
Proof.
  unfold DecideDelegation. repeat (case_decide; [congruence|]). apply run_tx_rollback.
Qed.

Lemma decide_change w id org grantor decision reason (d : Database) :
  change (grants d) (grants (snd (DecideDelegation w id org grantor decision reason d))).
Proof.
  destruct (DecideDelegation _ _ _ _ _ _ d) as [[g'|e] d'] eqn:Hd; simpl.
  - apply decide_spec in Hd as (g & Hg & _ & Hp & Hgr & Hst & -> & ->).
    eapply change_row; [exact Hg|by apply decided_evolves|by left|done].
  - apply change_none. by apply decide_failed in Hd as ->.
Qed.

Lemma token_change id org token (d : Database) :
  change (grants d) (grants (snd (SetMintedToken id org token d))).
Proof.
  unfold SetMintedToken. case_decide; [by apply change_none|].
  apply run_tx_ind; [by apply change_none|]. intros [] d'. unfold SetMintedToken_store.
  destruct (find_grant id org d) as [g|] eqn:Hf; [|done]. intros [= <-].
  apply find_grant_spec in Hf as [Hg _]. eapply change_row; [exact Hg|apply minted_evolves|by left|done].
Qed.

Context (json_string : string -> Json) (marshals : gmap string Json -> bool).
Context (sha256_hex : string -> string).

Lemma insert_requested_change w r hash x d :
  change (grants d) (grants (snd (run_tx (insert_requested marshals w r hash x) d))).
Proof.
  apply run_tx_ind; [by apply change_none|]. unfold insert_requested. intros id d' H. tx_inv.
  match goal with He : emitTx _ _ _ _ _ _ _ = _ |- _ => apply emitTx_grants in He as -> end.
  unfold Insert in *. destruct (_ && _); [done|]. by eapply one_shot_change.
Qed.

Lemma insert_auto_change w r hash x p d :
  change (grants d) (grants (snd (run_tx (insert_auto_approved json_string marshals w r hash x p) d))).
Proof.
  apply run_tx_ind; [by apply change_none|]. unfold insert_auto_approved. intros id d' H. tx_inv.
  match goal with He : emitTx _ _ _ _ _ _ _ = _ |- _ => apply emitTx_grants in He as -> end.
  unfold InsertAutoApproved in *. destruct (negb _); [done|]. case_decide; [done|].
  by eapply one_shot_change.
Qed.

(** ** The system *)

(** A request on its way: a pattern was found, a use of it was counted, or it is to
    be inserted for a human to decide. *)
Inductive flight : Type :=
| Matched (r : @RequestDelegationInput Json) (hash : string) (expires : instant) (pattern : Grant)
| Counted (r : @RequestDelegationInput Json) (hash : string) (expires : instant) (pattern : Grant)
| ByHand (r : @RequestDelegationInput Json) (hash : string) (expires : instant).

(** [sy_auto] is a ghost: the rows inserted as approved, each with its pattern. *)
Record system : Type := {
  sy_db : Database;
  sy_flights : list flight;
  sy_auto : list (string * string);
}.

Definition start (w : World) (r : @RequestDelegationInput Json) (d : Database) : flight :=
  let hash := request_hash sha256_hex r in
  let x := time_add (now w) (rd_Timeout r) in
  match MatchPattern w (rd_OrgID r) (rd_ActorPrincipalID r) (rd_Action r) (rd_Resource r) d with
  | Some p => Matched r hash x p
  | None => ByHand r hash x
  end.

(** A pattern row as it is configured, and what happens to it when it is revoked. *)
Definition new_pattern (g : Grant) : Prop :=
  dg_Kind g = GrantKindPattern /\ dg_Status g = GrantStatusActive /\ dg_UseCount g = 0 /\
  dg_RequestHash g = None /\ match dg_MaxUses g with Some m => 0 <= m | None => True end.
Definition revoked_pattern (g g' : Grant) : Prop :=
  dg_Kind g = GrantKindPattern /\ same_request g g' /\ dg_UseCount g' = dg_UseCount g /\
  dg_GrantorPrincipalID g' = dg_GrantorPrincipalID g /\ dg_Status g' <> GrantStatusPending.

(** The requests of any number of servers, each a sequence of transactions, amid
    the decisions, the recording of tokens and the configuration of patterns; a
    server may die with a request on its way. *)
Inductive step : system -> system -> Prop :=
| step_request (w : World) r d fs au : Validate r = Ok tt ->
    step {| sy_db := d; sy_flights := fs; sy_auto := au |}
         {| sy_db := d; sy_flights := start w r d :: fs; sy_auto := au |}
| step_count (w : World) r hash x p d fs1 fs2 au :
    step {| sy_db := d; sy_flights := fs1 ++ Matched r hash x p :: fs2; sy_auto := au |}
         (let '(res, d') := run_tx (IncrementPatternUse (dg_ID p) (rd_OrgID r)) d in
          {| sy_db := d';
             sy_flights := fs1 ++ (if is_ok res then Counted r hash x p else ByHand r hash x) :: fs2;
             sy_auto := au |})
| step_auto (w : World) r hash x p d fs1 fs2 au :
    step {| sy_db := d; sy_flights := fs1 ++ Counted r hash x p :: fs2; sy_auto := au |}
         (let '(res, d') := run_tx (insert_auto_approved json_string marshals w r hash x p) d in
          {| sy_db := d'; sy_flights := fs1 ++ fs2;
             sy_auto := match res with
               | Ok id => if decide (is_Some (grants d !! id)) then au else (id, dg_ID p) :: au
               | Err _ => au
               end |})
| step_by_hand (w : World) r hash x d fs1 fs2 au :
    step {| sy_db := d; sy_flights := fs1 ++ ByHand r hash x :: fs2; sy_auto := au |}
         {| sy_db := snd (run_tx (insert_requested marshals w r hash x) d);
            sy_flights := fs1 ++ fs2; sy_auto := au |}
| step_decide (w : World) id org grantor decision reason d fs au :
    step {| sy_db := d; sy_flights := fs; sy_auto := au |}
         {| sy_db := snd (DecideDelegation w id org grantor decision reason d);
            sy_flights := fs; sy_auto := au |}
| step_token id org token d fs au :
    step {| sy_db := d; sy_flights := fs; sy_auto := au |}
         {| sy_db := snd (SetMintedToken id org token d); sy_flights := fs; sy_auto := au |}
| step_pattern g d fs au : new_pattern g -> grants d !! dg_ID g = None ->
    step {| sy_db := d; sy_flights := fs; sy_auto := au |}
         {| sy_db := set_grants (<[dg_ID g := g]> (grants d)) d; sy_flights := fs; sy_auto := au |}
| step_revoke id g g' d fs au : grants d !! id = Some g -> revoked_pattern g g' ->
    step {| sy_db := d; sy_flights := fs; sy_auto := au |}
         {| sy_db := set_grants (<[id := g']> (grants d)) d; sy_flights := fs; sy_auto := au |}
| step_lost f d fs1 fs2 au :
    step {| sy_db := d; sy_flights := fs1 ++ f :: fs2; sy_auto := au |}
         {| sy_db := d; sy_flights := fs1 ++ fs2; sy_auto := au |}.

Definition init : system :=
  {| sy_db := {| grants := ∅; spine := [] |}; sy_flights := []; sy_auto := [] |}.

(** *** The rows *)
Definition rows_ok (d : gmap string Grant) : Prop :=
  (forall id g, d !! id = Some g -> dg_ID g = id /\ sane g /\ 0 <= dg_UseCount g /\
     (dg_Kind g = GrantKindPattern ->
        match dg_MaxUses g with Some m => dg_UseCount g <= m | None => True end)) /\
  (forall id id' g g' hash, d !! id = Some g -> d !! id' = Some g' ->
     dg_OrgID g = dg_OrgID g' -> dg_RequestHash g = Some hash -> dg_RequestHash g' = Some hash ->
     id = id').

Lemma change_ok d d' : change d d' -> rows_ok d -> rows_ok d'.
Proof.
  intros Hc [Hr Hu]. destruct Hc as [->|g Hn Hs Hz Hh Hm ->|id g g' Hg He Hm ->]; [done| |].
  - split.
    + intros id h [[<- <-]|[_ Hh']]%lookup_insert_Some; [done|by apply Hr].
    + intros id id' h h' hash [[<- <-]|[Hne Hl]]%lookup_insert_Some [[<- <-]|[Hne' Hl']]%lookup_insert_Some Ho Hx Hy;
        [done| | |by eapply Hu].
      * exfalso. by eapply (Hh id' h' hash).
      * exfalso. by eapply (Hh id h hash).
  - destruct (Hr _ _ Hg) as (Hid & Hs & Hz & Hb).
    assert (Hreq := proj1 He). destruct_and! Hreq.
    split.
    + intros id' h [[<- <-]|[_ Hh']]%lookup_insert_Some; [|by apply Hr].
      split_and!; [congruence|by eapply evolves_sane|destruct He as (_ & ? & _); lia|].
      intros Hk. assert (Hk' : dg_Kind g = GrantKindPattern) by congruence.
      specialize (Hb Hk'). specialize (Hm Hk').
      replace (dg_MaxUses g') with (dg_MaxUses g) by done.
      destruct Hm as [->|Hm]; done.
    + intros i j h h' hash [[<- <-]|[Hne Hl]]%lookup_insert_Some [[<- <-]|[Hne' Hl']]%lookup_insert_Some Ho Hx Hy;
        [done| | |by eapply Hu].
      * eapply (Hu id j g h' hash); congruence.
      * eapply (Hu i id h g hash); congruence.
Qed.

Lemma step_change s s' : step s s' -> rows_ok (grants (sy_db s)) ->
  change (grants (sy_db s)) (grants (sy_db s')).
Proof.
  intros Hs Hok. destruct Hs; simpl; try (by apply change_none).
  - pose proof (increment_change (dg_ID p) (rd_OrgID r) d) as H. by destruct (run_tx _ d).
  - pose proof (insert_auto_change w r hash x p d) as H. by destruct (run_tx _ d).
  - apply insert_requested_change.
  - apply decide_change.
  - apply token_change.
  - destruct H as (Hk & Hst & Hu & Hh & Hm). eapply change_new; [done| | | | |done].
    + intros _. by rewrite Hst.
    + lia.
    + intros ? ? ? _ Hc. congruence.
    + intros _. rewrite Hu. done.
  - destruct H0 as (Hk & Hr & Hu & Hg & Hst). eapply change_row; [done| |by left|done].
    split_and!; [done|lia|]. right. right. split_and!; try done.
    destruct (proj1 Hok _ _ H) as (_ & Hsane & _). by apply Hsane.
Qed.

Lemma steps_rows s s' : rtc step s s' -> rows_ok (grants (sy_db s)) -> rows_ok (grants (sy_db s')).
Proof.
  induction 1 as [|s1 s2 s3 H _ IH]; [done|]. intros Hok. apply IH.
  eapply change_ok; [by eapply step_change|done].
Qed.

Lemma init_rows : rows_ok (grants (sy_db init)).
Proof. split; intros; simpl in *; by rewrite lookup_empty in *. Qed.

Lemma change_evolves d d' id g :
  change d d' -> d !! id = Some g -> exists g', d' !! id = Some g' /\ evolves g g'.
Proof.
  intros Hc Hg. destruct Hc as [->|h Hn _ _ _ _ ->|k h h' Hk He _ ->].
  - exists g. split; [done|apply evolves_refl].
  - exists g. split; [|apply evolves_refl]. rewrite lookup_insert_ne; [done|]. congruence.
  - destruct (decide (k = id)) as [->|Hne].
    + exists h'. rewrite lookup_insert_eq. simplify_eq. done.
    + exists g. rewrite lookup_insert_ne by done. split; [done|apply evolves_refl].
Qed.

Lemma steps_evolve s s' id g :
  rtc step s s' -> rows_ok (grants (sy_db s)) -> grants (sy_db s) !! id = Some g ->
  exists g', grants (sy_db s') !! id = Some g' /\ evolves g g'.
Proof.
  intros Hs. revert g. induction Hs as [s|s1 s2 s3 H Hs IH]; intros g Hok Hg.
  { exists g. split; [done|apply evolves_refl]. }
  pose proof (step_change _ _ H Hok) as Hc.
  destruct (change_evolves _ _ _ _ Hc Hg) as (g2 & Hg2 & He).
  destruct (IH g2) as (g3 & Hg3 & He3); [by eapply change_ok|done|].
  exists g3. split; [done|]. eapply evolves_trans; [|done|done].
  by destruct (proj1 Hok _ _ Hg) as (_ & ? & _).
Qed.
End Engine.
