(* ===== verification/DelegationGrantsTheorems.v ===== *)
(** What delegation grants guarantee: a grant is decided once, a pattern approves no
    more requests than its uses and only those it matches, and a request is one row
    however often it is sent. *)
From S2P Require Import Prelude DelegationGrants DelegationGrantsProofs.

Local Open Scope Z_scope.

Section Engine.
Context {Json : Type} (json_string : string -> Json) (marshals : gmap string Json -> bool).
Context (sha256_hex : string -> string).
Abbreviation Grant := (@DelegationGrant Json) (only parsing).
Abbreviation Step := (step json_string marshals sha256_hex) (only parsing).

(** ** A decision is final *)

(** C7. A grant is decided once: whatever requests, decisions and changes of
    patterns follow, a row stays, with the columns of its request; and once it is
    approved or denied its status, grantor, time and reason stay too, and every
    further decision on it is refused and changes nothing. *)
Theorem decided_once s s' id g w org grantor decision reason :
  rtc Step init s -> rtc Step s s' -> grants (sy_db s) !! id = Some g ->
  exists g', grants (sy_db s') !! id = Some g' /\ same_request g g' /\
    (dg_Kind g = GrantKindOneShot -> dg_Status g <> GrantStatusPending ->
      verdict g' = verdict g /\
      is_ok (fst (DecideDelegation w id org grantor decision reason (sy_db s'))) = false /\
      snd (DecideDelegation w id org grantor decision reason (sy_db s')) = sy_db s').
Proof.
  intros H0 Hs Hg. pose proof (steps_rows _ _ _ _ _ H0 init_rows) as Hok.
  destruct (steps_evolve _ _ _ _ _ _ _ Hs Hok Hg) as (g' & Hg' & He). exists g'.
  destruct He as (Hr & _ & Hv). split; [done|]. split; [done|]. intros Hk Hp.
  assert (Hv' : verdict g' = verdict g).
  { destruct Hv as [Hv|[[? _]|(Hk' & _)]]; [done|done|congruence]. }
  split; [done|]. destruct (DecideDelegation _ _ _ _ _ _ _) as [[h|e] d'] eqn:Hd; simpl.
  - apply decide_spec in Hd as (g1 & Hg1 & _ & Hp1 & _). exfalso.
    apply verdict_status in Hv' as [Hst _]. simplify_eq. congruence.
  - split; [done|]. by eapply decide_failed.
Qed.

(** ** Patterns *)
Definition counts_for (p : string) (f : @flight Json) : bool :=
  match f with Counted _ _ _ pattern => bool_decide (dg_ID pattern = p) | _ => false end.
Definition counted (p : string) (fs : list (@flight Json)) : Z :=
  Z.of_nat (length (filter (fun f => counts_for p f = true) fs)).
Definition approved_by (p : string) (au : list (string * string)) : Z :=
  Z.of_nat (length (filter (fun x => snd x = p) au)).
Definition uses (p : string) (d : gmap string Grant) : Z := from_option dg_UseCount 0 (d !! p).

Lemma counted_cons p f fs : counted p (f :: fs) = (if counts_for p f then 1 else 0) + counted p fs.
Proof. unfold counted. rewrite filter_cons. destruct (counts_for p f); simpl; lia. Qed.
Lemma counted_mid p f fs1 fs2 :
  counted p (fs1 ++ f :: fs2) = (if counts_for p f then 1 else 0) + counted p (fs1 ++ fs2).
Proof.
  induction fs1 as [|f' fs1 IH]; simpl; [apply counted_cons|]. rewrite !counted_cons. lia.
Qed.
Lemma approved_by_cons p id q au :
  approved_by p ((id, q) :: au) = (if decide (q = p) then 1 else 0) + approved_by p au.
Proof. unfold approved_by. rewrite filter_cons. simpl. case_decide; simpl; lia. Qed.

(** The pattern in hand is the row, as far as approving goes. *)
Definition agrees (p h : Grant) : Prop :=
  dg_Kind p = GrantKindPattern /\ same_request p h /\
  dg_GrantorPrincipalID h = dg_GrantorPrincipalID p.

Definition serves (r : @RequestDelegationInput Json) (p : Grant) : Prop :=
  dg_OrgID p = rd_OrgID r /\ dg_ActorPrincipalID p = rd_ActorPrincipalID r /\
  matches (rd_Action r) (rd_Resource r) p = true.

Definition flight_ok (d : gmap string Grant) (f : @flight Json) : Prop :=
  match f with
  | Matched r _ _ p | Counted r _ _ p =>
      serves r p /\ exists h, d !! dg_ID p = Some h /\ agrees p h
  | ByHand _ _ _ => True
  end.

(** The row [id] was approved by the pattern [p], which matches it. *)
Definition auto_ok (d : gmap string Grant) (id p : string) : Prop :=
  exists g h, d !! id = Some g /\ d !! p = Some h /\ dg_Kind h = GrantKindPattern /\
    dg_Kind g = GrantKindOneShot /\ dg_Status g = GrantStatusApproved /\
    dg_GrantorPrincipalID g = dg_GrantorPrincipalID h /\ dg_OrgID g = dg_OrgID h /\
    dg_ActorPrincipalID g = dg_ActorPrincipalID h /\
    matches (dg_Action g) (dg_Resource g) h = true.

Lemma evolves_grantor (g g' : Grant) :
  evolves g g' -> sane g -> dg_Kind g = GrantKindPattern ->
  dg_GrantorPrincipalID g' = dg_GrantorPrincipalID g.
Proof.
  intros (_ & _ & [Hv|[[Hp _]|(_ & _ & _ & Hg)]]) Hs Hk; [by apply verdict_status in Hv as [_ ?]| |done].
  by destruct (Hs Hk).
Qed.

Lemma matches_same a b (p h : Grant) : same_request p h -> matches a b h = matches a b p.
Proof. intros Hs. destruct_and! Hs. unfold matches. congruence. Qed.

Lemma flight_change d d' f : change d d' -> rows_ok d -> flight_ok d f -> flight_ok d' f.
Proof.
  intros Hc [Hok _]. assert (Ha : forall p : Grant, (exists h, d !! dg_ID p = Some h /\ agrees p h) ->
    exists h, d' !! dg_ID p = Some h /\ agrees p h).
  { intros p (h & Hh & Hk & Hr & Hg). destruct (change_evolves _ _ _ _ Hc Hh) as (h' & Hh' & He).
    exists h'. split; [done|]. split; [done|]. assert (dg_Kind h = GrantKindPattern).
    { destruct_and! Hr. congruence. }
    split; [by etrans; [|apply He]|]. rewrite <- Hg. eapply evolves_grantor; [done| |done].
    by destruct (Hok _ _ Hh) as (_ & ? & _). }
  destruct f; simpl; [| |done]; intros [? ?]; split; auto.
Qed.

Lemma auto_change d d' id p : change d d' -> rows_ok d -> auto_ok d id p -> auto_ok d' id p.
Proof.
  intros Hc [Hok _] (g & h & Hg & Hh & Hkh & Hkg & Hst & Hgr & Ho & Ha & Hm).
  destruct (change_evolves _ _ _ _ Hc Hg) as (g' & Hg' & Heg).
  destruct (change_evolves _ _ _ _ Hc Hh) as (h' & Hh' & Heh). exists g', h'.
  assert (Hgh : dg_GrantorPrincipalID h' = dg_GrantorPrincipalID h).
  { eapply evolves_grantor; [done| |done]. by destruct (Hok _ _ Hh) as (_ & ? & _). }
  destruct Heg as (Hrg & _ & Hv), Heh as (Hrh & _ & _).
  assert (Hv' : dg_Status g' = dg_Status g /\ dg_GrantorPrincipalID g' = dg_GrantorPrincipalID g).
  { destruct Hv as [Hv|[[? _]|(? & _)]]; [by apply verdict_status|congruence|congruence]. }
  destruct Hv' as [Hst' Hgr']. rewrite (matches_same _ _ h) by done.
  unfold same_request in Hrg, Hrh. destruct_and! Hrg. destruct_and! Hrh.
  split_and!; congruence.
Qed.

Lemma uses_change p d d' : change d d' -> uses p d <= uses p d'.
Proof.
  intros Hc. unfold uses. destruct (d !! p) as [g|] eqn:Hg; simpl.
  - destruct (change_evolves _ _ _ _ Hc Hg) as (g' & -> & _ & ? & _). done.
  - destruct Hc as [->|g Hn _ Hz _ _ ->|id g g' Hid He _ ->].
    + by rewrite Hg.
    + rewrite lookup_insert. case_decide; simpl; [done|by rewrite Hg].
    + rewrite lookup_insert_ne, Hg by congruence. done.
Qed.

Definition covered (s : @system Json) : Prop :=
  rows_ok (grants (sy_db s)) /\
  (forall p, approved_by p (sy_auto s) + counted p (sy_flights s) <= uses p (grants (sy_db s))) /\
  (forall f, f ∈ sy_flights s -> flight_ok (grants (sy_db s)) f) /\
  (forall id p, (id, p) ∈ sy_auto s -> auto_ok (grants (sy_db s)) id p).

Lemma match_pattern_spec w r (d : @Db Json) p :
  rows_ok (grants d) ->
  MatchPattern w (rd_OrgID r) (rd_ActorPrincipalID r) (rd_Action r) (rd_Resource r) d = Some p ->
  serves r p /\ grants d !! dg_ID p = Some p /\ dg_Kind p = GrantKindPattern.
Proof.
  intros [Hok _]. unfold MatchPattern. intros ([i g] & Hf & ->)%fmap_Some. simpl.
  apply list_find_Some in Hf as (Hi & Hm & _).
  apply list_elem_of_lookup_2, elem_of_take in Hi as (j & Hi & _).
  apply list_elem_of_lookup_2 in Hi. rewrite merge_sort_Permutation in Hi.
  apply list_elem_of_filter in Hi as [(Ho & Ha & Hk & _) Hi].
  apply list_elem_of_fmap in Hi as ([k g'] & -> & Hin%elem_of_map_to_list). simpl in *.
  destruct (Hok _ _ Hin) as [-> _]. done.
Qed.

Lemma run_ok_or_rollback {A} (m : tx (@Db Json) DelegationError A) d :
  (exists a d', run_tx m d = (Ok a, d') /\ m d = Ok (a, d')) \/ (exists e, run_tx m d = (Err e, d)).
Proof. unfold run_tx. destruct (m d) as [[a d']|e]; [left; eauto|right; eauto]. Qed.

(** An approval without a human: the row is new, or it was there. *)
Lemma insert_auto_spec w r hash x p d id d' :
  insert_auto_approved json_string marshals w r hash x p d = Ok (id, d') ->
  (is_Some (grants d !! id) /\ grants d' = grants d) \/
  (grants d !! id = None /\ exists g, grants d' = <[id := g]> (grants d) /\
     dg_Kind g = GrantKindOneShot /\ dg_Status g = GrantStatusApproved /\
     dg_GrantorPrincipalID g = dg_GrantorPrincipalID p /\ dg_OrgID g = rd_OrgID r /\
     dg_ActorPrincipalID g = rd_ActorPrincipalID r /\ dg_Action g = rd_Action r /\
     dg_Resource g = rd_Resource r).
Proof.
  unfold insert_auto_approved. intros H. tx_inv.
  match goal with He : emitTx _ _ _ _ _ _ _ = _ |- _ => apply emitTx_grants in He as -> end.
  unfold InsertAutoApproved in *. destruct (negb _); [done|]. case_decide; [done|].
  match goal with Hi : insert_grant _ _ _ = _ |- _ => apply (insert_grant_spec _ _ hash) in Hi; [|done] end.
  match goal with Hi : _ /\ _ |- _ => destruct Hi as [_ [[-> (h & Hh & _)]|(-> & Hn & _ & ->)]] end.
  - left. by split; [eexists|].
  - right. split; [done|]. eexists. by split_and!.
Qed.

Lemma covered_step s s' : Step s s' -> covered s -> covered s'.
Proof.
  intros Hs (Hok & Hb & Hf & Ha).
  pose proof (step_change _ _ _ _ _ Hs Hok) as Hc. pose proof (change_ok _ _ Hc Hok) as Hok'.
  assert (Hf' : forall f, f ∈ sy_flights s -> flight_ok (grants (sy_db s')) f)
    by (intros f Hin; eapply flight_change; eauto).
  assert (Ha' : forall id p, (id, p) ∈ sy_auto s -> auto_ok (grants (sy_db s')) id p)
    by (intros id p Hin; eapply auto_change; eauto).
  assert (Hb' : forall p, approved_by p (sy_auto s) + counted p (sy_flights s) <= uses p (grants (sy_db s')))
    by (intros p; specialize (Hb p); pose proof (uses_change p _ _ Hc); lia).
  split; [done|].
  destruct Hs as [w r d fs au Hv|w r hash x p d fs1 fs2 au|w r hash x p d fs1 fs2 au
    |w r hash x d fs1 fs2 au| | | | |f d fs1 fs2 au]; cbn [sy_db sy_flights sy_auto] in *.
  - split_and!; [|intros f [->|Hin]%elem_of_cons; [|by apply Hf']|done].
    + intros p. rewrite counted_cons. unfold start. destruct (MatchPattern _ _ _ _ _ _); apply Hb.
    + unfold start. destruct (MatchPattern _ _ _ _ _ _) as [p|] eqn:Hm; simpl; [|done].
      apply match_pattern_spec in Hm as (Hsv & Hp & Hk); [|done]. split; [done|].
      exists p. split; [done|]. split_and!; [done|reflexivity|done].
  - destruct (run_ok_or_rollback (IncrementPatternUse (dg_ID p) (rd_OrgID r)) d)
      as [(g & d' & Hrun & Hi)|[e Hrun]]; rewrite Hrun in *; cbn [sy_db sy_flights sy_auto is_ok] in *.
    + assert (Hfp : flight_ok (grants d') (Matched r hash x p)) by (apply Hf'; set_solver).
      split_and!; [|set_solver|done]. intros q. specialize (Hb q).
      apply increment_spec in Hi as (h & Hh & _ & _ & _ & -> & _).
      rewrite counted_mid in *. unfold uses in *. simpl counts_for in *.
      rewrite lookup_insert. case_decide as Hq.
      * subst q. rewrite bool_decide_true by done. rewrite Hh in Hb. simpl in *. lia.
      * rewrite bool_decide_false by done. simpl in *. lia.
    + split_and!; [|set_solver|done]. intros q. specialize (Hb q).
      rewrite counted_mid in *. simpl in *. lia.
  - assert (Hfp : flight_ok (grants d) (Counted r hash x p)) by (apply Hf; set_solver).
    destruct (run_ok_or_rollback (insert_auto_approved json_string marshals w r hash x p) d)
      as [(id & d' & Hrun & Hi)|[e Hrun]]; rewrite Hrun in *; cbn [sy_db sy_flights sy_auto] in *.
    2: { split_and!; [|set_solver|done]. intros q. specialize (Hb q). rewrite counted_mid in Hb.
         destruct (counts_for _ _); lia. }
    apply insert_auto_spec in Hi as [[Hid Hd]|(Hid & g & Hd & Hkg & Hst & Hgr & Ho & Hac & Han & Hre)].
    + rewrite decide_True by done. split_and!; [|set_solver|done].
      intros q. specialize (Hb' q). rewrite counted_mid in Hb'. destruct (counts_for _ _); lia.
    + rewrite decide_False by (rewrite Hid; by intros [? ?]). split_and!; [|set_solver|].
      * intros q. specialize (Hb' q). rewrite counted_mid in Hb'. rewrite approved_by_cons.
        simpl counts_for in Hb'. case_bool_decide; case_decide; congruence || lia.
      * intros id' p' [[= -> ->]|Hin]%elem_of_cons; [|by apply Ha'].
        destruct Hfp as [(Hpo & Hpa & Hpm) (h & Hh & Hkp & Hr & Hgh)]. exists g, h.
        rewrite Hd, lookup_insert_eq, lookup_insert_ne by congruence.
        rewrite (matches_same _ _ p) by done. rewrite Han, Hre.
        destruct_and! Hr. split_and!; congruence.
  - split_and!; [|set_solver|done]. intros q. specialize (Hb' q). rewrite counted_mid in Hb'. done.
  - by split_and!.
  - by split_and!.
  - by split_and!.
  - by split_and!.
  - split_and!; [|set_solver|done]. intros q. specialize (Hb' q). rewrite counted_mid in Hb'.
    destruct (counts_for q f); lia.
Qed.

Lemma covered_init : covered init.
Proof.
  split; [apply init_rows|]. split_and!; simpl.
  - intros p. unfold uses. by rewrite lookup_empty.
  - intros f Hin. by apply elem_of_nil in Hin.
  - intros id p Hin. by apply elem_of_nil in Hin.
Qed.

Lemma covered_steps s s' : rtc Step s s' -> covered s -> covered s'.
Proof. induction 1; eauto using covered_step. Qed.

(** A pattern approves what it was made for, and no more than it may: in every
    reachable database the requests approved by a pattern without a human are at
    most the uses counted on it, which never exceed its maximum, however the
    requests of many servers interleave and whichever of them die on the way; and
    each of these rows has the pattern's organization, actor and grantor, and an
    action and a resource that match it. *)
Theorem patterns_bound_approvals s p g :
  rtc Step init s -> grants (sy_db s) !! p = Some g -> dg_Kind g = GrantKindPattern ->
  approved_by p (sy_auto s) <= dg_UseCount g /\
  (forall m, dg_MaxUses g = Some m -> dg_UseCount g <= m) /\
  (forall id, (id, p) ∈ sy_auto s -> auto_ok (grants (sy_db s)) id p).
Proof.
  intros Hs Hg Hk. destruct (covered_steps _ _ Hs covered_init) as ([Hok _] & Hb & _ & Ha).
  destruct (Hok _ _ Hg) as (_ & _ & _ & Hm). split_and!.
  - specialize (Hb p). unfold uses in Hb. rewrite Hg in Hb. simpl in Hb. unfold counted in Hb. lia.
  - intros m Hmax. specialize (Hm Hk). by rewrite Hmax in Hm.
  - intros id. apply Ha.
Qed.

(** ** One request, one row *)
Abbreviation Request := (RequestDelegation json_string marshals sha256_hex) (only parsing).

(** A request is a sequence of steps of the system. *)
Lemma request_steps w r (d : @Db Json) fs au : exists au',
  rtc Step {| sy_db := d; sy_flights := fs; sy_auto := au |}
           {| sy_db := snd (Request w r d); sy_flights := fs; sy_auto := au' |}.
Proof.
  unfold RequestDelegation. destruct (Validate r) as [[]|e] eqn:Hv; [|by exists au].
  pose proof (step_request json_string marshals sha256_hex w r d fs au Hv) as H1. unfold start in H1.
  destruct (MatchPattern _ _ _ _ _ d) as [p|].
  - pose proof (step_count json_string marshals sha256_hex w r (request_hash sha256_hex r)
      (time_add (now w) (rd_Timeout r)) p d [] fs au) as H2.
    destruct (run_ok_or_rollback (IncrementPatternUse (dg_ID p) (rd_OrgID r)) d)
      as [(g & d' & Hrun & _)|[e Hrun]]; rewrite Hrun in *; simpl in H2 |- *.
    + pose proof (step_auto json_string marshals sha256_hex w r (request_hash sha256_hex r)
        (time_add (now w) (rd_Timeout r)) p d' [] fs au) as H3. simpl in H3.
      destruct (run_tx (insert_auto_approved _ _ _ _ _ _ _) d') as [res d2]. eexists.
      eapply rtc_l; [exact H1|]. eapply rtc_l; [exact H2|]. eapply rtc_once. exact H3.
    + exists au. eapply rtc_l; [exact H1|]. eapply rtc_l; [exact H2|]. eapply rtc_once.
      apply (step_by_hand json_string marshals sha256_hex w r _ _ d [] fs).
  - exists au. eapply rtc_l; [exact H1|]. eapply rtc_once.
    apply (step_by_hand json_string marshals sha256_hex w r _ _ d [] fs).
Qed.

(** The row of a request: it was there, or it is new because no row had its hash. *)
Definition placed (org hash : string) (d : @Db Json) (id : string) (d' : @Db Json) : Prop :=
  (grants d' = grants d /\
     exists h, grants d !! id = Some h /\ dg_OrgID h = org /\ dg_RequestHash h = Some hash) \/
  (with_hash org hash d = [] /\
     exists g, grants d' = <[id := g]> (grants d) /\ dg_OrgID g = org /\ dg_RequestHash g = Some hash).

Lemma insert_placed w r hash x st gr t ctx d id d' :
  insert_grant w (one_shot w r hash x st gr t ctx) d = Ok (id, d') ->
  placed (rd_OrgID r) hash d id d'.
Proof.
  intros H. apply (insert_grant_spec _ _ hash) in H as [_ [[Hd Hh]|(-> & _ & Hw & Hd)]]; [by left| |done].
  right. split; [done|]. eexists. split; [exact Hd|done].
Qed.

Lemma emitted_placed w a t e i o org hash (d d1 d2 : @Db Json) id u :
  placed org hash d id d1 -> emitTx w a t e i o d1 = Ok (u, d2) -> placed org hash d id d2.
Proof. intros Hp He%emitTx_grants. unfold placed in *. by rewrite He. Qed.

(** A counted use, or nothing. *)
Definition only_used (d d' : gmap string Grant) : Prop :=
  d' = d \/ exists p g, d !! p = Some g /\ dg_Kind g = GrantKindPattern /\ d' = <[p := used_row g]> d.

Lemma request_spec w r d id d' :
  Request w r d = (Ok id, d') ->
  exists d1, only_used (grants d) (grants d1) /\ placed (rd_OrgID r) (request_hash sha256_hex r) d1 id d'.
Proof.
  unfold RequestDelegation. destruct (Validate r) as [[]|e]; [|done].
  assert (Hhand : forall d1 d2, run_tx (insert_requested marshals w r (request_hash sha256_hex r)
      (time_add (now w) (rd_Timeout r))) d1 = (Ok id, d2) ->
    placed (rd_OrgID r) (request_hash sha256_hex r) d1 id d2).
  { intros d1 d2 H%run_tx_commit. unfold insert_requested in H. tx_inv.
    eapply emitted_placed; [|done]. unfold Insert in *. destruct (_ && _); [done|].
    by eapply insert_placed. }
  destruct (MatchPattern _ _ _ _ _ d) as [p|].
  - destruct (run_ok_or_rollback (IncrementPatternUse (dg_ID p) (rd_OrgID r)) d)
      as [(g & d1 & -> & Hi)|[e ->]]; intros H.
    + exists d1. split.
      { apply increment_spec in Hi as (h & Hh & _ & Hk & _ & -> & _). right. by exists (dg_ID p), h. }
      apply run_tx_commit in H. unfold insert_auto_approved in H. tx_inv.
      eapply emitted_placed; [|done]. unfold InsertAutoApproved in *. destruct (negb _); [done|].
      case_decide; [done|]. by eapply insert_placed.
    + exists d. split; [by left|]. by apply Hhand.
  - intros H. exists d. split; [by left|]. by apply Hhand.
Qed.

Lemma only_used_rows d d' k g :
  only_used d d' -> dg_Kind g = GrantKindOneShot -> d' !! k = Some g <-> d !! k = Some g.
Proof.
  intros [->|(p & h & Hp & Hk & ->)] Hg; [done|]. rewrite lookup_insert. case_decide as Heq; [|done].
  subst k. split; [intros [= <-]; simpl in *; congruence|]. intros ?. congruence.
Qed.

Lemma only_used_forth d d' k g : only_used d d' -> d !! k = Some g ->
  exists g', d' !! k = Some g' /\ dg_OrgID g' = dg_OrgID g /\ dg_RequestHash g' = dg_RequestHash g.
Proof.
  intros [->|(p & h & Hp & _ & ->)] Hg; [by exists g|].
  rewrite lookup_insert. case_decide; [subst p; exists (used_row h)|by exists g]. by simplify_eq.
Qed.
Lemma only_used_back d d' k g : only_used d d' -> d' !! k = Some g ->
  exists g', d !! k = Some g' /\ dg_OrgID g' = dg_OrgID g /\ dg_RequestHash g' = dg_RequestHash g.
Proof.
  intros [->|(p & h & Hp & _ & ->)] Hg; [by exists g|].
  rewrite lookup_insert in Hg. case_decide; [subst p; exists h|by exists g]. by simplify_eq.
Qed.

(** A request is one row: once it is accepted, an accepted repetition of it (the
    same organization and hash, whatever else it says) answers the same id and
    leaves every one-shot row as it is, whatever happened in between. *)
Theorem repeated_requests_are_one_row s w r id s' w' r' id' d' :
  rtc Step init s -> fst (Request w r (sy_db s)) = Ok id ->
  rtc Step {| sy_db := snd (Request w r (sy_db s)); sy_flights := sy_flights s; sy_auto := sy_auto s |} s' ->
  rd_OrgID r' = rd_OrgID r -> request_hash sha256_hex r' = request_hash sha256_hex r ->
  Request w' r' (sy_db s') = (Ok id', d') ->
  id' = id /\
  forall k g, dg_Kind g = GrantKindOneShot ->
    grants d' !! k = Some g <-> grants (sy_db s') !! k = Some g.
Proof.
  intros H0 Hr Hs Horg Hhash Hr'. pose proof (steps_rows _ _ _ _ _ H0 init_rows) as Hok.
  destruct (Request w r (sy_db s)) as [res d1] eqn:Hq. simpl in Hr, Hs. subst res.
  assert (Hok1 : rows_ok (grants d1)).
  { destruct (request_steps w r (sy_db s) (sy_flights s) (sy_auto s)) as [au' Hst]. rewrite Hq in Hst.
    apply (steps_rows _ _ _ _ _ Hst). by destruct s. }
  assert (exists h, grants d1 !! id = Some h /\ dg_OrgID h = rd_OrgID r /\
    dg_RequestHash h = Some (request_hash sha256_hex r)) as (h & Hh & Ho & Hha).
  { apply request_spec in Hq as (d0 & _ & [[-> (h & ?)]|(_ & g & -> & ? & ?)]); [by exists h|].
    exists g. by rewrite lookup_insert_eq. }
  pose proof (steps_rows _ _ _ _ _ Hs Hok1) as Hok'. simpl in Hs.
  destruct (steps_evolve _ _ _ _ _ _ _ Hs Hok1 Hh) as (h' & Hh' & Hreq & _).
  unfold same_request in Hreq. destruct_and! Hreq.
  apply request_spec in Hr' as (d0 & Hu & Hp). rewrite Horg, Hhash in Hp.
  assert (Hin : forall k g, grants d0 !! k = Some g -> exists g', grants (sy_db s') !! k = Some g' /\
    dg_OrgID g' = dg_OrgID g /\ dg_RequestHash g' = dg_RequestHash g) by (intros; by eapply only_used_back).
  destruct Hp as [[Hd (h1 & Hh1 & Ho1 & Hha1)]|(Hw & _)].
  - split; [|intros k g; rewrite Hd; by apply only_used_rows].
    destruct (Hin _ _ Hh1) as (h2 & Hh2 & ? & ?).
    apply (proj2 Hok' id' id h2 h' (request_hash sha256_hex r)); [done|done|congruence..].
  - destruct (only_used_forth _ _ _ _ Hu Hh') as (h1 & Hh1 & ? & ?). exfalso.
    eapply with_hash_nil; [exact Hw|exact Hh1| |]; congruence.
Qed.

(** ** Tokens *)
Context (MintEd25519 Mint : string -> @MintInput -> option (string * string)).

(** A repetition of a request no pattern serves finds its row. *)
Lemma repetition_finds_row w r (d : @Db Json) g :
  rows_ok (grants d) -> Validate r = Ok tt ->
  grants d !! dg_ID g = Some g -> dg_OrgID g = rd_OrgID r ->
  dg_RequestHash g = Some (request_hash sha256_hex r) ->
  MatchPattern w (rd_OrgID r) (rd_ActorPrincipalID r) (rd_Action r) (rd_Resource r) d = None ->
  marshals (rd_Context r) = true -> (forall e, default (fun _ => false) (audit_refuses w) e = false) ->
  exists d', Request w r d = (Ok (dg_ID g), d') /\ grants d' = grants d.
Proof.
  intros [_ Huniq] Hv Hg Ho Hh Hm Hctx Haudit. unfold RequestDelegation. rewrite Hv, Hm.
  set (hash := request_hash sha256_hex r) in *.
  assert (Hins : insert_grant w (one_shot w r hash (time_add (now w) (rd_Timeout r))
      GrantStatusPending "" None (rd_Context r)) d = Ok (dg_ID g, d)).
  { unfold insert_grant. cbn [dg_RiskLevel one_shot dg_OrgID dg_RequestHash from_option]. change (id hash) with hash.
    assert (contains_string [RiskLevelLow; RiskLevelMedium; RiskLevelHigh; RiskLevelCritical]
      (or_low (rd_RiskLevel r)) = true) as ->.
    { unfold Validate in Hv. repeat (case_decide; [done|]). destruct (_ <=? 0); [done|].
      destruct (contains_string _ (rd_RiskLevel r)) eqn:Hrisk; [|done].
      apply contains_string_spec in Hrisk. apply contains_string_spec. unfold or_low.
      case_decide; set_solver. }
    destruct (with_hash (rd_OrgID r) hash d) as [|[k h] l] eqn:Hw.
    - exfalso. by eapply with_hash_nil.
    - apply with_hash_cons in Hw as (Hk & Hko & Hkh).
      assert (k = dg_ID g) as -> by (eapply (Huniq k (dg_ID g) h g hash); congruence). done. }
  unfold run_tx, insert_requested, Insert. rewrite Hctx, andb_false_r.
  unfold mbind, tx_bind, mret, tx_ret. rewrite Hins. unfold emitTx.
  destruct (audit_refuses w) as [refuses|]; simpl in *; [rewrite Haudit|]; eexists; split; done.
Qed.

(** An approval is not used up: whoever may send an approved request again, however
    long ago it was approved, whether its time to live is over and whether a token
    was minted for it before, gets a new token minted for the grant's actor, good
    for five minutes and one use, and the row names that token from then on. *)
Theorem approved_grants_mint_again w caller timeout req sv d g me actor token tokenID :
  ca_valid caller = true -> ca_auth caller = Some me -> ca_member caller = true ->
  rd_ActorPrincipalID req = me \/ ca_admin caller = true ->
  let r := with_timeout timeout req in
  rows_ok (grants d) -> Validate r = Ok tt ->
  grants d !! dg_ID g = Some g -> dg_ID g <> "" -> dg_OrgID g = rd_OrgID r ->
  dg_RequestHash g = Some (request_hash sha256_hex r) ->
  dg_Status g = GrantStatusApproved -> dg_Kind g = GrantKindOneShot ->
  MatchPattern w (rd_OrgID r) (rd_ActorPrincipalID r) (rd_Action r) (rd_Resource r) d = None ->
  marshals (rd_Context r) = true -> (forall e, default (fun _ => false) (audit_refuses w) e = false) ->
  GetPrincipal w (dg_ActorPrincipalID g) = Some actor -> IsDisabled actor = false ->
  mintApprovedToken MintEd25519 Mint w sv actor g = Some (token, tokenID) -> tokenID <> "" ->
  exists d',
    Server_RequestDelegation json_string marshals sha256_hex MintEd25519 Mint w caller timeout req sv d =
      (Ok {| rs_Id := dg_ID g; rs_Status := GrantStatusApproved; rs_ExpiresAt := dg_ExpiresAt g |},
       cacheMintedToken (now w) (dg_ID g) token tokenID sv, d') /\
    grants d' !! dg_ID g = Some (minted_row tokenID g).
Proof.
  intros Hval Hauth Hmem Hmay r Hok Hv Hg Hid Ho Hh Hst Hk Hm Hctx Haudit Hp Hdis Hmint Htok.
  destruct (repetition_finds_row w r d g Hok Hv Hg Ho Hh Hm Hctx Haudit) as (d1 & Hr & Hd1).
  unfold Server_RequestDelegation. rewrite Hval, Hauth, Hmem. simpl negb. cbv iota.
  replace (bool_decide (rd_ActorPrincipalID req <> me) && negb (ca_admin caller)) with false.
  2: { destruct Hmay as [-> | ->]; [by rewrite bool_decide_false by tauto|by rewrite andb_false_r]. }
  fold r. rewrite Hr. unfold GetDelegation. rewrite decide_False by done.
  assert (Hfind : find_grant (dg_ID g) (rd_OrgID req) d1 = Some g)
    by (apply find_grant_spec; rewrite Hd1; done).
  unfold run_tx, GetDelegationGrant. rewrite Hfind. cbv beta iota delta [fst]. rewrite decide_True by done.
  unfold mint_for. rewrite Hp, Hdis, Hmint. unfold SetMintedToken. rewrite decide_False by done.
  unfold run_tx, SetMintedToken_store. rewrite Ho. change (rd_OrgID r) with (rd_OrgID req).
  rewrite Hfind, Hst. simpl. eexists. split; [done|]. simpl. by rewrite lookup_insert_eq.
Qed.
End Engine.

(** ** The theorems at work

    One organization with an agent and an admin, one request and one pattern. *)
Module DelegationRun.
Definition marshals (_ : gmap string string) : bool := true.
Definition js (s : string) : string := s.
Definition sha (s : string) : string := "sha:" +:+ s.
Definition mint (token : string) (_ : MintInput) : option (string * string) :=
  Some ("encoded-" +:+ token, token).
Definition agent : Principal :=
  {| pr_ID := "agent"; pr_AgentIdentifier := "acme/bot:1"; pr_AllowedScopes := [];
     pr_DisabledAt := None; pr_RevokedAt := None |}.
Definition at_time (t : instant) (id : string) : World :=
  {| now := t; tx_now := t; new_id := id; new_token := "t-" +:+ id;
     principals := {[ "agent" := agent; "admin" := agent ]}; audit_refuses := None |}.
Definition merge_pr : @RequestDelegationInput string :=
  {| rd_OrgID := "org"; rd_ActorPrincipalID := "agent"; rd_Action := "repo.merge";
     rd_Resource := "repo:core"; rd_ResourceID := "7"; rd_Justification := "release";
     rd_Context := ∅; rd_RiskLevel := ""; rd_Timeout := 5 * minute; rd_Grantor := "";
     rd_RequestHash := "" |}.
Definition db0 : @Db string := {| grants := ∅; spine := [] |}.
Definition d1 : @Db string := snd (RequestDelegation js marshals sha (at_time 0 "g1") merge_pr db0).
Definition d2 : @Db string :=
  snd (DecideDelegation (at_time second "x") "g1" "org" "admin" GrantStatusApproved "" d1).
Definition pending_row : @DelegationGrant string := default (one_shot (at_time 0 "") merge_pr "" 0
  GrantStatusPending "" None ∅) (grants d1 !! "g1").
Definition approved_row : @DelegationGrant string :=
  decided_row GrantStatusApproved "" "admin" second pending_row.
Definition sys (d : @Db string) : @system string := {| sy_db := d; sy_flights := []; sy_auto := [] |}.

Lemma requested : rtc (step js marshals sha) init (sys d1).
Proof.
  eapply rtc_l; [by apply (step_request _ _ _ (at_time 0 "g1") merge_pr)|].
  apply rtc_once. apply (step_by_hand _ _ _ (at_time 0 "g1") merge_pr _ _ _ []).
Qed.
Lemma approved : rtc (step js marshals sha) init (sys d2).
Proof.
  etrans; [apply requested|]. apply rtc_once. apply step_decide.
Qed.
Lemma d2_rows : grants d2 = {[ "g1" := approved_row ]}.
Proof. reflexivity. Qed.
Lemma d2_ok : rows_ok (grants d2).
Proof. apply (steps_rows js marshals sha _ _ approved), init_rows. Qed.

Lemma decided_once_witness :
  exists g', grants d2 !! "g1" = Some g' /\ same_request approved_row g' /\
    (dg_Kind approved_row = GrantKindOneShot -> dg_Status approved_row <> GrantStatusPending ->
     verdict g' = verdict approved_row /\
     is_ok (fst (DecideDelegation (at_time minute "x") "g1" "org" "admin" GrantStatusDenied "no" d2))
       = false /\
     snd (DecideDelegation (at_time minute "x") "g1" "org" "admin" GrantStatusDenied "no" d2) = d2).
Proof.
  apply (decided_once js marshals sha (sys d2) (sys d2) "g1" approved_row (at_time minute "x")
    "org" "admin" GrantStatusDenied "no"); [apply approved|done|reflexivity].
Defined.

Definition any_merge : @DelegationGrant string :=
  {| dg_ID := "p1"; dg_OrgID := "org"; dg_ActorPrincipalID := "agent";
     dg_GrantorPrincipalID := "admin"; dg_Action := ""; dg_Resource := ""; dg_ResourceID := "";
     dg_Justification := "trusted"; dg_RequestContext := ∅; dg_RiskLevel := "low";
     dg_Kind := GrantKindPattern; dg_Status := GrantStatusActive; dg_CreatedAt := 0;
     dg_DecidedAt := None; dg_DecisionReason := ""; dg_ExpiresAt := hour;
     dg_ActionPattern := "repo.*"; dg_ResourcePattern := "*"; dg_MaxUses := Some 1;
     dg_UseCount := 0; dg_MintedTokenID := ""; dg_RequestHash := None |}.
Definition dp : @Db string := {| grants := {[ "p1" := any_merge ]}; spine := [] |}.
Definition dpa : @Db string := snd (RequestDelegation js marshals sha (at_time 0 "g1") merge_pr dp).
Definition served : @system string := {| sy_db := dpa; sy_flights := []; sy_auto := [("g1", "p1")] |}.

Lemma served_run : rtc (step js marshals sha) init served.
Proof.
  eapply rtc_l; [by apply (step_pattern js marshals sha any_merge db0 [] [])|].
  eapply rtc_l; [by apply (step_request _ _ _ (at_time 0 "g1") merge_pr)|].
  set (hash := request_hash sha merge_pr). set (x := time_add 0 (5 * minute)).
  eapply rtc_l; [exact (step_count _ _ _ (at_time 0 "g1") merge_pr hash x any_merge dp [] [] [])|].
  apply rtc_once.
  exact (step_auto js marshals sha (at_time 0 "g1") merge_pr hash x any_merge
    (snd (run_tx (IncrementPatternUse "p1" "org") dp)) [] [] []).
Qed.

Lemma patterns_bound_approvals_witness :
  approved_by "p1" (sy_auto served) <= 1 /\ auto_ok (grants dpa) "g1" "p1".
Proof.
  destruct (patterns_bound_approvals js marshals sha served "p1" (used_row any_merge))
    as (H1 & _ & H2); [apply served_run|reflexivity|reflexivity|].
  split; [exact H1|apply (H2 "g1"); by left].
Defined.

Lemma repeated_requests_are_one_row_witness :
  fst (RequestDelegation js marshals sha (at_time hour "g2") merge_pr d2) = Ok "g1".
Proof.
  destruct (RequestDelegation js marshals sha (at_time hour "g2") merge_pr d2) as [[id'|e] d'] eqn:Hr;
    [|by vm_compute in Hr].
  destruct (repeated_requests_are_one_row js marshals sha init (at_time 0 "g1") merge_pr "g1" (sys d2)
    (at_time hour "g2") merge_pr id' d') as [-> _]; [reflexivity|reflexivity| |reflexivity..|exact Hr|reflexivity].
  apply rtc_once. apply (step_decide _ _ _ (at_time second "x")).
Defined.

Definition server : DelegationServer :=
  {| SigningSecret := 32; SigningEd25519Key := 0; mintCache := ∅ |}.
Definition bot : Caller :=
  {| ca_valid := true; ca_auth := Some "agent"; ca_member := true; ca_admin := false |}.

(** An hour after an approval that was good for five minutes. *)
Lemma approved_grants_mint_again_witness :
  exists d',
    Server_RequestDelegation js marshals sha mint mint (at_time hour "g2") bot 300 merge_pr server d2 =
      (Ok {| rs_Id := "g1"; rs_Status := GrantStatusApproved; rs_ExpiresAt := 5 * minute |},
       cacheMintedToken hour "g1" "encoded-t-g2" "t-g2" server, d') /\
    grants d' !! "g1" = Some (minted_row "t-g2" approved_row).
Proof.
  apply (approved_grants_mint_again js marshals sha mint mint (at_time hour "g2") bot 300 merge_pr
    server d2 approved_row "agent" agent); try reflexivity; try done; [by left|apply d2_ok].
Defined.
End DelegationRun.
