(* ===== verification/GoText.v ===== *)
(** The text forms of Go's standard library the event envelopes travel in: unsigned
    decimals (strconv.FormatUint and ParseUint), the RFC 3339 form of an instant
    (time.Format and time.Parse with the RFC3339Nano layout) and the standard base64
    alphabet (encoding/base64), each with its reader shown to invert its printer. *)
From Stdlib Require Import Ascii.
From S2P Require Import Prelude.

Local Open Scope Z_scope.

Abbreviation chars := (list Ascii.ascii) (only parsing).
Definition text (l : chars) : string := String.string_of_list_ascii l.
Definition untext (s : string) : chars := String.list_ascii_of_string s.

Lemma untext_text l : untext (text l) = l.
Proof. apply String.list_ascii_of_string_of_list_ascii. Qed.
Lemma text_untext s : text (untext s) = s.
Proof. apply String.string_of_list_ascii_of_string. Qed.

(** ** Slices of strings *)
#[local] Arguments String.append !_ _ / : simpl nomatch.

Lemma length_append (a b : string) : String.length (a ++ b) = (String.length a + String.length b)%nat.
Proof.
  induction a as [|c a IH]; cbn; [done|].
  by rewrite IH.
Qed.

Lemma append_nil_r (a : string) : (a ++ "")%string = a.
Proof. induction a as [|c a IH]; cbn; [done|]. by rewrite IH. Qed.

Lemma append_assoc (a b c : string) : (a ++ b ++ c)%string = ((a ++ b) ++ c)%string.
Proof. induction a as [|x a IH]; cbn; [done|]. by rewrite IH. Qed.

Lemma substring_all (s : string) : String.substring 0 (String.length s) s = s.
Proof. induction s as [|c s IH]; cbn; [done|]. by rewrite IH. Qed.

Lemma substring_prefix (a b : string) : String.substring 0 (String.length a) (a ++ b) = a.
Proof. induction a as [|c a IH]; cbn; [by destruct b|]. by rewrite IH. Qed.

Lemma substring_suffix (a b : string) :
  String.substring (String.length a) (String.length b) (a ++ b) = b.
Proof. induction a as [|c a IH]; cbn; [apply substring_all|done]. Qed.

Lemma substring_split n (s : string) :
  (n <= String.length s)%nat ->
  s = (String.substring 0 n s ++ String.substring n (String.length s - n) s)%string.
Proof.
  revert n. induction s as [|c s IH]; intros [|n] Hn; cbn in *; [done|lia| |].
  - by rewrite substring_all.
  - rewrite <- IH by lia. done.
Qed.

Lemma substring_length n (s : string) :
  (n <= String.length s)%nat -> String.length (String.substring 0 n s) = n.
Proof.
  revert n. induction s as [|c s IH]; intros [|n] Hn; cbn in *; try lia; try done.
  by rewrite IH by lia.
Qed.

Lemma get_split n (s : string) c :
  String.get n s = Some c ->
  s = (String.substring 0 n s ++ String c (String.substring (S n) (String.length s - S n) s))%string.
Proof.
  revert n. induction s as [|x s IH]; intros [|n] Hn; cbn in *; try done.
  - injection Hn as ->. by rewrite Nat.sub_0_r, substring_all.
  - f_equal. by apply IH.
Qed.

Lemma get_append (a b : string) c : String.get (String.length a) (a ++ String c b) = Some c.
Proof. induction a as [|x a IH]; cbn; [done|]. done. Qed.

Lemma append_inj_l (a b c : string) : (a ++ b)%string = (a ++ c)%string -> b = c.
Proof. induction a as [|x a IH]; cbn; [done|]. intros [= H]. by apply IH. Qed.

(** [strings.Cut]: nothing of the separator is left in what comes before it. *)
Lemma before_byte_app c (a b : string) :
  before_byte c (a ++ String c b) = before_byte c a.
Proof.
  induction a as [|x a IH]; cbn; [by rewrite Ascii.eqb_refl|].
  case_match; [done|]. by rewrite IH.
Qed.

(** ** Decimals *)
Definition digit (n : Z) : Ascii.ascii := Ascii.ascii_of_N (Z.to_N (48 + n)).
Definition digit_value (c : Ascii.ascii) : option Z :=
  let n := Z.of_N (Ascii.N_of_ascii c) - 48 in
  if (0 <=? n) && (n <=? 9) then Some n else None.
Definition is_digit (c : Ascii.ascii) : bool :=
  match digit_value c with Some _ => true | None => false end.

(** The last [w] digits of [n], most significant first. *)
Fixpoint fixed (w : nat) (n : Z) : chars :=
  match w with
  | O => []
  | S w => fixed w (n / 10) ++ [digit (n mod 10)]
  end.

Definition read_digit (acc : option Z) (c : Ascii.ascii) : option Z :=
  match acc, digit_value c with Some x, Some d => Some (10 * x + d) | _, _ => None end.
(** The value of a run of digits; [None] when a character is not a digit. *)
Definition read (l : chars) : option Z := foldl read_digit (Some 0) l.

Fixpoint ndigits (fuel : nat) (n : Z) : nat :=
  match fuel with
  | O => 1%nat
  | S fuel => if n <? 10 then 1%nat else S (ndigits fuel (n / 10))
  end.

(** Sixty-four bits have at most twenty digits. *)
Definition decimal (n : Z) : chars := fixed (ndigits 20 n) n.
Definition FormatUint (n : Z) : string := text (decimal n).

(** [strconv.ParseUint(s, 10, bits)] *)
Definition ParseUint (s : string) (bits : Z) : option Z :=
  match untext s with
  | [] => None
  | l => match read l with
         | Some n => if n <? 2 ^ bits then Some n else None
         | None => None
         end
  end.

#[global] Arguments FormatUint : simpl never.
#[global] Arguments ParseUint : simpl never.

(** A decidable fact about the integers below a bound, by trying them. *)
Lemma below (k : nat) (P : Z -> Prop) `{forall z, Decision (P z)} :
  Forall P (map Z.of_nat (seq 0 k)) -> forall z, 0 <= z < Z.of_nat k -> P z.
Proof.
  rewrite Forall_forall. intros Hall z Hz. apply Hall. apply list_elem_of_fmap.
  exists (Z.to_nat z). split; [lia|]. apply elem_of_seq. lia.
Qed.

Lemma digit_value_digit n : 0 <= n <= 9 -> digit_value (digit n) = Some n.
Proof.
  intros Hn. apply (below 10 (fun n => digit_value (digit n) = Some n)); [|lia].
  by apply (bool_decide_eq_true_1 _).
Qed.

Lemma is_digit_digit n : 0 <= n <= 9 -> is_digit (digit n) = true.
Proof. intros Hn. unfold is_digit. by rewrite digit_value_digit. Qed.

Lemma read_app l c : read (l ++ [c]) = read_digit (read l) c.
Proof. unfold read. by rewrite foldl_app. Qed.

Lemma fixed_length w n : length (fixed w n) = w.
Proof. revert n. induction w as [|w IH]; intros n; cbn; [done|]. rewrite length_app, IH. cbn. lia. Qed.

Lemma fixed_digits w n : Forall (fun c => is_digit c = true) (fixed w n).
Proof.
  revert n. induction w as [|w IH]; intros n; cbn; [constructor|].
  apply Forall_app. split; [done|]. constructor; [|constructor].
  apply is_digit_digit. pose proof (Z.mod_pos_bound n 10). lia.
Qed.

Lemma read_fixed w n : 0 <= n < 10 ^ Z.of_nat w -> read (fixed w n) = Some n.
Proof.
  revert n. induction w as [|w IH]; intros n Hn; cbn [fixed].
  - cbn in Hn. by replace n with 0 by lia.
  - rewrite read_app, IH.
    + unfold read_digit. rewrite digit_value_digit by (pose proof (Z.mod_pos_bound n 10); lia).
      f_equal. pose proof (Z.div_mod n 10). lia.
    + rewrite Nat2Z.inj_succ, Z.pow_succ_r in Hn by lia.
      split; [apply Z.div_pos; lia|]. apply Z.div_lt_upper_bound; lia.
Qed.

Lemma ndigits_enough fuel n : 0 <= n < 10 ^ Z.of_nat (S fuel) -> n < 10 ^ Z.of_nat (ndigits fuel n).
Proof.
  revert n. induction fuel as [|fuel IH]; intros n Hn; cbn [ndigits]; [lia|].
  destruct (n <? 10) eqn:E; bool_to_prop; [lia|].
  rewrite Nat2Z.inj_succ, Z.pow_succ_r by lia.
  assert (n / 10 < 10 ^ Z.of_nat (ndigits fuel (n / 10))).
  { apply IH. split; [apply Z.div_pos; lia|]. apply Z.div_lt_upper_bound; [lia|].
    rewrite Nat2Z.inj_succ, Z.pow_succ_r in Hn by lia. lia. }
  pose proof (Z.div_mod n 10). pose proof (Z.mod_pos_bound n 10). lia.
Qed.

Lemma ndigits_pos fuel n : (1 <= ndigits fuel n)%nat.
Proof. destruct fuel; cbn; [lia|]. case_match; lia. Qed.

Lemma read_decimal n : 0 <= n < 2 ^ 64 -> read (decimal n) = Some n.
Proof.
  intros Hn. apply read_fixed. split; [lia|]. apply ndigits_enough. split; [lia|].
  apply Z.lt_trans with (2 ^ 64); [apply Hn|done].
Qed.

Lemma decimal_nonempty n : decimal n <> [].
Proof.
  intros E. apply (f_equal length) in E. unfold decimal in E. rewrite fixed_length in E.
  pose proof (ndigits_pos 20 n). cbn [length] in E. lia.
Qed.

Lemma ParseUint_FormatUint n bits :
  0 <= n < 2 ^ bits -> bits <= 64 -> ParseUint (FormatUint n) bits = Some n.
Proof.
  intros Hn Hb. unfold ParseUint, FormatUint. rewrite untext_text.
  assert (Hr : read (decimal n) = Some n).
  { apply read_decimal. split; [lia|]. apply Z.lt_le_trans with (2 ^ bits); [lia|].
    apply Z.pow_le_mono_r; lia. }
  destruct (decimal n) as [|c l] eqn:E.
  - by apply decimal_nonempty in E.
  - rewrite Hr. destruct (n <? 2 ^ bits) eqn:E'; bool_to_prop; [done|lia].
Qed.

Lemma FormatUint_nonempty n : FormatUint n <> "".
Proof.
  unfold FormatUint. intros E. apply (f_equal untext) in E. rewrite untext_text in E.
  by apply decimal_nonempty in E.
Qed.

(** ** The calendar

    Days are counted from the Unix epoch in the proleptic Gregorian calendar. *)
Definition is_leap (y : Z) : bool :=
  (y mod 4 =? 0) && (negb (y mod 100 =? 0) || (y mod 400 =? 0)).

(** Days before month [m] of the year. *)
Definition days_before (leap : bool) (m : Z) : Z :=
  nth (Z.to_nat (m - 1)) [0; 31; 59; 90; 120; 151; 181; 212; 243; 273; 304; 334; 365] 0
  + (if leap && (2 <? m) then 1 else 0).
Definition days_in (m y : Z) : Z := days_before (is_leap y) (m + 1) - days_before (is_leap y) m.

(** Days from the epoch to the first of January of year [y]. *)
Definition year_start (y : Z) : Z :=
  let p := y - 1 in 365 * p + p / 4 - p / 100 + p / 400 - 719162.
Definition days_from_civil (y m d : Z) : Z := year_start y + days_before (is_leap y) m + (d - 1).

Definition month_of (leap : bool) (yday : Z) : Z :=
  Z.of_nat (length (filter (fun m => days_before leap m <= yday) [1; 2; 3; 4; 5; 6; 7; 8; 9; 10; 11; 12])).

(** Year and day of the year: whole 400, 100, 4 and 1 year cycles. *)
Definition year_day (days : Z) : Z * Z :=
  let d := days + 719162 in
  let n400 := d / 146097 in let d := d mod 146097 in
  let n100 := Z.min (d / 36524) 3 in let d := d - 36524 * n100 in
  let n4 := d / 1461 in let d := d mod 1461 in
  let n1 := Z.min (d / 365) 3 in
  (400 * n400 + 100 * n100 + 4 * n4 + n1 + 1, d - 365 * n1).
Definition civil_from_days (days : Z) : Z * Z * Z :=
  let '(y, yday) := year_day days in
  let m := month_of (is_leap y) yday in
  (y, m, yday - days_before (is_leap y) m + 1).

Lemma year_day_spec days y yday :
  year_day days = (y, yday) ->
  year_start y + yday = days /\ 0 <= yday <= 364 + (if is_leap y then 1 else 0).
Proof.
  unfold year_day, year_start, is_leap. intros [= <- <-].
  set (d := days + 719162).
  pose proof (Z.div_mod d 146097 ltac:(done)) as H0. pose proof (Z.mod_pos_bound d 146097 ltac:(done)) as B0.
  set (n400 := d / 146097) in *. set (r0 := d mod 146097) in *.
  pose proof (Z.div_mod r0 36524 ltac:(done)) as H1. pose proof (Z.mod_pos_bound r0 36524 ltac:(done)) as B1.
  set (q1 := r0 / 36524) in *. set (n100 := Z.min q1 3) in *.
  set (r1 := r0 - 36524 * n100) in *.
  pose proof (Z.div_mod r1 1461 ltac:(done)) as H2. pose proof (Z.mod_pos_bound r1 1461 ltac:(done)) as B2.
  set (n4 := r1 / 1461) in *. set (r2 := r1 mod 1461) in *.
  pose proof (Z.div_mod r2 365 ltac:(done)) as H3. pose proof (Z.mod_pos_bound r2 365 ltac:(done)) as B3.
  set (q3 := r2 / 365) in *. set (n1 := Z.min q3 3) in *.
  assert (Dn1 : n1 = Z.min q3 3) by done. assert (Dn100 : n100 = Z.min q1 3) by done.
  assert (Dr1 : r1 = r0 - 36524 * n100) by done.
  assert (Dd : d = days + 719162) by done.
  clearbody n1 n100 q3 q1 r2 r1 n4 r0 n400 d.
  assert (Hn100 : 0 <= n100 <= 3) by lia. assert (Hr1 : 0 <= r1 <= 36524) by lia.
  assert (Hr1' : n100 < 3 -> r1 < 36524) by lia.
  assert (Hn4 : 0 <= n4 <= 24) by lia. assert (Hn1 : 0 <= n1 <= 3) by lia.
  replace (400 * n400 + 100 * n100 + 4 * n4 + n1 + 1 - 1) with (400 * n400 + 100 * n100 + 4 * n4 + n1) by lia.
  assert (E4 : (400 * n400 + 100 * n100 + 4 * n4 + n1) / 4 = 100 * n400 + 25 * n100 + n4).
  { symmetry. apply Z.div_unique with n1; lia. }
  assert (E100 : (400 * n400 + 100 * n100 + 4 * n4 + n1) / 100 = 4 * n400 + n100).
  { symmetry. apply Z.div_unique with (4 * n4 + n1); lia. }
  assert (E400 : (400 * n400 + 100 * n100 + 4 * n4 + n1) / 400 = n400).
  { symmetry. apply Z.div_unique with (100 * n100 + 4 * n4 + n1); lia. }
  rewrite E4, E100, E400. split; [lia|]. split; [lia|].
  destruct (Z.le_gt_cases (r2 - 365 * n1) 364) as [?|Hbig]; [case_match; lia|].
  assert (Hc : n1 = 3 /\ r2 = 1460) by lia. destruct Hc as [-> Hr2].
  assert (M4 : (400 * n400 + 100 * n100 + 4 * n4 + 3 + 1) mod 4 = 0).
  { symmetry. apply Z.mod_unique with (100 * n400 + 25 * n100 + n4 + 1); lia. }
  rewrite M4. cbn [andb].
  assert (Hor : (400 * n400 + 100 * n100 + 4 * n4 + 3 + 1) mod 100 <> 0 \/
                (400 * n400 + 100 * n100 + 4 * n4 + 3 + 1) mod 400 = 0).
  { destruct (Z.eq_dec n4 24) as [->|Hc].
    - right. symmetry. apply Z.mod_unique with (n400 + 1); lia.
    - left. rewrite <- (Z.mod_unique _ 100 (4 * n400 + n100) (4 * n4 + 4)); lia. }
  destruct Hor as [Hm|Hm].
  - apply Z.eqb_neq in Hm. rewrite Hm. cbn. lia.
  - rewrite Hm. rewrite orb_true_r. cbn. lia.
Qed.

(** The two kinds of year, day by day. *)
Definition month_fits (leap : bool) (yday : Z) : bool :=
  let m := month_of leap yday in
  let d := yday - days_before leap m + 1 in
  (1 <=? m) && (m <=? 12) && (1 <=? d) && (d <=? days_before leap (m + 1) - days_before leap m).

Lemma month_fits_all (leap : bool) (yday : Z) :
  0 <= yday <= 364 + (if leap then 1 else 0) -> month_fits leap yday = true.
Proof.
  intros Hy. assert (Hall : forallb (fun n => month_fits leap (Z.of_nat n))
    (List.seq 0 (Z.to_nat (365 + (if leap then 1 else 0)))) = true) by (destruct leap; vm_compute; done).
  rewrite forallb_forall in Hall. specialize (Hall (Z.to_nat yday)).
  rewrite Z2Nat.id in Hall by lia. apply Hall. apply in_seq. lia.
Qed.

Lemma civil_from_days_spec days y m d :
  civil_from_days days = (y, m, d) ->
  days_from_civil y m d = days /\ 1 <= m <= 12 /\ 1 <= d <= days_in m y.
Proof.
  unfold civil_from_days. destruct (year_day days) as [y' yday] eqn:E. intros [= <- <- <-].
  apply year_day_spec in E as [Hd Hy]. apply month_fits_all in Hy as Hm.
  unfold month_fits in Hm. bool_to_prop. unfold days_from_civil, days_in. lia.
Qed.

Lemma days_in_31 m y : 1 <= m <= 12 -> days_in m y <= 31.
Proof.
  intros Hm. apply (below 13 (fun m => 1 <= m -> days_in m y <= 31)); [|lia|lia].
  unfold days_in. destruct (is_leap y); by apply (bool_decide_eq_true_1 _).
Qed.

Lemma year_start_mono y y' : y <= y' -> year_start y <= year_start y'.
Proof. unfold year_start. cbv zeta. intros H. Z.to_euclidean_division_equations. lia. Qed.

(** ** RFC 3339 *)
(** [appendInt]: zero-padded to the width. *)
Definition appendInt (x : Z) (width : nat) : chars :=
  (if x <? 0 then [Ascii.ascii_of_N 45] else [])
  ++ fixed (Nat.max width (ndigits 20 (Z.abs x))) (Z.abs x).

Fixpoint trim_zeros (l : chars) : chars :=
  match l with
  | [] => []
  | c :: l =>
      match trim_zeros l with
      | [] => if Ascii.eqb c "0"%char then [] else [c]
      | l => c :: l
      end
  end.

(** [appendNano] with the layout's [.999999999] *)
Definition appendNano (nano : Z) : chars :=
  match trim_zeros (fixed 9 nano) with [] => [] | l => Ascii.ascii_of_N 46 :: l end.

(** [t.UTC().Format(time.RFC3339Nano)] *)
Definition format_chars (t : instant) : chars :=
  let secs := t / second in
  let '(y, m, d) := civil_from_days (secs / 86400) in
  let s := secs mod 86400 in
  appendInt y 4 ++ "-"%char :: appendInt m 2 ++ "-"%char :: appendInt d 2 ++ "T"%char ::
  appendInt (s / 3600) 2 ++ ":"%char :: appendInt (s mod 3600 / 60) 2 ++ ":"%char ::
  appendInt (s mod 60) 2 ++ appendNano (t mod second) ++ ["Z"%char].
Definition FormatRFC3339Nano (t : instant) : string := text (format_chars t).

(** The parser's [parseUint]: digits, within a range. *)
Definition parse_field (l : chars) (lo hi : Z) : option Z :=
  match read l with
  | Some n => if (lo <=? n) && (n <=? hi) then Some n else None
  | None => None
  end.

Fixpoint span_digits (l : chars) : chars * chars :=
  match l with
  | c :: l' => if is_digit c then let '(ds, rest) := span_digits l' in (c :: ds, rest) else ([], l)
  | [] => ([], [])
  end.

(** [parseNanoseconds]: at most nine digits count. *)
Definition parse_nanos (ds : chars) : option Z :=
  let ds := take 9 ds in
  match read ds with
  | Some n => Some (n * 10 ^ (9 - Z.of_nat (length ds)))
  | None => None
  end.

Definition parse_fraction (l : chars) : option (Z * chars) :=
  match l with
  | dot :: l' =>
      if Ascii.eqb dot "."%char then
        match span_digits l' with
        | ([], _) => Some (0, l)
        | (ds, rest) => match parse_nanos ds with Some n => Some (n, rest) | None => None end
        end
      else Some (0, l)
  | [] => Some (0, [])
  end.

(** The offset of the zone, in seconds east. *)
Definition parse_zone (l : chars) : option Z :=
  match l with
  | [z] => if Ascii.eqb z "Z"%char then Some 0 else None
  | [sign; h1; h2; colon; m1; m2] =>
      match parse_field [h1; h2] 0 23, parse_field [m1; m2] 0 59 with
      | Some h, Some m =>
          if (Ascii.eqb sign "-"%char || Ascii.eqb sign "+"%char) && Ascii.eqb colon ":"%char
          then Some ((if Ascii.eqb sign "-"%char then -1 else 1) * ((h * 60 + m) * 60)) else None
      | _, _ => None
      end
  | _ => None
  end.

Definition parse_chars (l : chars) : option instant :=
  match l with
  | y1 :: y2 :: y3 :: y4 :: c1 :: m1 :: m2 :: c2 :: d1 :: d2 :: c3 :: h1 :: h2 :: c4
    :: i1 :: i2 :: c5 :: s1 :: s2 :: rest =>
      y ← parse_field [y1; y2; y3; y4] 0 9999;
      m ← parse_field [m1; m2] 1 12;
      d ← parse_field [d1; d2] 1 (days_in m y);
      h ← parse_field [h1; h2] 0 23;
      i ← parse_field [i1; i2] 0 59;
      s ← parse_field [s1; s2] 0 59;
      if Ascii.eqb c1 "-"%char && Ascii.eqb c2 "-"%char && Ascii.eqb c3 "T"%char && Ascii.eqb c4 ":"%char
         && Ascii.eqb c5 ":"%char then
        '(nano, rest) ← parse_fraction rest;
        offset ← parse_zone rest;
        Some ((days_from_civil y m d * 86400 + h * 3600 + i * 60 + s - offset) * second + nano)
      else None
  | _ => None
  end.

(** [time.Parse(time.RFC3339Nano, s)]: the strict reader first, then the layout
    interpreter, which accepts a little more. *)
Definition ParseRFC3339Nano (layout : string -> option instant) (s : string) : option instant :=
  match parse_chars (untext s) with Some t => Some t | None => layout s end.

#[global] Arguments FormatRFC3339Nano : simpl never.
#[global] Arguments ParseRFC3339Nano : simpl never.

(** The instants of years 0 to 9999. *)
Definition four_digit_year (t : instant) : Prop :=
  - 62167219200 * second <= t < 253402300800 * second.

Lemma div_step a k : 0 < k -> (a + 1) / k = a / k + (if (a + 1) mod k =? 0 then 1 else 0).
Proof.
  intros Hk. pose proof (Z.div_mod a k ltac:(lia)). pose proof (Z.mod_pos_bound a k Hk).
  destruct (Z.eq_dec (a mod k) (k - 1)) as [E|E].
  - rewrite <- (Z.mod_unique (a + 1) k (a / k + 1) 0) by lia. cbn.
    symmetry. apply Z.div_unique with 0; lia.
  - rewrite <- (Z.mod_unique (a + 1) k (a / k) (a mod k + 1)) by lia.
    destruct (Z.eqb_spec (a mod k + 1) 0); [lia|]. rewrite Z.add_0_r. symmetry.
    apply Z.div_unique with (a mod k + 1); lia.
Qed.

Lemma year_start_succ y : year_start (y + 1) = year_start y + 365 + (if is_leap y then 1 else 0).
Proof.
  unfold year_start, is_leap. cbv zeta. replace (y + 1 - 1) with (y - 1 + 1) by lia.
  rewrite !div_step by lia. replace (y - 1 + 1) with y by lia.
  destruct (Z.eqb_spec (y mod 4) 0), (Z.eqb_spec (y mod 100) 0), (Z.eqb_spec (y mod 400) 0);
    cbn; try lia; Z.to_euclidean_division_equations; lia.
Qed.

Lemma year_of_days days y yday :
  year_day days = (y, yday) -> -719528 <= days <= 2932896 -> 0 <= y <= 9999.
Proof.
  intros E Hr. apply year_day_spec in E as [Hs Hy]. pose proof (year_start_succ y) as Hn. split.
  - destruct (Z.le_gt_cases 0 y) as [|Hc]; [done|].
    pose proof (year_start_mono (y + 1) 0 ltac:(lia)) as Hm.
    assert (E0 : year_start 0 = -719528) by reflexivity. lia.
  - destruct (Z.le_gt_cases y 9999) as [|Hc]; [done|].
    pose proof (year_start_mono 10000 y ltac:(lia)) as Hm.
    assert (E0 : year_start 10000 = 2932897) by reflexivity. lia.
Qed.

Lemma ndigits_le fuel n w : 0 <= n < 10 ^ Z.of_nat w -> (1 <= w)%nat -> (ndigits fuel n <= w)%nat.
Proof.
  revert n w. induction fuel as [|fuel IH]; intros n w Hn Hw; cbn [ndigits]; [lia|].
  destruct (n <? 10) eqn:E; bool_to_prop; [lia|]. destruct w as [|[|w]]; [lia|cbn in Hn; lia|].
  apply le_n_S, IH; [|lia]. rewrite Nat2Z.inj_succ, Z.pow_succ_r in Hn by lia.
  split; [apply Z.div_pos; lia|]. apply Z.div_lt_upper_bound; lia.
Qed.

Lemma appendInt_fixed x w : 0 <= x < 10 ^ Z.of_nat w -> (1 <= w)%nat -> appendInt x w = fixed w x.
Proof.
  intros Hx Hw. unfold appendInt. destruct (Z.ltb_spec x 0); [lia|]. rewrite Z.abs_eq by lia.
  cbn [app]. f_equal. pose proof (ndigits_le 20 x w Hx Hw). lia.
Qed.

Lemma parse_field_fixed w x lo hi :
  0 <= x < 10 ^ Z.of_nat w -> lo <= x <= hi -> parse_field (fixed w x) lo hi = Some x.
Proof.
  intros Hx Hr. unfold parse_field. rewrite read_fixed by done.
  destruct (Z.leb_spec lo x), (Z.leb_spec x hi); try lia. done.
Qed.

Lemma list_of_length2 {A} (l : list A) : length l = 2%nat -> exists a b, l = [a; b].
Proof. destruct l as [|a [|b [|]]]; try done. eauto. Qed.
Lemma list_of_length4 {A} (l : list A) : length l = 4%nat -> exists a b c d, l = [a; b; c; d].
Proof. destruct l as [|a [|b [|c [|d [|]]]]]; try done. eauto 6. Qed.

Lemma trim_zeros_spec l :
  exists k, l = trim_zeros l ++ repeat (digit 0) k.
Proof.
  induction l as [|c l [k IH]]; [by exists 0%nat|]. cbn [trim_zeros].
  destruct (trim_zeros l) as [|c' l'] eqn:E.
  - destruct (Ascii.eqb_spec c "0"%char) as [->|].
    + exists (S k). cbn in IH |- *. by rewrite IH at 1.
    + exists k. cbn in IH |- *. by rewrite IH at 1.
  - exists k. by rewrite IH at 1.
Qed.

Lemma read_zeros l n k : read l = Some n -> read (l ++ repeat (digit 0) k) = Some (n * 10 ^ Z.of_nat k).
Proof.
  intros Hl. induction k as [|k IH].
  - cbn. rewrite app_nil_r, Hl. f_equal. lia.
  - cbn [repeat]. rewrite repeat_cons, app_assoc, read_app, IH. unfold read_digit.
    rewrite digit_value_digit by lia. f_equal. rewrite Nat2Z.inj_succ, Z.pow_succ_r by lia. lia.
Qed.

Lemma read_digits_some l : Forall (fun c => is_digit c = true) l -> is_Some (read l).
Proof.
  induction l as [|c l IH] using rev_ind; intros Hl; [by eexists|].
  apply Forall_app in Hl as [Hl Hc]. apply Forall_cons in Hc as [Hc _].
  rewrite read_app. destruct (IH Hl) as [n ->]. unfold is_digit in Hc. cbn.
  destruct (digit_value c); [by eexists|done].
Qed.

Lemma span_digits_app ds rest :
  Forall (fun c => is_digit c = true) ds ->
  match rest with [] => True | c :: _ => is_digit c = false end ->
  span_digits (ds ++ rest) = (ds, rest).
Proof.
  intros Hd Hr. induction Hd as [|c ds Hc Hd IH].
  - destruct rest as [|c rest]; [done|]. cbn. by rewrite Hr.
  - cbn. by rewrite Hc, IH.
Qed.

Lemma parse_appendNano n :
  0 <= n < second -> parse_fraction (appendNano n ++ ["Z"%char]) = Some (n, ["Z"%char]).
Proof.
  intros Hn. unfold appendNano. destruct (trim_zeros_spec (fixed 9 n)) as [k Hk].
  assert (Hread : read (fixed 9 n) = Some n) by (apply read_fixed; unfold second in Hn; lia).
  pose proof (fixed_length 9 n) as Hlen. pose proof (fixed_digits 9 n) as Hdig.
  rewrite Hk in Hdig, Hread, Hlen. rewrite length_app, repeat_length in Hlen.
  apply Forall_app in Hdig as [Hdig _].
  destruct (trim_zeros (fixed 9 n)) as [|c l] eqn:E.
  - assert (n = 0) as ->; [|done].
    pose proof (read_zeros [] 0 k eq_refl) as H0. rewrite H0 in Hread. by injection Hread as <-.
  - cbn [app]. unfold parse_fraction. cbn [Ascii.eqb Bool.eqb].
    change (c :: l ++ ["Z"%char]) with ((c :: l) ++ ["Z"%char]).
    rewrite span_digits_app by done. unfold parse_nanos. rewrite take_ge by lia.
    destruct (read_digits_some _ Hdig) as [x Hx]. rewrite Hx.
    rewrite (read_zeros _ _ k Hx) in Hread. injection Hread as Hread.
    replace (9 - Z.of_nat (length (c :: l))) with (Z.of_nat k) by lia. by rewrite Hread.
Qed.

Ltac split_fixed2 x :=
  let E := fresh in destruct (list_of_length2 (fixed 2 x) (fixed_length 2 x)) as (? & ? & E);
  assert (forall lo hi, 0 <= x < 100 -> lo <= x <= hi -> parse_field (fixed 2 x) lo hi = Some x)
    by (intros; by apply parse_field_fixed);
  rewrite E in *.

Lemma parse_format_chars t : four_digit_year t -> parse_chars (format_chars t) = Some t.
Proof.
  unfold four_digit_year, format_chars. intros Ht. set (secs := t / second).
  assert (Hsecs : t = second * secs + t mod second) by (apply Z.div_mod; done).
  pose proof (Z.mod_pos_bound t second ltac:(done)) as Hn.
  destruct (civil_from_days (secs / 86400)) as [[y m] d] eqn:E.
  apply civil_from_days_spec in E as Hc. destruct Hc as (Hdays & Hm & Hd).
  unfold civil_from_days in E. destruct (year_day (secs / 86400)) as [y' yday] eqn:E'.
  injection E as -> _ _. clearbody secs.
  assert (Hrange : -62167219200 <= secs < 253402300800) by (unfold second in *; lia).
  assert (Hy : 0 <= y <= 9999).
  { apply (year_of_days _ _ _ E'). Z.to_euclidean_division_equations. lia. }
  pose proof (days_in_31 m y Hm) as H31.
  set (s := secs mod 86400). assert (Hs : 0 <= s < 86400) by (apply Z.mod_pos_bound; done).
  assert (Hh : 0 <= s / 3600 <= 23) by (Z.to_euclidean_division_equations; lia).
  assert (Hi : 0 <= s mod 3600 / 60 <= 59) by (Z.to_euclidean_division_equations; lia).
  assert (Hsec : 0 <= s mod 60 <= 59) by (Z.to_euclidean_division_equations; lia).
  assert (Hsum : secs / 86400 * 86400 + s / 3600 * 3600 + s mod 3600 / 60 * 60 + s mod 60 = secs)
    by (subst s; Z.to_euclidean_division_equations; lia).
  rewrite !appendInt_fixed by lia.
  set (H := s / 3600) in *. set (I := s mod 3600 / 60) in *. set (S0 := s mod 60) in *.
  clearbody H I S0. clear E' Hs s.
  destruct (list_of_length4 (fixed 4 y) (fixed_length 4 y)) as (a1 & a2 & a3 & a4 & Ey).
  pose proof (parse_field_fixed 4 y 0 9999 ltac:(lia) Hy) as Py.
  split_fixed2 m. split_fixed2 d. split_fixed2 H. split_fixed2 I. split_fixed2 S0.
  rewrite Ey in *. cbn [app]. unfold parse_chars. rewrite Py. cbn [mbind option_bind].
  repeat match goal with Hp : forall lo hi, _ -> _ -> parse_field ?l lo hi = _ |- context [parse_field ?l ?a ?b] =>
    rewrite (Hp a b) by lia; cbn [mbind option_bind] end.
  cbn [Ascii.eqb Bool.eqb andb]. rewrite parse_appendNano by done. cbn [mbind option_bind].
  cbn [parse_zone Ascii.eqb Bool.eqb]. cbn [mbind option_bind].
  f_equal. rewrite Hdays. lia.
Qed.

Theorem ParseRFC3339Nano_Format layout t :
  four_digit_year t -> ParseRFC3339Nano layout (FormatRFC3339Nano t) = Some t.
Proof.
  intros Ht. unfold ParseRFC3339Nano, FormatRFC3339Nano. by rewrite untext_text, parse_format_chars.
Qed.

Example format_epoch : FormatRFC3339Nano 0 = "1970-01-01T00:00:00Z".
Proof. reflexivity. Qed.
Example format_instant :
  FormatRFC3339Nano 1709210096789012300 = "2024-02-29T12:34:56.7890123Z".
Proof. reflexivity. Qed.
Example parse_offset :
  ParseRFC3339Nano (fun _ => None) "2024-02-29T14:34:56.7890123+02:00" = Some 1709210096789012300.
Proof. reflexivity. Qed.
Example parse_bad_day : ParseRFC3339Nano (fun _ => None) "2023-02-29T00:00:00Z" = None.
Proof. reflexivity. Qed.

(** ** Valid UTF-8 *)
(** [utf8.ValidString], byte by byte. *)
Definition cont (b : N) : bool := (128 <=? b)%N && (b <=? 191)%N.
Definition in_range (b lo hi : N) : bool := (lo <=? b)%N && (b <=? hi)%N.
Fixpoint valid_utf8 (l : list N) : bool :=
  match l with
  | [] => true
  | a :: l1 =>
      if (a <=? 127)%N then valid_utf8 l1
      else match l1 with
      | [] => false
      | b :: l2 =>
          if in_range a 194 223 then cont b && valid_utf8 l2
          else match l2 with
          | [] => false
          | c :: l3 =>
              if in_range a 224 239 then
                in_range b (if (a =? 224)%N then 160 else 128)%N (if (a =? 237)%N then 159 else 191)%N
                && cont c && valid_utf8 l3
              else match l3 with
              | [] => false
              | d :: l4 =>
                  in_range a 240 244
                  && in_range b (if (a =? 240)%N then 144 else 128)%N (if (a =? 244)%N then 143 else 191)%N
                  && cont c && cont d && valid_utf8 l4
              end
          end
      end
  end.
