(* ===== verification/EventEnvelope.v ===== *)
(** Domain events, the part without a database: the envelope
    (proto saas.events.v1.EventEnvelope), subscriptions and type patterns
    (accounts/code/pkg/events/transport.go), the composed event catalog
    (accounts/code/pkg/eventcatalog/lookup.go) and the two forms an envelope travels
    in: the attributes of a durable job (infra/postgres_events.go) and the CloudEvents
    JSON document (events/codec.go).

    Strings and byte slices are strings of bytes.  A [*timestamppb.Timestamp] is an
    optional instant.  The catalog's tables are generated (catalog_gen.go), so they
    are arguments. *)
From Stdlib Require Import Ascii.
From S2P Require Import Prelude GoText JobState JobQueue.

Local Open Scope Z_scope.

(** ** Envelopes *)
Record EventEnvelope : Type := {
  ev_Id : string;
  ev_Type : string;
  ev_Source : string;
  ev_Subject : string;
  ev_Time : option instant;
  ev_Specversion : string;
  ev_Datacontenttype : string;
  ev_Dataschema : string;
  ev_Data : string;
  ev_TenantId : string;
  ev_BoundaryId : string;
  ev_PartitionKey : string;
  ev_CorrelationId : string;
  ev_CausationId : string;
  ev_ActorPrincipalId : string;
  ev_OwnerPrincipalId : string;
  ev_Traceparent : string;
  ev_SchemaVersion : Z;
}.
#[export] Instance EventEnvelope_eq_dec : EqDecision EventEnvelope.
Proof. solve_decision. Defined.

Inductive Delivery : Type := DeliveryOrdered | DeliveryUnordered | DeliveryWebhook.
#[export] Instance Delivery_eq_dec : EqDecision Delivery.
Proof. solve_decision. Defined.

Record Subscription : Type := {
  sub_ID : string;
  sub_SubscriberPrincipalID : string;
  sub_TypePattern : string;
  sub_Queue : string;
  sub_Delivery : Delivery;
  sub_OrgID : string;
  sub_WebhookSubscriptionID : string;
}.

Record Leased : Type := {
  leased_Token : string;
  leased_Envelope : EventEnvelope;
}.

Record ReplaySelector : Type := {
  sel_Type : string;
  sel_TenantID : string;
  sel_Since : instant;
  sel_SubscriberPrincipalID : string;
}.

(** ** Type patterns *)
Definition wildcard_suffix : string := ".*".

Definition trailingWildcard (pattern : string) : option string :=
  let n := String.length pattern in
  if (n <=? 2)%nat then None
  else if decide (String.substring (n - 2) 2 pattern = wildcard_suffix)
  then Some (String.substring 0 (n - 2) pattern)
  else None.

Definition hasDotPrefix (value prefix : string) : bool :=
  (String.length prefix + 1 <? String.length value)%nat
  && bool_decide (String.substring 0 (String.length prefix) value = prefix)
  && bool_decide (String.get (String.length prefix) value = Some "."%char).

Definition Matches (pattern eventType : string) : bool :=
  match trailingWildcard pattern with
  | Some prefix => bool_decide (eventType = prefix) || hasDotPrefix eventType prefix
  | None => bool_decide (pattern = eventType)
  end.

(** ** The event catalog *)
Record PublishedEvent : Type := {
  pe_Type : string;
  pe_Namespace : string;
  pe_Visibility : string;
  pe_Partition : string;
}.
Record FollowableResource : Type := {
  fr_ResourceType : string;
  fr_Namespace : string;
  fr_Events : list string;
}.

Definition PlatformAuditNamespace : string := "saas".

Definition Namespace (eventType : string) : string := before_byte "."%char eventType.

Section Catalog.
Variable published : list PublishedEvent.
Variable followable : list FollowableResource.

(** A later entry of the table replaces an earlier one. *)
Definition publishedIndex : gmap string PublishedEvent :=
  foldl (fun m e => <[pe_Type e := e]> m) ∅ published.
Definition LookupPublished (eventType : string) : option PublishedEvent :=
  publishedIndex !! eventType.
Definition publishedNamespaces : gset string :=
  foldl (fun m e => {[pe_Namespace e]} ∪ m) ∅ published.
Definition IsPublishedNamespace (namespace : string) : bool :=
  bool_decide (namespace ∈ publishedNamespaces).

Definition followableIndex : gmap string FollowableResource :=
  foldl (fun m f => foldl (fun m t => <[t := f]> m) m (fr_Events f)) ∅ followable.
Definition LookupFollowable (eventType : string) : option FollowableResource :=
  followableIndex !! eventType.

Definition IsInternalPublished (eventType : string) : bool :=
  match LookupPublished eventType with
  | Some e => bool_decide (pe_Visibility e = "internal") | None => false end.
Definition IsExternalPublished (eventType : string) : bool :=
  match LookupPublished eventType with
  | Some e => bool_decide (pe_Visibility e = "external") | None => false end.

Definition InternalPublishedTypes : list string :=
  map pe_Type (filter (fun e => pe_Visibility e = "internal") published).
Definition UnorderedPublishedTypes : list string :=
  map pe_Type (filter (fun e => pe_Partition e = "") published).
Definition UnorderedPublishedTypesInNamespace (namespace : string) : list string :=
  map pe_Type (filter (fun e => pe_Partition e = "" /\ Namespace (pe_Type e) = namespace) published).
End Catalog.

(** [strings.NewReplacer] over the two placeholders: one pass from the left, what was
    substituted is not read again. *)
Definition tenant_placeholder : string := "{tenant_id}".
Definition boundary_placeholder : string := "{boundary_id}".
Fixpoint replace_placeholders (tenantID boundaryID : string) (skip : nat) (s : string) : string :=
  match s with
  | EmptyString => ""
  | String c rest =>
      match skip with
      | S skip => replace_placeholders tenantID boundaryID skip rest
      | O =>
          if String.prefix tenant_placeholder s
          then tenantID ++ replace_placeholders tenantID boundaryID (String.length tenant_placeholder - 1) rest
          else if String.prefix boundary_placeholder s
          then boundaryID ++ replace_placeholders tenantID boundaryID (String.length boundary_placeholder - 1) rest
          else String c (replace_placeholders tenantID boundaryID 0 rest)
      end
  end%string.
Definition ResolvePartition (template tenantID boundaryID : string) : string :=
  if decide (template = "") then "" else replace_placeholders tenantID boundaryID 0 template.

(** ** An envelope as the attributes of a job *)
Definition putAttribute (key value : string) (attributes : Attrs) : Attrs :=
  if decide (value = "") then attributes else <[key := value]> attributes.
Definition getAttribute (key : string) (attributes : Attrs) : string :=
  default "" (attributes !! key).

Definition eventAttributes (e : EventEnvelope) : Attrs :=
  let a := putAttribute "id" (ev_Id e) ∅ in
  let a := putAttribute "type" (ev_Type e) a in
  let a := putAttribute "source" (ev_Source e) a in
  let a := putAttribute "subject" (ev_Subject e) a in
  let a := putAttribute "specversion" (ev_Specversion e) a in
  let a := putAttribute "datacontenttype" (ev_Datacontenttype e) a in
  let a := putAttribute "dataschema" (ev_Dataschema e) a in
  let a := putAttribute "tenant_id" (ev_TenantId e) a in
  let a := putAttribute "boundary_id" (ev_BoundaryId e) a in
  let a := putAttribute "partition_key" (ev_PartitionKey e) a in
  let a := putAttribute "correlation_id" (ev_CorrelationId e) a in
  let a := putAttribute "causation_id" (ev_CausationId e) a in
  let a := putAttribute "actor_principal_id" (ev_ActorPrincipalId e) a in
  let a := putAttribute "owner_principal_id" (ev_OwnerPrincipalId e) a in
  let a := putAttribute "traceparent" (ev_Traceparent e) a in
  let a := match ev_Time e with
           | Some t => <["time" := FormatRFC3339Nano t]> a | None => a end in
  if ev_SchemaVersion e =? 0 then a
  else <["schema_version" := FormatUint (ev_SchemaVersion e)]> a.

Definition eventScope (tenantID : string) : JobScope :=
  if decide (tenantID = "") then JobScope_Global else JobScope_OrganizationId tenantID.
Definition eventOrdering (partitionKey : string) : option JobOrderingKey :=
  if decide (partitionKey = "") then None
  else Some {| key_namespace := "events"; key_components := [partitionKey] |}.
Definition eventSchemaVersion (e : EventEnvelope) : Z :=
  if ev_SchemaVersion e =? 0 then 1 else ev_SchemaVersion e.
Definition eventContentType (e : EventEnvelope) : string :=
  if decide (ev_Datacontenttype e = "") then "application/protobuf" else ev_Datacontenttype e.

Definition eventDeliveryMaxAttempts : Z := 5.

(** [PostgresEventTransport.delivery] *)
Definition delivery (e : EventEnvelope) (s : Subscription) (idempotencyKey : string)
    : EnqueueJobRequest :=
  {| er_job :=
    {| job_direction := JOB_DIRECTION_INBOX; job_scope := eventScope (ev_TenantId e);
       job_queue := sub_Queue s; job_topic := ev_Type e; job_source := ev_Source e;
       job_idempotency_key := idempotencyKey;
       job_ordering :=
         if decide (sub_Delivery s = DeliveryOrdered) then eventOrdering (ev_PartitionKey e) else None;
       job_schema_version := eventSchemaVersion e; job_payload := ev_Data e;
       job_content_type := eventContentType e; job_attributes := eventAttributes e;
       job_priority := 0; job_max_attempts := eventDeliveryMaxAttempts;
       job_available_at := None |} |}.

Section Text.
(** [time.Parse]'s layout interpreter, for a text the strict reader refuses. *)
Variable layout : string -> option instant.

Definition envelopeFromAttributes (attributes : Attrs) (payload : string) : EventEnvelope :=
  {| ev_Id := getAttribute "id" attributes; ev_Type := getAttribute "type" attributes;
     ev_Source := getAttribute "source" attributes;
     ev_Subject := getAttribute "subject" attributes;
     ev_Time := raw ← attributes !! "time"; ParseRFC3339Nano layout raw;
     ev_Specversion := getAttribute "specversion" attributes;
     ev_Datacontenttype := getAttribute "datacontenttype" attributes;
     ev_Dataschema := getAttribute "dataschema" attributes; ev_Data := payload;
     ev_TenantId := getAttribute "tenant_id" attributes;
     ev_BoundaryId := getAttribute "boundary_id" attributes;
     ev_PartitionKey := getAttribute "partition_key" attributes;
     ev_CorrelationId := getAttribute "correlation_id" attributes;
     ev_CausationId := getAttribute "causation_id" attributes;
     ev_ActorPrincipalId := getAttribute "actor_principal_id" attributes;
     ev_OwnerPrincipalId := getAttribute "owner_principal_id" attributes;
     ev_Traceparent := getAttribute "traceparent" attributes;
     ev_SchemaVersion :=
       default 0 (raw ← attributes !! "schema_version"; ParseUint raw 32) |}.

Definition envelopeFromJob (job : JobEnvelope) : EventEnvelope :=
  envelopeFromAttributes (e_attributes job) (e_payload job).
End Text.

(** What the two text forms can carry. *)
Definition representable (e : EventEnvelope) : Prop :=
  0 <= ev_SchemaVersion e < 2 ^ 32 /\
  match ev_Time e with Some t => four_digit_year t | None => True end.

(** ** Lemmas *)
Lemma get_put_eq key value a : a !! key = None -> getAttribute key (putAttribute key value a) = value.
Proof.
  intros Hn. unfold putAttribute, getAttribute. case_decide as Hv.
  - by rewrite Hn.
  - by rewrite lookup_insert_eq.
Qed.
Lemma get_put_ne key key' value a :
  key <> key' -> putAttribute key value a !! key' = a !! key'.
Proof. intros Hk. unfold putAttribute. case_decide; [done|]. by rewrite lookup_insert_ne. Qed.

Lemma put_lookup key value a :
  a !! key = None -> putAttribute key value a !! key = if decide (value = "") then None else Some value.
Proof. intros Hn. unfold putAttribute. case_decide; [done|]. by rewrite lookup_insert_eq. Qed.

Ltac attribute :=
  unfold getAttribute;
  repeat first [ rewrite lookup_insert_eq | rewrite lookup_insert_ne by done
               | rewrite get_put_ne by done
               | rewrite put_lookup by (repeat first [rewrite lookup_empty; done | rewrite get_put_ne by done])
               | rewrite lookup_empty ].

(** What an envelope's attributes and payload say is the envelope. *)
Lemma attributes_roundtrip layout e :
  representable e -> envelopeFromAttributes layout (eventAttributes e) (ev_Data e) = e.
Proof.
  intros [Hv Ht]. destruct e as [id ty src subj tm sv dct ds data ten bnd part corr caus act own trace ver].
  cbn in *. unfold envelopeFromAttributes, eventAttributes. cbn.
  assert (Hver : ParseUint (FormatUint ver) 32 = Some ver) by (apply ParseUint_FormatUint; lia).
  destruct tm as [t|]; [pose proof (ParseRFC3339Nano_Format layout t Ht) as Htime|];
    (destruct (Z.eqb_spec ver 0) as [->|]; f_equal; attribute; cbn;
      rewrite ?Hver, ?Htime; first [by case_decide|done]).
Qed.

(** *** Patterns *)
Lemma trailingWildcard_spec p q :
  trailingWildcard p = Some q <-> p = (q ++ wildcard_suffix)%string /\ q <> "".
Proof.
  unfold trailingWildcard. split.
  - destruct (Nat.leb_spec (String.length p) 2) as [|Hl]; [done|]. case_decide as Hs; [|done].
    intros [= <-]. pose proof (substring_split (String.length p - 2) p ltac:(lia)) as Hp.
    replace (String.length p - (String.length p - 2))%nat with 2%nat in Hp by lia. split; [congruence|].
    intros E. pose proof (substring_length (String.length p - 2) p ltac:(lia)) as Hn.
    rewrite E in Hn. cbn in Hn. lia.
  - intros [-> Hq]. rewrite length_append. cbn [String.length wildcard_suffix].
    assert (0 < String.length q)%nat by (destruct q; [done|cbn; lia]).
    destruct (Nat.leb_spec (String.length q + 2) 2); [lia|].
    replace (String.length q + 2 - 2)%nat with (String.length q) by lia.
    rewrite (substring_suffix q wildcard_suffix : String.substring _ 2 _ = _).
    rewrite decide_True by done. by rewrite substring_prefix.
Qed.

Lemma hasDotPrefix_spec v p :
  hasDotPrefix v p = true <-> exists r, r <> "" /\ v = (p ++ String "."%char r)%string.
Proof.
  unfold hasDotPrefix. split.
  - rewrite !andb_true_iff, !bool_decide_eq_true. intros [[Hl Hp] Hg]. apply Nat.ltb_lt in Hl.
    pose proof (get_split _ _ _ Hg) as Hv. rewrite Hp in Hv. eexists. split; [|exact Hv].
    intros E. rewrite E in Hv. apply (f_equal String.length) in Hv.
    rewrite length_append in Hv. cbn in Hv. lia.
  - intros (r & Hr & ->). rewrite length_append. cbn [String.length].
    assert (0 < String.length r)%nat by (destruct r; [done|cbn; lia]).
    rewrite substring_prefix, get_append, !bool_decide_true by done.
    destruct (Nat.ltb_spec (String.length p + 1) (String.length p + S (String.length r))); [done|lia].
Qed.

Lemma Matches_spec p t :
  Matches p t = true <->
  (exists q, p = (q ++ wildcard_suffix)%string /\ q <> "" /\
     (t = q \/ exists r, r <> "" /\ t = (q ++ String "."%char r)%string)) \/
  (trailingWildcard p = None /\ t = p).
Proof.
  unfold Matches. destruct (trailingWildcard p) as [q|] eqn:E.
  - apply trailingWildcard_spec in E as [-> Hq]. rewrite orb_true_iff, hasDotPrefix_spec, bool_decide_eq_true.
    split; [intros H; left; by exists q|]. intros [(q' & Hqq & _ & H)|[? _]]; [|done].
    assert (q' = q) as ->; [|done].
    assert (Hw : trailingWildcard (q ++ wildcard_suffix) = Some q) by by apply trailingWildcard_spec.
    destruct (decide (q' = "")) as [->|Hq'].
    + exfalso. apply (f_equal String.length) in Hqq. rewrite !length_append in Hqq.
      destruct q; [done|cbn in Hqq; lia].
    + rewrite Hqq in Hw. assert (Hw' : trailingWildcard (q' ++ wildcard_suffix) = Some q') by by apply trailingWildcard_spec.
      congruence.
  - rewrite bool_decide_eq_true. split; [intros ->; by right|].
    intros [(q & -> & Hq & _)|[_ ->]]; [|done].
    assert (Hw : trailingWildcard (q ++ wildcard_suffix) = Some q) by by apply trailingWildcard_spec. congruence.
Qed.

(** A pattern sees one namespace: its own. *)
Lemma Matches_namespace p t : Matches p t = true -> Namespace p = Namespace t.
Proof.
  rewrite Matches_spec. unfold Namespace. intros [(q & -> & _ & [->|(r & _ & ->)])|[_ ->]]; [| |done].
  - apply before_byte_app.
  - unfold wildcard_suffix. by rewrite !before_byte_app.
Qed.
