(* ===== verification/EventRelay.v ===== *)
(** The durable event transport: accounts/code/pkg/infra/postgres_events.go
    (publish, relay, claim and finalize, replay), the SQL function
    publish_domain_event (store/migrations) and the outbound dispatcher
    infra/postgres_webhook_relay.go.

    The database is a value: the job queue of JobQueue.v, the domain_events,
    event_subscriptions and webhook_subscriptions rows by id, the webhook_deliveries in
    insertion order and the visibility column of audit_event_types.  A relay or replay
    batch is one transaction; [RelayWorld] holds what it reads from its surroundings:
    the clock, generated ids, the event rows another relay has locked (SKIP LOCKED
    passes over them), the events whose savepoint the database fails, whether the
    batch's own transaction fails, and what other transactions committed before it
    began. *)
From Stdlib Require Import Ascii.
From S2P Require Import Prelude GoText JobState JobQueue EventEnvelope.

Local Open Scope Z_scope.

Inductive EventError : Type :=
| ErrInvalidEnvelope
| ErrEventConflict
| ErrEventLeaseLost
| ErrWebhookDeliveryExists
| ErrForeignKey
| ErrFromJobs (e : JobError)
| ErrEvents (cause : string).

(** ** The tables *)

(** The columns of domain_events no statement updates. *)
Record EventColumns : Type := {
  dc_id : string;
  dc_seq : Z;
  dc_type : string;
  dc_source : string;
  dc_subject : string;
  dc_event_time : option instant;
  dc_specversion : string;
  dc_datacontenttype : string;
  dc_dataschema : string;
  dc_data : string;
  dc_tenant_id : option string;
  dc_boundary_id : string;
  dc_partition_key : string;
  dc_correlation_id : string;
  dc_causation_id : string;
  dc_actor_principal_id : string;
  dc_owner_principal_id : string;
  dc_traceparent : string;
  dc_schema_version : Z;
  dc_request_fingerprint : string;
  dc_created_at : instant;
}.

Record DomainEvent : Type := {
  de_columns : EventColumns;
  de_published_at : option instant;
  de_relay_attempts : Z;
  de_last_relay_error : string;
  de_dead_lettered_at : option instant;
}.
#[export] Instance EventColumns_eq_dec : EqDecision EventColumns.
Proof. solve_decision. Defined.
#[export] Instance DomainEvent_eq_dec : EqDecision DomainEvent.
Proof. solve_decision. Defined.

Record EventSubscriptionRow : Type := {
  es_id : string;
  es_subscriber_principal_id : option string;
  es_type_pattern : string;
  es_queue : string;
  es_delivery : Delivery;
  es_created_by : option string;
  es_created_at : instant;
  es_revoked_at : option instant;
  es_org_id : option string;
  es_webhook_subscription_id : option string;
}.

Record WebhookEndpoint : Type := {
  we_org_id : string;
  we_active : bool;
}.

Record WebhookDelivery : Type := {
  wd_ID : string;
  wd_SubscriptionID : string;
  wd_EventID : string;
  wd_OutboxEventID : string;
  wd_EventType : string;
  wd_Payload : string;
  wd_Status : string;
  wd_AttemptCount : Z;
}.

Record EventDb : Type := {
  ed_jobs : JobDb;
  ed_events : gmap string DomainEvent;
  ed_next_seq : Z;
  ed_subscriptions : gmap string EventSubscriptionRow;
  ed_endpoints : gmap string WebhookEndpoint;
  ed_deliveries : list WebhookDelivery;
  ed_visibility : gmap string string;
}.

Definition empty_events : EventDb :=
  {| ed_jobs := empty_jobs; ed_events := ∅; ed_next_seq := 1; ed_subscriptions := ∅;
     ed_endpoints := ∅; ed_deliveries := []; ed_visibility := ∅ |}.

Definition set_jobs (j : JobDb) (d : EventDb) : EventDb :=
  {| ed_jobs := j; ed_events := ed_events d; ed_next_seq := ed_next_seq d;
     ed_subscriptions := ed_subscriptions d; ed_endpoints := ed_endpoints d;
     ed_deliveries := ed_deliveries d; ed_visibility := ed_visibility d |}.
Definition set_events (es : gmap string DomainEvent) (d : EventDb) : EventDb :=
  {| ed_jobs := ed_jobs d; ed_events := es; ed_next_seq := ed_next_seq d;
     ed_subscriptions := ed_subscriptions d; ed_endpoints := ed_endpoints d;
     ed_deliveries := ed_deliveries d; ed_visibility := ed_visibility d |}.
Definition bump_event_seq (d : EventDb) : EventDb :=
  {| ed_jobs := ed_jobs d; ed_events := ed_events d; ed_next_seq := ed_next_seq d + 1;
     ed_subscriptions := ed_subscriptions d; ed_endpoints := ed_endpoints d;
     ed_deliveries := ed_deliveries d; ed_visibility := ed_visibility d |}.
Definition set_subscriptions (ss : gmap string EventSubscriptionRow) (d : EventDb) : EventDb :=
  {| ed_jobs := ed_jobs d; ed_events := ed_events d; ed_next_seq := ed_next_seq d;
     ed_subscriptions := ss; ed_endpoints := ed_endpoints d;
     ed_deliveries := ed_deliveries d; ed_visibility := ed_visibility d |}.
Definition add_delivery (x : WebhookDelivery) (d : EventDb) : EventDb :=
  {| ed_jobs := ed_jobs d; ed_events := ed_events d; ed_next_seq := ed_next_seq d;
     ed_subscriptions := ed_subscriptions d; ed_endpoints := ed_endpoints d;
     ed_deliveries := ed_deliveries d ++ [x]; ed_visibility := ed_visibility d |}.

Abbreviation E := (tx EventDb EventError).

Inductive WebhookDeliveryOutcome : Type :=
| WebhookDelivered
| WebhookAlreadyDelivered
| WebhookEndpointGone.

Record RelayWorld : Type := {
  rw_now : instant;
  rw_jobs : JobWorld;
  rw_job_id : string -> string;
  rw_delivery_id : string -> string -> string;
  rw_nonce : string -> string;
  rw_locked : gset string;
  rw_fault : string -> option string;
  rw_failure : option string;
  rw_others : EventDb -> EventDb;
}.

(** The world of one enqueue of the batch: its clock, and the id the row of this
    idempotency key gets. *)
Definition job_world (w : RelayWorld) (key : string) : JobWorld :=
  {| jw_now := rw_now w; jw_clock := rw_now w; jw_token := jw_token (rw_jobs w);
     jw_attempt_id := jw_attempt_id (rw_jobs w); jw_job_id := rw_job_id w key;
     jw_locked := jw_locked (rw_jobs w); jw_module_current := jw_module_current (rw_jobs w);
     jw_step_current := jw_step_current (rw_jobs w); jw_held := jw_held (rw_jobs w) |}.

(** ** CHECK constraints *)
Definition lower (c : ascii) : bool :=
  let n := N_of_ascii c in (97 <=? n)%N && (n <=? 122)%N.
Definition word (c : ascii) : bool := lower c || is_digit c || Ascii.eqb c "_"%char.

(** The rest of a dotted name: more of this segment, or a dot and a new one. *)
Fixpoint dotted (need : bool) (dots : bool) (l : list ascii) : bool :=
  match l with
  | [] => negb need && dots
  | c :: l =>
      if Ascii.eqb c "."%char then negb need && dotted true true l
      else word c && dotted false dots l
  end.
(** [^[a-z][a-z0-9_]*(?:\.[a-z0-9_]+)+$] *)
Definition domain_event_type (s : string) : bool :=
  match untext s with [] => false | c :: l => lower c && dotted false false l end.
(** [^[a-z][a-z0-9_.:/-]{0,254}$] *)
Definition source_char (c : ascii) : bool :=
  word c || Ascii.eqb c "."%char || Ascii.eqb c ":"%char || Ascii.eqb c "/"%char || Ascii.eqb c "-"%char.
Definition domain_event_source (s : string) : bool :=
  match untext s with
  | [] => false
  | c :: l => lower c && forallb source_char l && (length l <=? 254)%nat
  end.

(** ** Fingerprints *)
(** The fact an envelope states: without the fields two publishes of it may differ in. *)
Definition event_core (e : EventEnvelope) : EventEnvelope :=
  {| ev_Id := ev_Id e; ev_Type := ev_Type e; ev_Source := ev_Source e;
     ev_Subject := ev_Subject e; ev_Time := None; ev_Specversion := ev_Specversion e;
     ev_Datacontenttype := ev_Datacontenttype e; ev_Dataschema := ev_Dataschema e;
     ev_Data := ev_Data e; ev_TenantId := ev_TenantId e; ev_BoundaryId := ev_BoundaryId e;
     ev_PartitionKey := ev_PartitionKey e; ev_CorrelationId := ""; ev_CausationId := "";
     ev_ActorPrincipalId := ev_ActorPrincipalId e; ev_OwnerPrincipalId := ev_OwnerPrincipalId e;
     ev_Traceparent := ""; ev_SchemaVersion := ev_SchemaVersion e |}.


Definition scan_event (c : EventColumns) : EventEnvelope :=
  {| ev_Id := dc_id c; ev_Type := dc_type c; ev_Source := dc_source c;
     ev_Subject := dc_subject c; ev_Time := dc_event_time c;
     ev_Specversion := dc_specversion c; ev_Datacontenttype := dc_datacontenttype c;
     ev_Dataschema := dc_dataschema c; ev_Data := dc_data c;
     ev_TenantId := default "" (dc_tenant_id c); ev_BoundaryId := dc_boundary_id c;
     ev_PartitionKey := dc_partition_key c; ev_CorrelationId := dc_correlation_id c;
     ev_CausationId := dc_causation_id c; ev_ActorPrincipalId := dc_actor_principal_id c;
     ev_OwnerPrincipalId := dc_owner_principal_id c; ev_Traceparent := dc_traceparent c;
     ev_SchemaVersion := wrapu32 (dc_schema_version c) |}.
Definition envelope_of (r : DomainEvent) : EventEnvelope := scan_event (de_columns r).

(** ** Error texts *)
(** Bytes go from the end until the text is valid: at most as many as there are. *)
Fixpoint drop_invalid (fuel : nat) (s : string) : string :=
  match fuel with
  | O => ""
  | S fuel =>
      if decide (s = "") then ""
      else if valid_utf8 (bytes_of s) then s
      else drop_invalid fuel (String.substring 0 (String.length s - 1) s)
  end.

Definition nackMessage (cause : option string) : string :=
  match cause with
  | None => "nack"
  | Some message =>
      if (String.length message <=? 4096)%nat then message
      else drop_invalid 4097 (String.substring 0 4096 message)
  end.

#[global] Arguments nackMessage : simpl never.

Definition error_text (e : EventError) : string :=
  match e with
  | ErrInvalidEnvelope => "events: invalid envelope"
  | ErrEventConflict => "events: id reused with a different envelope"
  | ErrEventLeaseLost => "events: lease lost"
  | ErrWebhookDeliveryExists => "webhooks: delivery already exists"
  | ErrForeignKey => "violates foreign key constraint"
  | ErrFromJobs e =>
      match e with
      | ErrInvalidCommand cause | ErrDatabase cause | ErrJobs cause => cause
      | _ => "jobs: error"
      end
  | ErrEvents cause => cause
  end.

(** ** The transport *)
Definition eventRelayMaxAttempts : Z := 5.
Definition maxClaimBatch : Z := 100.
Definition relayBatchSize : nat := 100.
Definition relayMaxBatchesPerDrain : nat := 20.
Definition replayPageSize : nat := 500.

Section Transport.
Context (base64url : string -> string).
Context (fingerprint : string -> Command -> string).
Context (ValidateCommand : Command -> result JobError unit).
Context (parse_uuid : string -> option string).
(** The generated event catalog. *)
Context (published : list PublishedEvent).
(** SHA-256 of the deterministic protobuf encoding. *)
Context (digest : EventEnvelope -> string).

Definition eventFingerprint (e : EventEnvelope) : string := digest (event_core e).

(** *** Publishing *)
Definition role_may_publish (role : Role) (tenant : option string) : bool :=
  match role with
  | app_tenant org _ => is_some tenant && bool_decide (tenant = org)
  | app_control_plane | app_job_worker => true
  | other_role => false
  end.

Definition nullableUUID (value : string) : option string :=
  if decide (value = "") then None else Some value.

(** A text parameter cast to uuid: NULL stays NULL. *)
Definition uuid_param (value : option string) : E (option string) :=
  match value with
  | None => mret None
  | Some s => match parse_uuid s with
              | Some u => mret (Some u)
              | None => tx_fail (ErrEvents "invalid input syntax for type uuid")
              end
  end.

Definition event_columns (id : string) (seq : Z) (tenant : option string) (now : instant)
    (e : EventEnvelope) (print : string) : EventColumns :=
  {| dc_id := id; dc_seq := seq; dc_type := ev_Type e; dc_source := ev_Source e;
     dc_subject := ev_Subject e; dc_event_time := timestamptz <$> ev_Time e;
     dc_specversion := ev_Specversion e; dc_datacontenttype := ev_Datacontenttype e;
     dc_dataschema := ev_Dataschema e; dc_data := ev_Data e; dc_tenant_id := tenant;
     dc_boundary_id := ev_BoundaryId e; dc_partition_key := ev_PartitionKey e;
     dc_correlation_id := ev_CorrelationId e; dc_causation_id := ev_CausationId e;
     dc_actor_principal_id := ev_ActorPrincipalId e;
     dc_owner_principal_id := ev_OwnerPrincipalId e; dc_traceparent := ev_Traceparent e;
     dc_schema_version := wrap32 (eventSchemaVersion e); dc_request_fingerprint := print;
     dc_created_at := now |}.
Definition fresh_event (c : EventColumns) : DomainEvent :=
  {| de_columns := c; de_published_at := None; de_relay_attempts := 0;
     de_last_relay_error := ""; de_dead_lettered_at := None |}.

Definition publish_domain_event (role : Role) (now : instant) (e : EventEnvelope)
    (print : string) : E (string * string * bool) :=
  id ← uuid_param (Some (ev_Id e));
  tenant ← uuid_param (nullableUUID (ev_TenantId e));
  if negb (role_may_publish role tenant) then tx_fail (ErrEvents "insufficient_privilege")
  else
    d ← tx_get;
    let id := default "" id in
    let seq := ed_next_seq d in
    tx_put (bump_event_seq d);;
    if negb (domain_event_type (ev_Type e) && domain_event_source (ev_Source e)
             && (String.length print =? 32)%nat)
    then tx_fail (ErrEvents "violates check constraint")
    else
      match ed_events d !! id with
      | Some existing => mret (id, dc_request_fingerprint (de_columns existing), false)
      | None =>
          d ← tx_get;
          tx_put (set_events (<[id := fresh_event (event_columns id seq tenant now e print)]>
            (ed_events d)) d);;
          mret (id, print, true)
      end.

Definition insertDomainEvent (role : Role) (now : instant) (e : EventEnvelope) (print : string)
    : E unit :=
  row ← publish_domain_event role now e print;
  if negb (snd row) && bool_decide (snd (fst row) <> print) then tx_fail ErrEventConflict
  else mret tt.

(** *** Fan-out *)
Definition lift_jobs {A} (m : Q A) : E A := fun d =>
  match m (ed_jobs d) with
  | Ok (a, j) => Ok (a, set_jobs j d)
  | Err e => Err (ErrFromJobs e)
  end.

Definition enqueueOne (w : RelayWorld) (request : EnqueueJobRequest) : E unit :=
  prepared ← lift_jobs (tx_lift (prepareJobEnqueue base64url fingerprint ValidateCommand
    parse_uuid request));
  lift_jobs (enqueuePreparedJob (job_world w (job_idempotency_key (er_job request)))
    app_job_worker prepared);;
  mret tt.

Definition mapEnqueueError (e : EventError) : EventError :=
  match e with ErrFromJobs ErrIdempotencyConflict => ErrEventConflict | e => e end.

(** Run [m], and rewrite the error it fails with. *)
Definition map_error {A} (f : EventError -> EventError) (m : E A) : E A := fun d =>
  match m d with Ok r => Ok r | Err e => Err (f e) end.

Definition like_wildcard (pattern : string) : bool :=
  let n := String.length pattern in
  (2 <=? n)%nat && bool_decide (String.substring (n - 2) 2 pattern = wildcard_suffix).

Definition eventTypesOf (events : list EventEnvelope) : list string :=
  foldl (fun types e => if contains_string types (ev_Type e) then types else types ++ [ev_Type e])
    [] events.

(** A webhook row is live only while its endpoint is active. *)
Definition endpoint_active (d : EventDb) (s : EventSubscriptionRow) : bool :=
  match es_webhook_subscription_id s with
  | None => true
  | Some id => match ed_endpoints d !! id with Some e => we_active e | None => false end
  end.
Definition live_subscription (d : EventDb) (types : list string) (s : EventSubscriptionRow) : bool :=
  negb (is_some (es_revoked_at s)) && endpoint_active d s
  && (contains_string types (es_type_pattern s) || like_wildcard (es_type_pattern s)).

Definition scan_subscription (s : EventSubscriptionRow) : Subscription :=
  {| sub_ID := es_id s; sub_SubscriberPrincipalID := default "" (es_subscriber_principal_id s);
     sub_TypePattern := es_type_pattern s; sub_Queue := es_queue s; sub_Delivery := es_delivery s;
     sub_OrgID := default "" (es_org_id s);
     sub_WebhookSubscriptionID := default "" (es_webhook_subscription_id s) |}.

(** The statement has no ORDER BY: the rows come in the order of the map. *)
Definition liveSubscriptions (types : list string) (d : EventDb) : list Subscription :=
  map scan_subscription
    (filter (fun s => live_subscription d types s = true) (map snd (map_to_list (ed_subscriptions d)))).

Definition externallyDeliverable (eventType : string) (d : EventDb) : bool :=
  if IsExternalPublished published eventType then true
  else match ed_visibility d !! eventType with
       | Some v => bool_decide (v = "external") | None => false end.

(** The dispatcher behind the seam; [None] when no dispatcher is wired. *)
Context (webhooks : option (RelayWorld -> EventEnvelope -> Subscription -> E WebhookDeliveryOutcome)).

Definition RequireWebhookRelay : result EventError unit :=
  match webhooks with
  | Some _ => Ok tt
  | None => Err (ErrEvents "events: no outbound webhook dispatcher is wired")
  end.

Definition relayToWebhook (w : RelayWorld) (e : EventEnvelope) (s : Subscription) (external : bool)
    : E WebhookDeliveryOutcome :=
  if negb external then mret WebhookDelivered
  else if bool_decide (sub_OrgID s = "") || bool_decide (sub_OrgID s <> ev_TenantId e)
  then mret WebhookDelivered
  else match webhooks with
  | None => tx_fail (ErrEvents "events: webhook subscription matched but no dispatcher is wired")
  | Some deliver => deliver w e s
  end.

(** One matching subscription of one event. *)
Definition fan_out_one (w : RelayWorld) (e : EventEnvelope) (external : bool) (s : Subscription)
    : E unit :=
  if negb (Matches (sub_TypePattern s) (ev_Type e)) then mret tt
  else if decide (sub_Delivery s = DeliveryWebhook) then relayToWebhook w e s external;; mret tt
  else if decide (Namespace (ev_Type e) = PlatformAuditNamespace) then mret tt
  else map_error mapEnqueueError
    (enqueueOne w (delivery e s (ev_Id e ++ ":" ++ sub_ID s)%string)).

Fixpoint fan_out (w : RelayWorld) (e : EventEnvelope) (external : bool) (subs : list Subscription)
    : E unit :=
  match subs with
  | [] => mret tt
  | s :: subs => fan_out_one w e external s;; fan_out w e external subs
  end.

Definition published_row (t : instant) (r : DomainEvent) : DomainEvent :=
  {| de_columns := de_columns r; de_published_at := Some t;
     de_relay_attempts := de_relay_attempts r; de_last_relay_error := de_last_relay_error r;
     de_dead_lettered_at := de_dead_lettered_at r |}.

(** The last statement of the savepoint; a fault of the database on any statement of it
    is a fault here. *)
Definition mark_published (w : RelayWorld) (id : string) : E unit := fun d =>
  match rw_fault w id with
  | Some cause => Err (ErrEvents cause)
  | None => Ok (tt, set_events (alter (published_row (rw_now w)) id (ed_events d)) d)
  end.

Definition relayEvent (w : RelayWorld) (e : EventEnvelope) (subs : list Subscription) : E unit :=
  if IsInternalPublished published (ev_Type e) then mark_published w (ev_Id e)
  else
    d ← tx_get;
    fan_out w e (externallyDeliverable (ev_Type e) d) subs;;
    mark_published w (ev_Id e).

(** *** The relay *)
Record relayDrain : Type := {
  drain_failed : list string;
  drain_blocked : gset string;
}.
Definition new_drain : relayDrain := {| drain_failed := []; drain_blocked := ∅ |}.

Definition owesOrderedDelivery (e : EventEnvelope) (subs : list Subscription) : bool :=
  if bool_decide (ev_PartitionKey e = "") || IsInternalPublished published (ev_Type e) then false
  else existsb (fun s => bool_decide (sub_Delivery s = DeliveryOrdered)
                         && Matches (sub_TypePattern s) (ev_Type e)) subs.

(** Neither fanned out nor parked. *)
Definition awaits_relay (r : DomainEvent) : bool :=
  negb (is_some (de_published_at r)) && negb (is_some (de_dead_lettered_at r)).

Definition seq_le (x y : DomainEvent) : Prop := dc_seq (de_columns x) <= dc_seq (de_columns y).

#[export] Instance seq_le_dec : RelDecision seq_le.
Proof. intros x y. unfold seq_le. apply _. Defined.
#[export] Instance seq_le_total : Total seq_le.
Proof. intros x y. unfold seq_le. lia. Qed.
#[export] Instance seq_le_trans : Transitive seq_le.
Proof. intros x y z. unfold seq_le. lia. Qed.

Definition event_rows (d : EventDb) : list DomainEvent := map snd (map_to_list (ed_events d)).

(** [relaySelectUnpublishedSQL] *)
Definition relay_selects (w : RelayWorld) (failed : list string) (r : DomainEvent) : bool :=
  awaits_relay r && negb (contains_string failed (dc_id (de_columns r)))
  && negb (bool_decide (dc_id (de_columns r) ∈ rw_locked w)).
Definition select_unpublished (w : RelayWorld) (failed : list string) (d : EventDb)
    : list EventEnvelope :=
  map envelope_of
    (take relayBatchSize
      (merge_sort seq_le (filter (fun r => relay_selects w failed r = true) (event_rows d)))).

Definition failed_row (t : instant) (cause : string) (r : DomainEvent) : DomainEvent :=
  {| de_columns := de_columns r; de_published_at := de_published_at r;
     de_relay_attempts := de_relay_attempts r + 1; de_last_relay_error := cause;
     de_dead_lettered_at :=
       if eventRelayMaxAttempts <=? de_relay_attempts r + 1 then Some t else None |}.

(** Whether the attempt parked the event. *)
Definition recordRelayFailure (w : RelayWorld) (e : EventEnvelope) (cause : EventError) : E bool :=
  fun d =>
  match ed_events d !! ev_Id e with
  | None => Err (ErrEvents "events: record relay failure: no rows in result set")
  | Some r =>
      let r' := failed_row (rw_now w) (nackMessage (Some (error_text cause))) r in
      Ok (is_some (de_dead_lettered_at r'), set_events (<[ev_Id e := r']> (ed_events d)) d)
  end.

(** The loop over one batch; the count is of the events relayed. *)
Fixpoint relay_events (w : RelayWorld) (subs : list Subscription) (pending : list EventEnvelope)
    (drain : relayDrain) (processed : Z) : E (Z * relayDrain) :=
  match pending with
  | [] => mret (processed, drain)
  | e :: pending =>
      let partition := ev_PartitionKey e in
      if bool_decide (partition <> "") && bool_decide (partition ∈ drain_blocked drain)
      then relay_events w subs pending drain processed
      else fun d =>
        match relayEvent w e subs d with
        | Ok (_, d') => relay_events w subs pending drain (processed + 1) d'
        | Err cause =>
            (parked ← recordRelayFailure w e cause;
             relay_events w subs pending
               {| drain_failed := drain_failed drain ++ [ev_Id e];
                  drain_blocked :=
                    if negb parked && owesOrderedDelivery e subs
                    then {[partition]} ∪ drain_blocked drain else drain_blocked drain |}
               processed) d
        end
  end.

Definition relayBatch (w : RelayWorld) (drain : relayDrain) : E (Z * relayDrain) :=
  d ← tx_get;
  let pending := select_unpublished w (drain_failed drain) d in
  result ←
    (if decide (pending = []) then mret (0, drain)
     else relay_events w (liveSubscriptions (eventTypesOf pending) d) pending drain 0);
  match rw_failure w with
  | Some cause => tx_fail (ErrEvents cause)
  | None => mret result
  end.

(** At most [batches] more batches, the next one in the world [env batch]. *)
Fixpoint relay_drain (env : nat -> RelayWorld) (batches : nat) (batch : nat) (relayed : Z)
    (drain : relayDrain) (d : EventDb) : Z * option EventError * relayDrain * EventDb :=
  match batches with
  | O => (relayed, None, drain, d)
  | S batches =>
      let d := rw_others (env batch) d in
      match relayBatch (env batch) drain d with
      | Err e => (relayed, Some e, drain, d)
      | Ok ((processed, drain'), d') =>
          if (processed =? 0) && (length (drain_failed drain') =? length (drain_failed drain))%nat
          then (relayed + processed, None, drain', d')
          else relay_drain env batches (S batch) (relayed + processed) drain' d'
      end
  end.

Definition RelayOnce (env : nat -> RelayWorld) (d : EventDb) : Z * option EventError * EventDb :=
  let '(relayed, err, _, d) := relay_drain env relayMaxBatchesPerDrain 0 0 new_drain d in
  (relayed, err, d).

(** Inside a producer's transaction the insert joins it; without one it commits on its
    own and the relay is drained inline. *)
Definition Publish (role : Role) (now : instant) (in_transaction : bool)
    (env : nat -> RelayWorld) (e : EventEnvelope) (d : EventDb) : result EventError unit * EventDb :=
  if bool_decide (ev_Id e = "") || bool_decide (ev_Type e = "") || bool_decide (ev_Source e = "")
  then (Err ErrInvalidEnvelope, d)
  else
    match insertDomainEvent role now e (eventFingerprint e) d with
    | Err err => (Err err, d)
    | Ok (_, d') =>
        if in_transaction then (Ok tt, d')
        else
          let '(_, err, d'') := RelayOnce env d' in
          (match err with Some err => Err err | None => Ok tt end, d'')
    end.

(** *** Replay *)
(** [replayDomainEventsSQL]: one page after the cursor. *)
Definition replay_selects (sel : ReplaySelector) (tenant : option string) (cursor : Z)
    (r : DomainEvent) : bool :=
  let c := de_columns r in
  (bool_decide (sel_Type sel = "") || bool_decide (dc_type c = sel_Type sel))
  && match tenant with None => true | Some t => bool_decide (dc_tenant_id c = Some t) end
  && (time_is_zero (sel_Since sel) || (sel_Since sel <=? dc_created_at c))
  && (cursor <? dc_seq c).
Definition replay_page_rows (sel : ReplaySelector) (tenant : option string) (cursor : Z)
    (d : EventDb) : list DomainEvent :=
  take replayPageSize
    (merge_sort seq_le (filter (fun r => replay_selects sel tenant cursor r = true) (event_rows d))).

Fixpoint replay_fan_out (w : RelayWorld) (sel : ReplaySelector) (e : EventEnvelope)
    (nonce : string) (subs : list Subscription) : E unit :=
  match subs with
  | [] => mret tt
  | s :: subs =>
      (if bool_decide (sel_SubscriberPrincipalID sel <> "")
          && bool_decide (sub_SubscriberPrincipalID s <> sel_SubscriberPrincipalID sel)
       then mret tt
       else if negb (Matches (sub_TypePattern s) (ev_Type e)) then mret tt
       else map_error mapEnqueueError
         (enqueueOne w (delivery e s (ev_Id e ++ ":" ++ sub_ID s ++ nonce)%string)));;
      replay_fan_out w sel e nonce subs
  end.

Fixpoint replay_events (w : RelayWorld) (sel : ReplaySelector) (subs : list Subscription)
    (page : list EventEnvelope) : E unit :=
  match page with
  | [] => mret tt
  | e :: page =>
      (if IsInternalPublished published (ev_Type e) then mret tt
       else replay_fan_out w sel e (":replay:" ++ rw_nonce w (ev_Id e))%string subs);;
      replay_events w sel subs page
  end.

Definition replayPage (w : RelayWorld) (sel : ReplaySelector) (page : list EventEnvelope) : E unit :=
  d ← tx_get;
  replay_events w sel (liveSubscriptions (eventTypesOf page) d) page;;
  match rw_failure w with Some cause => tx_fail (ErrEvents cause) | None => mret tt end.

(** The [for] loop, with fuel; [None] when the fuel runs out first. *)
Fixpoint replay_loop (env : nat -> RelayWorld) (sel : ReplaySelector) (tenant : option string)
    (fuel : nat) (page : nat) (cursor : Z) (replayed : Z) (d : EventDb)
    : option (Z * option EventError * EventDb) :=
  match fuel with
  | O => None
  | S fuel =>
      let d := rw_others (env page) d in
      let rows := replay_page_rows sel tenant cursor d in
      match last rows with
      | None => Some (replayed, None, d)
      | Some r =>
          match replayPage (env page) sel (map envelope_of rows) d with
          | Err e => Some (replayed, Some e, d)
          | Ok (_, d') =>
              let replayed := replayed + Z.of_nat (length rows) in
              if (length rows <? replayPageSize)%nat then Some (replayed, None, d')
              else replay_loop env sel tenant fuel (S page) (dc_seq (de_columns r)) replayed d'
          end
      end
  end.

Definition Replay (env : nat -> RelayWorld) (fuel : nat) (sel : ReplaySelector) (d : EventDb)
    : option (Z * option EventError * EventDb) :=
  match nullableUUID (sel_TenantID sel) with
  | None => replay_loop env sel None fuel 0 0 0 d
  | Some s =>
      match parse_uuid s with
      | None => Some (0, Some (ErrEvents "invalid input syntax for type uuid"), d)
      | Some t => replay_loop env sel (Some t) fuel 0 0 0 d
      end
  end.
End Transport.

(** *** Claiming *)
Definition leaseToken (job : JobEnvelope) : string :=
  (e_id job ++ "|" ++ match e_lease job with Some l => l_token l | None => "" end)%string.

(** [strings.Cut(token, "|")] *)
Definition cut_bar (token : string) : option (string * string) :=
  let before := before_byte "|"%char token in
  let n := String.length before in
  if (n <? String.length token)%nat
  then Some (before, String.substring (n + 1) (String.length token - (n + 1)) token)
  else None.

Definition leaseReference (workerID token : string) : option JobLeaseReference :=
  match cut_bar token with
  | Some (jobID, fencingToken) =>
      Some {| lr_job_id := jobID; lr_worker_id := workerID; lr_lease_token := fencingToken |}
  | None => None
  end.

Definition mapLeaseError (e : EventError) : EventError :=
  match e with ErrFromJobs ErrLeaseLost => ErrEventLeaseLost | e => e end.

Section Consumer.
Context (format_uint : Z -> string).
Context (ValidateCommand : Command -> result JobError unit).
Context (layout : string -> option instant).
Context (workerID : string) (leaseDuration : duration).

Definition Claim (w : JobWorld) (queue : string) (max : Z) : E (list Leased) :=
  if max <? 1 then mret []
  else
    let max := if maxClaimBatch <? max then maxClaimBatch else max in
    jobs ← lift_jobs (JobQueue.Claim format_uint ValidateCommand w None
      {| cr_queue := queue; cr_worker_id := workerID; cr_limit := wrapu32 max;
         cr_lease_duration := leaseDuration |});
    mret (map (fun job => {| leased_Token := leaseToken job;
                             leased_Envelope := envelopeFromJob layout job |}) jobs).

Definition with_lease (token : string) (k : JobLeaseReference -> E unit) : E unit :=
  match leaseReference workerID token with
  | None => tx_fail ErrEventLeaseLost
  | Some lease => map_error mapLeaseError (k lease)
  end.

Definition Heartbeat (w : JobWorld) (token : string) : E unit :=
  with_lease token (fun lease =>
    lift_jobs (JobQueue.Heartbeat format_uint ValidateCommand w None lease leaseDuration);; mret tt).
Definition Ack (w : JobWorld) (token : string) : E unit :=
  with_lease token (fun lease =>
    lift_jobs (JobQueue.Complete format_uint ValidateCommand w None lease None)).
(** [now] is the process's clock. *)
Definition Nack (w : JobWorld) (now : instant) (token : string) (cause : option string)
    (permanent : bool) : E unit :=
  with_lease token (fun lease =>
    let failure := {| f_code := "events_nack"; f_message := nackMessage cause |} in
    if permanent
    then lift_jobs (JobQueue.DeadLetter format_uint ValidateCommand w None lease failure)
    else lift_jobs (JobQueue.Retry format_uint ValidateCommand w None lease failure now);; mret tt).
End Consumer.

(** ** The outbound dispatcher (postgres_webhook_relay.go)

    The body of a delivery is JSON and its job's payload protobuf: the two encoders
    are arguments, [None] where json.Marshal refuses the event's data. *)
Section WebhookRelay.
Context (base64url : string -> string).
Context (fingerprint : string -> Command -> string).
Context (ValidateCommand : Command -> result JobError unit).
Context (parse_uuid : string -> option string).
Context (render_body : string -> string -> string -> string -> string -> option string).
Context (encode_workload : WebhookDelivery -> string -> string).
Context (ValidateWorkload : WebhookDelivery -> string -> result JobError unit).

Definition NewDomainEventWebhookDelivery (deliveryID eventID eventType subscriptionID : string)
    (occurred : instant) (data : string) : result EventError (WebhookDelivery * string) :=
  match render_body eventID eventType data (FormatRFC3339Nano occurred) deliveryID with
  | None => Err (ErrEvents "json: error calling MarshalJSON")
  | Some payload =>
      Ok ({| wd_ID := deliveryID; wd_SubscriptionID := subscriptionID; wd_EventID := eventID;
             wd_OutboxEventID := eventID; wd_EventType := eventType; wd_Payload := payload;
             wd_Status := "pending"; wd_AttemptCount := 0 |}, payload)
  end.

Definition newOutboundWebhookJob (orgID : string) (delivery : WebhookDelivery) (rawBody : string)
    : result EventError EnqueueJobRequest :=
  match ValidateWorkload delivery rawBody with
  | Err e => Err (ErrFromJobs e)
  | Ok _ =>
      let request :=
        {| er_job :=
          {| job_direction := JOB_DIRECTION_OUTBOX; job_scope := JobScope_OrganizationId orgID;
             job_queue := "webhooks"; job_topic := "webhook.delivery.send";
             job_source := "saas.audit"; job_idempotency_key := wd_ID delivery;
             job_ordering := Some {| key_namespace := "webhook_subscription";
                                     key_components := [wd_SubscriptionID delivery] |};
             job_schema_version := 1; job_payload := encode_workload delivery rawBody;
             job_content_type := "application/protobuf"; job_attributes := ∅;
             job_priority := 0; job_max_attempts := 5; job_available_at := None |} |} in
      match ValidateCommand (CmdEnqueue request) with
      | Err e => Err (ErrFromJobs e)
      | Ok _ => Ok request
      end
  end.

(** uq_webhook_outbox_event_subscription, the primary key, and the foreign key to the
    endpoint. *)
Definition CreateWebhookDelivery (x : WebhookDelivery) : E unit := fun d =>
  let event := if decide (wd_EventID x = "") then wd_ID x else wd_EventID x in
  let x := {| wd_ID := wd_ID x; wd_SubscriptionID := wd_SubscriptionID x; wd_EventID := event;
              wd_OutboxEventID := wd_OutboxEventID x; wd_EventType := wd_EventType x;
              wd_Payload := wd_Payload x; wd_Status := wd_Status x;
              wd_AttemptCount := wd_AttemptCount x |} in
  if existsb (fun y => bool_decide (wd_ID y = wd_ID x)) (ed_deliveries d)
  then Err (ErrEvents "duplicate key value violates unique constraint")
  else if negb (bool_decide (wd_OutboxEventID x = ""))
     && existsb (fun y => bool_decide (wd_SubscriptionID y = wd_SubscriptionID x)
                          && bool_decide (wd_OutboxEventID y = wd_OutboxEventID x)) (ed_deliveries d)
  then Err ErrWebhookDeliveryExists
  else if is_some (ed_endpoints d !! wd_SubscriptionID x) then Ok (tt, add_delivery x d)
  else Err ErrForeignKey.

Definition deliverOn (w : RelayWorld) (x : WebhookDelivery) (request : EnqueueJobRequest) : E unit :=
  CreateWebhookDelivery x;;
  enqueueOne base64url fingerprint ValidateCommand parse_uuid w request.

(** [GetTime().AsTime()]: the epoch when the envelope carries no time. *)
Definition Deliver (w : RelayWorld) (e : EventEnvelope) (s : Subscription)
    : E WebhookDeliveryOutcome := fun d =>
  match NewDomainEventWebhookDelivery (rw_delivery_id w (ev_Id e) (sub_WebhookSubscriptionID s))
          (ev_Id e) (ev_Type e) (sub_WebhookSubscriptionID s) (default 0 (ev_Time e)) (ev_Data e) with
  | Err err => Err err
  | Ok (x, body) =>
      match newOutboundWebhookJob (sub_OrgID s) x body with
      | Err err => Err err
      | Ok request =>
          match deliverOn w x request d with
          | Ok (_, d') => Ok (WebhookDelivered, d')
          | Err ErrWebhookDeliveryExists => Ok (WebhookAlreadyDelivered, d)
          | Err ErrForeignKey => Ok (WebhookEndpointGone, d)
          | Err err => Err err
          end
      end
  end.
End WebhookRelay.
