(* ===== verification/EventRelayProofs.v ===== *)
(** The event relay at work: what an enqueue, a fan-out and a batch do to the tables,
    and what the relay asks of a webhook dispatcher. *)
From S2P Require Import Prelude GoText JobState JobQueue JobQueueProofs EventEnvelope EventRelay.

Local Open Scope Z_scope.

(** ** Jobs *)
Definition prepared_columns (w : JobWorld) (j : preparedJobEnqueue) (n : Z) : JobColumns :=
  {| c_id := jw_job_id w; c_direction := pj_direction j; c_scope_kind := pj_scopeKind j;
     c_organization_id := pj_organizationID j; c_subject_id := pj_subjectID j;
     c_queue := pj_queue j; c_topic := pj_topic j; c_source := pj_source j;
     c_idempotency_key := pj_idempotencyKey j;
     c_request_fingerprint := pj_requestFingerprint j; c_ordering_key := pj_orderingKey j;
     c_schema_version := pj_schemaVersion j; c_payload := pj_payload j;
     c_content_type := pj_contentType j; c_attributes := pj_attributes j;
     c_priority := pj_priority j; c_max_attempts := pj_maxAttempts j; c_replay_of := None;
     c_created_at := jw_now w; c_enqueue_seq := n |}.

(** Some row carries the identity of [c] and its request. *)
Definition holds_request (c : JobColumns) (j : JobDb) : Prop :=
  exists m, m ∈ rows_of j /\ identity_of (m_columns m) = identity_of c /\
    c_request_fingerprint (m_columns m) = c_request_fingerprint c.

(** The rows there were stay, and the new ones, numbered from where the queue was,
    satisfy [P]. *)
Definition appends (P : JobColumns -> Prop) (j j' : JobDb) : Prop :=
  next_seq j <= next_seq j' /\
  (forall id m, messages j !! id = Some m -> messages j' !! id = Some m) /\
  (forall id m, messages j' !! id = Some m ->
     messages j !! id = Some m \/
     (messages j !! id = None /\ P (m_columns m) /\
      next_seq j <= c_enqueue_seq (m_columns m) < next_seq j')).

Lemma appends_refl P j : appends P j j.
Proof. split_and!; [lia|done|by left]. Qed.

Lemma appends_trans P j1 j2 j3 : appends P j1 j2 -> appends P j2 j3 -> appends P j1 j3.
Proof.
  intros (N1 & K1 & A1) (N2 & K2 & A2). split_and!; [lia|naive_solver|].
  intros id m Hm. destruct (A2 _ _ Hm) as [H2|(H2 & HP & Hs)].
  - destruct (A1 _ _ H2) as [|(? & ? & ?)]; [by left|right]. split_and!; [done|done|lia|lia].
  - right. split_and!; [|done|lia|lia]. destruct (messages j1 !! id) eqn:E; [|done].
    by rewrite (K1 _ _ E) in H2.
Qed.

Lemma appends_impl (P P' : JobColumns -> Prop) j j' :
  (forall c, P c -> P' c) -> appends P j j' -> appends P' j j'.
Proof. intros HP (N & K & A). split_and!; [done|done|]. intros id m Hm. destruct (A _ _ Hm); naive_solver. Qed.

Lemma rows_of_appends P j j' m : appends P j j' -> m ∈ rows_of j -> m ∈ rows_of j'.
Proof.
  intros (_ & K & _) Hm. unfold rows_of in *. rewrite !list_elem_of_fmap in *.
  destruct Hm as ([id m'] & -> & Hin). exists (id, m'). split; [done|].
  apply elem_of_map_to_list in Hin. apply elem_of_map_to_list. by apply K.
Qed.

Lemma holds_request_appends P c j j' : appends P j j' -> holds_request c j -> holds_request c j'.
Proof. intros Ha (m & Hm & ?). exists m. split; [by eapply rows_of_appends|done]. Qed.

Lemma insert_or_find_appends w c av j j' id print ins :
  c_enqueue_seq c = next_seq j ->
  insert_or_find w c av j = Ok ((id, print, ins), j') ->
  appends (fun c' => c' = c) j j' /\
  exists m, m ∈ rows_of j' /\ identity_of (m_columns m) = identity_of c /\
    c_request_fingerprint (m_columns m) = print.
Proof.
  intros Hseq H. unfold insert_or_find in H.
  apply tx_bind_ok in H as (j0 & j0' & Hg & H). cbv [tx_get] in Hg. injection Hg as <- <-.
  apply tx_bind_ok in H as (? & j1 & Hp & H). cbv [tx_put] in Hp. injection Hp as _ <-.
  destruct (_ || _) eqn:Hx.
  - destruct (filter _ (rows_of j)) as [|m l] eqn:Hf; [done|].
    cbv [mret tx_ret] in H. injection H as <- <- <- <-. split.
    + split_and!; cbn; [lia|done|by left].
    + assert (Hm : m ∈ filter (fun m => same_identity c m = true) (rows_of j)) by (rewrite Hf; by left).
      rewrite list_elem_of_filter in Hm. destruct Hm as [Hs Hin].
      exists m. split; [exact Hin|]. split; [|done].
      unfold same_identity in Hs. by apply bool_decide_eq_true in Hs.
  - apply orb_false_iff in Hx as [Hn _].
    apply tx_bind_ok in H as (? & j1 & Hi & H). cbv [mret tx_ret] in H. injection H as <- <- <- <-.
    unfold insert_message in Hi. destruct (row_checks _); [|done]. cbn in Hi. injection Hi as _ <-.
    assert (Hnone : messages j !! c_id c = None) by by destruct (messages j !! c_id c).
    split.
    + split_and!; cbn; [lia| |].
      * intros i m Hm. rewrite lookup_insert_ne; [done|]. intros <-. by rewrite Hm in Hnone.
      * intros i m Hm. rewrite lookup_insert_Some in Hm. destruct Hm as [[<- <-]|[_ Hm]]; [|by left].
        right. cbn. split_and!; [done|done|lia|lia].
    + exists (new_row w c av). split; [|done]. unfold rows_of. cbn.
      apply list_elem_of_fmap. exists (c_id c, new_row w c av). split; [done|].
      apply elem_of_map_to_list. cbn. by rewrite lookup_insert_eq.
Qed.

Lemma enqueuePrepared_appends w j d d' resp :
  enqueuePreparedJob w app_job_worker j d = Ok (resp, d') ->
  appends (fun c => c = prepared_columns w j (next_seq d)) d d' /\
  holds_request (prepared_columns w j (next_seq d)) d'.
Proof.
  intros H. unfold enqueuePreparedJob in H. apply tx_bind_ok in H as (? & d1 & Hl & H).
  assert (d1 = d) as ->.
  { case_decide; [cbv [mret tx_ret] in Hl; by injection Hl|].
    unfold lockModuleJobAuthority in Hl. repeat case_match; by simplify_eq. }
  clear Hl. unfold insertPreparedJob in H. apply tx_bind_ok in H as ([[id print] ins] & d2 & He & H).
  cbn [fst snd] in H. case_decide as Hp; [|done]. cbv [mret tx_ret] in H. injection H as <- <-.
  unfold enqueue_job_message in He. cbn [role_may_enqueue negb] in He.
  apply tx_bind_ok in He as (d0 & d0' & Hg & He). cbv [tx_get] in Hg. injection Hg as <- <-.
  apply (insert_or_find_appends _ (prepared_columns w j (next_seq d))) in He; [|done].
  destruct He as [Ha (m & Hm & Hid & Hpr)]. split; [done|]. exists m. split_and!; [done..|]. cbn. congruence.
Qed.

(** ** The tables a fan-out leaves alone *)
Definition same_tables (d d' : EventDb) : Prop :=
  ed_events d' = ed_events d /\ ed_next_seq d' = ed_next_seq d /\
  ed_subscriptions d' = ed_subscriptions d /\ ed_endpoints d' = ed_endpoints d /\
  ed_visibility d' = ed_visibility d.

#[export] Instance same_tables_preorder : PreOrder same_tables.
Proof.
  split; [intros d; by split_and!|].
  intros d1 d2 d3 (?&?&?&?&?) (?&?&?&?&?). split_and!; congruence.
Qed.

Lemma lift_jobs_ok {A} (m : Q A) d a d' :
  lift_jobs m d = Ok (a, d') -> exists j', m (ed_jobs d) = Ok (a, j') /\ d' = set_jobs j' d.
Proof.
  unfold lift_jobs. destruct (m (ed_jobs d)) as [[? j']|]; [|done]. intros [= <- <-]. by exists j'.
Qed.

Lemma map_error_ok {A} f (m : E A) d r : map_error f m d = Ok r -> m d = Ok r.
Proof. unfold map_error. by destruct (m d). Qed.

Lemma tx_ret_ok {S Er A} (a b : A) (s s' : S) : (mret a : tx S Er A) s = Ok (b, s') -> a = b /\ s = s'.
Proof. by intros [= -> ->]. Qed.

(** What a dispatcher promises the relay: on success it has only appended outbound jobs
    and delivery history. *)
Class WebhookDispatcher
    (deliver : RelayWorld -> EventEnvelope -> Subscription -> E WebhookDeliveryOutcome) : Prop := {
  deliver_frame w e s d o d' :
    deliver w e s d = Ok (o, d') ->
    same_tables d d' /\
    appends (fun c => c_direction c = "outbox" /\ c_created_at c = rw_now w) (ed_jobs d) (ed_jobs d');
}.

Section Relay.
Context (base64url : string -> string).
Context (fingerprint : string -> Command -> string).
Context (ValidateCommand : Command -> result JobError unit).
Context (parse_uuid : string -> option string).
Abbreviation enqueue := (enqueueOne base64url fingerprint ValidateCommand parse_uuid).
Abbreviation prepare := (prepareJobEnqueue base64url fingerprint ValidateCommand parse_uuid).

Lemma enqueueOne_ok w r d d' u :
  enqueue w r d = Ok (u, d') ->
  exists j n, prepare r = Ok j /\ same_tables d d' /\ ed_deliveries d' = ed_deliveries d /\
    appends (fun c => c = prepared_columns (job_world w (job_idempotency_key (er_job r))) j n)
      (ed_jobs d) (ed_jobs d') /\
    holds_request (prepared_columns (job_world w (job_idempotency_key (er_job r))) j n) (ed_jobs d').
Proof.
  unfold enqueueOne. intros H. apply tx_bind_ok in H as (j & d0 & Hj & H).
  apply lift_jobs_ok in Hj as (j0 & Hj & ->). apply tx_lift_ok in Hj as [Hj ->].
  apply tx_bind_ok in H as (resp & d1 & He & H). apply tx_ret_ok in H as [_ <-].
  apply lift_jobs_ok in He as (j1 & He & ->). cbn in He.
  apply enqueuePrepared_appends in He as [Ha Hh]. eexists j, _. by split_and!.
Qed.

(** The ordering key of a delivery, as its row spells it. *)
Definition ordering_text (o : option JobOrderingKey) : option string :=
  match CanonicalOrderingKey base64url ValidateCommand o with
  | Ok k => if decide (k = "") then None else Some k
  | Err _ => None
  end.

(** The columns of the inbox job that carries [e] to [s]. *)
Record carries (e : EventEnvelope) (s : Subscription) (key : string) (c : JobColumns) : Prop := {
  ca_direction : c_direction c = "inbox";
  ca_queue : c_queue c = sub_Queue s;
  ca_topic : c_topic c = ev_Type e;
  ca_source : c_source c = ev_Source e;
  ca_key : c_idempotency_key c = key;
  ca_ordering : c_ordering_key c =
    ordering_text (if decide (sub_Delivery s = DeliveryOrdered)
                   then eventOrdering (ev_PartitionKey e) else None);
  ca_attributes : c_attributes c = eventAttributes e;
  ca_payload : c_payload c = ev_Data e;
  ca_scope : c_organization_id c = match eventScope (ev_TenantId e) with
    | JobScope_OrganizationId id => parse_uuid id | _ => None end;
}.

Lemma prepare_delivery e s key j w n :
  prepare (delivery e s key) = Ok j -> carries e s key (prepared_columns w j n).
Proof.
  unfold prepareJobEnqueue. cbn [er_job delivery]. intros H.
  destruct (EnqueueFingerprint _ _ _); [|done]. cbn [job_direction DatabaseDirection] in H.
  destruct (enqueueScopeValues _ _) as [[[k o] u]|] eqn:Hs; [|done].
  destruct (CanonicalOrderingKey _ _ _) as [k'|] eqn:Hk; [|done]. injection H as <-.
  constructor; cbn; try done.
  - unfold ordering_text. cbn in Hk. by rewrite Hk.
  - cbn in Hs. unfold eventScope in *. case_decide; cbn in *; [by simplify_eq|].
    unfold enqueueScopeValues in Hs. destruct (parse_uuid _); by simplify_eq.
Qed.

Context (published : list PublishedEvent).
Context (webhooks : option (RelayWorld -> EventEnvelope -> Subscription -> E WebhookDeliveryOutcome)).
(** Whatever is wired behind the seam keeps the promise. *)
Context (dispatches : forall deliver, webhooks = Some deliver -> WebhookDispatcher deliver).

(** A subscription whose queue the relay puts [e] on. *)
Definition queued_to (e : EventEnvelope) (s : Subscription) : Prop :=
  Matches (sub_TypePattern s) (ev_Type e) = true /\ sub_Delivery s <> DeliveryWebhook /\
  Namespace (ev_Type e) <> PlatformAuditNamespace.
Definition relay_key (e : EventEnvelope) (s : Subscription) : string :=
  (ev_Id e ++ ":" ++ sub_ID s)%string.

(** The jobs one event's fan-out appends. *)
Definition fan_out_job (w : RelayWorld) (e : EventEnvelope) (subs : list Subscription)
    (c : JobColumns) : Prop :=
  c_created_at c = rw_now w /\
  (c_direction c = "outbox" \/
   exists s, s ∈ subs /\ queued_to e s /\ carries e s (relay_key e s) c).

Abbreviation one := (fan_out_one base64url fingerprint ValidateCommand parse_uuid webhooks).
Abbreviation all := (fan_out base64url fingerprint ValidateCommand parse_uuid webhooks).

(** The job of [e] for [s] is in the queue. *)
Definition delivered (e : EventEnvelope) (s : Subscription) (j : JobDb) : Prop :=
  exists c, carries e s (relay_key e s) c /\ holds_request c j.

Lemma relayToWebhook_ok w e s external d d' o :
  relayToWebhook webhooks w e s external d = Ok (o, d') ->
  same_tables d d' /\ appends (fan_out_job w e [s]) (ed_jobs d) (ed_jobs d').
Proof.
  unfold relayToWebhook. intros H.
  destruct (negb external); [apply tx_ret_ok in H as [_ <-]; split; [done|apply appends_refl]|].
  destruct (_ || _); [apply tx_ret_ok in H as [_ <-]; split; [done|apply appends_refl]|].
  destruct webhooks as [deliver|] eqn:Hw; [|done].
  apply (@deliver_frame _ (dispatches _ eq_refl)) in H as [Ht Ha]. split; [done|].
  eapply appends_impl; [|exact Ha]. intros c [Hd Hc]. split; [done|by left].
Qed.

Lemma fan_out_one_ok w e external s d d' u :
  one w e external s d = Ok (u, d') ->
  same_tables d d' /\ appends (fan_out_job w e [s]) (ed_jobs d) (ed_jobs d') /\
  (queued_to e s -> delivered e s (ed_jobs d')).
Proof.
  unfold fan_out_one, queued_to. intros H.
  destruct (Matches _ _) eqn:Hm; cbn [negb] in H;
    [|apply tx_ret_ok in H as [_ <-]; split_and!; [done|apply appends_refl|naive_solver]].
  case_decide as Hw.
  { apply tx_bind_ok in H as (o & d1 & H & Hr). apply tx_ret_ok in Hr as [_ <-].
    apply relayToWebhook_ok in H as [? ?]. split_and!; [done|done|naive_solver]. }
  case_decide as Hn; [apply tx_ret_ok in H as [_ <-]; split_and!; [done|apply appends_refl|naive_solver]|].
  apply map_error_ok, enqueueOne_ok in H as (j & n & Hj & Ht & _ & Ha & Hh).
  pose proof (fun w n => prepare_delivery _ _ _ _ w n Hj) as Hc. split_and!; [done| |].
  - eapply appends_impl; [|exact Ha]. intros c ->. split; [done|]. right.
    exists s. split; [by left|]. split; [done|]. apply Hc.
  - intros _. eexists. split; [|exact Hh]. apply Hc.
Qed.

Lemma fan_out_job_mono w e subs subs' c :
  (forall s, s ∈ subs -> s ∈ subs') -> fan_out_job w e subs c -> fan_out_job w e subs' c.
Proof. intros Hs [Hc [?|(s & ? & ?)]]; split; [done|by left|done|right; exists s; eauto]. Qed.

Lemma fan_out_ok w e external subs d d' u :
  all w e external subs d = Ok (u, d') ->
  same_tables d d' /\ appends (fan_out_job w e subs) (ed_jobs d) (ed_jobs d') /\
  (forall s, s ∈ subs -> queued_to e s -> delivered e s (ed_jobs d')).
Proof.
  revert d. induction subs as [|s subs IH]; intros d H; cbn [fan_out] in H.
  { apply tx_ret_ok in H as [_ <-]. split_and!; [done|apply appends_refl|].
    intros s Hs. by apply elem_of_nil in Hs. }
  apply tx_bind_ok in H as (u1 & d1 & H1 & H2).
  apply fan_out_one_ok in H1 as (T1 & A1 & D1). apply IH in H2 as (T2 & A2 & D2). split_and!.
  - by etrans.
  - eapply appends_trans; (eapply appends_impl; [|eassumption]); intros c; apply fan_out_job_mono;
      intros s'; rewrite ?elem_of_cons; [rewrite elem_of_nil; naive_solver|naive_solver].
  - intros s' [->|Hs']%elem_of_cons Hq; [|by apply D2].
    destruct (D1 Hq) as (c & ? & Hh). exists c. split; [done|]. by eapply holds_request_appends.
Qed.

Lemma mark_published_ok w id d d' u :
  mark_published w id d = Ok (u, d') ->
  rw_fault w id = None /\ d' = set_events (alter (published_row (rw_now w)) id (ed_events d)) d.
Proof. unfold mark_published. destruct (rw_fault w id); [done|]. by intros [= _ <-]. Qed.

(** What a relayed event leaves behind. *)
Record relayed (w : RelayWorld) (e : EventEnvelope) (subs : list Subscription)
    (d d' : EventDb) : Prop := {
  rel_events : ed_events d' = alter (published_row (rw_now w)) (ev_Id e) (ed_events d);
  rel_seq : ed_next_seq d' = ed_next_seq d;
  rel_subs : ed_subscriptions d' = ed_subscriptions d;
  rel_endpoints : ed_endpoints d' = ed_endpoints d;
  rel_jobs : appends (fun c => IsInternalPublished published (ev_Type e) = false /\ fan_out_job w e subs c)
    (ed_jobs d) (ed_jobs d');
  rel_delivered : IsInternalPublished published (ev_Type e) = false ->
    forall s, s ∈ subs -> queued_to e s -> delivered e s (ed_jobs d');
}.

Lemma relayEvent_ok w e subs d d' u :
  relayEvent base64url fingerprint ValidateCommand parse_uuid published webhooks w e subs d = Ok (u, d') ->
  relayed w e subs d d'.
Proof.
  unfold relayEvent. intros H. destruct (IsInternalPublished _ _) eqn:Hi.
  - apply mark_published_ok in H as [_ ->]. constructor; cbn; [done..|apply appends_refl|].
    by rewrite Hi.
  - apply tx_bind_ok in H as (d0 & d1 & Hg & H). cbv [tx_get] in Hg. injection Hg as <- <-.
    apply tx_bind_ok in H as (u1 & d1 & H1 & H2). apply fan_out_ok in H1 as ((Te & Ts & Tb & Tp & _) & A & D).
    apply mark_published_ok in H2 as [_ ->]. constructor; cbn; try done.
    + by rewrite Te.
    + eapply appends_impl; [|exact A]. by intros c ?.
Qed.

(** *** One batch *)
Definition held (e : EventEnvelope) (drain : relayDrain) : Prop :=
  ev_PartitionKey e <> "" /\ ev_PartitionKey e ∈ drain_blocked drain.

Lemma held_spec e drain :
  bool_decide (ev_PartitionKey e <> "") && bool_decide (ev_PartitionKey e ∈ drain_blocked drain) = true
  <-> held e drain.
Proof.
  unfold held. split.
  - intros [H1 H2]%andb_true_iff. apply bool_decide_eq_true_1 in H1, H2. done.
  - intros [H1 H2]. apply andb_true_iff. split; by apply bool_decide_eq_true_2.
Qed.

Abbreviation owes := (owesOrderedDelivery published).
Abbreviation relay_all := (relay_events base64url fingerprint ValidateCommand parse_uuid published webhooks).
Abbreviation batch := (relayBatch base64url fingerprint ValidateCommand parse_uuid published webhooks).

(** The drain after [e] failed. *)
Definition charged (e : EventEnvelope) (subs : list Subscription) (parked : bool) (drain : relayDrain)
    : relayDrain :=
  {| drain_failed := drain_failed drain ++ [ev_Id e];
     drain_blocked :=
       if negb parked && owes e subs
       then {[ev_PartitionKey e]} ∪ drain_blocked drain else drain_blocked drain |}.

(** The rule of the batch's loop: what each of an event's three ways preserves holds at
    the end. *)
Lemma relay_events_rule w subs (I : list EventEnvelope -> EventDb -> relayDrain -> Z -> Prop) :
  (forall e rest d drain n, I (e :: rest) d drain n -> held e drain -> I rest d drain n) ->
  (forall e rest d drain n d', I (e :: rest) d drain n -> ~ held e drain ->
     relayed w e subs d d' -> I rest d' drain (n + 1)) ->
  (forall e rest d drain n r cause, I (e :: rest) d drain n -> ~ held e drain ->
     ed_events d !! ev_Id e = Some r ->
     let r' := failed_row (rw_now w) cause r in
     I rest (set_events (<[ev_Id e := r']> (ed_events d)) d)
       (charged e subs (is_some (de_dead_lettered_at r')) drain) n) ->
  forall pending d drain n m drain' d',
    I pending d drain n -> relay_all w subs pending drain n d = Ok ((m, drain'), d') ->
    I [] d' drain' m.
Proof.
  intros Hheld Hok Hfail. induction pending as [|e rest IH]; intros d drain n m drain' d' HI H.
  { cbn in H. by apply tx_ret_ok in H as [[= <- <-] <-]. }
  cbn [relay_events] in H. destruct (_ && _) eqn:Hb.
  - eapply IH; [|exact H]. eapply Hheld; [exact HI|]. by apply held_spec.
  - assert (Hn : ~ held e drain) by (intros Hh%held_spec; congruence).
    destruct (relayEvent _ _ _ _ _ _ _ _ _ _) as [[u d1]|cause] eqn:Hr.
    + eapply IH; [|exact H]. eapply Hok; [exact HI|done|]. by eapply relayEvent_ok.
    + apply tx_bind_ok in H as (parked & d1 & Hp & H). unfold recordRelayFailure in Hp.
      destruct (ed_events d !! ev_Id e) as [r|] eqn:Hrow; [|done]. cbv zeta in Hp. injection Hp as <- <-.
      eapply IH; [|exact H]. exact (Hfail _ _ _ _ _ _ _ HI Hn Hrow).
Qed.

(** The loop does not fail while the rows it names exist. *)
Lemma relay_events_total w subs pending drain n d :
  (forall e, e ∈ pending -> is_Some (ed_events d !! ev_Id e)) ->
  exists m drain' d', relay_all w subs pending drain n d = Ok ((m, drain'), d').
Proof.
  revert drain n d. induction pending as [|e rest IH]; intros drain n d Hrows.
  { by eexists _, _, _. }
  cbn [relay_events].
  assert (Hrest : forall e', e' ∈ rest -> is_Some (ed_events d !! ev_Id e'))
    by (intros e' He'; apply Hrows; by right).
  destruct (_ && _); [by apply IH|].
  destruct (relayEvent _ _ _ _ _ _ _ _ _ _) as [[u d1]|cause] eqn:Hr.
  - apply IH. intros e' He'. apply relayEvent_ok in Hr. rewrite (rel_events _ _ _ _ _ Hr).
    destruct (Hrest e' He') as [r Hr']. destruct (decide (ev_Id e = ev_Id e')) as [Heq|Hne].
    + rewrite Heq, lookup_alter_eq, Hr'. by eexists.
    + rewrite lookup_alter_ne, Hr' by done. by eexists.
  - destruct (Hrows e) as [r Hrow]; [by left|].
    edestruct (IH (charged e subs
      (is_some (de_dead_lettered_at (failed_row (rw_now w) (nackMessage (Some (error_text cause))) r))) drain)
      n (set_events (<[ev_Id e := failed_row (rw_now w) (nackMessage (Some (error_text cause))) r]>
          (ed_events d)) d)) as (m & drain' & d' & HH).
    + intros e' He'. cbn. destruct (decide (ev_Id e = ev_Id e')) as [Heq|Hne].
      * rewrite Heq, lookup_insert_eq. by eexists.
      * rewrite lookup_insert_ne by done. by apply Hrest.
    + exists m, drain', d'. unfold mbind, tx_bind, recordRelayFailure. rewrite Hrow. exact HH.
Qed.
End Relay.

(** ** The events table *)
Record events_wf (d : EventDb) : Prop := {
  ew_keyed : forall id r, ed_events d !! id = Some r -> dc_id (de_columns r) = id;
  ew_below : forall id r, ed_events d !! id = Some r -> dc_seq (de_columns r) < ed_next_seq d;
  ew_seq : forall i j r s, ed_events d !! i = Some r -> ed_events d !! j = Some s ->
    dc_seq (de_columns r) = dc_seq (de_columns s) -> i = j;
}.

Lemma events_wf_same d d' :
  ed_events d' = ed_events d -> ed_next_seq d <= ed_next_seq d' -> events_wf d -> events_wf d'.
Proof.
  intros He Hn [Hk Hb Hs]. constructor; rewrite He; try done.
  intros id r Hr. specialize (Hb _ _ Hr). lia.
Qed.

Lemma event_rows_elem d r :
  r ∈ event_rows d <-> (exists id, ed_events d !! id = Some r).
Proof.
  unfold event_rows. rewrite list_elem_of_fmap. split.
  - intros ([id r'] & -> & Hin). exists id. by apply elem_of_map_to_list.
  - intros [id Hr]. exists (id, r). split; [done|]. by apply elem_of_map_to_list.
Qed.

Definition row_id (r : DomainEvent) : string := dc_id (de_columns r).
Lemma envelope_id r : ev_Id (envelope_of r) = row_id r.
Proof. done. Qed.

Lemma event_rows_nodup d : events_wf d -> NoDup (map row_id (event_rows d)).
Proof.
  intros Hwf. unfold event_rows. rewrite map_map.
  rewrite (map_ext_in _ fst).
  - apply NoDup_fst_map_to_list.
  - intros [id r] Hin. apply list_elem_of_In, elem_of_map_to_list in Hin.
    by apply (ew_keyed _ Hwf) in Hin.
Qed.

Definition selected (w : RelayWorld) (failed : list string) (d : EventDb) : list DomainEvent :=
  take relayBatchSize
    (merge_sort seq_le (filter (fun r => relay_selects w failed r = true) (event_rows d))).

Lemma selected_elem w failed d r :
  events_wf d -> r ∈ selected w failed d ->
  ed_events d !! row_id r = Some r /\ awaits_relay r = true /\ (row_id r ∉ failed) /\
  row_id r ∉ rw_locked w.
Proof.
  intros Hwf Hr. apply limit_elem in Hr as [Hs Hin]. apply event_rows_elem in Hin as [id Hid].
  pose proof (ew_keyed _ Hwf _ _ Hid) as Hk. unfold row_id. rewrite Hk. split; [done|].
  unfold relay_selects in Hs. bool_to_prop. rewrite Hk in *.
  split_and!; [done|by apply contains_string_false|].
  match goal with H : bool_decide _ = false |- _ => by apply bool_decide_eq_false in H end.
Qed.

Lemma selected_rest w failed d id r :
  events_wf d -> ed_events d !! id = Some r -> awaits_relay r = true -> id ∉ failed ->
  id ∉ rw_locked w -> r ∉ selected w failed d ->
  length (selected w failed d) = relayBatchSize /\
  (forall s, s ∈ selected w failed d -> seq_le s r).
Proof.
  intros Hwf Hr Ha Hf Hl. apply limit_rest; [apply _|apply _|..].
  - cbv beta. unfold relay_selects. rewrite (ew_keyed _ Hwf _ _ Hr), Ha.
    apply contains_string_false in Hf. rewrite Hf. by rewrite bool_decide_eq_false_2.
  - apply event_rows_elem. by exists id.
Qed.

Lemma selected_sorted w failed d : StronglySorted seq_le (selected w failed d).
Proof. apply limit_sorted; apply _. Qed.

Lemma selected_nodup w failed d : events_wf d -> NoDup (map row_id (selected w failed d)).
Proof. intros Hwf. by apply limit_nodup, event_rows_nodup. Qed.

Lemma select_selected w failed d :
  select_unpublished w failed d = map envelope_of (selected w failed d).
Proof. done. Qed.

(** ** Row by row *)
Lemma published_columns t r : de_columns (published_row t r) = de_columns r.
Proof. done. Qed.
Lemma failed_columns t cause r : de_columns (failed_row t cause r) = de_columns r.
Proof. done. Qed.

(** A row of the next state came from a row with the same columns, waiting if it waits. *)
Definition rows_kept (d d' : EventDb) : Prop :=
  ed_next_seq d' = ed_next_seq d /\
  (forall id, is_Some (ed_events d !! id) <-> is_Some (ed_events d' !! id)) /\
  (forall id r', ed_events d' !! id = Some r' ->
     exists r, ed_events d !! id = Some r /\ de_columns r' = de_columns r /\
       (awaits_relay r' = true -> awaits_relay r = true)).

Lemma rows_kept_refl d : rows_kept d d.
Proof. split_and!; [done|done|]. intros id r Hr. by exists r. Qed.

Lemma rows_kept_trans d1 d2 d3 : rows_kept d1 d2 -> rows_kept d2 d3 -> rows_kept d1 d3.
Proof.
  intros (S1 & I1 & K1) (S2 & I2 & K2). split_and!; [congruence| |].
  - intros id. by rewrite I1.
  - intros id r3 H3. destruct (K2 _ _ H3) as (r2 & H2 & C2 & A2).
    destruct (K1 _ _ H2) as (r1 & H1 & C1 & A1). exists r1. split_and!; [done|congruence|auto].
Qed.

Lemma rows_kept_wf d d' : rows_kept d d' -> events_wf d -> events_wf d'.
Proof.
  intros (S & _ & K) [Hk Hb Hs]. split.
  - intros id r' Hr'. destruct (K _ _ Hr') as (r & Hr & -> & _). by apply Hk.
  - intros id r' Hr'. destruct (K _ _ Hr') as (r & Hr & -> & _). rewrite S. by eapply Hb.
  - intros i j r' s' Hi Hj. destruct (K _ _ Hi) as (r & Hr & -> & _), (K _ _ Hj) as (s & Hs' & -> & _).
    by eapply Hs.
Qed.

Lemma relayed_kept pub b64 vc pu w e subs d d' :
  relayed b64 vc pu pub w e subs d d' -> rows_kept d d'.
Proof.
  intros [He Hq _ _ _ _]. split_and!; [done| |]; rewrite He; intros id.
  - rewrite lookup_alter. case_decide; [|done]. subst id. symmetry. apply fmap_is_Some.
  - intros r'. rewrite lookup_alter. case_decide as Hid; [subst id|intros Hr; by exists r'].
    intros (r & Hr & ->)%fmap_Some. by exists r.
Qed.

Lemma failed_kept d id t cause r :
  ed_events d !! id = Some r -> awaits_relay r = true ->
  rows_kept d (set_events (<[id := failed_row t cause r]> (ed_events d)) d).
Proof.
  intros Hr Ha. split_and!; [done| |]; cbn; intros id'.
  - destruct (decide (id = id')) as [<-|]; [|by rewrite lookup_insert_ne].
    rewrite lookup_insert_eq, Hr. by split; eexists.
  - intros r'. rewrite lookup_insert_Some. intros [[<- <-]|[_ Hr']]; [|by exists r'].
    by exists r.
Qed.

(** ** Publishing *)
Lemma uuid_param_ok pu o d r d' :
  uuid_param pu o d = Ok (r, d') ->
  d' = d /\ match o with None => r = None | Some x => exists u, pu x = Some u /\ r = Some u end.
Proof.
  unfold uuid_param. destruct o as [x|]; [|intros H; by apply tx_ret_ok in H as [<- <-]].
  destruct (pu x) as [u|]; [|done]. intros H. apply tx_ret_ok in H as [<- <-]. by eauto.
Qed.

(** An accepted publish has written the event, or found the same fact under its id. *)
Lemma insertDomainEvent_ok pu role now e print d u d' :
  insertDomainEvent pu role now e print d = Ok (u, d') ->
  exists id tenant, pu (ev_Id e) = Some id /\
    match nullableUUID (ev_TenantId e) with
    | None => tenant = None | Some x => exists t, pu x = Some t /\ tenant = Some t end /\
    role_may_publish role tenant = true /\
    ((ed_events d !! id = None /\
      d' = set_events (<[id := fresh_event (event_columns id (ed_next_seq d) tenant now e print)]>
             (ed_events d)) (bump_event_seq d)) \/
     (d' = bump_event_seq d /\ exists r, ed_events d !! id = Some r /\
       dc_request_fingerprint (de_columns r) = print)).
Proof.
  unfold insertDomainEvent, publish_domain_event. intros H.
  apply tx_bind_ok in H as ([[i stored] ins] & d1 & H & Hend).
  apply tx_bind_ok in H as (id & d0 & Hid & H). apply uuid_param_ok in Hid as [-> (u0 & Hu & ->)].
  apply tx_bind_ok in H as (tenant & d0 & Ht & H). apply uuid_param_ok in Ht as [-> Ht].
  destruct (role_may_publish role tenant) eqn:Hrole; [|done]. cbn [negb] in H.
  apply tx_bind_ok in H as (d0 & d0' & Hg & H). cbv [tx_get] in Hg. injection Hg as <- <-.
  apply tx_bind_ok in H as (u1 & d2 & Hp & H). cbv [tx_put] in Hp. injection Hp as _ <-.
  exists u0, tenant. split_and!; [done..|].
  destruct (negb _); [done|]. change (default "" (Some u0)) with u0 in H. cbv zeta in H.
  destruct (ed_events d !! u0) as [existing|] eqn:He.
  - apply tx_ret_ok in H as [[= <- <- <-] <-]. cbn [negb andb fst snd] in Hend.
    destruct (bool_decide _) eqn:Hb; [done|]. apply bool_decide_eq_false in Hb.
    apply tx_ret_ok in Hend as [_ <-]. right. split; [done|]. exists existing. split; [done|].
    destruct (decide (dc_request_fingerprint (de_columns existing) = print)); [done|by contradict Hb].
  - left. split; [done|].
    apply tx_bind_ok in H as (d3 & d3' & Hg & H). cbv [tx_get] in Hg. injection Hg as <- <-.
    apply tx_bind_ok in H as (u2 & d4 & Hp & H). cbv [tx_put] in Hp. injection Hp as _ <-.
    apply tx_ret_ok in H as [[= <- <- <-] <-]. cbn [negb andb snd] in Hend.
    by apply tx_ret_ok in Hend as [_ <-].
Qed.

Lemma insertDomainEvent_wf pu role now e print d u d' :
  insertDomainEvent pu role now e print d = Ok (u, d') -> events_wf d -> events_wf d'.
Proof.
  intros H [Wk Wb Ws]. apply insertDomainEvent_ok in H as (id & tn & _ & _ & _ & [[_ ->]|[-> _]]).
  - constructor; cbn.
    + intros x r. rewrite lookup_insert_Some. intros [[<- <-]|[_ Hr]]; [done|by apply Wk].
    + intros x r. rewrite lookup_insert_Some. intros [[<- <-]|[_ Hr]]; [cbn; lia|]. specialize (Wb _ _ Hr). lia.
    + intros x y r1 r2. rewrite !lookup_insert_Some. intros [[<- <-]|[_ H1]] [[<- <-]|[_ H2]] Heq; [done| | |by eapply Ws].
      * specialize (Wb _ _ H2). cbn in Heq. lia.
      * specialize (Wb _ _ H1). cbn in Heq. lia.
  - constructor; cbn; [done| |done]. intros x r Hr. specialize (Wb _ _ Hr). lia.
Qed.

(** ** Live subscriptions *)
Lemma eventTypesOf_elem l e : e ∈ l -> ev_Type e ∈ eventTypesOf l.
Proof.
  unfold eventTypesOf.
  assert (Hgen : forall acc, (forall t, t ∈ acc ->
      t ∈ foldl (fun types e => if contains_string types (ev_Type e) then types
                                else types ++ [ev_Type e]) acc l) /\
    (e ∈ l -> ev_Type e ∈ foldl (fun types e => if contains_string types (ev_Type e) then types
                                else types ++ [ev_Type e]) acc l)).
  { induction l as [|x l IH]; intros acc; cbn; [split; [done|intros H; by apply elem_of_nil in H]|].
    destruct (contains_string acc (ev_Type x)) eqn:Hc; destruct (IH acc) as [K _].
    - split; [done|]. intros [->|Hin]%elem_of_cons; [|by apply IH].
      apply K. by apply contains_string_spec.
    - destruct (IH (acc ++ [ev_Type x])) as [K' A']. split.
      + intros t Ht. apply K', elem_of_app. by left.
      + intros [->|Hin]%elem_of_cons; [|by apply A']. apply K', elem_of_app. right. by left. }
  apply Hgen.
Qed.

(** The pattern filter of the statement never drops a subscription that matches. *)
Lemma live_elem d pending e id s :
  ed_subscriptions d !! id = Some s -> es_revoked_at s = None -> endpoint_active d s = true ->
  e ∈ pending -> Matches (es_type_pattern s) (ev_Type e) = true ->
  scan_subscription s ∈ liveSubscriptions (eventTypesOf pending) d.
Proof.
  intros Hs Hr He Hin Hm. unfold liveSubscriptions. apply list_elem_of_fmap. exists s. split; [done|].
  apply list_elem_of_filter. split.
  - unfold live_subscription. rewrite Hr, He. cbn [is_some negb andb].
    apply orb_true_iff. apply Matches_spec in Hm as [(q & Hp & Hq & _)|[_ Hp]].
    + right. unfold like_wildcard. rewrite Hp, length_append. cbn [String.length wildcard_suffix].
      replace (String.length q + 2 - 2)%nat with (String.length q) by lia.
      rewrite (substring_suffix q wildcard_suffix : String.substring _ 2 _ = _).
      rewrite bool_decide_true by done. destruct (Nat.leb_spec 2 (String.length q + 2)); [done|lia].
    + left. apply contains_string_spec. rewrite <- Hp. by apply eventTypesOf_elem.
  - apply list_elem_of_fmap. exists (id, s). split; [done|]. by apply elem_of_map_to_list.
Qed.

(** ** Replaying *)
Section Replay.
Context (base64url : string -> string).
Context (fingerprint : string -> Command -> string).
Context (ValidateCommand : Command -> result JobError unit).
Context (parse_uuid : string -> option string).
Context (published : list PublishedEvent).

(** The jobs a replay appends: each carries an event of the page to a subscription,
    under a key of its own. *)
Definition replay_job (w : RelayWorld) (page : list EventEnvelope) (c : JobColumns) : Prop :=
  exists e s, e ∈ page /\ Matches (sub_TypePattern s) (ev_Type e) = true /\
    carries base64url ValidateCommand parse_uuid e s
      (ev_Id e ++ ":" ++ sub_ID s ++ ":replay:" ++ rw_nonce w (ev_Id e))%string c.

Lemma replay_fan_out_ok w sel e page subs d d' u :
  e ∈ page ->
  replay_fan_out base64url fingerprint ValidateCommand parse_uuid w sel e
    (":replay:" ++ rw_nonce w (ev_Id e))%string subs d = Ok (u, d') ->
  same_tables d d' /\ appends (replay_job w page) (ed_jobs d) (ed_jobs d').
Proof.
  intros He. revert d. induction subs as [|s subs IH]; intros d H; cbn [replay_fan_out] in H.
  { apply tx_ret_ok in H as [_ <-]. split; [done|apply appends_refl]. }
  apply tx_bind_ok in H as (u1 & d1 & H1 & H2). apply IH in H2 as [T2 A2].
  destruct (_ && _); [by apply tx_ret_ok in H1 as [_ <-]|].
  destruct (Matches _ _) eqn:Hm; cbn [negb] in H1; [|by apply tx_ret_ok in H1 as [_ <-]].
  apply map_error_ok, enqueueOne_ok in H1 as (j & n & Hj & T1 & _ & A1 & _).
  split; [by etrans|]. eapply appends_trans; [|exact A2]. eapply appends_impl; [|exact A1].
  intros c ->. exists e, s. split_and!; [done|done|]. by eapply prepare_delivery.
Qed.

Lemma replay_events_ok w sel subs page d d' u :
  replay_events base64url fingerprint ValidateCommand parse_uuid published w sel subs page d = Ok (u, d') ->
  same_tables d d' /\ appends (replay_job w page) (ed_jobs d) (ed_jobs d').
Proof.
  assert (Hgen : forall all, (forall e, e ∈ page -> e ∈ all) ->
    replay_events base64url fingerprint ValidateCommand parse_uuid published w sel subs page d = Ok (u, d') ->
    same_tables d d' /\ appends (replay_job w all) (ed_jobs d) (ed_jobs d')).
  { intros all. revert d. induction page as [|e rest IH]; intros d Hin H; cbn [replay_events] in H.
    { apply tx_ret_ok in H as [_ <-]. split; [done|apply appends_refl]. }
    apply tx_bind_ok in H as (u1 & d1 & H1 & H2).
    apply IH in H2 as [T2 A2]; [|intros e' He'; apply Hin; by right].
    destruct (IsInternalPublished _ _); [by apply tx_ret_ok in H1 as [_ <-]|].
    apply (replay_fan_out_ok _ _ _ all) in H1 as [T1 A1]; [|apply Hin; by left].
    split; [by etrans|]. by eapply appends_trans. }
  by apply Hgen.
Qed.

Lemma replayPage_ok w sel page d d' u :
  replayPage base64url fingerprint ValidateCommand parse_uuid published w sel page d = Ok (u, d') ->
  same_tables d d' /\ appends (replay_job w page) (ed_jobs d) (ed_jobs d').
Proof.
  unfold replayPage. intros H.
  apply tx_bind_ok in H as (d0 & d1 & Hg & H). cbv [tx_get] in Hg. injection Hg as <- <-.
  apply tx_bind_ok in H as (u1 & d1 & H & Hend). apply replay_events_ok in H.
  destruct (rw_failure w); [done|]. by apply tx_ret_ok in Hend as [_ <-].
Qed.
End Replay.
