(* ===== verification/EventRelayOrder.v ===== *)
(** Ordered delivery: the jobs the relay puts on the queue of an ordered subscription
    come in the order their events were published, partition by partition. *)
From Stdlib Require Import Ascii.
From S2P Require Import Prelude GoText JobState JobQueue JobQueueProofs JobQueueTheorems EventEnvelope EventRelay.
From S2P Require Import EventRelayProofs.

Local Open Scope Z_scope.

Definition no_colon (x : string) : Prop := before_byte ":"%char x = x.

Lemma colon_cut (a b x y : string) :
  no_colon a -> no_colon x -> (a ++ ":" ++ b)%string = (x ++ ":" ++ y)%string -> a = x /\ b = y.
Proof.
  unfold no_colon. intros Ha Hx H.
  assert (Hax : a = x).
  { rewrite <- Ha, <- Hx, <- (before_byte_app ":"%char a b), <- (before_byte_app ":"%char x y).
    by f_equal. }
  subst x. split; [done|]. apply append_inj_l in H. by injection H.
Qed.

Section Order.
Context (published : list PublishedEvent).
(** The subscription. *)
Context (s : EventSubscriptionRow).
Context (s_ordered : es_delivery s = DeliveryOrdered).
Context (s_live : es_revoked_at s = None /\ es_webhook_subscription_id s = None).

Abbreviation sub := (scan_subscription s).

(** The relay owes [e] to the subscription. *)
Definition owed (e : EventEnvelope) : Prop :=
  Matches (es_type_pattern s) (ev_Type e) = true /\
  IsInternalPublished published (ev_Type e) = false /\
  Namespace (ev_Type e) <> PlatformAuditNamespace.

(** The job that carries event [x] to the subscription. *)
Definition job_for (x : string) (c : JobColumns) : Prop :=
  no_colon x /\ c_direction c = "inbox" /\ c_idempotency_key c = (x ++ ":" ++ es_id s)%string.

Record order_inv (d : EventDb) (drain : relayDrain) (clock : instant) : Prop := {
  oi_wf : events_wf d;
  oi_colon : forall id r, ed_events d !! id = Some r -> no_colon id;
  oi_live : ed_subscriptions d !! es_id s = Some s;
  oi_keyed : forall id row, ed_subscriptions d !! id = Some row -> es_id row = id;
  oi_next : forall id m, messages (ed_jobs d) !! id = Some m ->
    c_enqueue_seq (m_columns m) < next_seq (ed_jobs d);
  oi_clock : forall id m x, messages (ed_jobs d) !! id = Some m -> job_for x (m_columns m) ->
    c_created_at (m_columns m) <= clock;
  oi_done : forall id m x, messages (ed_jobs d) !! id = Some m -> job_for x (m_columns m) ->
    exists r, ed_events d !! x = Some r /\ awaits_relay r = false;
  oi_gap : forall id m x1 x2 r1 r2, messages (ed_jobs d) !! id = Some m -> job_for x2 (m_columns m) ->
    ed_events d !! x1 = Some r1 -> ed_events d !! x2 = Some r2 ->
    ev_PartitionKey (envelope_of r1) <> "" ->
    ev_PartitionKey (envelope_of r1) = ev_PartitionKey (envelope_of r2) ->
    dc_seq (de_columns r1) < dc_seq (de_columns r2) -> owed (envelope_of r1) ->
    awaits_relay r1 = false;
  oi_order : forall i j m1 m2 x1 x2 r1 r2, messages (ed_jobs d) !! i = Some m1 ->
    messages (ed_jobs d) !! j = Some m2 -> job_for x1 (m_columns m1) -> job_for x2 (m_columns m2) ->
    ed_events d !! x1 = Some r1 -> ed_events d !! x2 = Some r2 ->
    ev_PartitionKey (envelope_of r1) <> "" ->
    ev_PartitionKey (envelope_of r1) = ev_PartitionKey (envelope_of r2) ->
    dc_seq (de_columns r1) < dc_seq (de_columns r2) ->
    enqueued_before (m_columns m1) (m_columns m2) = true;
  oi_failed : forall id, id ∈ drain_failed drain -> is_Some (ed_events d !! id);
  oi_drain : forall r, ed_events d !! row_id r = Some r -> row_id r ∈ drain_failed drain ->
    awaits_relay r = true -> owed (envelope_of r) -> ev_PartitionKey (envelope_of r) <> "" ->
    ev_PartitionKey (envelope_of r) ∈ drain_blocked drain;
}.

(** ** The subscription in a batch *)
Lemma live_sub d drain clock pending e :
  order_inv d drain clock -> e ∈ pending -> owed e ->
  sub ∈ liveSubscriptions (eventTypesOf pending) d.
Proof.
  intros Hinv He (Hm & _ & _). destruct s_live as [Hr Hw].
  eapply live_elem; [apply Hinv|done| |done|done]. unfold endpoint_active. by rewrite Hw.
Qed.

Lemma live_unique d drain clock types s' :
  order_inv d drain clock -> s' ∈ liveSubscriptions types d -> sub_ID s' = es_id s -> s' = sub.
Proof.
  intros Hinv Hs' Hid. unfold liveSubscriptions in Hs'.
  apply list_elem_of_fmap in Hs' as (row & -> & Hin). apply list_elem_of_filter in Hin as [_ Hin].
  apply list_elem_of_fmap in Hin as ([id row'] & -> & Hin). apply elem_of_map_to_list in Hin.
  cbn in Hid |- *. pose proof (oi_keyed _ _ _ Hinv _ _ Hin) as Hk. rewrite Hid in Hk. subst id.
  rewrite (oi_live _ _ _ Hinv) in Hin. by injection Hin as <-.
Qed.

(** What a batch knows about its subscriptions. *)
Definition knows (subs : list Subscription) (pending : list EventEnvelope) : Prop :=
  (forall s', s' ∈ subs -> sub_ID s' = es_id s -> s' = sub) /\
  (forall e, e ∈ pending -> owed e -> sub ∈ subs).

Lemma owed_owes e subs :
  owed e -> ev_PartitionKey e <> "" -> sub ∈ subs -> owesOrderedDelivery published e subs = true.
Proof.
  intros (Hm & Hi & _) Hp Hs. unfold owesOrderedDelivery. rewrite Hi, bool_decide_eq_false_2 by done. cbn.
  apply existsb_exists. exists sub. split; [by apply list_elem_of_In|].
  rewrite bool_decide_eq_true_2 by done. done.
Qed.

(** ** The batch *)
(** What is left of a batch: rows in order, still waiting; and everything else that
    waits for the subscription is held back or comes later. *)
Record batch_inv (subs : list Subscription) (clock : instant) (rest : list EventEnvelope)
    (d : EventDb) (drain : relayDrain) (rs : list DomainEvent) : Prop := {
  bi_inv : order_inv d drain clock;
  bi_knows : knows subs rest;
  bi_rest : rest = map envelope_of rs;
  bi_sorted : StronglySorted seq_le rs;
  bi_nodup : NoDup (map row_id rs);
  bi_rows : forall r, r ∈ rs -> ed_events d !! row_id r = Some r /\ awaits_relay r = true;
  bi_cover : forall id r, ed_events d !! id = Some r -> awaits_relay r = true ->
    owed (envelope_of r) -> ev_PartitionKey (envelope_of r) <> "" ->
    ev_PartitionKey (envelope_of r) ∈ drain_blocked drain \/ r ∈ rs \/
    (forall x, x ∈ rs -> seq_le x r);
}.

Lemma batch_head subs clock e rest d drain rs :
  batch_inv subs clock (e :: rest) d drain rs ->
  exists r rs', rs = r :: rs' /\ e = envelope_of r /\ rest = map envelope_of rs' /\
    ed_events d !! ev_Id e = Some r /\ awaits_relay r = true /\
    (forall x, x ∈ rs' -> seq_le r x) /\ row_id r ∉ map row_id rs'.
Proof.
  intros H. destruct rs as [|r rs']; [by pose proof (bi_rest _ _ _ _ _ _ H)|].
  pose proof (bi_rest _ _ _ _ _ _ H) as Hr. cbn in Hr. injection Hr as -> ->.
  pose proof (bi_rows _ _ _ _ _ _ H r ltac:(by left)) as [Hrow Haw].
  pose proof (bi_sorted _ _ _ _ _ _ H) as Hs. apply StronglySorted_inv in Hs as [_ Hf].
  pose proof (bi_nodup _ _ _ _ _ _ H) as Hn. cbn in Hn. apply NoDup_cons in Hn as [Hn _].
  exists r, rs'. split_and!; try done. by apply Forall_forall.
Qed.

Lemma batch_tail subs clock e rest d drain rs :
  batch_inv subs clock (e :: rest) d drain rs -> knows subs rest /\
  StronglySorted seq_le (tail rs) /\ NoDup (map row_id (tail rs)).
Proof.
  intros H. destruct (batch_head _ _ _ _ _ _ _ H) as (r & rs' & -> & _). cbn.
  destruct (bi_knows _ _ _ _ _ _ H) as [K1 K2]. split_and!.
  - split; [done|]. intros e' He'. apply K2. by right.
  - pose proof (bi_sorted _ _ _ _ _ _ H) as Hs. by apply StronglySorted_inv in Hs as [? _].
  - pose proof (bi_nodup _ _ _ _ _ _ H) as Hn. cbn in Hn. by apply NoDup_cons in Hn as [_ ?].
Qed.

(** Rows other than the head are as they were. *)
Lemma batch_rest_rows subs clock e rest d drain r rs' d' :
  batch_inv subs clock (e :: rest) d drain (r :: rs') -> e = envelope_of r ->
  row_id r ∉ map row_id rs' ->
  (forall id, id <> row_id r -> ed_events d' !! id = ed_events d !! id) ->
  forall x, x ∈ rs' -> ed_events d' !! row_id x = Some x /\ awaits_relay x = true.
Proof.
  intros H -> Hn Hsame x Hx. rewrite Hsame.
  - apply (bi_rows _ _ _ _ _ _ H). by right.
  - intros Heq. apply Hn. rewrite <- Heq. by apply list_elem_of_fmap_2.
Qed.

Lemma batch_held subs clock e rest d drain rs :
  batch_inv subs clock (e :: rest) d drain rs -> held e drain ->
  batch_inv subs clock rest d drain (tail rs).
Proof.
  intros H [Hp Hb]. destruct (batch_tail _ _ _ _ _ _ _ H) as (Hk & Hs & Hn).
  destruct (batch_head _ _ _ _ _ _ _ H) as (r & rs' & -> & -> & -> & Hrow & Haw & Hle & Hni).
  cbn [tail] in *. constructor; try done.
  - apply H.
  - intros x Hx. apply (bi_rows _ _ _ _ _ _ H). by right.
  - intros id x Hx Ha Ho Hpx. destruct (bi_cover _ _ _ _ _ _ H id x Hx Ha Ho Hpx) as [?|[Hin|Hlate]].
    + by left.
    + apply elem_of_cons in Hin as [->|?]; [by left|by right; left].
    + right. right. intros y Hy. apply Hlate. by right.
Qed.

(** The event being fanned out has no earlier one of its partition waiting. *)
Lemma batch_first subs clock e rest d drain rs x r1 :
  batch_inv subs clock (e :: rest) d drain rs -> ~ held e drain ->
  ed_events d !! x = Some r1 -> awaits_relay r1 = true -> owed (envelope_of r1) ->
  ev_PartitionKey (envelope_of r1) <> "" -> ev_PartitionKey (envelope_of r1) = ev_PartitionKey e ->
  forall r, ed_events d !! ev_Id e = Some r -> dc_seq (de_columns r1) < dc_seq (de_columns r) -> False.
Proof.
  intros H Hheld Hx Ha Ho Hp Hpe r Hr Hlt.
  destruct (batch_head _ _ _ _ _ _ _ H) as (r' & rs' & -> & -> & -> & Hrow & Haw & Hle & Hni).
  rewrite Hrow in Hr. injection Hr as <-.
  destruct (bi_cover _ _ _ _ _ _ H x r1 Hx Ha Ho Hp) as [Hb|[Hin|Hlate]].
  - apply Hheld. unfold held. by rewrite <- Hpe.
  - apply elem_of_cons in Hin as [->|Hin]; [lia|]. specialize (Hle _ Hin). unfold seq_le in Hle. lia.
  - specialize (Hlate r' ltac:(by left)). unfold seq_le in Hlate. lia.
Qed.

Lemma batch_failed subs clock e rest d drain rs r cause now :
  batch_inv subs clock (e :: rest) d drain rs -> ~ held e drain ->
  ed_events d !! ev_Id e = Some r ->
  let r' := failed_row now cause r in
  batch_inv subs clock rest (set_events (<[ev_Id e := r']> (ed_events d)) d)
    (charged published e subs (is_some (de_dead_lettered_at r')) drain) (tail rs).
Proof.
  intros H Hheld Hr r'. destruct (batch_tail _ _ _ _ _ _ _ H) as (Hk & Hs & Hn).
  destruct (batch_head _ _ _ _ _ _ _ H) as (r0 & rs' & -> & -> & -> & Hrow & Haw & Hle & Hni).
  rewrite Hrow in Hr. injection Hr as ->. cbn [tail] in *.
  pose proof (bi_inv _ _ _ _ _ _ H) as Hinv.
  set (d' := set_events _ d). set (dr' := charged _ _ _ _ _).
  assert (Hkept : rows_kept d d') by by apply failed_kept.
  assert (Hmono : forall p, p ∈ drain_blocked drain -> p ∈ drain_blocked dr').
  { intros p Hp. unfold dr', charged. cbn. case_match; set_solver. }
  assert (Hself : awaits_relay r' = true -> owed (envelope_of r) ->
    ev_PartitionKey (envelope_of r) <> "" -> ev_PartitionKey (envelope_of r) ∈ drain_blocked dr').
  { intros Ha Ho Hp. unfold dr', charged. cbn [drain_blocked].
    unfold awaits_relay in Ha. apply andb_true_iff in Ha as [_ Ha]. rewrite Ha.
    rewrite owed_owes; [cbn; set_solver|done|done|].
    apply (proj2 (bi_knows _ _ _ _ _ _ H) (envelope_of r)); [by left|done]. }
  assert (Hother : forall id, id <> row_id r -> ed_events d' !! id = ed_events d !! id).
  { intros id Hid. unfold d'. cbn. by rewrite lookup_insert_ne. }
  assert (Hat : ed_events d' !! row_id r = Some r') by (unfold d'; cbn; apply lookup_insert_eq).
  assert (Hback : forall id x', ed_events d' !! id = Some x' -> exists x, ed_events d !! id = Some x /\
    de_columns x' = de_columns x /\ (awaits_relay x' = true -> awaits_relay x = true)) by apply Hkept.
  constructor; try done.
  - destruct Hinv. constructor; try done.
    + by eapply rows_kept_wf.
    + intros id x' Hx'. destruct (Hback _ _ Hx') as (x & Hx & _). eauto.
    + intros id m x Hm Hj. destruct (oi_done0 _ _ _ Hm Hj) as (y & Hy & Hya).
      destruct Hkept as (_ & Hdom & _). destruct (proj1 (Hdom x) ltac:(eauto)) as [y' Hy'].
      exists y'. split; [done|]. destruct (Hback _ _ Hy') as (y0 & Hy0 & _ & Haa).
      rewrite Hy in Hy0. injection Hy0 as <-. destruct (awaits_relay y'); [by rewrite Haa in Hya|done].
    + intros id m x1 x2 r1 r2 Hm Hj H1 H2 Hp1 Hp2 Hlt Ho.
      destruct (Hback _ _ H1) as (y1 & Y1 & C1 & A1), (Hback _ _ H2) as (y2 & Y2 & C2 & _).
      unfold envelope_of in *. rewrite C1, ?C2 in *.
      pose proof (oi_gap0 _ _ _ _ _ _ Hm Hj Y1 Y2 Hp1 Hp2 Hlt Ho) as Hf.
      destruct (awaits_relay r1); [by rewrite A1 in Hf|done].
    + intros i j m1 m2 x1 x2 r1 r2 Hm1 Hm2 Hj1 Hj2 H1 H2 Hp1 Hp2 Hlt.
      destruct (Hback _ _ H1) as (y1 & Y1 & C1 & _), (Hback _ _ H2) as (y2 & Y2 & C2 & _).
      unfold envelope_of in *. rewrite C1, ?C2 in *. by eapply oi_order0.
    + intros id Hid. apply (proj1 (proj2 Hkept)). unfold dr', charged in Hid. cbn in Hid.
      apply elem_of_app in Hid as [|Hid]; [by apply oi_failed0|].
      apply list_elem_of_singleton in Hid as ->. by exists r.
    + intros x Hx Hin Ha Ho Hp. destruct (decide (row_id x = row_id r)) as [Heq|Hne].
      * rewrite Heq in Hx. rewrite Hat in Hx. injection Hx as <-. by apply Hself.
      * rewrite Hother in Hx by done. apply Hmono. apply oi_drain0; try done.
        unfold dr', charged in Hin. cbn in Hin. apply elem_of_app in Hin as [|Hin]; [done|].
        by apply list_elem_of_singleton in Hin.
  - by eapply batch_rest_rows.
  - intros id x Hx Ha Ho Hp. destruct (decide (id = row_id r)) as [->|Hne].
    + rewrite Hat in Hx. injection Hx as <-. left. by apply Hself.
    + rewrite Hother in Hx by done.
      destruct (bi_cover _ _ _ _ _ _ H id x Hx Ha Ho Hp) as [?|[Hin|Hlate]].
      * left. by apply Hmono.
      * apply elem_of_cons in Hin as [->|?]; [|by right; left].
        exfalso. apply Hne. symmetry. by apply (ew_keyed _ (oi_wf _ _ _ Hinv)) in Hx.
      * right. right. intros y Hy. apply Hlate. by right.
Qed.

Context (base64url : string -> string).
Context (fingerprint : string -> Command -> string).
Context (ValidateCommand : Command -> result JobError unit).
Context (parse_uuid : string -> option string).

(** A new job for the subscription is one of the event being fanned out. *)
Lemma new_job_for w e subs x c :
  no_colon (ev_Id e) -> fan_out_job base64url ValidateCommand parse_uuid w e subs c -> job_for x c ->
  x = ev_Id e /\ c_created_at c = rw_now w /\
  exists s', s' ∈ subs /\ sub_ID s' = es_id s /\ queued_to e s'.
Proof.
  intros He [Hc Hor] (Hx & Hd & Hk). destruct Hor as [Ho|(s' & Hs' & Hq & Hcar)]; [congruence|].
  rewrite (ca_key _ _ _ _ _ _ _ Hcar) in Hk. unfold relay_key in Hk.
  destruct (colon_cut _ _ _ _ He Hx Hk) as [<- Hid]. split_and!; [done|done|]. by exists s'.
Qed.


Lemma old_or_new w e subs d d' id m x :
  relayed base64url ValidateCommand parse_uuid published w e subs d d' -> no_colon (ev_Id e) ->
  messages (ed_jobs d') !! id = Some m -> job_for x (m_columns m) ->
  messages (ed_jobs d) !! id = Some m \/
  (x = ev_Id e /\ c_created_at (m_columns m) = rw_now w /\
   next_seq (ed_jobs d) <= c_enqueue_seq (m_columns m) /\
   IsInternalPublished published (ev_Type e) = false /\
   exists s', s' ∈ subs /\ sub_ID s' = es_id s /\ queued_to e s').
Proof.
  intros Hr He Hm Hj. destruct (rel_jobs _ _ _ _ _ _ _ _ _ Hr) as (_ & _ & A).
  destruct (A _ _ Hm) as [|(_ & [Hi Hf] & Hs)]; [by left|right].
  destruct (new_job_for _ _ _ _ _ He Hf Hj) as (-> & ? & ?). split_and!; try done; lia.
Qed.

Lemma batch_relayed w subs clock e rest d drain rs d' :
  batch_inv subs clock (e :: rest) d drain rs -> ~ held e drain -> clock = rw_now w ->
  relayed base64url ValidateCommand parse_uuid published w e subs d d' ->
  batch_inv subs clock rest d' drain (tail rs).
Proof.
  intros H Hheld -> Hrel. destruct (batch_tail _ _ _ _ _ _ _ H) as (Hk & Hs & Hn).
  pose proof (relayed_kept _ _ _ _ _ _ _ _ _ Hrel) as Hkept.
  destruct (batch_head _ _ _ _ _ _ _ H) as (r & rs' & -> & -> & -> & Hrow & Haw & Hle & Hni).
  pose proof (bi_inv _ _ _ _ _ _ H) as Hinv. cbn [tail] in *.
  assert (Hid : no_colon (row_id r)) by exact (oi_colon _ _ _ Hinv _ _ Hrow).
  pose proof (fun id m x => old_or_new _ _ _ _ _ id m x Hrel Hid) as Hnew.
  assert (Hback : forall id x', ed_events d' !! id = Some x' -> exists x, ed_events d !! id = Some x /\
    de_columns x' = de_columns x /\ (awaits_relay x' = true -> awaits_relay x = true)) by apply Hkept.
  assert (Hother : forall id, id <> row_id r -> ed_events d' !! id = ed_events d !! id).
  { intros id Hne. rewrite (rel_events _ _ _ _ _ _ _ _ _ Hrel). by rewrite lookup_alter_ne. }
  assert (Hat : ed_events d' !! row_id r = Some (published_row (rw_now w) r)).
  { rewrite (rel_events _ _ _ _ _ _ _ _ _ Hrel). cbn. rewrite lookup_alter_eq.
    change (dc_id (de_columns r)) with (ev_Id (envelope_of r)). by rewrite Hrow. }
  assert (Howed : (exists s', s' ∈ subs /\ sub_ID s' = es_id s /\ queued_to (envelope_of r) s') ->
    IsInternalPublished published (ev_Type (envelope_of r)) = false -> owed (envelope_of r)).
  { intros (s' & Hs' & Hsid & Hm & _ & Hns) Hi.
    rewrite (proj1 (bi_knows _ _ _ _ _ _ H) s' Hs' Hsid) in Hm. by split_and!. }
  assert (Hnext : next_seq (ed_jobs d) <= next_seq (ed_jobs d')) by apply Hrel.
  constructor; try done.
  - destruct Hinv. constructor.
    + by eapply rows_kept_wf.
    + intros id x' Hx'. destruct (Hback _ _ Hx') as (x & Hx & _). eauto.
    + by rewrite (rel_subs _ _ _ _ _ _ _ _ _ Hrel).
    + by rewrite (rel_subs _ _ _ _ _ _ _ _ _ Hrel).
    + intros id m Hm. destruct (rel_jobs _ _ _ _ _ _ _ _ _ Hrel) as (_ & _ & A).
      destruct (A _ _ Hm) as [Ho|(_ & _ & ?)]; [|lia]. specialize (oi_next0 _ _ Ho). lia.
    + intros id m x Hm Hj. destruct (Hnew _ _ _ Hm Hj) as [Ho|(_ & -> & _)]; [by eapply oi_clock0|lia].
    + intros id m x Hm Hj. destruct (Hnew _ _ _ Hm Hj) as [Ho|(-> & _)]; [|by eexists].
      destruct (oi_done0 _ _ _ Ho Hj) as (y & Hy & Hya).
      destruct (decide (x = row_id r)) as [->|Hne]; [by eexists|].
      exists y. by rewrite Hother.
    + intros id m x1 x2 r1 r2 Hm Hj H1 H2 Hp1 Hp2 Hlt Ho.
      destruct (Hback _ _ H1) as (y1 & Y1 & C1 & A1), (Hback _ _ H2) as (y2 & Y2 & C2 & _).
      unfold envelope_of in Hp1, Hp2, Ho. rewrite C1, ?C2 in *.
      destruct (awaits_relay r1); [|done]. exfalso.
      destruct (Hnew _ _ _ Hm Hj) as [Hold|(-> & _)].
      * specialize (A1 eq_refl). by rewrite (oi_gap0 _ _ _ _ _ _ Hold Hj Y1 Y2 Hp1 Hp2 Hlt Ho) in A1.
      * rewrite Hrow in Y2. injection Y2 as <-.
        eapply (batch_first _ _ _ _ _ _ _ x1 y1 H Hheld Y1 (A1 eq_refl) Ho Hp1 Hp2 r Hrow Hlt).
    + intros i j m1 m2 x1 x2 r1 r2 Hm1 Hm2 Hj1 Hj2 H1 H2 Hp1 Hp2 Hlt.
      destruct (Hback _ _ H1) as (y1 & Y1 & C1 & _), (Hback _ _ H2) as (y2 & Y2 & C2 & _).
      unfold envelope_of in Hp1, Hp2. rewrite C1, ?C2 in *.
      destruct (Hnew _ _ _ Hm1 Hj1) as [O1|(-> & T1 & Q1 & Hi1 & Hs1)],
        (Hnew _ _ _ Hm2 Hj2) as [O2|(-> & T2 & Q2 & _)].
      * by eapply oi_order0.
      * pose proof (oi_clock0 _ _ _ O1 Hj1). pose proof (oi_next0 _ _ O1).
        unfold enqueued_before. rewrite orb_true_iff, andb_true_iff, Z.eqb_eq, !Z.ltb_lt. lia.
      * exfalso. rewrite Hrow in Y1. injection Y1 as <-.
        rewrite (oi_gap0 _ _ _ _ _ _ O2 Hj2 Hrow Y2 Hp1 Hp2 Hlt) in Haw; [done|by apply Howed].
      * exfalso. rewrite Y1 in Y2. injection Y2 as ->. lia.
    + intros id Hin. by apply (proj1 (proj2 Hkept)), oi_failed0.
    + intros x Hx Hin Ha Ho Hp. destruct (decide (row_id x = row_id r)) as [Heq|Hne].
      * rewrite Heq, Hat in Hx. injection Hx as <-. done.
      * rewrite Hother in Hx by done. by apply oi_drain0.
  - by eapply batch_rest_rows.
  - intros id x Hx Ha Ho Hp. destruct (decide (id = row_id r)) as [->|Hne].
    + rewrite Hat in Hx. injection Hx as <-. done.
    + rewrite Hother in Hx by done.
      destruct (bi_cover _ _ _ _ _ _ H id x Hx Ha Ho Hp) as [?|[Hin|Hlate]]; [by left| |].
      * apply elem_of_cons in Hin as [->|?]; [|by right; left].
        exfalso. apply Hne. symmetry. by apply (ew_keyed _ (oi_wf _ _ _ Hinv)) in Hx.
      * right. right. intros y Hy. apply Hlate. by right.
Qed.

Context (webhooks : option (RelayWorld -> EventEnvelope -> Subscription -> E WebhookDeliveryOutcome)).
Context (dispatches : forall deliver, webhooks = Some deliver -> WebhookDispatcher deliver).
(** An identifier in its canonical form has no colon. *)
Context (uuid_text : forall x u, parse_uuid x = Some u -> no_colon u).
Context (s_id : no_colon (es_id s)).

Lemma order_inv_later d drain t t' : t <= t' -> order_inv d drain t -> order_inv d drain t'.
Proof. intros Ht []. constructor; try done. intros id m x Hm Hj. specialize (oi_clock0 _ _ _ Hm Hj). lia. Qed.

Lemma relayBatch_order w drain n drain' d d' t :
  rw_locked w = ∅ -> t <= rw_now w -> order_inv d drain t ->
  relayBatch base64url fingerprint ValidateCommand parse_uuid published webhooks w drain d
    = Ok ((n, drain'), d') ->
  order_inv d' drain' (rw_now w).
Proof.
  intros Hl Ht Hinv H. apply (order_inv_later _ _ _ _ Ht) in Hinv. unfold relayBatch in H.
  apply tx_bind_ok in H as (d0 & d1 & Hg & H). cbv [tx_get] in Hg. injection Hg as <- <-.
  apply tx_bind_ok in H as ([m dr] & d1 & Hb & H).
  assert (Hend : ((m, dr), d1) = ((n, drain'), d')).
  { destruct (rw_failure w); [done|]. by apply tx_ret_ok in H as [-> ->]. }
  injection Hend as -> -> ->. case_decide as Hp; [by apply tx_ret_ok in Hb as [[= <- <-] <-]|].
  set (pending := select_unpublished w (drain_failed drain) d) in *.
  set (subs := liveSubscriptions (eventTypesOf pending) d) in *.
  pose (I := fun (rest : list EventEnvelope) (d : EventDb) (drain : relayDrain) (n : Z) =>
    exists rs, batch_inv subs (rw_now w) rest d drain rs).
  assert (HI : I [] d' drain' n); [|by destruct HI as (rs & [])].
  eapply (relay_events_rule _ _ _ _ _ _ dispatches w subs I); [..|exact Hb].
  - intros e rest d0 dr0 n0 (rs & HB) Hh. exists (tail rs). by eapply batch_held.
  - intros e rest d0 dr0 n0 d2 (rs & HB) Hh Hr. exists (tail rs). by eapply batch_relayed.
  - intros e rest d0 dr0 n0 r cause (rs & HB) Hh Hrow. exists (tail rs). by eapply batch_failed.
  - pose proof (oi_wf _ _ _ Hinv) as Hwf. exists (selected w (drain_failed drain) d). constructor.
    + done.
    + split.
      * intros s' Hs' Hid. by eapply live_unique.
      * intros e He Ho. by eapply live_sub.
    + apply select_selected.
    + apply selected_sorted.
    + by apply selected_nodup.
    + intros r Hr. apply selected_elem in Hr; [|done]. tauto.
    + intros id r Hr Ha Ho Hpart. pose proof (ew_keyed _ Hwf _ _ Hr) as Hk.
      destruct (decide (id ∈ drain_failed drain)) as [Hf|Hf].
      * left. rewrite <- Hk in Hr, Hf. by eapply (oi_drain _ _ _ Hinv).
      * right. destruct (decide (Exists (fun x => row_id x = id) (selected w (drain_failed drain) d))) as [Hx|Hx].
        -- left. apply Exists_exists in Hx as (x & Hin & Hid). pose proof Hin as Hin'.
           apply selected_elem in Hin as (Hrow & _); [|done]. rewrite Hid, Hr in Hrow. by injection Hrow as ->.
        -- right. apply (selected_rest w (drain_failed drain) d id r Hwf Hr Ha Hf); [by rewrite Hl|].
           intros Hin. apply Hx, Exists_exists. by exists r.
Qed.

(** ** Everything else that happens *)
(** What consumers, other producers and operators do to the queue: rows keep their
    columns, and a new row is not one of the relay's for this subscription. *)
Definition others_work (j j' : JobDb) : Prop :=
  next_seq j <= next_seq j' /\
  (forall id m', messages j' !! id = Some m' ->
     (exists m, messages j !! id = Some m /\ m_columns m' = m_columns m) \/
     (c_enqueue_seq (m_columns m') < next_seq j' /\ forall x, ~ job_for x (m_columns m'))).

Lemma order_inv_jobs d j' drain t :
  order_inv d drain t -> others_work (ed_jobs d) j' -> order_inv (set_jobs j' d) drain t.
Proof.
  intros [] [Hn Hrow].
  assert (Hold : forall id m' x, messages j' !! id = Some m' -> job_for x (m_columns m') ->
    exists m, messages (ed_jobs d) !! id = Some m /\ m_columns m' = m_columns m).
  { intros id m' x Hm Hj. destruct (Hrow _ _ Hm) as [?|[_ Hno]]; [done|]. by apply Hno in Hj. }
  constructor; try done; cbn.
  - eapply events_wf_same; [| |exact oi_wf0]; cbn; [done|lia].
  - intros id m' Hm. destruct (Hrow _ _ Hm) as [(m & Hm0 & ->)|[? _]]; [|done].
    specialize (oi_next0 _ _ Hm0). lia.
  - intros id m' x Hm Hj. destruct (Hold _ _ _ Hm Hj) as (m & Hm0 & Hc). rewrite Hc in *. eauto.
  - intros id m' x Hm Hj. destruct (Hold _ _ _ Hm Hj) as (m & Hm0 & Hc). rewrite Hc in *. eauto.
  - intros id m' x1 x2 r1 r2 Hm Hj. destruct (Hold _ _ _ Hm Hj) as (m & Hm0 & Hc). rewrite Hc in *. eauto.
  - intros i k m1 m2 x1 x2 r1 r2 Hm1 Hm2 Hj1 Hj2.
    destruct (Hold _ _ _ Hm1 Hj1) as (n1 & N1 & C1), (Hold _ _ _ Hm2 Hj2) as (n2 & N2 & C2).
    rewrite C1, C2 in *. eauto.
Qed.

(** The job a replay appends is not one of the relay's. *)
Lemma replay_not_relay w page c x :
  (forall e, e ∈ page -> no_colon (ev_Id e)) ->
  replay_job base64url ValidateCommand parse_uuid w page c -> ~ job_for x c.
Proof.
  intros Hpage (e & s' & He & _ & Hc) (Hx & _ & Hk). rewrite (ca_key _ _ _ _ _ _ _ Hc) in Hk.
  apply colon_cut in Hk as [_ Hs]; [|by apply Hpage|done].
  pose proof s_id as Hs0. unfold no_colon in Hs0. rewrite <- Hs in Hs0.
  cbn [String.append] in Hs0. change (":replay:" ++ rw_nonce w (ev_Id e))%string
    with (String ":"%char ("replay:" ++ rw_nonce w (ev_Id e))) in Hs0.
  rewrite before_byte_app in Hs0. apply (f_equal String.length) in Hs0.
  assert (Hle : forall a, (String.length (before_byte ":"%char a) <= String.length a)%nat).
  { clear. induction a as [|c a IH]; [done|]. cbn. case_match; cbn; lia. }
  specialize (Hle (sub_ID s')). rewrite length_append in Hs0. cbn in Hs0. lia.
Qed.

Abbreviation batch := (relayBatch base64url fingerprint ValidateCommand parse_uuid published webhooks).
Abbreviation replay_page := (replayPage base64url fingerprint ValidateCommand parse_uuid published).

(** One committed transaction, the drain of the one relay and the clock it last read. *)
Inductive order_step : EventDb * relayDrain * instant -> EventDb * relayDrain * instant -> Prop :=
| os_publish role now e print u d d' drain t :
    insertDomainEvent parse_uuid role now e print d = Ok (u, d') ->
    order_step (d, drain, t) (d', drain, t)
| os_new_drain d drain t : order_step (d, drain, t) (d, new_drain, t)
| os_batch w n drain drain' d d' t :
    rw_locked w = ∅ -> t <= rw_now w -> batch w drain d = Ok ((n, drain'), d') ->
    order_step (d, drain, t) (d', drain', rw_now w)
| os_replay w sel page u d d' drain t :
    (forall e, e ∈ page -> is_Some (ed_events d !! ev_Id e)) ->
    replay_page w sel page d = Ok (u, d') -> order_step (d, drain, t) (d', drain, t)
| os_queue j' d drain t :
    others_work (ed_jobs d) j' -> order_step (d, drain, t) (set_jobs j' d, drain, t)
| os_tables d d' drain t :
    ed_events d' = ed_events d -> ed_next_seq d' = ed_next_seq d -> ed_jobs d' = ed_jobs d ->
    ed_subscriptions d' !! es_id s = Some s ->
    (forall id row, ed_subscriptions d' !! id = Some row -> es_id row = id) ->
    order_step (d, drain, t) (d', drain, t).

Lemma publish_order role now e print u d d' drain t :
  insertDomainEvent parse_uuid role now e print d = Ok (u, d') ->
  order_inv d drain t -> order_inv d' drain t.
Proof.
  intros H Hinv. pose proof (insertDomainEvent_wf _ _ _ _ _ _ _ _ H (oi_wf _ _ _ Hinv)) as Hwf.
  apply insertDomainEvent_ok in H as (id & tenant & Hid & _ & _ & [[Hnew ->]|[-> _]]).
  2:{ destruct Hinv. by constructor. }
  set (c := event_columns _ _ _ _ _ _). set (r0 := fresh_event c). destruct Hinv.
  assert (Hlook : forall i r, <[id := r0]> (ed_events d) !! i = Some r ->
    (i = id /\ r = r0) \/ (i <> id /\ ed_events d !! i = Some r)).
  { intros i r Hr. apply lookup_insert_Some in Hr as [[<- <-]|[? ?]]; auto. }
  assert (Hold : forall i r, ed_events d !! i = Some r -> <[id := r0]> (ed_events d) !! i = Some r).
  { intros i r Hr. apply lookup_insert_Some. right. split; [|done]. by intros ->; rewrite Hr in Hnew. }
  assert (Hjob : forall i m x, messages (ed_jobs d) !! i = Some m -> job_for x (m_columns m) -> x <> id).
  { intros i m x Hm Hj ->. destruct (oi_done0 _ _ _ Hm Hj) as (r & Hr & _). by rewrite Hr in Hnew. }
  constructor; cbn; try done.
  - intros i r Hr. destruct (Hlook _ _ Hr) as [[-> ->]|[_ Hr']]; [by eapply uuid_text|by eapply oi_colon0].
  - intros i m x Hm Hj. destruct (oi_done0 _ _ _ Hm Hj) as (r & Hr & Ha). exists r. by rewrite (Hold _ _ Hr).
  - intros i m x1 x2 r1 r2 Hm Hj H1 H2 Hp1 Hp2 Hlt Ho.
    destruct (Hlook _ _ H2) as [[-> ->]|[_ H2']]; [by apply (Hjob _ _ _ Hm) in Hj|].
    destruct (Hlook _ _ H1) as [[-> ->]|[_ H1']]; [|by eapply oi_gap0].
    pose proof (ew_below _ oi_wf0 _ _ H2') as Hb. cbn in Hlt. lia.
  - intros i j m1 m2 x1 x2 r1 r2 Hm1 Hm2 Hj1 Hj2 H1 H2.
    destruct (Hlook _ _ H1) as [[-> ->]|[_ H1']]; [by apply (Hjob _ _ _ Hm1) in Hj1|].
    destruct (Hlook _ _ H2) as [[-> ->]|[_ H2']]; [by apply (Hjob _ _ _ Hm2) in Hj2|]. by eapply oi_order0.
  - intros i Hi. destruct (oi_failed0 _ Hi) as [r Hr]. exists r. by apply Hold.
  - intros r Hr Hf. destruct (Hlook _ _ Hr) as [[Hi ->]|[_ Hr']]; [|by apply oi_drain0].
    destruct (oi_failed0 _ Hf) as [r' Hr']. rewrite Hi in Hr'. by rewrite Hr' in Hnew.
Qed.

Lemma order_step_inv x y :
  order_step x y -> order_inv x.1.1 x.1.2 x.2 -> order_inv y.1.1 y.1.2 y.2.
Proof.
  intros Hs Hinv. destruct Hs as [role now e print u d d' drain t H|d drain t
    |w n drain drain' d d' t Hl Ht H|w sel page u d d' drain t Hpage H|j' d drain t H
    |d d' drain t He Hn Hj Hs Hk]; cbn in *.
  - by eapply publish_order.
  - destruct Hinv. constructor; try done; cbn; [by intros id ?%elem_of_nil|by intros r _ ?%elem_of_nil].
  - by eapply relayBatch_order.
  - apply replayPage_ok in H as [(Te & Ts & Tb & _) (N & K & A)].
    assert (Hw : others_work (ed_jobs d) (ed_jobs d')).
    { split; [done|]. intros id m' Hm'. destruct (A _ _ Hm') as [Hold|(_ & Hr & ?)].
      - left. by exists m'.
      - right. split; [lia|]. intros x. eapply replay_not_relay; [|done].
        intros e He. destruct (Hpage e He) as [r Hr']. by eapply (oi_colon _ _ _ Hinv). }
    apply (order_inv_jobs _ _ _ _ Hinv) in Hw. destruct Hw. cbn in *.
    constructor; rewrite ?Te, ?Tb; try done. eapply events_wf_same; [exact Te|lia|exact (oi_wf _ _ _ Hinv)].
  - by apply order_inv_jobs.
  - destruct Hinv. constructor; rewrite ?He, ?Hn, ?Hj; try done.
    eapply events_wf_same; [exact He|lia|exact oi_wf0].
Qed.

(** Where the subscription starts: events may have been published and delivered to
    others, none to it. *)
Record order_start (d : EventDb) : Prop := {
  st_wf : events_wf d;
  st_colon : forall id r, ed_events d !! id = Some r -> no_colon id;
  st_live : ed_subscriptions d !! es_id s = Some s;
  st_keyed : forall id row, ed_subscriptions d !! id = Some row -> es_id row = id;
  st_next : forall id m, messages (ed_jobs d) !! id = Some m ->
    c_enqueue_seq (m_columns m) < next_seq (ed_jobs d);
  st_none : forall id m x, messages (ed_jobs d) !! id = Some m -> ~ job_for x (m_columns m);
}.

Lemma order_start_inv d t : order_start d -> order_inv d new_drain t.
Proof.
  intros [Hwf Hc Hl Hk Hn Hnone]. constructor; try done.
  - intros id m x Hm Hj. by apply (Hnone _ _ _ Hm) in Hj.
  - intros id m x Hm Hj. by apply (Hnone _ _ _ Hm) in Hj.
  - intros id m x1 x2 r1 r2 Hm Hj. by apply (Hnone _ _ _ Hm) in Hj.
  - intros i j m1 m2 x1 x2 r1 r2 Hm1 _ Hj. by apply (Hnone _ _ _ Hm1) in Hj.
  - by intros id ?%elem_of_nil.
  - by intros r _ ?%elem_of_nil.
Qed.


(** C29. With one relay at work, an ordered subscription's queue receives a partition's
    events in publish order.  In any history of publishes, relay batches (failures of any
    event included), replays, queue operations and changes of other tables, once an event
    has a job for the subscription, every earlier event of its partition that the
    subscription is owed is no longer waiting (it was fanned out, or parked after its
    attempts), and whatever job that event has comes before it in the queue's order. *)
Theorem relayed_in_publish_order d0 t0 d drain t j m2 x1 x2 r1 r2 :
  order_start d0 -> rtc order_step (d0, new_drain, t0) (d, drain, t) ->
  messages (ed_jobs d) !! j = Some m2 -> job_for x2 (m_columns m2) ->
  ed_events d !! x1 = Some r1 -> ed_events d !! x2 = Some r2 ->
  dc_partition_key (de_columns r1) <> "" ->
  dc_partition_key (de_columns r1) = dc_partition_key (de_columns r2) ->
  dc_seq (de_columns r1) < dc_seq (de_columns r2) ->
  (owed (envelope_of r1) -> awaits_relay r1 = false) /\
  (forall i m1, messages (ed_jobs d) !! i = Some m1 -> job_for x1 (m_columns m1) ->
     enqueued_before (m_columns m1) (m_columns m2) = true).
Proof.
  intros Hstart Hsteps Hm2 Hj2 Hr1 Hr2 Hp Heq Hlt.
  assert (Hinv : order_inv d drain t).
  { assert (Hgen : forall x y, rtc order_step x y -> order_inv x.1.1 x.1.2 x.2 -> order_inv y.1.1 y.1.2 y.2)
      by (induction 1; eauto using order_step_inv).
    apply (Hgen _ _ Hsteps). cbn. by apply order_start_inv. }
  split.
  - intros Ho. exact (oi_gap _ _ _ Hinv _ _ _ _ _ _ Hm2 Hj2 Hr1 Hr2 Hp Heq Hlt Ho).
  - intros i m1 Hm1 Hj1. exact (oi_order _ _ _ Hinv _ _ _ _ _ _ _ _ Hm1 Hm2 Hj1 Hj2 Hr1 Hr2 Hp Heq Hlt).
Qed.
End Order.
