(* ===== verification/EventRelayDrain.v ===== *)
(** Draining the backlog: what a whole [RelayOnce] does, batch after batch.  Every
    waiting event is fanned out or charged, one attempt a drain, so the backlog ends. *)
From S2P Require Import Prelude GoText JobState JobQueue JobQueueProofs EventEnvelope EventRelay EventRelayProofs.

Local Open Scope Z_scope.

(** ** Sums over the event rows *)
(** Drains an event can still hold up: its unspent attempts. *)
Definition row_weight (r : DomainEvent) : nat :=
  if awaits_relay r then Z.to_nat (Z.max 1 (eventRelayMaxAttempts - de_relay_attempts r)) else 0%nat.
Definition weight (es : gmap string DomainEvent) : nat :=
  sum_list (map row_weight (map snd (map_to_list es))).

Lemma sum_perm l k : l ≡ₚ k -> sum_list l = sum_list k.
Proof. induction 1; cbn; lia. Qed.

Lemma weight_delete es id r :
  es !! id = Some r -> weight es = (row_weight r + weight (delete id es))%nat.
Proof.
  intros Hr. unfold weight. rewrite (sum_perm _ (map row_weight (map snd ((id, r) :: map_to_list (delete id es))))).
  - done.
  - do 2 apply Permutation_map. symmetry. by apply map_to_list_delete.
Qed.

Lemma weight_insert es id r r' :
  es !! id = Some r -> (weight (<[id := r']> es) + row_weight r = weight es + row_weight r')%nat.
Proof.
  intros Hr. rewrite (weight_delete es id r Hr), (weight_delete _ id r') by apply lookup_insert_eq.
  rewrite delete_insert_eq. lia.
Qed.

Lemma weight_waits es : (weight es = 0)%nat <-> (forall id r, es !! id = Some r -> awaits_relay r = false).
Proof.
  split.
  - intros H id r Hr. rewrite (weight_delete _ _ _ Hr) in H. unfold row_weight in H.
    destruct (awaits_relay r); [lia|done].
  - intros H. unfold weight.
    assert (Hall : forall r, r ∈ map snd (map_to_list es) -> row_weight r = 0%nat).
    { intros r Hr. apply list_elem_of_fmap in Hr as ([id r'] & -> & Hin). apply elem_of_map_to_list in Hin.
      unfold row_weight. cbn. by rewrite (H _ _ Hin). }
    induction (map snd (map_to_list es)) as [|r l IH]; [done|]. cbn.
    rewrite (Hall r), IH by (try (intros; apply Hall); by constructor). done.
Qed.

Lemma weight_some es :
  (weight es = 0)%nat \/ exists id r, es !! id = Some r /\ awaits_relay r = true.
Proof.
  destruct (decide (Exists (fun r => awaits_relay r = true) (map snd (map_to_list es)))) as [H|H].
  - right. apply Exists_exists in H as (r & Hin & Ha).
    apply list_elem_of_fmap in Hin as ([id r'] & -> & Hin). apply elem_of_map_to_list in Hin. by exists id, r'.
  - left. apply weight_waits. intros id r Hr. destruct (awaits_relay r) eqn:Ha; [|done].
    destruct H. apply Exists_exists. exists r. split; [|done].
    apply list_elem_of_fmap. exists (id, r). split; [done|]. by apply elem_of_map_to_list.
Qed.

Lemma published_weight t r : awaits_relay r = true -> (row_weight (published_row t r) < row_weight r)%nat.
Proof. intros Ha. unfold row_weight at 2. rewrite Ha. cbn. lia. Qed.

Lemma failed_weight t cause r : awaits_relay r = true -> (row_weight (failed_row t cause r) < row_weight r)%nat.
Proof.
  intros Ha. unfold row_weight. rewrite Ha. unfold awaits_relay in *. cbn.
  apply andb_true_iff in Ha as [-> _]. cbn.
  destruct (Z.leb_spec eventRelayMaxAttempts (de_relay_attempts r + 1)); cbn; unfold eventRelayMaxAttempts in *; lia.
Qed.

(** ** The life of a row *)
Inductive row_step : DomainEvent -> DomainEvent -> Prop :=
| row_published t r : awaits_relay r = true -> row_step r (published_row t r)
| row_failed t cause r : awaits_relay r = true -> row_step r (failed_row t cause r).

(** How a row that waited stops waiting. *)
Definition settled (r : DomainEvent) : Prop :=
  is_Some (de_published_at r) \/
  (de_published_at r = None /\ is_Some (de_dead_lettered_at r) /\
   eventRelayMaxAttempts <= de_relay_attempts r).

Lemma row_step_settles r r' :
  row_step r r' -> awaits_relay r' = true \/ settled r'.
Proof.
  intros [t r0 Ha|t cause r0 Ha]; [right; left; by eexists|].
  unfold awaits_relay in *. apply andb_true_iff in Ha as [Hp _]. cbn. rewrite Hp. cbn.
  destruct (Z.leb_spec eventRelayMaxAttempts (de_relay_attempts r0 + 1)) as [Hle|]; [right; right|by left].
  cbn. rewrite (proj2 (Z.leb_le _ _) Hle). split_and!; [by destruct (de_published_at r0)|by eexists|done].
Qed.

Lemma row_steps_settle r r' :
  rtc row_step r r' -> awaits_relay r = true -> awaits_relay r' = false -> settled r'.
Proof.
  intros H. induction H as [r|r r1 r2 Hs Hrest IH]; [congruence|]. intros Ha Hn.
  destruct (awaits_relay r1) eqn:Ha1; [by apply IH|].
  destruct (row_step_settles _ _ Hs) as [?|Hset]; [congruence|].
  inversion Hrest as [|? ? ? Hs1]; subst; [done|]. inversion Hs1; congruence.
Qed.

(** Row by row, whichever table changes. *)
Definition rows_step (d d' : EventDb) : Prop :=
  forall id, option_Forall2 (rtc row_step) (ed_events d !! id) (ed_events d' !! id).

#[export] Instance rows_step_preorder : PreOrder rows_step.
Proof.
  split.
  - intros d id. destruct (ed_events d !! id); by constructor.
  - intros d1 d2 d3 H1 H2 id. specialize (H1 id). specialize (H2 id).
    destruct H1 as [r1 r2 H1|]; inversion H2 as [? r3 H3|]; simplify_eq; constructor. by etrans.
Qed.

Lemma rows_step_insert d id r r' :
  ed_events d !! id = Some r -> row_step r r' ->
  rows_step d (set_events (<[id := r']> (ed_events d)) d).
Proof.
  intros Hr Hs id'. cbn. destruct (decide (id = id')) as [<-|Hne].
  - rewrite Hr, lookup_insert_eq. constructor. by apply rtc_once.
  - rewrite lookup_insert_ne by done. destruct (ed_events d !! id'); by constructor.
Qed.

Lemma rows_step_same d d1 d2 : ed_events d1 = ed_events d2 -> rows_step d d2 -> rows_step d d1.
Proof. unfold rows_step. by intros ->. Qed.

(** ** The loop over rows that wait *)
Definition waiting (rest : list EventEnvelope) (d : EventDb) : Prop :=
  NoDup (map ev_Id rest) /\
  (forall e, e ∈ rest -> exists r, ed_events d !! ev_Id e = Some r /\ awaits_relay r = true).

Lemma waiting_tail e rest d : waiting (e :: rest) d -> waiting rest d.
Proof. intros [Hn Hw]. cbn in Hn. apply NoDup_cons in Hn as [_ Hn]. split; [done|]. intros e' He'. apply Hw. by right. Qed.

(** The tail still waits once only the head's row has changed. *)
Lemma waiting_other e rest d d' :
  waiting (e :: rest) d ->
  (forall id, id <> ev_Id e -> ed_events d' !! id = ed_events d !! id) -> waiting rest d'.
Proof.
  intros Hw Hsame. destruct Hw as [Hn Hw]. cbn in Hn. apply NoDup_cons in Hn as [Hni Hn].
  split; [done|]. intros e' He'. rewrite Hsame; [apply Hw; by right|].
  intros Heq. apply Hni. rewrite <- Heq. by apply list_elem_of_fmap_2.
Qed.

Lemma selected_waiting w failed d : events_wf d -> waiting (select_unpublished w failed d) d.
Proof.
  intros Hwf. rewrite select_selected. split.
  - rewrite map_map. by apply selected_nodup.
  - intros e (r & -> & Hin)%list_elem_of_fmap. apply selected_elem in Hin as (Hr & Ha & _); [|done].
    exists r. by rewrite envelope_id.
Qed.

Section Drain.
Context (base64url : string -> string).
Context (fingerprint : string -> Command -> string).
Context (ValidateCommand : Command -> result JobError unit).
Context (parse_uuid : string -> option string).
Context (published : list PublishedEvent).
Context (webhooks : option (RelayWorld -> EventEnvelope -> Subscription -> E WebhookDeliveryOutcome)).
Context (dispatches : forall deliver, webhooks = Some deliver -> WebhookDispatcher deliver).

Abbreviation relay_all := (relay_events base64url fingerprint ValidateCommand parse_uuid published webhooks).
Abbreviation batch := (relayBatch base64url fingerprint ValidateCommand parse_uuid published webhooks).
Abbreviation drain_all := (relay_drain base64url fingerprint ValidateCommand parse_uuid published webhooks).
Abbreviation once := (RelayOnce base64url fingerprint ValidateCommand parse_uuid published webhooks).
Abbreviation done_with := (relayed base64url ValidateCommand parse_uuid published).

(** What a step that keeps every event's columns and its attempts in hand may do. *)
Record relay_rule (w : RelayWorld) (subs : list Subscription)
    (I : list EventEnvelope -> EventDb -> relayDrain -> Z -> Prop) : Prop := {
  rr_held : forall e rest d drain n, I (e :: rest) d drain n -> held e drain -> I rest d drain n;
  rr_ok : forall e rest d drain n r d', I (e :: rest) d drain n -> ~ held e drain ->
    ed_events d !! ev_Id e = Some r -> awaits_relay r = true -> done_with w e subs d d' ->
    I rest d' drain (n + 1);
  rr_fail : forall e rest d drain n r cause, I (e :: rest) d drain n -> ~ held e drain ->
    ed_events d !! ev_Id e = Some r -> awaits_relay r = true ->
    let r' := failed_row (rw_now w) cause r in
    I rest (set_events (<[ev_Id e := r']> (ed_events d)) d)
      (charged published e subs (is_some (de_dead_lettered_at r')) drain) n;
}.

Lemma relay_waiting w subs I pending d drain n m drain' d' :
  relay_rule w subs I -> waiting pending d -> I pending d drain n ->
  relay_all w subs pending drain n d = Ok ((m, drain'), d') -> I [] d' drain' m.
Proof.
  intros [Hh Ho Hf] Hw HI H.
  eapply (relay_events_rule _ _ _ _ published webhooks dispatches w subs
    (fun rest d drain n => waiting rest d /\ I rest d drain n)) in H; [exact (proj2 H)|..|done].
  - intros e rest d1 dr n1 [Hw1 HI1] Hheld. split; [by eapply waiting_tail|by eapply Hh].
  - intros e rest d1 dr n1 d2 [Hw1 HI1] Hn Hr. destruct (proj2 Hw1 e) as (r & Hrow & Ha); [by left|].
    split; [|by eapply Ho]. eapply waiting_other; [done|]. intros id Hid.
    by rewrite (rel_events _ _ _ _ _ _ _ _ _ Hr), lookup_alter_ne by congruence.
  - intros e rest d1 dr n1 r cause [Hw1 HI1] Hn Hrow. destruct (proj2 Hw1 e) as (r0 & Hrow0 & Ha); [by left|].
    assert (r0 = r) as -> by congruence.
    split; [|by eapply Hf]. eapply waiting_other; [done|]. intros id Hid. cbn.
    by rewrite lookup_insert_ne by congruence.
Qed.

Lemma batch_ok w drain d m drain' d' I :
  (forall subs, relay_rule w subs I) -> events_wf d ->
  I (select_unpublished w (drain_failed drain) d) d drain 0 ->
  batch w drain d = Ok ((m, drain'), d') -> I [] d' drain' m.
Proof.
  intros Hrule Hwf HI H. unfold relayBatch in H.
  apply tx_bind_ok in H as (d0 & d1 & Hg & H). cbv [tx_get] in Hg. injection Hg as <- <-.
  apply tx_bind_ok in H as ([m1 dr1] & d1 & H & Hend).
  destruct (rw_failure w); [done|]. apply tx_ret_ok in Hend as [[= <- <-] <-].
  case_decide as Hp.
  - apply tx_ret_ok in H as [[= <- <-] <-]. by rewrite Hp in HI.
  - eapply relay_waiting; [apply Hrule|by apply selected_waiting|exact HI|exact H].
Qed.

(** A batch whose own transaction does not fail commits. *)
Lemma batch_total w drain d :
  events_wf d -> rw_failure w = None -> exists m drain' d', batch w drain d = Ok ((m, drain'), d').
Proof.
  intros Hwf Hfail. unfold relayBatch.
  set (pending := select_unpublished w (drain_failed drain) d).
  unfold mbind, tx_bind, tx_get. case_decide as Hp.
  - rewrite Hfail. by eexists _, _, _.
  - edestruct (relay_events_total base64url fingerprint ValidateCommand parse_uuid published webhooks dispatches)
      as (m & dr & d' & ->); [|by rewrite Hfail; eexists _, _, _].
    intros e He. destruct (selected_waiting w (drain_failed drain) d Hwf) as [_ Hw].
    destruct (Hw e He) as (r & -> & _). by eexists.
Qed.

(** The rows a relay step changes: one, to its fanned-out or its charged form. *)
Lemma weight_step d d' e r r' :
  ed_events d !! ev_Id e = Some r -> ed_events d' = <[ev_Id e := r']> (ed_events d) ->
  (row_weight r' < row_weight r)%nat -> (weight (ed_events d') < weight (ed_events d))%nat.
Proof. intros Hr -> Hlt. pose proof (weight_insert _ _ _ r' Hr). lia. Qed.

Lemma relayed_insert w e subs d d' r :
  done_with w e subs d d' -> ed_events d !! ev_Id e = Some r ->
  ed_events d' = <[ev_Id e := published_row (rw_now w) r]> (ed_events d).
Proof.
  intros Hd Hr. rewrite (rel_events _ _ _ _ _ _ _ _ _ Hd). apply map_eq. intros id.
  destruct (decide (ev_Id e = id)) as [<-|Hne].
  - by rewrite lookup_alter_eq, lookup_insert_eq, Hr.
  - by rewrite lookup_alter_ne, lookup_insert_ne by done.
Qed.

Lemma relayed_lighter w e subs d d' r :
  done_with w e subs d d' -> ed_events d !! ev_Id e = Some r -> awaits_relay r = true ->
  (weight (ed_events d') < weight (ed_events d))%nat.
Proof. intros Hd Hr Ha. eapply weight_step; [exact Hr|by eapply relayed_insert|by apply published_weight]. Qed.
Lemma charged_lighter t cause e d r :
  ed_events d !! ev_Id e = Some r -> awaits_relay r = true ->
  (weight (ed_events (set_events (<[ev_Id e := failed_row t cause r]> (ed_events d)) d)) < weight (ed_events d))%nat.
Proof. intros Hr Ha. eapply weight_step; [exact Hr|done|by apply failed_weight]. Qed.

(** What a batch keeps, started anywhere: rows, and the weight falls. *)
Definition lighter (d0 d : EventDb) : Prop :=
  rows_kept d0 d /\ rows_step d0 d /\ (weight (ed_events d) <= weight (ed_events d0))%nat.

Lemma lighter_rule w subs d0 : relay_rule w subs (fun _ d _ _ => lighter d0 d).
Proof.
  constructor; cbv beta.
  - done.
  - intros e rest d drain n r d' (HK & HS & HW) _ Hr Ha Hd. split_and!.
    + eapply rows_kept_trans; [exact HK|]. by eapply relayed_kept.
    + etrans; [exact HS|]. eapply (rows_step_same _ _ (set_events (<[ev_Id e := published_row (rw_now w) r]> (ed_events d)) d)).
      * by eapply relayed_insert.
      * eapply rows_step_insert; [exact Hr|by constructor].
    + pose proof (relayed_lighter _ _ _ _ _ _ Hd Hr Ha). lia.
  - intros e rest d drain n r cause (HK & HS & HW) _ Hr Ha. split_and!.
    + eapply rows_kept_trans; [exact HK|]. by apply failed_kept.
    + etrans; [exact HS|]. eapply rows_step_insert; [exact Hr|by constructor].
    + pose proof (charged_lighter (rw_now w) cause _ _ _ Hr Ha). lia.
Qed.

Lemma batch_lighter w drain d m drain' d' :
  events_wf d -> batch w drain d = Ok ((m, drain'), d') -> lighter d d'.
Proof.
  intros Hwf H. eapply batch_ok in H; [exact H|intros; apply lighter_rule|done|].
  split_and!; [apply rows_kept_refl|done|done].
Qed.

(** A batch that selects anything while nothing is held back makes progress. *)
Lemma batch_progress w drain d m drain' d' id r :
  events_wf d -> drain_failed drain = [] -> drain_blocked drain = ∅ -> rw_locked w = ∅ ->
  ed_events d !! id = Some r -> awaits_relay r = true ->
  batch w drain d = Ok ((m, drain'), d') -> (weight (ed_events d') < weight (ed_events d))%nat.
Proof.
  intros Hwf Hf Hb Hl Hr Ha H. set (P := select_unpublished w (drain_failed drain) d).
  assert (HP : P <> []).
  { unfold P. rewrite select_selected, Hf. intros Hn.
    assert (Hnil : selected w [] d = []) by (destruct (selected w [] d); done).
    assert (Hin : r ∉ selected w [] d) by (rewrite Hnil; by intros ?%elem_of_nil).
    apply (selected_rest w [] d id) in Hin as [Hlen _]; try done; [|by intros ?%elem_of_nil|set_solver].
    by rewrite Hnil in Hlen. }
  set (I := fun (rest : list EventEnvelope) d1 (dr : relayDrain) (_ : Z) =>
    rest = P /\ d1 = d /\ dr = drain \/ (weight (ed_events d1) < weight (ed_events d))%nat).
  assert (HI : I [] d' drain' m).
  { eapply batch_ok; [|exact Hwf| |exact H]; [|by left].
    assert (Hlt : forall rest d1 dr n, I rest d1 dr n -> (weight (ed_events d1) <= weight (ed_events d))%nat).
    { intros rest d1 dr n [(_ & -> & _)|?]; lia. }
    intros subs. constructor.
    - intros e rest d1 dr n [(_ & _ & ->)|HI] [_ Hheld]; [|by right].
      rewrite Hb in Hheld. by apply elem_of_empty in Hheld.
    - intros e rest d1 dr n r1 d2 HI _ Hr1 Ha1 Hd. apply Hlt in HI. right.
      pose proof (relayed_lighter _ _ _ _ _ _ Hd Hr1 Ha1). lia.
    - intros e rest d1 dr n r1 cause HI _ Hr1 Ha1 r'. apply Hlt in HI. right.
      eapply Nat.lt_le_trans; [by apply charged_lighter|done]. }
  destruct HI as [(Hnil & _)|?]; [|done]. by rewrite <- Hnil in HP.
Qed.

(** *** A drain *)
(** Nothing else touches the event rows while the drain runs. *)
Definition quiet (env : nat -> RelayWorld) : Prop :=
  forall k d, ed_events (rw_others (env k) d) = ed_events d /\
    ed_next_seq (rw_others (env k) d) = ed_next_seq d.

Lemma quiet_kept env k d : quiet env -> lighter d (rw_others (env k) d).
Proof.
  intros Hq. destruct (Hq k d) as [He Hn]. split; [|split; [by eapply rows_step_same|by rewrite He]].
  split_and!; rewrite ?He; [done|done|]. intros id r Hr. by exists r.
Qed.

Lemma lighter_trans d1 d2 d3 : lighter d1 d2 -> lighter d2 d3 -> lighter d1 d3.
Proof. intros (K1 & S1 & W1) (K2 & S2 & W2). split_and!; [by eapply rows_kept_trans|by etrans|lia]. Qed.

Lemma quiet_wf env k d : quiet env -> events_wf d -> events_wf (rw_others (env k) d).
Proof. intros Hq. apply rows_kept_wf, (quiet_kept env k d Hq). Qed.

Lemma drain_lighter env batches k n drain d m err drain' d' :
  quiet env -> events_wf d -> drain_all env batches k n drain d = (m, err, drain', d') -> lighter d d'.
Proof.
  intros Hq. revert k n drain d. induction batches as [|batches IH]; intros k n drain d Hwf H; cbn [relay_drain] in H.
  { injection H as _ _ _ <-. split_and!; [apply rows_kept_refl|done|done]. }
  pose proof (quiet_kept env k d Hq) as Hk. pose proof (quiet_wf env k d Hq Hwf) as Hwf1.
  destruct (relayBatch _ _ _ _ _ _ _ _ _) as [[[m1 dr1] d1]|e] eqn:Hb.
  - assert (H1 : lighter d d1) by (eapply lighter_trans; [exact Hk|by eapply batch_lighter]).
    destruct (_ && _).
    + by injection H as _ _ _ <-.
    + eapply lighter_trans; [exact H1|]. eapply IH; [|exact H]. eapply rows_kept_wf; [apply H1|done].
  - by injection H as _ _ _ <-.
Qed.

Lemma drain_progress env b d m err dr' d' id r :
  quiet env -> rw_locked (env 0%nat) = ∅ -> rw_failure (env 0%nat) = None -> events_wf d ->
  ed_events d !! id = Some r -> awaits_relay r = true ->
  drain_all env (S b) 0 0 new_drain d = (m, err, dr', d') ->
  (weight (ed_events d') < weight (ed_events d))%nat.
Proof.
  intros Hq Hl Hf Hwf Hr Ha Hd. cbn [relay_drain] in Hd.
  destruct (Hq 0%nat d) as [He _]. pose proof (quiet_wf env 0 d Hq Hwf) as Hwf1.
  destruct (batch_total (env 0%nat) new_drain _ Hwf1 Hf) as (n & dr & d2 & Hb). rewrite Hb in Hd.
  assert (Hlt : (weight (ed_events d2) < weight (ed_events d))%nat).
  { rewrite <- He. rewrite <- He in Hr.
    by apply (batch_progress (env 0%nat) new_drain _ n dr d2 id r). }
  destruct (_ && _).
  - by injection Hd as _ _ _ <-.
  - apply drain_lighter in Hd as (_ & _ & Hle); [lia|done|].
    eapply rows_kept_wf; [apply (batch_lighter _ _ _ _ _ _ Hwf1 Hb)|done].
Qed.

Lemma once_drain env d m err d' :
  once env d = (m, err, d') ->
  exists dr, drain_all env (S 19) 0 0 new_drain d = (m, err, dr, d').
Proof.
  unfold RelayOnce. change relayMaxBatchesPerDrain with (S 19).
  destruct (relay_drain _ _ _ _ _ _ _ _ _ _ _ _) as [[[m1 e1] dr1] d1]. intros [= <- <- <-]. by exists dr1.
Qed.

(** One drain after another. *)
Fixpoint relay_drains (envs : list (nat -> RelayWorld)) (d : EventDb) : EventDb :=
  match envs with
  | [] => d
  | env :: envs => relay_drains envs (snd (once env d))
  end.

(** The first batch of the drain finds no row locked and reaches the database, whatever
    happens to its events and to the batches after it. *)
Definition fair (env : nat -> RelayWorld) : Prop :=
  quiet env /\ rw_locked (env 0%nat) = ∅ /\ rw_failure (env 0%nat) = None.

Lemma drains_progress envs d :
  Forall fair envs -> events_wf d ->
  lighter d (relay_drains envs d) /\
  (weight (ed_events (relay_drains envs d)) <= weight (ed_events d) - length envs)%nat.
Proof.
  intros Hf. revert d. induction Hf as [|env envs (Hq & Hl & Hok) _ IH]; intros d Hwf; cbn [relay_drains length].
  { split; [split_and!; [apply rows_kept_refl|done|done]|lia]. }
  destruct (once env d) as [[m err] d1] eqn:H1. cbn [snd].
  apply once_drain in H1 as [dr H1].
  assert (H2 : lighter d d1 /\ (weight (ed_events d1) <= weight (ed_events d) - 1)%nat).
  { pose proof (drain_lighter _ _ _ _ _ _ _ _ _ _ Hq Hwf H1) as Hld. split; [done|].
    destruct (weight_some (ed_events d)) as [H0|(id & r & Hr & Ha)].
    - destruct Hld as (_ & _ & Hld). lia.
    - eapply drain_progress in H1; [|done..]. lia. }
  destruct H2 as [Hld Hw]. destruct (IH d1) as [Hld' Hw'].
  { eapply rows_kept_wf; [apply Hld|done]. }
  split; [by eapply lighter_trans|lia].
Qed.

(** *** One attempt a drain *)
Definition charge (drain : relayDrain) (id : string) : Z :=
  if contains_string (drain_failed drain) id then 1 else 0.
Definition charged_once (d0 d : EventDb) (drain : relayDrain) : Prop :=
  forall id r', ed_events d !! id = Some r' -> exists r, ed_events d0 !! id = Some r /\
    de_relay_attempts r' = de_relay_attempts r + charge drain id.

Lemma charge_app drain e subs parked id :
  charge (charged published e subs parked drain) id =
  if decide (id = ev_Id e) then 1 else charge drain id.
Proof.
  unfold charge, charged. cbn [drain_failed].
  destruct (contains_string (_ ++ _) id) eqn:H.
  - apply contains_string_spec, elem_of_app in H as [H|H%list_elem_of_singleton].
    + apply contains_string_spec in H. rewrite H. by case_decide.
    + by rewrite decide_True.
  - apply contains_string_false in H. rewrite elem_of_app, list_elem_of_singleton in H.
    rewrite decide_False by tauto. by rewrite (proj2 (contains_string_false _ _)) by tauto.
Qed.

Lemma charge_not drain id : id ∉ drain_failed drain -> charge drain id = 0.
Proof. intros H. unfold charge. by rewrite (proj2 (contains_string_false _ _)). Qed.

(** Within a batch of [N] events. *)
Definition batch_charges (d0 : EventDb) (N : Z) (rest : list EventEnvelope) (d : EventDb)
    (drain : relayDrain) (n : Z) : Prop :=
  charged_once d0 d drain /\ NoDup (map ev_Id rest) /\
  (forall e, e ∈ rest -> ev_Id e ∉ drain_failed drain) /\
  0 <= n /\ n + Z.of_nat (length rest) <= N.

Lemma charges_tail d0 N e rest d drain n :
  batch_charges d0 N (e :: rest) d drain n -> batch_charges d0 N rest d drain n.
Proof.
  intros (Hc & Hn & Hf & ? & ?). cbn in Hn. apply NoDup_cons in Hn as [_ Hn]. cbn [length] in *.
  split_and!; [done|done| |lia|lia]. intros e' He'. apply Hf. by right.
Qed.

Lemma charges_rule w subs d0 N : relay_rule w subs (batch_charges d0 N).
Proof.
  constructor.
  - intros e rest d drain n H _. by eapply charges_tail.
  - intros e rest d drain n r d' H _ Hr _ Hd.
    pose proof (charges_tail _ _ _ _ _ _ _ H) as (Hc & Hn & Hf & ? & ?).
    destruct H as (_ & _ & _ & ? & HN). cbn [length] in HN. split_and!; [|done|done|lia|lia].
    intros id r'. rewrite (relayed_insert _ _ _ _ _ _ Hd Hr), lookup_insert_Some.
    intros [[<- <-]|[_ Hr']]; [|by apply Hc]. apply (Hc _ _ Hr).
  - intros e rest d drain n r cause H _ Hr _ r'.
    pose proof (charges_tail _ _ _ _ _ _ _ H) as (Hc & Hn & Hf & ? & ?).
    destruct H as (_ & Hnd & Hff & ? & HN). cbn [length map] in *.
    apply NoDup_cons in Hnd as [Hni _]. split_and!; [|done| |lia|lia].
    + intros id r1. cbn. rewrite lookup_insert_Some, charge_app. intros [[<- <-]|[Hne Hr']].
      * rewrite decide_True by done. destruct (Hc _ _ Hr) as (r0 & Hr0 & Ha).
        rewrite (charge_not drain) in Ha by (apply Hff; by left). exists r0. split; [done|]. cbn. lia.
      * rewrite decide_False by done. by apply Hc.
    + intros e' He'. cbn. rewrite elem_of_app, list_elem_of_singleton. intros [Hin|Heq].
      * by apply (Hf e').
      * apply Hni. rewrite <- Heq. by apply list_elem_of_fmap_2.
Qed.

Lemma batch_charged w drain d d0 m drain' d' :
  events_wf d -> charged_once d0 d drain -> batch w drain d = Ok ((m, drain'), d') ->
  charged_once d0 d' drain' /\ 0 <= m <= Z.of_nat relayBatchSize.
Proof.
  intros Hwf Hc H.
  eapply (batch_ok _ _ _ _ _ _ (batch_charges d0 (Z.of_nat relayBatchSize))) in H as (? & _ & _ & ? & Hm);
    [|intros; apply charges_rule|done|].
  - cbn [length] in Hm. split; [done|lia].
  - split_and!; [done| | |lia|].
    + apply selected_waiting, Hwf.
    + rewrite select_selected. intros e (r & -> & Hin)%list_elem_of_fmap.
      by apply selected_elem in Hin as (_ & _ & ? & _).
    + rewrite select_selected, length_map. unfold selected. rewrite length_take.
      pose proof (Nat.le_min_l relayBatchSize
        (length (merge_sort seq_le (filter (fun r => relay_selects w (drain_failed drain) r = true) (event_rows d))))). lia.
Qed.

Lemma drain_charged env batches k n drain d d0 m err drain' d' :
  quiet env -> events_wf d -> charged_once d0 d drain ->
  drain_all env batches k n drain d = (m, err, drain', d') ->
  charged_once d0 d' drain' /\ n <= m <= n + Z.of_nat relayBatchSize * Z.of_nat batches.
Proof.
  intros Hq. revert k n drain d. induction batches as [|batches IH]; intros k n drain d Hwf Hc H; cbn [relay_drain] in H.
  { injection H as <- _ <- <-. split; [done|lia]. }
  pose proof (quiet_wf env k d Hq Hwf) as Hwf1. destruct (Hq k d) as [He _].
  assert (Hc1 : charged_once d0 (rw_others (env k) d) drain) by (unfold charged_once; by rewrite He).
  destruct (relayBatch _ _ _ _ _ _ _ _ _) as [[[m1 dr1] d1]|e] eqn:Hb.
  - pose proof (batch_charged _ _ _ _ _ _ _ Hwf1 Hc1 Hb) as [Hc2 Hm1]. destruct (_ && _).
    + injection H as <- _ <- <-. split; [done|lia].
    + eapply IH in H as [? ?]; [split; [done|lia]| |done].
      eapply rows_kept_wf; [apply (batch_lighter _ _ _ _ _ _ Hwf1 Hb)|done].
  - injection H as <- _ <- <-. split; [done|lia].
Qed.

(** C30. The backlog ends.  Whatever the fan-outs do (any event may fail at any time, the
    dispatcher may refuse, batches after a drain's first may fail to commit or find rows
    locked), as long as nothing is published meanwhile and each drain's first batch commits
    and finds no row locked by another relay ([fair]), after as many drains as the waiting
    events have unspent attempts no event waits: each was marked published, or parked with
    its attempts spent; and a row's columns never change. *)
Theorem backlog_always_drains envs d id r :
  Forall fair envs -> events_wf d -> (weight (ed_events d) <= length envs)%nat ->
  ed_events d !! id = Some r ->
  exists r', ed_events (relay_drains envs d) !! id = Some r' /\
    de_columns r' = de_columns r /\ awaits_relay r' = false /\
    (awaits_relay r = true -> settled r').
Proof.
  intros Hf Hwf Hlen Hr. destruct (drains_progress envs d Hf Hwf) as [(HK & HS & _) Hw].
  specialize (HS id). rewrite Hr in HS. inversion HS as [? r' Hsteps Heq Hr'|]; subst.
  exists r'. split; [done|].
  destruct HK as (_ & _ & HK). destruct (HK id r') as (r0 & Hr0 & Hcols & _); [done|].
  assert (r0 = r) as -> by congruence. split; [done|].
  assert (Hdone : awaits_relay r' = false) 
    by (apply (proj1 (weight_waits (ed_events (relay_drains envs d))) ltac:(lia) id); by symmetry).
  split; [done|]. intros Ha. by eapply row_steps_settle.
Qed.

(** One drain is bounded: it fans out at most 2000 events, and charges an event at
    most one attempt, in any of its batches, so that one outage does not burn an event's
    attempts. *)
Theorem one_attempt_per_drain env d m err d' id r' :
  quiet env -> events_wf d -> once env d = (m, err, d') ->
  ed_events d' !! id = Some r' ->
  0 <= m <= 2000 /\
  exists r, ed_events d !! id = Some r /\ de_columns r' = de_columns r /\
    de_relay_attempts r <= de_relay_attempts r' <= de_relay_attempts r + 1.
Proof.
  intros Hq Hwf H Hr'. apply once_drain in H as [dr H].
  pose proof (drain_lighter _ _ _ _ _ _ _ _ _ _ Hq Hwf H) as ((_ & _ & HK) & _).
  eapply (drain_charged _ _ _ _ _ _ d) in H as [Hc Hm]; [|done|done|].
  - split; [unfold relayBatchSize in Hm; lia|]. destruct (Hc _ _ Hr') as (r & Hr & Ha).
    destruct (HK _ _ Hr') as (r0 & Hr0 & Hcols & _). assert (r0 = r) as -> by congruence.
    exists r. split_and!; [done|done|..]; unfold charge in Ha; destruct (contains_string _ _); lia.
  - intros i r1 Hi. exists r1. rewrite charge_not by (by intros ?%elem_of_nil). split; [done|lia].
Qed.
End Drain.
