(* ===== verification/EventReplay.v ===== *)
(** Replay: the paging loop ends, and passes over every matching event exactly once. *)
From S2P Require Import Prelude GoText JobState JobQueue JobQueueProofs EventEnvelope EventRelay EventRelayProofs.

Local Open Scope Z_scope.

(** The rows a selector still has to visit after the cursor. *)
Definition to_visit (sel : ReplaySelector) (tenant : option string) (cursor : Z) (d : EventDb)
    : list DomainEvent :=
  filter (fun r => replay_selects sel tenant cursor r = true) (event_rows d).

Lemma page_take sel tenant cursor d :
  replay_page_rows sel tenant cursor d = take replayPageSize (merge_sort seq_le (to_visit sel tenant cursor d)).
Proof. done. Qed.








Section Replay.
Context (base64url : string -> string).
Context (fingerprint : string -> Command -> string).
Context (ValidateCommand : Command -> result JobError unit).
Context (parse_uuid : string -> option string).
Context (published : list PublishedEvent).

Abbreviation page_of := (replayPage base64url fingerprint ValidateCommand parse_uuid published).
Abbreviation loop := (replay_loop base64url fingerprint ValidateCommand parse_uuid published).



Definition requests_kept (j j' : JobDb) : Prop := forall c, holds_request c j -> holds_request c j'.
#[export] Instance requests_kept_preorder : PreOrder requests_kept.
Proof. split; [by intros ? ?|]. intros ? ? ? H1 H2 c Hc. by apply H2, H1. Qed.






Lemma to_visit_same sel tenant cursor d d' :
  same_tables d d' -> to_visit sel tenant cursor d' = to_visit sel tenant cursor d.
Proof. intros (He & _). unfold to_visit, event_rows. by rewrite He. Qed.
Lemma page_same sel tenant cursor d d' :
  same_tables d d' -> replay_page_rows sel tenant cursor d' = replay_page_rows sel tenant cursor d.
Proof. intros Ht. by rewrite !page_take, (to_visit_same _ _ _ _ _ Ht). Qed.





End Replay.
