(* ===== verification/EventWebhooks.v ===== *)
(** The outbound webhook dispatcher against the relay's interface: it keeps the promise
    of [WebhookDispatcher], and what it sends stays inside the event's tenant, once per
    endpoint and event. *)
From S2P Require Import Prelude GoText JobState JobQueue JobQueueProofs EventEnvelope EventRelay EventRelayProofs.

Local Open Scope Z_scope.

Section Webhooks.
Context (base64url : string -> string).
Context (fingerprint : string -> Command -> string).
Context (ValidateCommand : Command -> result JobError unit).
Context (parse_uuid : string -> option string).
Context (published : list PublishedEvent).
Context (render_body : string -> string -> string -> string -> string -> option string).
Context (encode_workload : WebhookDelivery -> string -> string).
Context (ValidateWorkload : WebhookDelivery -> string -> result JobError unit).

Abbreviation deliver := (Deliver base64url fingerprint ValidateCommand parse_uuid
  render_body encode_workload ValidateWorkload).
Abbreviation relay_one := (fan_out_one base64url fingerprint ValidateCommand parse_uuid (Some deliver)).
Abbreviation relay_all := (fan_out base64url fingerprint ValidateCommand parse_uuid (Some deliver)).

(** ** One delivery *)
(** The history row and the job a delivery leaves. *)
Record sent (w : RelayWorld) (e : EventEnvelope) (s : Subscription) (x : WebhookDelivery)
    (d d' : EventDb) : Prop := {
  sent_row : ed_deliveries d' = ed_deliveries d ++ [x];
  sent_tables : same_tables d d';
  sent_endpoint : is_Some (ed_endpoints d !! sub_WebhookSubscriptionID s);
  sent_subscription : wd_SubscriptionID x = sub_WebhookSubscriptionID s;
  sent_event : wd_OutboxEventID x = ev_Id e;
  sent_type : wd_EventType x = ev_Type e;
  sent_once : ev_Id e <> "" -> forall y, y ∈ ed_deliveries d ->
    wd_SubscriptionID y = sub_WebhookSubscriptionID s -> wd_OutboxEventID y <> ev_Id e;
  sent_jobs : appends (fun c => c_direction c = "outbox" /\ c_created_at c = rw_now w /\
    c_queue c = "webhooks" /\ c_organization_id c = parse_uuid (sub_OrgID s)) (ed_jobs d) (ed_jobs d');
}.

Lemma CreateWebhookDelivery_ok x d u d' :
  CreateWebhookDelivery x d = Ok (u, d') ->
  exists x', d' = add_delivery x' d /\ wd_SubscriptionID x' = wd_SubscriptionID x /\
    wd_OutboxEventID x' = wd_OutboxEventID x /\ wd_EventType x' = wd_EventType x /\
    is_Some (ed_endpoints d !! wd_SubscriptionID x) /\
    (wd_OutboxEventID x <> "" -> forall y, y ∈ ed_deliveries d ->
       wd_SubscriptionID y = wd_SubscriptionID x -> wd_OutboxEventID y <> wd_OutboxEventID x).
Proof.
  unfold CreateWebhookDelivery. cbn [wd_ID wd_SubscriptionID wd_OutboxEventID].
  destruct (existsb _ _); [done|]. destruct (_ && _) eqn:Hdup; [done|].
  destruct (ed_endpoints d !! _) as [ep|] eqn:He; [|done]. intros [= _ <-].
  eexists. split; [done|]. split_and!; [done..|by eexists|].
  intros Hne y Hy Hs Ho. apply andb_false_iff in Hdup as [Hdup|Hdup].
  - apply negb_false_iff, bool_decide_eq_true_1 in Hdup. done.
  - assert (Ht : existsb (fun y => bool_decide (wd_SubscriptionID y = wd_SubscriptionID x)
        && bool_decide (wd_OutboxEventID y = wd_OutboxEventID x)) (ed_deliveries d) = true).
    { apply existsb_exists. exists y. split; [by apply list_elem_of_In|].
      apply andb_true_iff. by rewrite !bool_decide_eq_true_2. }
    by rewrite Ht in Hdup.
Qed.

Lemma webhook_prepared org x body r w j n :
  newOutboundWebhookJob ValidateCommand encode_workload ValidateWorkload org x body = Ok r ->
  prepareJobEnqueue base64url fingerprint ValidateCommand parse_uuid r = Ok j ->
  let c := prepared_columns w j n in
  c_direction c = "outbox" /\ c_queue c = "webhooks" /\ c_organization_id c = parse_uuid org.
Proof.
  unfold newOutboundWebhookJob. destruct (ValidateWorkload _ _); [|done]. cbv zeta.
  destruct (ValidateCommand _); [|done]. intros [= <-]. unfold prepareJobEnqueue. cbn [er_job].
  destruct (EnqueueFingerprint _ _ _); [|done]. cbn [job_direction DatabaseDirection job_scope].
  unfold enqueueScopeValues. destruct (parse_uuid org) as [o|]; [|done].
  destruct (CanonicalOrderingKey _ _ _); [|done]. intros [= <-]. done.
Qed.

Lemma Deliver_ok w e s d o d' :
  deliver w e s d = Ok (o, d') ->
  (o = WebhookDelivered /\ exists x, sent w e s x d d') \/
  (o = WebhookAlreadyDelivered /\ d' = d) \/ (o = WebhookEndpointGone /\ d' = d).
Proof.
  unfold Deliver, NewDomainEventWebhookDelivery. intros H.
  destruct (render_body _ _ _ _ _) as [body|]; [|done]. cbv zeta in H.
  destruct (newOutboundWebhookJob _ _ _ _ _ _) as [r|] eqn:Hr; [|done].
  destruct (deliverOn _ _ _ _ _ _ _ _) as [[u d1]|err] eqn:Hd.
  2:{ destruct err; simplify_eq; auto. }
  injection H as <- <-. left. split; [done|]. unfold deliverOn in Hd.
  apply tx_bind_ok in Hd as (u1 & d2 & Hc & Hq).
  apply CreateWebhookDelivery_ok in Hc as (x & -> & Hs & Ho & Ht & He & Honce).
  cbn [wd_SubscriptionID wd_OutboxEventID wd_EventType] in *.
  apply enqueueOne_ok in Hq as (j & n & Hj & Htab & Hdel & Ha & _). exists x. constructor; try done.
  eapply appends_impl; [|exact Ha]. intros c ->.
  destruct (webhook_prepared _ _ _ _ (job_world w (job_idempotency_key (er_job r))) _ n Hr Hj) as (? & ? & ?).
  by split_and!.
Qed.

#[export] Instance Deliver_dispatches : WebhookDispatcher deliver.
Proof.
  constructor. intros w e s d o d' H. apply Deliver_ok in H as [(_ & x & Hs)|[[_ ->]|[_ ->]]].
  - split; [apply Hs|]. eapply appends_impl; [|apply (sent_jobs _ _ _ _ _ _ Hs)]. by intros c (? & ? & _).
  - split; [done|apply appends_refl].
  - split; [done|apply appends_refl].
Qed.

(** ** A fan-out *)
(** Deliveries of [e]: to matching webhook subscriptions of the event's own tenant. *)
Definition in_tenant (e : EventEnvelope) (subs : list Subscription) (x : WebhookDelivery) : Prop :=
  wd_OutboxEventID x = ev_Id e /\ wd_EventType x = ev_Type e /\ ev_TenantId e <> "" /\
  exists s, s ∈ subs /\ sub_Delivery s = DeliveryWebhook /\
    Matches (sub_TypePattern s) (ev_Type e) = true /\ sub_OrgID s = ev_TenantId e /\
    wd_SubscriptionID x = sub_WebhookSubscriptionID s.

(** The partial unique index on (subscription, outbox event). *)
Definition delivered_once (l : list WebhookDelivery) : Prop :=
  forall i j x y, l !! i = Some x -> l !! j = Some y ->
    wd_OutboxEventID x <> "" -> wd_OutboxEventID x = wd_OutboxEventID y ->
    wd_SubscriptionID x = wd_SubscriptionID y -> i = j.

Lemma delivered_once_snoc l x :
  delivered_once l ->
  (wd_OutboxEventID x <> "" -> forall y, y ∈ l -> wd_SubscriptionID y = wd_SubscriptionID x ->
     wd_OutboxEventID y <> wd_OutboxEventID x) ->
  delivered_once (l ++ [x]).
Proof.
  intros Hl Hx i j a b Ha Hb Hne Ho Hs.
  apply lookup_app_Some in Ha as [Ha|[Hi Ha]], Hb as [Hb|[Hj Hb]].
  - by eapply Hl.
  - apply list_lookup_singleton_Some in Hb as [Hb <-]. exfalso. apply (Hx ltac:(congruence) a); [|congruence..].
    by eapply list_elem_of_lookup_2.
  - apply list_lookup_singleton_Some in Ha as [Ha <-]. exfalso. apply (Hx Hne b); [|congruence..].
    by eapply list_elem_of_lookup_2.
  - apply list_lookup_singleton_Some in Ha as [Ha _], Hb as [Hb _]. lia.
Qed.

(** What a fan-out of [e] may do to the delivery history and the outbound jobs. *)
Definition sends (e : EventEnvelope) (subs : list Subscription) (external : bool)
    (d d' : EventDb) : Prop :=
  (exists new, ed_deliveries d' = ed_deliveries d ++ new /\ Forall (in_tenant e subs) new /\
    (external = false -> new = [])) /\
  (delivered_once (ed_deliveries d) -> delivered_once (ed_deliveries d')) /\
  appends (fun c => c_direction c = "outbox" -> external = true /\ ev_TenantId e <> "" /\
    c_organization_id c = parse_uuid (ev_TenantId e)) (ed_jobs d) (ed_jobs d').

#[export] Instance sends_preorder e subs ext : PreOrder (sends e subs ext).
Proof.
  split.
  - intros d. split_and!; [|done|apply appends_refl]. exists []. by rewrite app_nil_r.
  - intros d1 d2 d3 ((n1 & H1 & F1 & X1) & O1 & A1) ((n2 & H2 & F2 & X2) & O2 & A2).
    split_and!; [|auto|by eapply appends_trans]. exists (n1 ++ n2).
    rewrite H2, H1, app_assoc. split_and!; [done|by apply Forall_app|].
    intros Hx. by rewrite X1, X2.
Qed.

Lemma fan_out_one_sends w e subs ext s d u d' :
  s ∈ subs -> relay_one w e ext s d = Ok (u, d') -> sends e subs ext d d'.
Proof.
  unfold fan_out_one. intros Hin H.
  destruct (Matches _ _) eqn:Hm; cbn [negb] in H; [|by apply tx_ret_ok in H as [_ <-]].
  case_decide as Hw.
  - apply tx_bind_ok in H as (o & d1 & H & Hr). apply tx_ret_ok in Hr as [_ <-].
    unfold relayToWebhook in H. destruct ext; cbn [negb] in H; [|by apply tx_ret_ok in H as [_ <-]].
    destruct (_ || _) eqn:Hg; [by apply tx_ret_ok in H as [_ <-]|].
    apply orb_false_iff in Hg as [Hg1 Hg2]. apply bool_decide_eq_false_1 in Hg1, Hg2.
    assert (Horg : sub_OrgID s = ev_TenantId e) by (destruct (decide (sub_OrgID s = ev_TenantId e)); [done|tauto]).
    apply Deliver_ok in H as [(_ & x & Hs)|[[_ ->]|[_ ->]]]; [|done..]. destruct Hs. split_and!.
    + exists [x]. split_and!; [done| |done]. apply Forall_singleton. split_and!; [done..|congruence|].
      exists s. by split_and!.
    + intros Ho. rewrite sent_row0. apply delivered_once_snoc; [done|]. intros Hne y Hy Hsub.
      rewrite sent_event0 in *. apply sent_once0; [done|done|congruence].
    + eapply appends_impl; [|exact sent_jobs0]. intros c (_ & _ & _ & Hc) _.
      split_and!; [done|congruence|by rewrite Hc, Horg].
  - case_decide; [by apply tx_ret_ok in H as [_ <-]|].
    apply map_error_ok, enqueueOne_ok in H as (j & n & Hj & _ & Hdel & Ha & _). split_and!.
    + exists []. by rewrite app_nil_r.
    + by rewrite Hdel.
    + eapply appends_impl; [|exact Ha]. intros c -> Hd.
      by rewrite (ca_direction _ _ _ _ _ _ _ (prepare_delivery _ _ _ _ _ _ _ _ _ n Hj)) in Hd.
Qed.

Lemma fan_out_sends w e subs all ext d u d' :
  (forall s, s ∈ subs -> s ∈ all) -> relay_all w e ext subs d = Ok (u, d') -> sends e all ext d d'.
Proof.
  revert d. induction subs as [|s subs IH]; intros d Hin H; cbn [fan_out] in H.
  { by apply tx_ret_ok in H as [_ <-]. }
  apply tx_bind_ok in H as (u1 & d1 & H1 & H2). etrans.
  - eapply fan_out_one_sends; [|exact H1]. apply Hin. by left.
  - apply IH in H2; [done|]. intros s' Hs'. apply Hin. by right.
Qed.

(** C31. A webhook delivery never leaves the event's tenant.  Whatever subscriptions match,
    relaying an event adds history rows only for webhook subscriptions of the
    organization the event belongs to, only when the event has a tenant and its type is
    externally deliverable and not internal, and signs the outbound jobs for that
    organization; and an endpoint never gets two rows for one event. *)
Theorem webhooks_stay_in_tenant w e subs d u d' :
  relayEvent base64url fingerprint ValidateCommand parse_uuid published (Some deliver) w e subs d = Ok (u, d') ->
  let external := negb (IsInternalPublished published (ev_Type e)) && externallyDeliverable published (ev_Type e) d in
  sends e subs external d d'.
Proof.
  unfold relayEvent. intros H. destruct (IsInternalPublished _ _).
  - apply mark_published_ok in H as [_ ->]. cbn. split_and!; [|done|apply appends_refl].
    exists []. by rewrite app_nil_r.
  - apply tx_bind_ok in H as (d0 & d1 & Hg & H). cbv [tx_get] in Hg. injection Hg as <- <-.
    apply tx_bind_ok in H as (u1 & d1 & H1 & H2). apply mark_published_ok in H2 as [_ ->].
    apply (fan_out_sends _ _ _ subs) in H1; [|done]. exact H1.
Qed.
End Webhooks.
