(* ===== verification/EventRelayTheorems.v ===== *)
(** The event transport end to end: an envelope's way to a consumer, publishing one
    twice, and concrete runs: two events of a partition relayed in order, the same two
    relayed by two relays at once, a backlog that will not go, a replay and a webhook. *)
From Stdlib Require Import Ascii.
From S2P Require Import Prelude GoText JobState JobQueue JobQueueProofs JobQueueTheorems EventEnvelope EventRelay.
From S2P Require Import EventRelayProofs EventRelayOrder EventRelayDrain EventReplay EventWebhooks.

Local Open Scope Z_scope.

(** ** The way of an envelope *)
(** What the database makes of an envelope: the ids in canonical spelling, the time to
    the microsecond, a schema version of at least one. *)
Definition stored_envelope (e : EventEnvelope) (id tenant : string) : EventEnvelope :=
  {| ev_Id := id; ev_Type := ev_Type e; ev_Source := ev_Source e;
     ev_Subject := ev_Subject e; ev_Time := timestamptz <$> ev_Time e;
     ev_Specversion := ev_Specversion e; ev_Datacontenttype := ev_Datacontenttype e;
     ev_Dataschema := ev_Dataschema e; ev_Data := ev_Data e; ev_TenantId := tenant;
     ev_BoundaryId := ev_BoundaryId e; ev_PartitionKey := ev_PartitionKey e;
     ev_CorrelationId := ev_CorrelationId e; ev_CausationId := ev_CausationId e;
     ev_ActorPrincipalId := ev_ActorPrincipalId e; ev_OwnerPrincipalId := ev_OwnerPrincipalId e;
     ev_Traceparent := ev_Traceparent e; ev_SchemaVersion := eventSchemaVersion e |}.

Section Theorems.
Context (base64url : string -> string).
Context (fingerprint : string -> Command -> string).
Context (ValidateCommand : Command -> result JobError unit).
Context (parse_uuid : string -> option string).
Context (published : list PublishedEvent).
Context (layout : string -> option instant).

Lemma wrapped_version v : 0 <= v < 2 ^ 32 -> wrapu32 (wrap32 v) = v.
Proof.
  intros Hv. unfold wrapu32, wrap32. rewrite Zminus_mod, Zmod_mod, <- Zminus_mod.
  replace (v + 2 ^ 31 - 2 ^ 31) with v by lia. apply Z.mod_small. lia.
Qed.

Lemma stored_representable e id tenant :
  representable e -> representable (stored_envelope e id tenant).
Proof.
  intros [Hv Ht]. unfold representable, stored_envelope, eventSchemaVersion. cbn. split.
  - destruct (ev_SchemaVersion e =? 0); lia.
  - destruct (ev_Time e) as [t|]; [|done]. cbn. unfold four_digit_year, timestamptz, second in *.
    pose proof (Z.mod_pos_bound t 1000 ltac:(lia)). pose proof (Z.div_mod t 1000 ltac:(lia)). lia.
Qed.

(** The new row of an accepted publish. *)
Lemma published_new role now e print d u d' id :
  insertDomainEvent parse_uuid role now e print d = Ok (u, d') ->
  parse_uuid (ev_Id e) = Some id -> ed_events d !! id = None -> representable e ->
  exists r tenant, ed_events d' !! id = Some r /\ envelope_of r = stored_envelope e id tenant /\
    match nullableUUID (ev_TenantId e) with
    | None => tenant = "" | Some x => parse_uuid x = Some tenant end /\
    awaits_relay r = true /\ de_relay_attempts r = 0.
Proof.
  intros H Hid Hnew [Hv _]. apply insertDomainEvent_ok in H as (id' & tn & Hid' & Htn & _ & Hcase).
  assert (id' = id) as -> by congruence.
  destruct Hcase as [[_ ->]|[_ (r & Hr & _)]]; [|congruence].
  eexists (fresh_event _), (default "" tn). cbn. rewrite lookup_insert_eq. split_and!; [done| | |done|done].
  - unfold envelope_of, scan_event, stored_envelope. cbn. f_equal. apply wrapped_version.
    unfold eventSchemaVersion. destruct (ev_SchemaVersion e =? 0); lia.
  - destruct (nullableUUID _); [|by subst]. destruct Htn as (t & Ht & ->). done.
Qed.

(** C33. An envelope arrives as it was published.  The row of an accepted publish is the
    envelope with its ids in canonical spelling, its time cut to the microsecond and a
    schema version of at least one; and whenever that row is relayed, every inbox job
    the relay adds is on the queue of a subscription that matches it, and scans, at the
    consumer's claim, back to exactly that envelope. *)
Theorem envelope_survives_the_trip role now e print d u d1 id :
  insertDomainEvent parse_uuid role now e print d = Ok (u, d1) ->
  parse_uuid (ev_Id e) = Some id -> ed_events d !! id = None -> representable e ->
  exists r tenant, ed_events d1 !! id = Some r /\ envelope_of r = stored_envelope e id tenant /\
    match nullableUUID (ev_TenantId e) with
    | None => tenant = "" | Some x => parse_uuid x = Some tenant end /\
    forall webhooks, (forall deliver, webhooks = Some deliver -> WebhookDispatcher deliver) ->
    forall w subs d2 u2 d3 i m j,
      relayEvent base64url fingerprint ValidateCommand parse_uuid published webhooks w (envelope_of r) subs d2 = Ok (u2, d3) ->
      messages (ed_jobs d2) !! i = None -> messages (ed_jobs d3) !! i = Some m ->
      c_direction (m_columns m) = "inbox" -> scanJobEnvelope m = Ok j ->
      envelopeFromJob layout j = envelope_of r /\
      exists s, s ∈ subs /\ queued_to (envelope_of r) s /\ e_queue j = sub_Queue s.
Proof.
  intros H Hid Hnew Hrep. destruct (published_new _ _ _ _ _ _ _ _ H Hid Hnew Hrep) as (r & tn & Hr & He & Ht & _).
  exists r, tn. split_and!; [done..|]. intros webhooks Hdisp w subs d2 u2 d3 i m j Hrel Hi2 Hi3 Hdir Hscan.
  apply relayEvent_ok in Hrel; [|done]. destruct (rel_jobs _ _ _ _ _ _ _ _ _ Hrel) as (_ & _ & Ha).
  destruct (Ha _ _ Hi3) as [?|(_ & (_ & _ & Hjob) & _)]; [congruence|].
  destruct Hjob as [?|(s & Hs & Hq & Hc)]; [congruence|].
  unfold scanJobEnvelope in Hscan. repeat (case_match; [|done]). injection Hscan as <-. split.
  - unfold envelopeFromJob. cbn. rewrite (ca_attributes _ _ _ _ _ _ _ Hc), (ca_payload _ _ _ _ _ _ _ Hc).
    apply attributes_roundtrip. rewrite He. by apply stored_representable.
  - exists s. split_and!; [done..|]. cbn. by rewrite (ca_queue _ _ _ _ _ _ _ Hc).
Qed.

(** The statement's guards, which do not read the tables. *)
Definition passes (role : Role) (e : EventEnvelope) (print id : string) (tenant : option string) : Prop :=
  parse_uuid (ev_Id e) = Some id /\
  match nullableUUID (ev_TenantId e) with
  | None => tenant = None | Some x => exists t, parse_uuid x = Some t /\ tenant = Some t end /\
  role_may_publish role tenant = true /\
  domain_event_type (ev_Type e) && domain_event_source (ev_Source e)
    && (String.length print =? 32)%nat = true.

Lemma uuid_param_run o tn (d : EventDb) :
  match o with None => tn = None | Some x => exists t, parse_uuid x = Some t /\ tn = Some t end ->
  uuid_param parse_uuid o d = Ok (tn, d).
Proof. destruct o as [x|]; [|by intros ->]. cbn. by intros (t & -> & ->). Qed.

Lemma publish_guards role now e print d r :
  insertDomainEvent parse_uuid role now e print d = Ok r ->
  exists id tn, passes role e print id tn.
Proof.
  destruct r as [u d']. intros H. pose proof (insertDomainEvent_ok _ _ _ _ _ _ _ _ H) as (id & tn & Hid & Ht & Hrole & _).
  exists id, tn. split_and!; [done..|]. destruct (_ && _) eqn:Hc; [done|]. exfalso.
  unfold insertDomainEvent, publish_domain_event in H.
  apply tx_bind_ok in H as (x & d1 & H & _).
  apply tx_bind_ok in H as (o1 & d2 & H1 & H). rewrite (uuid_param_run _ (Some id)) in H1 by (by exists id).
  injection H1 as <- <-.
  apply tx_bind_ok in H as (o2 & d3 & H2 & H). rewrite (uuid_param_run _ tn) in H2 by done. injection H2 as <- <-.
  rewrite Hrole in H. cbn [negb] in H.
  apply tx_bind_ok in H as (d4 & d5 & Hg & H). cbv [tx_get] in Hg. injection Hg as <- <-.
  apply tx_bind_ok in H as (? & d6 & Hp & H). by rewrite Hc in H.
Qed.

Lemma republish role now e print id tn d r :
  passes role e print id tn -> ed_events d !! id = Some r ->
  dc_request_fingerprint (de_columns r) = print ->
  insertDomainEvent parse_uuid role now e print d = Ok (tt, bump_event_seq d).
Proof.
  intros (Hid & Ht & Hrole & Hc) Hr Hp. unfold insertDomainEvent, publish_domain_event.
  unfold mbind, tx_bind. rewrite (uuid_param_run (Some (ev_Id e)) (Some id)) by (by exists id).
  rewrite (uuid_param_run _ tn) by done. rewrite Hrole, Hc. cbn [negb].
  unfold tx_get, tx_put. change (default "" (Some id)) with id. rewrite Hr. cbn [negb andb fst snd mret tx_ret].
  unfold mret, tx_ret. cbn [negb andb fst snd]. rewrite Hp, bool_decide_eq_false_2; [done|]. by intros Hne; apply Hne.
Qed.

(** Publishing is idempotent, and an event id names one fact.  Once an envelope is
    accepted, as long as its row is there, publishing an envelope of the same content
    again (times, correlation, causation and trace aside) is accepted and changes
    nothing but the sequence, and one that reuses the id for a different content is
    refused, given that the digest does not collide on the two. *)
Theorem an_id_names_one_fact (digest : EventEnvelope -> string) role now e d u d1 id role' now' e' d2 :
  (digest (event_core e) = digest (event_core e') -> event_core e = event_core e') ->
  insertDomainEvent parse_uuid role now e (eventFingerprint digest e) d = Ok (u, d1) ->
  parse_uuid (ev_Id e) = Some id -> ev_Id e' = ev_Id e ->
  de_columns <$> ed_events d2 !! id = de_columns <$> ed_events d1 !! id ->
  (event_core e' = event_core e ->
   insertDomainEvent parse_uuid role now' e' (eventFingerprint digest e') d2 = Ok (tt, bump_event_seq d2)) /\
  (event_core e' <> event_core e ->
   is_ok (insertDomainEvent parse_uuid role' now' e' (eventFingerprint digest e') d2) = false).
Proof.
  intros Hinj H Hid Hsame Hcols.
  pose proof (insertDomainEvent_ok _ _ _ _ _ _ _ _ H) as (id' & tn & Hid' & _ & _ & Hcase).
  assert (id' = id) as -> by congruence.
  assert (Hrow : exists r, ed_events d2 !! id = Some r /\
    dc_request_fingerprint (de_columns r) = eventFingerprint digest e).
  { destruct Hcase as [[_ ->]|[-> (r & Hr & Hp)]]; cbn in Hcols.
    - rewrite lookup_insert_eq in Hcols. apply fmap_Some in Hcols as (r & Hr & Hc). exists r. by rewrite <- Hc.
    - rewrite Hr in Hcols. apply fmap_Some in Hcols as (r2 & Hr2 & Hc). exists r2. by rewrite <- Hc. }
  destruct Hrow as (r & Hr & Hprint). split.
  - intros Hcore.
    assert (Hf : eventFingerprint digest e' = eventFingerprint digest e) by (unfold eventFingerprint; by rewrite Hcore).
    assert (Htn : ev_TenantId e' = ev_TenantId e) by (by injection Hcore).
    assert (Hty : ev_Type e' = ev_Type e) by (by injection Hcore).
    assert (Hso : ev_Source e' = ev_Source e) by (by injection Hcore).
    rewrite Hf. apply publish_guards in H as (id' & tn' & Hp). unfold passes in Hp.
    eapply republish; [|exact Hr|exact Hprint].
    unfold passes. rewrite Hsame, Htn, Hty, Hso. destruct Hp as (Hp & ?). assert (id' = id) as -> by congruence.
    by split.
  - intros Hcore. destruct (insertDomainEvent parse_uuid role' now' e' _ d2) as [[u2 d3]|] eqn:H2; [|done].
    apply insertDomainEvent_ok in H2 as (id2 & tn2 & Hid2 & _ & _ & Hcase2). exfalso.
    assert (id2 = id) as -> by congruence.
    destruct Hcase2 as [[? _]|[_ (r2 & Hr2 & Hp2)]]; [congruence|].
    apply Hcore. symmetry. apply Hinj. unfold eventFingerprint in *. congruence.
Qed.
End Theorems.

(** ** Concrete runs *)
Module EventRun.
Definition uuid (s : string) : option string :=
  if decide (before_byte ":"%char s = s) then Some s else None.
Definition print : string := "0123456789abcdef0123456789abcdef".

Definition event (id : string) : EventEnvelope :=
  {| ev_Id := id; ev_Type := "crm.contact.created"; ev_Source := "crm"; ev_Subject := "c/1";
     ev_Time := Some 1234567; ev_Specversion := "1.0"; ev_Datacontenttype := ""; ev_Dataschema := "";
     ev_Data := "data"; ev_TenantId := "org"; ev_BoundaryId := ""; ev_PartitionKey := "org/c";
     ev_CorrelationId := ""; ev_CausationId := ""; ev_ActorPrincipalId := ""; ev_OwnerPrincipalId := "";
     ev_Traceparent := ""; ev_SchemaVersion := 0 |}.

Definition row (id queue pattern : string) (del : Delivery) (hook : option string) : EventSubscriptionRow :=
  {| es_id := id; es_subscriber_principal_id := match hook with Some _ => None | None => Some "p" end; es_type_pattern := pattern; es_queue := queue;
     es_delivery := del; es_created_by := None; es_created_at := 0; es_revoked_at := None;
     es_org_id := match hook with Some _ => Some "org" | None => None end;
     es_webhook_subscription_id := hook |}.
Definition sub : EventSubscriptionRow := row "s" "q" "crm.*" DeliveryOrdered None.
Definition hook : EventSubscriptionRow := row "h" "webhooks" "crm.*" DeliveryWebhook (Some "endpoint").

Definition start (subs : list EventSubscriptionRow) : EventDb :=
  {| ed_jobs := empty_jobs; ed_events := ∅; ed_next_seq := 1;
     ed_subscriptions := list_to_map (map (fun s => (es_id s, s)) subs);
     ed_endpoints := {["endpoint" := {| we_org_id := "org"; we_active := true |}]};
     ed_deliveries := []; ed_visibility := {["crm.contact.created" := "external"]} |}.

Definition world (t : Z) (locked : gset string) (fault : string -> option string) : RelayWorld :=
  {| rw_now := t; rw_jobs := QueueRun.world t ""; rw_job_id := fun key => "job-" +:+ key;
     rw_delivery_id := fun event endpoint => event +:+ "@" +:+ endpoint; rw_nonce := fun id => "n" +:+ id;
     rw_locked := locked; rw_fault := fault; rw_failure := None; rw_others := fun d => d |}.
Definition no_fault (_ : string) : option string := None.
Definition all_fail (_ : string) : option string := Some "connection reset".

Definition body (id ty data time delivery : string) : option string := Some data.
Definition workload (x : WebhookDelivery) (payload : string) : string := payload.
Definition good (x : WebhookDelivery) (payload : string) : result JobError unit := Ok tt.
Definition deliver := Deliver QueueRun.b64 QueueRun.print QueueRun.valid uuid body workload good.

Definition batch := relayBatch QueueRun.b64 QueueRun.print QueueRun.valid uuid [] (Some deliver).
Definition publish (id : string) (t : Z) := insertDomainEvent uuid app_control_plane t (event id) print.
Definition after {A} (m : E A) (d : EventDb) : EventDb :=
  match m d with Ok (_, d') => d' | Err _ => d end.
Lemma committed {A} (m : E A) d : is_ok (m d) = true -> exists a, m d = Ok (a, after m d).
Proof. unfold after. destruct (m d) as [[a d']|]; [eauto|done]. Qed.

(** Two events of one partition, and one relay. *)
Definition one_event := after (publish "e1" 1) (start [sub; hook]).
Definition two_events := after (publish "e2" 2) one_event.
Definition relay_two := batch (world 3 ∅ no_fault) new_drain.
Definition relayed_two := after relay_two two_events.

(** The rows of the queue's jobs, first to last. *)
Definition queue_of (d : EventDb) : list string :=
  map (fun m => c_idempotency_key (m_columns m))
    (merge_sort claim_order (filter (fun m => c_queue (m_columns m) = "q") (rows_of (ed_jobs d)))).
Example relays_in_order : queue_of relayed_two = ["e1:s"; "e2:s"].
Proof. by vm_compute. Qed.
Example sends_webhooks : map wd_ID (ed_deliveries relayed_two) = ["e1@endpoint"; "e2@endpoint"].
Proof. by vm_compute. Qed.

(** Two relays: the first holds [e1] locked while the second, whose transaction began
    earlier, scans, passes over it and relays [e2]. *)
Definition second_relay := batch (world 3 {["e1"]} no_fault) new_drain.
Definition first_relay := batch (world 4 ∅ no_fault) new_drain.
Definition two_relays := after first_relay (after second_relay two_events).
Example relays_out_of_order : queue_of two_relays = ["e2:s"; "e1:s"].
Proof. by vm_compute. Qed.

(** *** The steps *)
Abbreviation estep := (order_step [] sub QueueRun.b64 QueueRun.print QueueRun.valid uuid (Some deliver)).
Definition job_of (d : EventDb) (id : string) : JobMessage := QueueRun.row (ed_jobs d) id.
Definition row_of (d : EventDb) (id : string) : DomainEvent :=
  default (fresh_event (event_columns "" 0 None 0 (event "") "")) (ed_events d !! id).
Lemma found_row d id : is_some (ed_events d !! id) = true -> ed_events d !! id = Some (row_of d id).
Proof. unfold row_of. by destruct (ed_events d !! id). Qed.

Lemma dispatches : forall f, Some deliver = Some f -> WebhookDispatcher f.
Proof. intros f [= <-]. apply Deliver_dispatches. Qed.
Lemma uuid_no_colon x u : uuid x = Some u -> no_colon u.
Proof. unfold uuid, no_colon. case_decide; [by intros [= <-]|done]. Qed.

Lemma empty_events_wf subs : events_wf (start subs).
Proof. constructor; cbn; intros *; by rewrite lookup_empty. Qed.
Lemma start_ok : order_start sub (start [sub; hook]).
Proof.
  constructor.
  - apply empty_events_wf.
  - intros id r. cbn. by rewrite lookup_empty.
  - by vm_compute.
  - intros id r. cbn. rewrite !lookup_insert_Some, lookup_empty. naive_solver.
  - intros id m. cbn. by rewrite lookup_empty.
  - intros id m x. cbn. by rewrite lookup_empty.
Qed.

Lemma publish_step id t d drain now :
  is_ok (publish id t d) = true -> estep (d, drain, now) (after (publish id t) d, drain, now).
Proof. intros [u H]%committed. eapply os_publish, H. Qed.

Definition drain_two : relayDrain := {| drain_failed := []; drain_blocked := ∅ |}.
Lemma relay_step : estep (two_events, new_drain, 0) (relayed_two, drain_two, 3).
Proof.
  eapply (os_batch _ _ _ _ _ _ _ (world 3 ∅ no_fault) 2).
  - done.
  - cbn. lia.
  - by vm_compute.
Qed.
Lemma relayed_reachable : rtc estep (start [sub; hook], new_drain, 0) (relayed_two, drain_two, 3).
Proof.
  eapply rtc_l; [apply (publish_step "e1" 1); by vm_compute|].
  eapply rtc_l; [apply (publish_step "e2" 2); by vm_compute|]. apply rtc_once, relay_step.
Qed.
End EventRun.

Lemma relayed_in_publish_order_witness :
  enqueued_before (m_columns (EventRun.job_of EventRun.relayed_two "job-e1:s"))
    (m_columns (EventRun.job_of EventRun.relayed_two "job-e2:s")) = true.
Proof.
  eapply (relayed_in_publish_order [] EventRun.sub eq_refl (conj eq_refl eq_refl)
    QueueRun.b64 QueueRun.print QueueRun.valid EventRun.uuid (Some EventRun.deliver)
    EventRun.dispatches EventRun.uuid_no_colon eq_refl _ 0 EventRun.relayed_two EventRun.drain_two 3
    "job-e2:s" (EventRun.job_of EventRun.relayed_two "job-e2:s") "e1" "e2"
    (EventRun.row_of EventRun.relayed_two "e1") (EventRun.row_of EventRun.relayed_two "e2")
    EventRun.start_ok EventRun.relayed_reachable).
  - apply QueueRun.found. by vm_compute.
  - split_and!; by vm_compute.
  - apply EventRun.found_row. by vm_compute.
  - apply EventRun.found_row. by vm_compute.
  - by vm_compute.
  - by vm_compute.
  - by vm_compute.
  - apply QueueRun.found. by vm_compute.
  - split_and!; by vm_compute.
Defined.

(** With two relays the order is lost.  A relay holding the first event of a partition
    locked does not stop another relay from passing over it and fanning out the second:
    the consumer's queue then has the second event first. *)
Theorem two_relays_break_order :
  exists w1 w2 d d1 d2 n1 n2 dr1 dr2,
    rtc EventRun.estep (EventRun.start [EventRun.sub; EventRun.hook], new_drain, 0) (d, new_drain, 0) /\
    EventRun.batch w1 new_drain d = Ok ((n1, dr1), d1) /\
    EventRun.batch w2 new_drain d1 = Ok ((n2, dr2), d2) /\
    rw_now w1 <= rw_now w2 /\
    (exists r1 r2, ed_events d2 !! "e1" = Some r1 /\ ed_events d2 !! "e2" = Some r2 /\
       dc_partition_key (de_columns r1) = "org/c" /\ dc_partition_key (de_columns r2) = "org/c" /\
       dc_seq (de_columns r1) < dc_seq (de_columns r2)) /\
    (exists m1 m2, messages (ed_jobs d2) !! "job-e1:s" = Some m1 /\
       messages (ed_jobs d2) !! "job-e2:s" = Some m2 /\
       c_ordering_key (m_columns m1) = c_ordering_key (m_columns m2) /\
       enqueued_before (m_columns m2) (m_columns m1) = true).
Proof.
  eexists (EventRun.world 3 {["e1"]} EventRun.no_fault), (EventRun.world 4 ∅ EventRun.no_fault), EventRun.two_events,
    (EventRun.after EventRun.second_relay EventRun.two_events), EventRun.two_relays, _, _, _, _.
  split_and!.
  - eapply rtc_l; [apply (EventRun.publish_step "e1" 1); by vm_compute|].
    apply rtc_once. apply (EventRun.publish_step "e2" 2). by vm_compute.
  - by vm_compute.
  - by vm_compute.
  - cbn. lia.
  - exists (EventRun.row_of EventRun.two_relays "e1"), (EventRun.row_of EventRun.two_relays "e2").
    split_and!; [apply EventRun.found_row|apply EventRun.found_row|..]; by vm_compute.
  - exists (EventRun.job_of EventRun.two_relays "job-e1:s"), (EventRun.job_of EventRun.two_relays "job-e2:s").
    split_and!; [apply QueueRun.found|apply QueueRun.found|..]; by vm_compute.
Qed.

(** Ten drains while every fan-out fails. *)
Definition outage (_ : nat) : RelayWorld := EventRun.world 9 ∅ EventRun.all_fail.
Lemma outage_quiet : quiet outage.
Proof. by intros k d. Qed.
Abbreviation demo_once := (RelayOnce QueueRun.b64 QueueRun.print QueueRun.valid EventRun.uuid []
  (Some EventRun.deliver)).

Lemma publish_wf id t d :
  is_ok (EventRun.publish id t d) = true -> events_wf d -> events_wf (EventRun.after (EventRun.publish id t) d).
Proof. intros [u H]%EventRun.committed. by eapply insertDomainEvent_wf. Qed.
Lemma one_event_wf : events_wf EventRun.one_event.
Proof. apply (publish_wf "e1" 1); [by vm_compute|apply EventRun.empty_events_wf]. Qed.
Lemma two_events_wf : events_wf EventRun.two_events.
Proof. apply (publish_wf "e2" 2); [by vm_compute|exact one_event_wf]. Qed.

Lemma backlog_always_drains_witness :
  exists r', ed_events (relay_drains QueueRun.b64 QueueRun.print QueueRun.valid EventRun.uuid []
      (Some EventRun.deliver) (repeat outage 10) EventRun.two_events) !! "e2" = Some r' /\
    awaits_relay r' = false.
Proof.
  destruct (backlog_always_drains QueueRun.b64 QueueRun.print QueueRun.valid EventRun.uuid []
    (Some EventRun.deliver) EventRun.dispatches (repeat outage 10) EventRun.two_events "e2"
    (EventRun.row_of EventRun.two_events "e2")) as (r' & H & _ & Ha & _).
  - apply Forall_forall. intros env Hin. apply list_elem_of_In, repeat_spec in Hin. subst env.
    split; [exact outage_quiet|]. by split.
  - exact two_events_wf.
  - vm_compute. lia.
  - apply EventRun.found_row. by vm_compute.
  - exists r'. split; [exact H|exact Ha].
Defined.

Definition drained : Z * option EventError * EventDb := demo_once outage EventRun.two_events.
Lemma one_attempt_per_drain_witness :
  0 <= drained.1.1 <= 2000.
Proof.
  eapply (one_attempt_per_drain QueueRun.b64 QueueRun.print QueueRun.valid EventRun.uuid []
    (Some EventRun.deliver) EventRun.dispatches outage EventRun.two_events drained.1.1 drained.1.2 drained.2 "e1"
    (EventRun.row_of drained.2 "e1")).
  - exact outage_quiet.
  - exact two_events_wf.
  - unfold drained. by destruct (demo_once outage EventRun.two_events) as [[m err] d'].
  - apply EventRun.found_row. by vm_compute.
Defined.

(** A replay of everything, and what it puts on the queue. *)
Definition everything : ReplaySelector :=
  {| sel_Type := ""; sel_TenantID := ""; sel_Since := zero_time; sel_SubscriberPrincipalID := "p" |}.
Definition nobody (_ : nat) : RelayWorld := EventRun.world 9 ∅ EventRun.no_fault.
Definition replayed := replay_loop QueueRun.b64 QueueRun.print QueueRun.valid EventRun.uuid []
  nobody everything None 1 0 0 0 EventRun.relayed_two.
Example replay_again :
  option_map (fun x => (x.1.1, EventRun.queue_of x.2)) replayed
  = Some (2, ["e1:s"; "e2:s"; "e1:s:replay:ne1"; "e2:s:replay:ne2"]).
Proof. by vm_compute. Qed.



(** [e1] fanned out to both subscriptions. *)
Definition e1_row : EventEnvelope := envelope_of (EventRun.row_of EventRun.one_event "e1").
Definition both : list Subscription := map scan_subscription [EventRun.sub; EventRun.hook].
Definition relay_e1 := relayEvent QueueRun.b64 QueueRun.print QueueRun.valid EventRun.uuid []
  (Some EventRun.deliver) (nobody 0) e1_row both.
Definition fanned_out : EventDb := EventRun.after relay_e1 EventRun.one_event.
Lemma fanned_out_ok : relay_e1 EventRun.one_event = Ok (tt, fanned_out).
Proof.
  assert (H : is_ok (relay_e1 EventRun.one_event) = true) by by vm_compute.
  by apply EventRun.committed in H as [[] H].
Qed.

Lemma webhooks_stay_in_tenant_witness :
  map wd_ID (ed_deliveries fanned_out) = ["e1@endpoint"] /\ delivered_once (ed_deliveries fanned_out).
Proof.
  split; [by vm_compute|].
  destruct (webhooks_stay_in_tenant QueueRun.b64 QueueRun.print QueueRun.valid EventRun.uuid []
    EventRun.body EventRun.workload EventRun.good (nobody 0) e1_row both EventRun.one_event tt fanned_out
    fanned_out_ok) as (_ & H & _).
  apply H. intros i j x y Hi. vm_compute in Hi. by destruct i.
Defined.

Definition job_e1 : result JobError JobEnvelope := scanJobEnvelope (EventRun.job_of fanned_out "job-e1:s").
Lemma envelope_survives_the_trip_witness :
  exists j, job_e1 = Ok j /\ envelopeFromJob (fun _ => None) j = stored_envelope (EventRun.event "e1") "e1" "org".
Proof.
  destruct job_e1 as [j|] eqn:Hj; [|by vm_compute in Hj]. exists j. split; [reflexivity|].
  assert (Hpub : EventRun.publish "e1" 1 (EventRun.start [EventRun.sub; EventRun.hook]) = Ok (tt, EventRun.one_event)).
  { assert (H : is_ok (EventRun.publish "e1" 1 (EventRun.start [EventRun.sub; EventRun.hook])) = true) by by vm_compute.
    by apply EventRun.committed in H as [[] H]. }
  destruct (envelope_survives_the_trip QueueRun.b64 QueueRun.print QueueRun.valid EventRun.uuid [] (fun _ => None)
    app_control_plane 1 (EventRun.event "e1") EventRun.print _ tt EventRun.one_event "e1" Hpub)
    as (r & tn & Hr & He & Ht & Hrun); [reflexivity|reflexivity| |].
  { split; [cbn; lia|]. cbn. unfold four_digit_year, second. lia. }
  assert (Hrow : r = EventRun.row_of EventRun.one_event "e1").
  { assert (H : ed_events EventRun.one_event !! "e1" = Some (EventRun.row_of EventRun.one_event "e1"))
      by (apply EventRun.found_row; by vm_compute). congruence. }
  assert (tn = "org") as -> by (cbn in Ht; vm_compute in Ht; by injection Ht). subst r.
  destruct (Hrun (Some EventRun.deliver) EventRun.dispatches (nobody 0) both EventRun.one_event tt fanned_out
    "job-e1:s" (EventRun.job_of fanned_out "job-e1:s") j fanned_out_ok) as [Henv _]; [by vm_compute| |by vm_compute|exact Hj|].
  - apply QueueRun.found. by vm_compute.
  - rewrite Henv. exact He.
Defined.

(** A digest that tells two envelopes apart. *)
Definition other_event : EventEnvelope :=
  {| ev_Id := "e1"; ev_Type := "crm.contact.deleted"; ev_Source := "crm"; ev_Subject := "c/1";
     ev_Time := None; ev_Specversion := "1.0"; ev_Datacontenttype := ""; ev_Dataschema := "";
     ev_Data := "data"; ev_TenantId := "org"; ev_BoundaryId := ""; ev_PartitionKey := "org/c";
     ev_CorrelationId := ""; ev_CausationId := ""; ev_ActorPrincipalId := ""; ev_OwnerPrincipalId := "";
     ev_Traceparent := ""; ev_SchemaVersion := 0 |}.
Definition digest (e : EventEnvelope) : string :=
  if decide (e = event_core other_event) then "fedcba9876543210fedcba9876543210" else EventRun.print.
Lemma an_id_names_one_fact_witness :
  is_ok (insertDomainEvent EventRun.uuid app_control_plane 5 other_event (eventFingerprint digest other_event)
    EventRun.one_event) = false.
Proof.
  assert (H : is_ok (insertDomainEvent EventRun.uuid app_control_plane 1 (EventRun.event "e1")
    (eventFingerprint digest (EventRun.event "e1")) (EventRun.start [EventRun.sub; EventRun.hook])) = true) by by vm_compute.
  apply EventRun.committed in H as [u H].
  destruct (an_id_names_one_fact EventRun.uuid digest app_control_plane 1 (EventRun.event "e1")
    (EventRun.start [EventRun.sub; EventRun.hook]) u EventRun.one_event "e1" app_control_plane 5 other_event EventRun.one_event) as [_ Hno].
  - by vm_compute.
  - refine (eq_trans H _). by vm_compute.
  - reflexivity.
  - reflexivity.
  - reflexivity.
  - apply Hno. by vm_compute.
Defined.
