(* ===== verification/ModuleScopes.v ===== *)
(** Operation scopes, the authority of one module on another's resources:
    accounts/code/pkg/business/module_operation_audience.go, module_read_audience.go
    and the scope functions of installation_scope.go and
    module_principal_reconcile.go.

    A scope list names, per resource kind, the actions allowed and the resources they
    are allowed on; no resources named means every resource of the kind.  [permits]
    says what a list allows, and is what the checks and intersections are measured
    against.  A slice that the code compares with nil is an optional list. *)
From S2P Require Import Prelude.

(** ** slices.BinarySearch

    Bisection on [i, j); [fuel] bounds the rounds, and the length of the slice is
    always enough (bisect_fuel of ModuleScopesProofs). *)
Fixpoint bisect (fuel : nat) (x : list string) (target : string) (i j : nat) : nat :=
  match fuel with
  | O => i
  | S fuel =>
      if decide (i < j)%nat then
        let h := ((i + j) / 2)%nat in
        if String.ltb (nth h x "") target then bisect fuel x target (S h) j
        else bisect fuel x target i h
      else i
  end.
Definition BinarySearch (x : list string) (target : string) : nat * bool :=
  let n := length x in
  let i := bisect n x target 0 n in
  (i, bool_decide (i < n)%nat && bool_decide (nth i x "" = target)).

(** ** The data *)
Record ModuleOperationScope := {
  ResourceKind : string;
  Actions : list string;
  ResourceIDs : list string
}.
#[export] Instance ModuleOperationScope_eq_dec : EqDecision ModuleOperationScope.
Proof. solve_decision. Defined.

Record ModuleOperationAudience := {
  oa_DelegationMode : string;
  oa_Audience : string;
  oa_InvokeScopes : option (list ModuleOperationScope);
  oa_LookupScopes : option (list ModuleOperationScope);
  oa_HeadlessScopes : option (list ModuleOperationScope);
  oa_SourceDelegationScopes : option (list ModuleOperationScope)
}.

#[export] Instance ModuleOperationAudience_eq_dec : EqDecision ModuleOperationAudience.
Proof. solve_decision. Defined.

Record ModuleReadScope := { rs_ResourceKind : string; rs_ResourceIDs : list string }.
#[export] Instance ModuleReadScope_eq_dec : EqDecision ModuleReadScope.
Proof. solve_decision. Defined.
Record ModuleReadAudience := { ra_Audience : string; ra_Scopes : list ModuleReadScope }.
#[export] Instance ModuleReadAudience_eq_dec : EqDecision ModuleReadAudience.
Proof. solve_decision. Defined.

(** Ranging over a slice, [nil] being the empty one. *)
Definition slice {A} (o : option (list A)) : list A := default [] o.
Definition nilIfEmpty {A} (l : list A) : option (list A) :=
  match l with [] => None | _ :: _ => Some l end.

(** What a scope and a scope list allow. *)
Definition scope_permits (s : ModuleOperationScope) (kind action id : string) : Prop :=
  ResourceKind s = kind /\ action ∈ Actions s /\ (ResourceIDs s = [] \/ id ∈ ResourceIDs s).
Definition permits (scopes : list ModuleOperationScope) (kind action id : string) : Prop :=
  exists s, s ∈ scopes /\ scope_permits s kind action id.

(** ** Canonical form *)
(** [strings.ContainsAny(value, "\x00\r\n\t")] *)
Definition control_byte (b : N) : bool :=
  (b =? 0)%N || (b =? 13)%N || (b =? 10)%N || (b =? 9)%N.
Definition validOperationValue (value : string) (limit : nat) : bool :=
  negb (bool_decide (value = "")) && bool_decide (String.length value <= limit)%nat
  && bool_decide (TrimSpace value = value) && negb (existsb control_byte (bytes_of value)).

(** The loop carries [values[i-1]]; there is none before the first. *)
Fixpoint sorted_unique_from (previous : option string) (values : list string) (limit : nat) : bool :=
  match values with
  | [] => true
  | value :: rest =>
      validOperationValue value limit
      && match previous with Some p => String.ltb p value | None => true end
      && sorted_unique_from (Some value) rest limit
  end.
Definition sortedUniqueOperationValues (values : list string) (limit : nat) : bool :=
  sorted_unique_from None values limit.

(** The body of the loop of [validOperationScopes]; [previousKind] starts empty, and
    an empty kind is not valid anyway. *)
Definition valid_scope (lookup : bool) (previousKind : string) (scope : ModuleOperationScope) : bool :=
  validOperationValue (ResourceKind scope) 128 && String.ltb previousKind (ResourceKind scope)
  && negb (bool_decide (Actions scope = [])) && bool_decide (length (Actions scope) <= 32)%nat
  && bool_decide (length (ResourceIDs scope) <= 64)%nat
  && sortedUniqueOperationValues (Actions scope) 128
  && sortedUniqueOperationValues (ResourceIDs scope) 512
  && forallb (fun action => negb (bool_decide (action = "*"))
       && (negb lookup || bool_decide (action = "read"))) (Actions scope)
  && negb (contains_string (ResourceIDs scope) "*").
Fixpoint valid_scopes_from (lookup : bool) (previousKind : string) (scopes : list ModuleOperationScope) : bool :=
  match scopes with
  | [] => true
  | scope :: rest =>
      valid_scope lookup previousKind scope && valid_scopes_from lookup (ResourceKind scope) rest
  end.
Definition validOperationScopes (scopes : list ModuleOperationScope) (lookup : bool) : bool :=
  negb (bool_decide (scopes = [])) && bool_decide (length scopes <= 16)%nat
  && valid_scopes_from lookup "" scopes.

(** ** Subset and intersection *)
(** [byKind]: the last scope of a kind is the one kept. *)
Definition by_kind (scopes : list ModuleOperationScope) : gmap string ModuleOperationScope :=
  fold_left (fun m scope => <[ResourceKind scope := scope]> m) scopes ∅.

Definition operationValuesSubset (subset superset : list string) : bool :=
  forallb (fun value =>
    let '(index, found) := BinarySearch superset value in
    negb (negb found || bool_decide (length superset <= index)%nat)) subset.

Definition operationScopesSubset (subset superset : list ModuleOperationScope) : bool :=
  let byKind := by_kind superset in
  forallb (fun scope =>
    match byKind !! ResourceKind scope with
    | None => false
    | Some parent =>
        operationValuesSubset (Actions scope) (Actions parent)
        && (bool_decide (ResourceIDs parent = [])
            || (negb (bool_decide (ResourceIDs scope = []))
                && operationValuesSubset (ResourceIDs scope) (ResourceIDs parent)))
    end) subset.

Definition intersectOperationValues (left right : list string) : list string :=
  filter (fun value => (BinarySearch right value).2 = true) left.

(** One turn of the loop of [intersectOperationScopes]; [None] is its [continue]. *)
Definition intersect_scope (byKind : gmap string ModuleOperationScope) (scope : ModuleOperationScope) :
    option ModuleOperationScope :=
  match byKind !! ResourceKind scope with
  | None => None
  | Some other =>
      let actions := intersectOperationValues (Actions scope) (Actions other) in
      if decide (actions = []) then None
      else
        let keep ids := Some {| ResourceKind := ResourceKind scope; Actions := actions; ResourceIDs := ids |} in
        if decide (ResourceIDs scope = []) then keep (ResourceIDs other)
        else if decide (ResourceIDs other = []) then keep (ResourceIDs scope)
        else
          let ids := intersectOperationValues (ResourceIDs scope) (ResourceIDs other) in
          if decide (ids = []) then None else keep ids
  end.
Definition intersectOperationScopes (left right : list ModuleOperationScope) : list ModuleOperationScope :=
  omap (intersect_scope (by_kind right)) left.

(** [intersectUnitScopes]: [granted] holds the manifest's "kind:action" units. *)
Definition scopeSet (scopes : list string) : gset string := list_to_set scopes.
Definition unit_scope (granted : gset string) (scope : ModuleOperationScope) : option ModuleOperationScope :=
  let actions := filter (fun action => ResourceKind scope +:+ ":" +:+ action ∈ granted) (Actions scope) in
  if decide (actions = []) then None
  else Some {| ResourceKind := ResourceKind scope; Actions := actions; ResourceIDs := ResourceIDs scope |}.
Definition intersectUnitScopes (allowed : list ModuleOperationScope) (granted : gset string) :
    list ModuleOperationScope :=
  omap (unit_scope granted) allowed.

Definition keepDeclared (allowed declared : list string) : list string :=
  filter (fun value => contains_string declared value = true) allowed.

(** [slices.Sort] on strings, and the read scopes as operation scopes. *)
Definition sort_strings (l : list string) : list string := merge_sort String.le l.
Definition readOperationScopes (scopes : list ModuleReadScope) : list ModuleOperationScope :=
  map (fun scope => {| ResourceKind := rs_ResourceKind scope; Actions := ["read"];
                       ResourceIDs := sort_strings (rs_ResourceIDs scope) |}) scopes.

(** [strings.Cut(unit, ":")] *)
Fixpoint cut_colon (s : string) : option (string * string) :=
  match s with
  | EmptyString => None
  | String c rest =>
      if Ascii.eqb c (Ascii.ascii_of_N 58) then Some (EmptyString, rest)
      else match cut_colon rest with Some (a, b) => Some (String c a, b) | None => None end
  end.
(** [scopesOf]: "kind:action" units grouped by kind, kinds and actions sorted. *)
Definition add_unit (m : gmap string (gset string)) (unit : string) : gmap string (gset string) :=
  match cut_colon unit with
  | Some (kind, action) =>
      if decide (kind = "" \/ action = "") then m
      else <[kind := {[action]} ∪ default ∅ (m !! kind)]> m
  | None => m
  end.
Definition scopesOf (units : list string) : list ModuleOperationScope :=
  let byKind := fold_left add_unit units ∅ in
  map (fun kind => {| ResourceKind := kind;
                      Actions := sort_strings (elements (default ∅ (byKind !! kind)));
                      ResourceIDs := [] |})
    (sort_strings (elements (dom byKind))).

(** ** Bindings *)
Definition ModuleCapabilitiesAudience : string := "module-capabilities".
Definition DelegationModeContentRead : string := "content_read".
Definition DelegationModeModuleActor : string := "module_actor".
(** The keys of [installedBindingPrefixes]. *)
Definition known_mode (mode : string) : bool :=
  bool_decide (mode = DelegationModeContentRead) || bool_decide (mode = DelegationModeModuleActor).

Definition selfAdmittingBinding (binding : ModuleOperationAudience) : bool :=
  bool_decide (is_Some (oa_HeadlessScopes binding)) || bool_decide (is_Some (oa_SourceDelegationScopes binding)).
Definition headlessOnly (b : ModuleOperationAudience) : bool :=
  bool_decide (oa_InvokeScopes b = None) && bool_decide (is_Some (oa_HeadlessScopes b)).

Inductive BindingError :=
| InvalidBinding
| ReservedAudience
| InvalidDelegationMode
| ContentReadOnly
| NeitherInvokeNorHeadless
| HeadlessOnlyDeclaresMore
| InvalidLookupScopes
| InvalidHeadlessScopes
| InvalidSourceDelegationScopes
| TwoDelegatingBindings.
#[export] Instance BindingError_eq_dec : EqDecision BindingError.
Proof. solve_decision. Defined.

(** [scopes != nil && (!validOperationScopes(...) || !operationScopesSubset(...))] *)
Definition refused_beside (scopes : option (list ModuleOperationScope)) (lookup : bool)
    (invoke : list ModuleOperationScope) : bool :=
  match scopes with
  | None => false
  | Some l => negb (validOperationScopes l lookup) || negb (operationScopesSubset l invoke)
  end.
Definition content_read_only (invoke : list ModuleOperationScope) : bool :=
  forallb (fun scope => bool_decide (Actions scope = ["read"])) invoke.

(** The checks one binding passes, in the order of the loop's body. *)
Definition validate_binding (prefix id : string) (binding : ModuleOperationAudience) : result BindingError unit :=
  let invoke := slice (oa_InvokeScopes binding) in
  guard! (validOperationValue id 128 && validOperationValue (oa_Audience binding) 512
          && negb (bool_decide (oa_Audience binding = prefix) && negb (selfAdmittingBinding binding)))
    else InvalidBinding;
  guard! (negb (bool_decide (oa_Audience binding = ModuleCapabilitiesAudience))) else ReservedAudience;
  guard! (bool_decide (oa_DelegationMode binding = "")
          || (known_mode (oa_DelegationMode binding) && negb (bool_decide (invoke = []))
              && bool_decide (oa_HeadlessScopes binding = None)
              && bool_decide (oa_SourceDelegationScopes binding = None))) else InvalidDelegationMode;
  guard! (negb (bool_decide (oa_DelegationMode binding = DelegationModeContentRead))
          || content_read_only invoke) else ContentReadOnly;
  match oa_InvokeScopes binding with
  | None =>
      match oa_HeadlessScopes binding with
      | None => Err NeitherInvokeNorHeadless
      | Some headless =>
          guard! (validOperationScopes headless false
                  && bool_decide (oa_LookupScopes binding = None)
                  && bool_decide (oa_SourceDelegationScopes binding = None))
            else HeadlessOnlyDeclaresMore;
          Ok tt
      end
  | Some invoke =>
      guard! (validOperationScopes invoke false) else InvalidBinding;
      guard! (negb (refused_beside (oa_LookupScopes binding) true invoke)) else InvalidLookupScopes;
      guard! (negb (refused_beside (oa_HeadlessScopes binding) false invoke)) else InvalidHeadlessScopes;
      guard! (negb (refused_beside (oa_SourceDelegationScopes binding) false invoke))
        else InvalidSourceDelegationScopes;
      Ok tt
  end.

(** [validateOperationAudiences]; [bindings] lists the map in the order Go ranges over
    it. *)
Fixpoint validate_each (prefix : string) (bindings : list (string * ModuleOperationAudience)) :
    result BindingError unit :=
  match bindings with
  | [] => Ok tt
  | (id, binding) :: rest => _ ← validate_binding prefix id binding; validate_each prefix rest
  end.
Definition delegating (bindings : list (string * ModuleOperationAudience)) : nat :=
  length (filter (fun b => is_Some (oa_SourceDelegationScopes b.2)) bindings).
Definition validateOperationAudiences (prefix : string)
    (bindings : list (string * ModuleOperationAudience)) : result BindingError unit :=
  _ ← validate_each prefix bindings;
  if decide (1 < delegating bindings)%nat then Err TwoDelegatingBindings else Ok tt.

(** [validateReadAudiences], of which the callers use only whether it fails. *)
Fixpoint distinct_read_scopes (seen : list string) (scopes : list ModuleReadScope) : bool :=
  match scopes with
  | [] => true
  | scope :: rest =>
      negb (bool_decide (TrimSpace (rs_ResourceKind scope) = ""))
      && bool_decide (String.length (rs_ResourceKind scope) <= 128)%nat
      && bool_decide (length (rs_ResourceIDs scope) <= 64)%nat
      && negb (contains_string seen (rs_ResourceKind scope))
      && forallb (fun r => negb (bool_decide (r = "")) && bool_decide (String.length r <= 512)%nat)
           (rs_ResourceIDs scope)
      && bool_decide (NoDup (rs_ResourceIDs scope))
      && distinct_read_scopes (rs_ResourceKind scope :: seen) rest
  end.
Definition valid_read_binding (prefix id : string) (binding : ModuleReadAudience) : bool :=
  negb (bool_decide (id = "")) && bool_decide (String.length id <= 128)%nat
  && negb (bool_decide (TrimSpace (ra_Audience binding) = ""))
  && bool_decide (String.length (ra_Audience binding) <= 512)%nat
  && negb (bool_decide (ra_Audience binding = prefix))
  && negb (bool_decide (ra_Scopes binding = [])) && bool_decide (length (ra_Scopes binding) <= 16)%nat
  && distinct_read_scopes [] (ra_Scopes binding).
Definition validateReadAudiences (prefix : string) (bindings : list (string * ModuleReadAudience)) : bool :=
  bool_decide (length bindings <= 16)%nat
  && forallb (fun b => valid_read_binding prefix b.1 b.2) bindings.

(** ** What goes on the wire *)
Record WorkContextScope := { wc_ResourceKind : string; wc_Actions : list string; wc_ResourceIds : list string }.
Definition wireOperationScopes (scopes : list ModuleOperationScope) : list WorkContextScope :=
  map (fun s => {| wc_ResourceKind := ResourceKind s; wc_Actions := Actions s; wc_ResourceIds := ResourceIDs s |})
    scopes.
Definition WireScopes (b : ModuleOperationAudience) (lookup : bool) : list WorkContextScope :=
  wireOperationScopes (slice (if lookup then oa_LookupScopes b else oa_InvokeScopes b)).
Definition ReadWireScopes (b : ModuleReadAudience) : list WorkContextScope :=
  map (fun s => {| wc_ResourceKind := rs_ResourceKind s; wc_Actions := ["read"];
                   wc_ResourceIds := rs_ResourceIDs s |}) (ra_Scopes b).
