(* ===== verification/ModuleScopesProofs.v ===== *)
(** Lemmas about operation scopes: the order of strings, bisection, the canonical form,
    and what subset and intersection mean in terms of [permits]. *)
From S2P Require Import Prelude ModuleScopes.

(** ** Strictly ascending strings *)
Definition slt (a b : string) : Prop := String.ltb a b = true.

Lemma slt_le a b : slt a b <-> String.le a b /\ a <> b.
Proof.
  unfold slt, String.le, String.ltb, String.leb.
  destruct (String.compare a b) eqn:E; simpl.
  - apply String.compare_eq_iff in E. naive_solver.
  - split; [|done]. intros _. split; [done|]. intros ->.
    pose proof (String.compare_antisym b b) as Ha. by rewrite E in Ha.
  - naive_solver.
Qed.
#[export] Instance slt_dec : RelDecision slt.
Proof. intros a b. unfold slt. apply _. Defined.
#[export] Instance slt_trans : Transitive slt.
Proof.
  intros a b c. rewrite !slt_le. intros [H1 N1] [H2 N2]. split; [by etrans|].
  intros ->. apply N1. by apply (anti_symm String.le).
Qed.
Lemma slt_irrefl a : ~ slt a a.
Proof. rewrite slt_le. naive_solver. Qed.
Lemma not_slt a b : ~ slt a b <-> String.le b a.
Proof.
  rewrite slt_le. destruct (String.le_total a b) as [H|H].
  - split; [|intros ? [? N]; apply N; by apply (anti_symm String.le)].
    intros N. destruct (decide (a = b)) as [->|]; [done|]. exfalso. by apply N.
  - split; [done|]. intros _ [? N]. apply N. by apply (anti_symm String.le).
Qed.

Abbreviation ascending := (StronglySorted slt).

Lemma ascending_lookup l i j a b :
  ascending l -> l !! i = Some a -> l !! j = Some b -> (i < j)%nat -> slt a b.
Proof.
  intros Hs. revert i j. induction Hs as [|x l Hs IH Hx]; intros i j; [by rewrite lookup_nil|].
  destruct i as [|i], j as [|j]; cbn; intros Ha Hb Hl; try lia.
  - simplify_eq. rewrite Forall_forall in Hx. apply Hx. by eapply list_elem_of_lookup_2.
  - apply (IH i j Ha Hb). lia.
Qed.
Lemma ascending_nodup l : ascending l -> NoDup l.
Proof.
  induction 1 as [|x l _ IH Hx]; constructor; [|done].
  intros Hin. rewrite Forall_forall in Hx. by eapply slt_irrefl, Hx.
Qed.
Lemma ascending_filter (P : string -> Prop) `{forall x, Decision (P x)} (l : list string) :
  ascending l -> ascending (filter P l).
Proof.
  induction 1 as [|x l _ IH Hx]; [constructor|]. rewrite filter_cons. case_decide; [|done].
  constructor; [done|]. rewrite Forall_forall in *. intros y Hy.
  apply list_elem_of_filter in Hy as [_ Hy]. auto.
Qed.

(** ** Bisection *)
Section Bisection.
Context (x : list string) (target : string).

(** One round halves the interval, so [j - i] rounds are enough and more change
    nothing. *)
Lemma bisect_fuel f f' i j :
  (j - i <= f)%nat -> (f <= f')%nat -> bisect f' x target i j = bisect f x target i j.
Proof.
  revert f' i j. induction f as [|f IH]; intros [|f'] i j Hj Hf; cbn [bisect]; try done; try lia.
  - case_decide; [lia|done].
  - case_decide as Hij; [|done].
    pose proof (Nat.div_mod_eq (i + j) 2). pose proof (Nat.mod_upper_bound (i + j) 2 ltac:(done)).
    case_match; apply IH; lia.
Qed.

(** The invariant of the loop: everything left of [i] is smaller than the target,
    nothing from [j] on is. *)
Lemma bisect_spec f i j :
  ascending x -> (j - i <= f)%nat -> (i <= j <= length x)%nat ->
  (forall k y, (k < i)%nat -> x !! k = Some y -> slt y target) ->
  (forall k y, (j <= k)%nat -> x !! k = Some y -> ~ slt y target) ->
  let r := bisect f x target i j in
  (r <= length x)%nat /\
  (forall k y, (k < r)%nat -> x !! k = Some y -> slt y target) /\
  (forall k y, (r <= k)%nat -> x !! k = Some y -> ~ slt y target).
Proof.
  intros Hs. revert i j. induction f as [|f IH]; intros i j Hf Hij Hlo Hhi; cbn [bisect].
  { replace j with i in * by lia. split; [lia|]. done. }
  case_decide as Hlt; [|replace j with i in * by lia; split; [lia|done]].
  pose proof (Nat.div_mod_eq (i + j) 2). pose proof (Nat.mod_upper_bound (i + j) 2 ltac:(done)).
  set (h := ((i + j) / 2)%nat) in *.
  destruct (lookup_lt_is_Some_2 x h ltac:(lia)) as [y Hy].
  rewrite (nth_lookup_Some x h "" y Hy).
  destruct (String.ltb y target) eqn:Hc; apply IH; try lia; try done.
  - intros k z Hk Hz. destruct (decide (k = h)) as [->|]; [by simplify_eq|].
    etrans; [|exact Hc]. apply (ascending_lookup x k h z y Hs Hz Hy). lia.
  - intros k z Hk Hz Hzt. destruct (decide (k = h)) as [->|].
    + simplify_eq. unfold slt in Hzt. congruence.
    + assert (slt y target) as Hyt; [|unfold slt in Hyt; congruence].
      etrans; [|exact Hzt]. apply (ascending_lookup x h k y z Hs Hy Hz). lia.
Qed.
End Bisection.

Lemma BinarySearch_found x v : ascending x -> (BinarySearch x v).2 = true <-> v ∈ x.
Proof.
  intros Hs. unfold BinarySearch. cbn [snd].
  destruct (bisect_spec x v (length x) 0 (length x)) as (Hr & Hlo & Hhi); try lia; try done.
  { intros k y Hk Hy. apply lookup_lt_Some in Hy. lia. }
  set (r := bisect _ _ _ _ _) in *.
  rewrite andb_true_iff, !bool_decide_eq_true. split.
  - intros [Hl He]. destruct (lookup_lt_is_Some_2 x r Hl) as [y Hy].
    rewrite (nth_lookup_Some x r "" y Hy) in He. subst y. by eapply list_elem_of_lookup_2.
  - intros Hv. apply list_elem_of_lookup in Hv as [k Hk].
    assert (r <= k)%nat as Hrk.
    { destruct (decide (k < r)%nat) as [Hkr|]; [|lia]. exfalso.
      by eapply slt_irrefl, (Hlo k v). }
    pose proof (lookup_lt_Some x k v Hk). split; [lia|].
    destruct (lookup_lt_is_Some_2 x r ltac:(lia)) as [y Hy].
    rewrite (nth_lookup_Some x r "" y Hy).
    destruct (decide (r = k)) as [->|]; [by simplify_eq|].
    exfalso. apply (Hhi r y); [lia|done|].
    apply (ascending_lookup x r k y v Hs Hy Hk). lia.
Qed.

Lemma BinarySearch_index x v : (BinarySearch x v).2 = true -> ((BinarySearch x v).1 < length x)%nat.
Proof. unfold BinarySearch. cbn. rewrite andb_true_iff, bool_decide_eq_true. tauto. Qed.

Lemma operationValuesSubset_spec a b :
  ascending b -> operationValuesSubset a b = true <-> a ⊆ b.
Proof.
  intros Hb. unfold operationValuesSubset. rewrite forallb_forall. split; intros H v Hv.
  - apply list_elem_of_In in Hv. specialize (H v Hv). destruct (BinarySearch b v) as [i f] eqn:E.
    bool_to_prop. apply BinarySearch_found; [done|]. rewrite E. cbn. by destruct f.
  - apply list_elem_of_In in Hv. pose proof (proj2 (BinarySearch_found b v Hb) (H v Hv)) as Hf.
    pose proof (BinarySearch_index b v Hf) as Hi. destruct (BinarySearch b v) as [i f].
    cbn in *. subst f. cbn. rewrite bool_decide_false by lia. done.
Qed.

Lemma elem_of_intersect_values v a b :
  ascending b -> v ∈ intersectOperationValues a b <-> v ∈ a /\ v ∈ b.
Proof.
  intros Hb. unfold intersectOperationValues. rewrite list_elem_of_filter.
  rewrite BinarySearch_found by done. tauto.
Qed.
Lemma intersect_values_ascending a b : ascending a -> ascending (intersectOperationValues a b).
Proof. apply ascending_filter. Qed.

(** ** Canonical scope lists *)
Definition canonical_scope (s : ModuleOperationScope) : Prop :=
  Actions s <> [] /\ ascending (Actions s) /\ ascending (ResourceIDs s).
Definition canonical (l : list ModuleOperationScope) : Prop :=
  NoDup (map ResourceKind l) /\ forall s, s ∈ l -> canonical_scope s.

Lemma sorted_unique_ascending previous values limit :
  sorted_unique_from previous values limit = true ->
  ascending values /\ (forall p, previous = Some p -> Forall (slt p) values).
Proof.
  revert previous. induction values as [|v l IH]; intros previous; cbn [sorted_unique_from].
  { intros _. split; constructor. }
  intros H. bool_to_prop. destruct (IH (Some v)) as [Hs Hf]; [done|].
  specialize (Hf v eq_refl). split; [by constructor|]. intros p ->.
  constructor; [done|]. eapply Forall_impl; [exact Hf|]. intros y Hy. by etrans.
Qed.
Lemma sorted_unique_valid values limit v :
  sortedUniqueOperationValues values limit = true -> v ∈ values -> validOperationValue v limit = true.
Proof.
  unfold sortedUniqueOperationValues. generalize (@None string).
  induction values as [|w l IH]; intros p H Hv; [by apply elem_of_nil in Hv|].
  cbn in H. bool_to_prop. apply elem_of_cons in Hv as [->|Hv]; [done|]. by eapply IH.
Qed.

Lemma valid_scopes_from_spec lookup p l :
  valid_scopes_from lookup p l = true ->
  ascending (map ResourceKind l) /\ Forall (fun s => slt p (ResourceKind s)) l /\
  forall s, s ∈ l -> canonical_scope s.
Proof.
  revert p. induction l as [|s l IH]; intros p; cbn [valid_scopes_from map].
  { intros _. split; [constructor|]. split; [constructor|]. intros s Hs. by apply elem_of_nil in Hs. }
  intros H. bool_to_prop. destruct (IH (ResourceKind s)) as (Ha & Hf & Hc); [done|].
  unfold valid_scope in *. bool_to_prop. split; [|split].
  - constructor; [done|]. apply Forall_map. exact Hf.
  - constructor; [done|]. eapply Forall_impl; [exact Hf|]. cbn. intros y Hy. by etrans.
  - intros t Ht. apply elem_of_cons in Ht as [->|Ht]; [|by apply Hc].
    split; [|split].
    + by eapply bool_decide_eq_false_1.
    + by eapply sorted_unique_ascending.
    + by eapply sorted_unique_ascending.
Qed.

Lemma valid_canonical l lookup : validOperationScopes l lookup = true -> canonical l.
Proof.
  unfold validOperationScopes. intros H. bool_to_prop.
  apply valid_scopes_from_spec in H0 as (Ha & _ & Hc).
  split; [by apply ascending_nodup|done].
Qed.
Lemma canonical_nil : canonical [].
Proof. split; [constructor|]. intros s Hs. by apply elem_of_nil in Hs. Qed.
Lemma canonical_slice (o : option (list ModuleOperationScope)) lookup :
  (forall l, o = Some l -> validOperationScopes l lookup = true) -> canonical (slice o).
Proof.
  destruct o as [l|]; cbn; intros H; [|apply canonical_nil]. by eapply valid_canonical, H.
Qed.

(** ** Lookup by kind *)
Lemma by_kind_fold l (m : gmap string ModuleOperationScope) k :
  NoDup (map ResourceKind l) ->
  fold_left (fun m scope => <[ResourceKind scope := scope]> m) l m !! k =
    match list_find (fun s => ResourceKind s = k) l with Some (_, s) => Some s | None => m !! k end.
Proof.
  revert m. induction l as [|s l IH]; intros m Hn; [done|]. cbn in Hn.
  apply NoDup_cons in Hn as [Hs Hn]. cbn [fold_left list_find]. rewrite IH by done.
  destruct (decide (ResourceKind s = k)) as [He|He].
  - destruct (list_find _ l) as [[i t]|] eqn:Hf; cbn.
    + apply list_find_Some in Hf as (Hl & Hk & _). exfalso. apply Hs. rewrite He, <- Hk.
      apply list_elem_of_fmap_2. by eapply list_elem_of_lookup_2.
    + by rewrite <- He, lookup_insert_eq.
  - destruct (list_find _ l) as [[i t]|] eqn:Hf; cbn; [done|]. by rewrite lookup_insert_ne.
Qed.
Lemma by_kind_lookup l k s :
  NoDup (map ResourceKind l) -> by_kind l !! k = Some s <-> s ∈ l /\ ResourceKind s = k.
Proof.
  intros Hn. unfold by_kind. rewrite by_kind_fold, lookup_empty by done. split.
  - destruct (list_find _ l) as [[i t]|] eqn:Hf; [|done]. intros [= ->].
    apply list_find_Some in Hf as (Hl & Hk & _). split; [by eapply list_elem_of_lookup_2|done].
  - intros [Hs Hk]. destruct (list_find_elem_of (fun s => ResourceKind s = k) l s Hs Hk) as [[i t] Hf].
    rewrite Hf. f_equal. apply list_find_Some in Hf as (Hl & Ht & _).
    eapply (NoDup_map_inj_in ResourceKind l); [done|by eapply list_elem_of_lookup_2|done|congruence].
Qed.
Lemma by_kind_none l k :
  NoDup (map ResourceKind l) -> by_kind l !! k = None -> forall s, s ∈ l -> ResourceKind s <> k.
Proof.
  intros Hn He s Hs Hk. assert (by_kind l !! k = Some s) as E by (by apply by_kind_lookup). congruence.
Qed.

(** A canonical list allows through the one scope of the kind. *)
Lemma permits_by_kind l k a i :
  canonical l -> permits l k a i <-> exists s, by_kind l !! k = Some s /\ scope_permits s k a i.
Proof.
  intros [Hn _]. split.
  - intros (s & Hs & Hp). exists s. split; [|done]. apply by_kind_lookup; [done|].
    split; [done|]. apply Hp.
  - intros (s & Hs & Hp). apply by_kind_lookup in Hs as [Hs _]; [|done]. by exists s.
Qed.

(** ** Subset *)
Lemma ids_within (sub sup : list string) :
  (forall i, sub = [] \/ i ∈ sub -> sup = [] \/ i ∈ sup) -> sup = [] \/ (sub <> [] /\ sub ⊆ sup).
Proof.
  intros H. destruct (decide (sup = [])) as [|Hne]; [by left|]. right. split.
  - intros ->. destruct (H (fresh sup) (or_introl eq_refl)) as [|Hf]; [done|].
    exact (infinite_is_fresh sup Hf).
  - intros i Hi. destruct (H i (or_intror Hi)); done.
Qed.

Lemma subset_permits a b :
  canonical a -> canonical b ->
  operationScopesSubset a b = true <-> forall k act id, permits a k act id -> permits b k act id.
Proof.
  intros Ha Hb. unfold operationScopesSubset. rewrite forallb_forall. split.
  - intros H k act id (s & Hs & Hk & Hact & Hid). specialize (H s). rewrite <- list_elem_of_In in H.
    specialize (H Hs). rewrite Hk in H. destruct (by_kind b !! k) as [p|] eqn:Hp; [|done].
    apply by_kind_lookup in Hp as [Hin Hpk]; [|apply Hb]. destruct (proj2 Hb p Hin) as (_ & Hpa & Hpi).
    bool_to_prop. apply operationValuesSubset_spec in H; [|done]. exists p. split; [done|].
    split; [done|]. split; [by apply H|]. apply orb_true_iff in H0 as [H0|H0].
    + left. by eapply bool_decide_eq_true_1.
    + bool_to_prop. apply bool_decide_eq_false_1 in H0.
      apply operationValuesSubset_spec in H1; [|done]. right. apply H1. by destruct Hid.
  - intros H s Hs. apply list_elem_of_In in Hs. destruct (proj2 Ha s Hs) as (Hne & _ & _).
    assert (forall act id, act ∈ Actions s -> ResourceIDs s = [] \/ id ∈ ResourceIDs s ->
      exists p, by_kind b !! ResourceKind s = Some p /\ scope_permits p (ResourceKind s) act id) as Hall.
    { intros act id Hact Hid. apply permits_by_kind; [done|]. apply H. by exists s. }
    destruct (Actions s) as [|act0 acts] eqn:Eacts; [done|]. rewrite <- Eacts in *.
    assert (act0 ∈ Actions s) as H0 by (rewrite Eacts; by left).
    assert (exists id, ResourceIDs s = [] \/ id ∈ ResourceIDs s) as [id0 Hid0].
    { destruct (ResourceIDs s) as [|i l]; [by exists "" ; left|]. exists i. right. by left. }
    destruct (Hall act0 id0 H0 Hid0) as (p & Hp & _). rewrite Hp.
    pose proof Hp as Hp'. apply by_kind_lookup in Hp' as [Hin _]; [|apply Hb].
    destruct (proj2 Hb p Hin) as (_ & Hpa & Hpi).
    apply andb_true_iff. split.
    + apply operationValuesSubset_spec; [done|]. intros act Hact.
      destruct (Hall act id0 Hact Hid0) as (q & Hq & _ & Ha' & _). by simplify_eq.
    + destruct (ids_within (ResourceIDs s) (ResourceIDs p)) as [He|[He Hw]].
      * intros i Hi. destruct (Hall act0 i H0 Hi) as (q & Hq & _ & _ & Hi'). by simplify_eq.
      * by rewrite He.
      * rewrite (bool_decide_eq_false_2 _ He). cbn. rewrite orb_true_iff. right.
        by apply operationValuesSubset_spec.
Qed.

(** ** Intersection *)
Lemma intersect_scope_kind m s t : intersect_scope m s = Some t -> ResourceKind t = ResourceKind s.
Proof. unfold intersect_scope. intros H. by case_all. Qed.

Lemma intersect_scope_permits r s t k a i :
  canonical r -> canonical_scope s -> intersect_scope (by_kind r) s = Some t ->
  scope_permits t k a i <-> scope_permits s k a i /\ permits r k a i.
Proof.
  intros Hr Hs E. rewrite permits_by_kind by done. unfold intersect_scope in E.
  destruct (by_kind r !! ResourceKind s) as [o|] eqn:Ho; [|done].
  pose proof Ho as Ho'. apply by_kind_lookup in Ho' as [Hin Hok]; [|apply Hr].
  destruct (proj2 Hr o Hin) as (_ & Hoa & Hoi). unfold scope_permits.
  case_decide; [done|].
  assert (forall ids, (ids = [] \/ i ∈ ids <->
      (ResourceIDs s = [] \/ i ∈ ResourceIDs s) /\ (ResourceIDs o = [] \/ i ∈ ResourceIDs o)) ->
    (ResourceKind s = k /\ a ∈ intersectOperationValues (Actions s) (Actions o) /\ (ids = [] \/ i ∈ ids))
    <-> (ResourceKind s = k /\ a ∈ Actions s /\ (ResourceIDs s = [] \/ i ∈ ResourceIDs s)) /\
        exists s0, by_kind r !! k = Some s0 /\ ResourceKind s0 = k /\ a ∈ Actions s0 /\
                   (ResourceIDs s0 = [] \/ i ∈ ResourceIDs s0)) as Hgen.
  { intros ids Hids. rewrite elem_of_intersect_values by done. rewrite Hids. split.
    - intros (<- & [Ha Hb] & Hc & Hd). split; [done|]. by exists o.
    - intros [(<- & Ha & Hc) (s0 & Hs0 & _ & Hb & Hd)]. by simplify_eq. }
  case_decide as Hsi; [|case_decide as Hoi'; [|case_decide]]; simplify_eq; cbn; apply Hgen.
  - rewrite Hsi. naive_solver.
  - rewrite Hoi'. naive_solver.
  - rewrite elem_of_intersect_values by done. naive_solver.
Qed.

Lemma intersect_scope_none r s k a i :
  canonical r -> canonical_scope s -> intersect_scope (by_kind r) s = None ->
  scope_permits s k a i -> ~ permits r k a i.
Proof.
  intros Hr Hs E (Hk & Ha & Hi). rewrite permits_by_kind by done. intros (o & Ho & _ & Hoa & Hoi).
  unfold intersect_scope in E. rewrite Hk, Ho in E.
  apply by_kind_lookup in Ho as [Hin _]; [|apply Hr]. destruct (proj2 Hr o Hin) as (_ & Hsa & Hsi).
  case_decide as He.
  - apply (elem_of_nil a). rewrite <- He. by apply elem_of_intersect_values.
  - repeat (case_decide; [done|]). case_decide as Hd; [|done].
    apply (elem_of_nil i). rewrite <- Hd. apply elem_of_intersect_values; [done|].
    destruct Hi, Hoi; done.
Qed.

Lemma intersect_permits l r k a i :
  canonical l -> canonical r ->
  permits (intersectOperationScopes l r) k a i <-> permits l k a i /\ permits r k a i.
Proof.
  intros Hl Hr. unfold intersectOperationScopes. split.
  - intros (t & Ht & Hp). apply list_elem_of_omap in Ht as (s & Hs & E).
    apply (intersect_scope_permits r s t) in Hp as [? ?]; [|done|by apply Hl|done].
    split; [by exists s|done].
  - intros [(s & Hs & Hp) Hpr]. destruct (intersect_scope (by_kind r) s) as [t|] eqn:E.
    + exists t. split; [apply list_elem_of_omap; by exists s|].
      apply (intersect_scope_permits r s t); [done|by apply Hl|done|done].
    + exfalso. by eapply (intersect_scope_none r s); [|apply Hl| | |].
Qed.

(** ** The canonical form is kept *)
Lemma sorted_unique_iff values limit :
  sortedUniqueOperationValues values limit = true <->
  ascending values /\ forall v, v ∈ values -> validOperationValue v limit = true.
Proof.
  split.
  - intros H. split; [by eapply sorted_unique_ascending|]. intros v. by apply sorted_unique_valid.
  - intros [Hs Hv]. unfold sortedUniqueOperationValues.
    assert (forall p, (forall q, p = Some q -> Forall (slt q) values) ->
      sorted_unique_from p values limit = true) as Hgen; [|by apply Hgen].
    induction Hs as [|v l Hs IH Hf]; intros p Hp; [done|]. cbn.
    assert (sorted_unique_from (Some v) l limit = true) as ->.
    { apply IH; [intros w Hw; apply Hv; by right|]. by intros q [= <-]. }
    rewrite (Hv v) by (by left).
    rewrite andb_true_r. destruct p as [q|]; [|done]. specialize (Hp q eq_refl).
    by apply Forall_cons in Hp as [? _].
Qed.

Lemma valid_scopes_weaken lookup p q l :
  (q = p \/ slt q p) -> valid_scopes_from lookup p l = true -> valid_scopes_from lookup q l = true.
Proof.
  intros [->|Hq]; [done|]. destruct l as [|s l]; [done|]. cbn. intros H. bool_to_prop.
  rewrite H0, andb_true_r. unfold valid_scope in *. bool_to_prop.
  assert (slt q (ResourceKind s)) as Hk by (by etrans).
  unfold slt in Hk. by rewrite H, Hk, H7, H6, H5, H4, H3, H2, H1.
Qed.

(** What a narrowing of one scope keeps: its kind, and values of either side. *)
Definition narrower (s t : ModuleOperationScope) : Prop :=
  ResourceKind t = ResourceKind s /\ Actions t <> [] /\
  sublist (Actions t) (Actions s) /\ (length (ResourceIDs t) <= 64)%nat /\
  sortedUniqueOperationValues (ResourceIDs t) 512 = true /\ "*" ∉ ResourceIDs t.

Lemma sublist_ascending a b : sublist a b -> ascending b -> ascending a.
Proof.
  intros Hsub Hs. induction Hsub as [|x a b Hsub IH|x a b Hsub IH]; [constructor| |].
  - apply StronglySorted_inv in Hs as [Hs Hf]. constructor; [by apply IH|].
    rewrite Forall_forall in *. intros y Hy. apply Hf. by eapply elem_of_sublist.
  - apply StronglySorted_inv in Hs as [Hs _]. by apply IH.
Qed.

Lemma valid_scope_parts lookup p s :
  valid_scope lookup p s = true ->
  validOperationValue (ResourceKind s) 128 = true /\ slt p (ResourceKind s) /\
  (length (Actions s) <= 32)%nat /\ sortedUniqueOperationValues (Actions s) 128 = true /\
  forall v, v ∈ Actions s -> v <> "*" /\ (lookup = true -> v = "read").
Proof.
  unfold valid_scope. intros H. bool_to_prop. split_and!; try done.
  - by eapply bool_decide_eq_true_1.
  - match goal with H : forallb _ _ = true |- _ => rename H into Hf end.
    rewrite forallb_forall in Hf. intros v Hv. apply list_elem_of_In in Hv. apply Hf in Hv.
    bool_to_prop. split; [by eapply bool_decide_eq_false_1|]. intros ->.
    by eapply bool_decide_eq_true_1.
Qed.

Lemma narrower_valid lookup p s t :
  narrower s t -> valid_scope lookup p s = true -> valid_scope lookup p t = true.
Proof.
  intros (Hk & Hne & Hsub & Hids & Hsort & Hstar) H.
  apply valid_scope_parts in H as (Hkind & Hp & Hlen & Hacts & Hread).
  unfold valid_scope. rewrite Hk, !andb_true_iff. split_and!; try done.
  - by rewrite (bool_decide_eq_false_2 _ Hne).
  - apply bool_decide_eq_true_2. pose proof (sublist_length _ _ Hsub). lia.
  - by apply bool_decide_eq_true_2.
  - apply sorted_unique_iff in Hacts as [Ha Hv]. apply sorted_unique_iff.
    split; [by eapply sublist_ascending|]. intros v Hv'. apply Hv. by eapply elem_of_sublist.
  - rewrite forallb_forall. intros v Hv. apply list_elem_of_In in Hv.
    destruct (Hread v) as [Hs Hr]; [by eapply elem_of_sublist|].
    rewrite (bool_decide_eq_false_2 _ Hs). cbn. destruct lookup; [|done]. cbn.
    apply bool_decide_eq_true_2. by apply Hr.
  - apply negb_true_iff. by apply contains_string_false.
Qed.

Lemma omap_valid lookup f p l :
  (forall q s t, s ∈ l -> f s = Some t -> valid_scope lookup q s = true -> narrower s t) ->
  valid_scopes_from lookup p l = true -> valid_scopes_from lookup p (omap f l) = true.
Proof.
  revert p. induction l as [|s l IH]; intros p Hf; cbn; [done|]. intros H. bool_to_prop.
  assert (valid_scopes_from lookup (ResourceKind s) (omap f l) = true) as Hrest.
  { apply IH; [|done]. intros q s' t Hs'. apply Hf. by right. }
  destruct (f s) as [t|] eqn:E.
  - assert (narrower s t) as Hn by (eapply Hf; [by left|done|done]).
    cbn. rewrite (narrower_valid lookup p s t Hn) by done. destruct Hn as (-> & _). done.
  - eapply valid_scopes_weaken; [|exact Hrest]. right.
    unfold valid_scope in H. bool_to_prop. done.
Qed.

Lemma omap_length {A B} (f : A -> option B) (l : list A) : (length (omap f l) <= length l)%nat.
Proof. induction l as [|x l IH]; cbn; [done|]. destruct (f x); cbn; lia. Qed.

Lemma valid_scope_ids lookup p s :
  valid_scope lookup p s = true ->
  (length (ResourceIDs s) <= 64)%nat /\ sortedUniqueOperationValues (ResourceIDs s) 512 = true /\
  "*" ∉ ResourceIDs s.
Proof.
  unfold valid_scope. intros H. bool_to_prop. split; [by eapply bool_decide_eq_true_1|].
  split; [done|]. by apply contains_string_false.
Qed.
Lemma valid_scopes_elem lookup p l s :
  valid_scopes_from lookup p l = true -> s ∈ l -> exists q, valid_scope lookup q s = true.
Proof.
  revert p. induction l as [|t l IH]; intros p H Hs; [by apply elem_of_nil in Hs|].
  cbn in H. bool_to_prop. apply elem_of_cons in Hs as [->|Hs]; eauto.
Qed.

Lemma intersect_scope_narrower lookup lookup' r q s t :
  validOperationScopes r lookup' = true -> valid_scope lookup q s = true ->
  intersect_scope (by_kind r) s = Some t -> narrower s t.
Proof.
  intros Hr Hs E. pose proof (valid_canonical r lookup' Hr) as Hc.
  unfold intersect_scope in E. destruct (by_kind r !! ResourceKind s) as [o|] eqn:Ho; [|done].
  apply by_kind_lookup in Ho as [Hin _]; [|apply Hc].
  unfold validOperationScopes in Hr. bool_to_prop.
  destruct (valid_scopes_elem _ _ _ _ H0 Hin) as [q' Hv]. apply valid_scope_ids in Hv, Hs.
  destruct Hv as (Hv1 & Hv2 & Hv3), Hs as (Hs1 & Hs2 & Hs3).
  assert (forall ids, ids = ResourceIDs o \/ sublist ids (ResourceIDs s) ->
    (length ids <= 64)%nat /\ sortedUniqueOperationValues ids 512 = true /\ "*" ∉ ids) as Hids.
  { intros ids [->|Hsub]; [done|]. apply sorted_unique_iff in Hs2 as [Ha Hval].
    split; [pose proof (sublist_length _ _ Hsub); lia|]. split.
    - apply sorted_unique_iff. split; [by eapply sublist_ascending|].
      intros v Hv. apply Hval. by eapply elem_of_sublist.
    - contradict Hs3. by eapply elem_of_sublist. }
  case_decide; [done|].
  case_decide; [|case_decide; [|case_decide; [done|]]]; simplify_eq; (split; [done|]);
    (split; [done|]); (split; [apply sublist_filter|]); apply Hids; eauto.
  right. apply sublist_filter.
Qed.

(** The result of an intersection is empty or valid. *)
Lemma intersect_valid l r lookup lookup' :
  validOperationScopes l lookup = true -> validOperationScopes r lookup' = true ->
  intersectOperationScopes l r <> [] ->
  validOperationScopes (intersectOperationScopes l r) lookup = true.
Proof.
  intros Hl Hr Hne. unfold validOperationScopes in Hl |- *. bool_to_prop.
  rewrite (bool_decide_eq_false_2 _ Hne). cbn. apply andb_true_iff. split.
  - apply bool_decide_eq_true_2. apply bool_decide_eq_true_1 in H1.
    unfold intersectOperationScopes. pose proof (omap_length (intersect_scope (by_kind r)) l). lia.
  - apply omap_valid; [|done]. intros q s t _ E Hs. by eapply intersect_scope_narrower.
Qed.
Lemma intersect_canonical l r lookup lookup' :
  validOperationScopes l lookup = true -> validOperationScopes r lookup' = true ->
  canonical (intersectOperationScopes l r).
Proof.
  intros Hl Hr. destruct (decide (intersectOperationScopes l r = [])) as [->|Hne].
  - apply canonical_nil.
  - by eapply valid_canonical, intersect_valid.
Qed.
