(* ===== verification/ModuleGrants.v ===== *)
(** What a composed module may do: the grant of its registry entry, the consent an
    organization gave when it installed the module, their intersection, and the
    derivation of a grant from the envelope and the signed manifest
    (accounts/code/pkg/business: module_capabilities.go, installation_scope.go,
    executable_artifacts.go, module_principal_reconcile.go, module_manifest_grant.go,
    module_grant_installable.go). *)
From S2P Require Import Prelude GoText ModuleScopes.
Local Open Scope Z_scope.

(** ** Grants and consents *)
Record ArtifactPermission := { ap_Resource : string; ap_Action : string }.
#[export] Instance ArtifactPermission_eq_dec : EqDecision ArtifactPermission.
Proof. solve_decision. Defined.
Record ArtifactContract := { ac_Kind : string; ac_Name : string; ac_Digest : string }.
#[export] Instance ArtifactContract_eq_dec : EqDecision ArtifactContract.
Proof. solve_decision. Defined.
(** reflect.DeepEqual tells nil from empty, so the maps and slices are optional. *)
Record ExecutableArtifactPolicy := {
  ep_Schema : string;
  ep_Sources : option (gmap string string);
  ep_Activate : ArtifactPermission;
  ep_Run : ArtifactPermission;
  ep_Contracts : option (list ArtifactContract);
  ep_RequiredKinds : option (list string)
}.
#[export] Instance ExecutableArtifactPolicy_eq_dec : EqDecision ExecutableArtifactPolicy.
Proof. solve_decision. Defined.

Record ModuleWorkload := { mw_ServiceAccount : string; mw_Namespace : string; mw_Container : string }.
Definition declared (w : ModuleWorkload) : bool :=
  negb (bool_decide (mw_ServiceAccount w = "")) && negb (bool_decide (mw_Namespace w = ""))
  && negb (bool_decide (mw_Container w = "")).

Record ModulePrincipalGrant := {
  g_PresenceGeneration : Z;
  g_PresenceBinding : string;
  g_ArtifactPolicies : option (gmap string ExecutableArtifactPolicy);
  g_ReadAudiences : option (gmap string ModuleReadAudience);
  g_OperationAudiences : option (gmap string ModuleOperationAudience);
  g_Prefix : string;
  g_Queues : list string;
  g_Namespaces : list string;
  g_ExternalNamespaces : list string;
  g_Resources : list string;
  g_CrossTenant : bool;
  g_Tenant : string;
  g_Workloads : list ModuleWorkload
}.
Definition allowsQueue (g : ModulePrincipalGrant) (queue : string) : bool := contains_string (g_Queues g) queue.
Definition allowsResource (g : ModulePrincipalGrant) (resource : string) : bool :=
  contains_string (g_Resources g) resource.
Definition allowsNamespace (g : ModulePrincipalGrant) (namespace : string) : bool :=
  contains_string (g_Namespaces g) namespace.
Definition allowsExternalNamespace (g : ModulePrincipalGrant) (namespace : string) : bool :=
  contains_string (g_ExternalNamespaces g) namespace.

Record InstallationScope := {
  is_Capabilities : bool;
  is_Follows : bool;
  is_Queues : list string;
  is_Namespaces : list string;
  is_ExternalNamespaces : list string;
  is_Resources : list string;
  is_ReadAudiences : option (gmap string ModuleReadAudience);
  is_OperationAudiences : option (gmap string ModuleOperationAudience);
  is_ArtifactPolicies : option (gmap string ExecutableArtifactPolicy)
}.

#[export] Instance InstallationScope_eq_dec : EqDecision InstallationScope.
Proof. solve_decision. Defined.

(** Ranging over and indexing a map, [nil] being the empty one. *)
Definition entries {A} (m : option (gmap string A)) : gmap string A := default ∅ m.

(** [FullInstallationScope]: the copy goes through JSON, where a field with omitempty
    that is empty comes back absent. *)
Definition omit_empty {A} (o : option (list A)) : option (list A) := nilIfEmpty (slice o).
Definition omit_empty_map {A} (m : option (gmap string A)) : option (gmap string A) :=
  if decide (entries m = ∅) then None else m.
Definition copy_audience (b : ModuleOperationAudience) : ModuleOperationAudience :=
  {| oa_DelegationMode := oa_DelegationMode b; oa_Audience := oa_Audience b;
     oa_InvokeScopes := oa_InvokeScopes b; oa_LookupScopes := oa_LookupScopes b;
     oa_HeadlessScopes := omit_empty (oa_HeadlessScopes b);
     oa_SourceDelegationScopes := omit_empty (oa_SourceDelegationScopes b) |}.
Definition FullInstallationScope (g : ModulePrincipalGrant) : InstallationScope :=
  {| is_Capabilities := true; is_Follows := false; is_Queues := g_Queues g;
     is_Namespaces := g_Namespaces g; is_ExternalNamespaces := g_ExternalNamespaces g;
     is_Resources := g_Resources g;
     is_ReadAudiences := omit_empty_map (g_ReadAudiences g);
     is_OperationAudiences := omit_empty_map (option_map (fmap copy_audience) (g_OperationAudiences g));
     is_ArtifactPolicies := omit_empty_map (g_ArtifactPolicies g) |}.

Definition scopeStringsWithin (a b : list string) : bool := forallb (contains_string b) a.

Definition operation_within (bs : gmap string ModuleOperationAudience) (id : string)
    (binding : ModuleOperationAudience) : Prop :=
  match bs !! id with
  | None => False
  | Some parent =>
      oa_Audience binding = oa_Audience parent
      /\ operationScopesSubset (slice (oa_InvokeScopes binding)) (slice (oa_InvokeScopes parent)) = true
      /\ operationScopesSubset (slice (oa_LookupScopes binding)) (slice (oa_LookupScopes parent)) = true
      /\ operationScopesSubset (slice (oa_HeadlessScopes binding)) (slice (oa_HeadlessScopes parent)) = true
      /\ operationScopesSubset (slice (oa_SourceDelegationScopes binding))
           (slice (oa_SourceDelegationScopes parent)) = true
  end.
Definition read_within (bs : gmap string ModuleReadAudience) (id : string) (binding : ModuleReadAudience) : Prop :=
  match bs !! id with
  | None => False
  | Some parent =>
      ra_Audience binding = ra_Audience parent
      /\ operationScopesSubset (readOperationScopes (ra_Scopes binding))
           (readOperationScopes (ra_Scopes parent)) = true
  end.
#[export] Instance operation_within_dec bs id b : Decision (operation_within bs id b).
Proof. unfold operation_within. destruct (bs !! id); apply _. Defined.
#[export] Instance read_within_dec bs id b : Decision (read_within bs id b).
Proof. unfold read_within. destruct (bs !! id); apply _. Defined.

Definition InstallationScopeWithin (a b : InstallationScope) : bool :=
  negb (is_Capabilities a && negb (is_Capabilities b))
  && scopeStringsWithin (is_Queues a) (is_Queues b)
  && scopeStringsWithin (is_Namespaces a) (is_Namespaces b)
  && scopeStringsWithin (is_ExternalNamespaces a) (is_ExternalNamespaces b)
  && scopeStringsWithin (is_Resources a) (is_Resources b)
  && bool_decide (map_Forall (operation_within (entries (is_OperationAudiences b)))
       (entries (is_OperationAudiences a)))
  && bool_decide (map_Forall (read_within (entries (is_ReadAudiences b))) (entries (is_ReadAudiences a)))
  && bool_decide (map_Forall (fun id policy => entries (is_ArtifactPolicies b) !! id = Some policy)
       (entries (is_ArtifactPolicies a))).

Definition ResolveInstallationScope (scope full : InstallationScope) : InstallationScope :=
  if is_Follows scope then full else scope.

(** The three loops of [intersectInstallationScope], one entry at a time. *)
Definition intersect_opt (a b : option (list ModuleOperationScope)) : option (list ModuleOperationScope) :=
  nilIfEmpty (intersectOperationScopes (slice a) (slice b)).
Definition consented_operation (consent : gmap string ModuleOperationAudience) (id : string)
    (binding : ModuleOperationAudience) : option ModuleOperationAudience :=
  match consent !! id with
  | None => None
  | Some installed =>
      if decide (oa_Audience installed = oa_Audience binding) then
        let narrowed :=
          {| oa_DelegationMode := oa_DelegationMode binding; oa_Audience := oa_Audience binding;
             oa_InvokeScopes := intersect_opt (oa_InvokeScopes binding) (oa_InvokeScopes installed);
             oa_LookupScopes := intersect_opt (oa_LookupScopes binding) (oa_LookupScopes installed);
             oa_HeadlessScopes := intersect_opt (oa_HeadlessScopes binding) (oa_HeadlessScopes installed);
             oa_SourceDelegationScopes :=
               intersect_opt (oa_SourceDelegationScopes binding) (oa_SourceDelegationScopes installed) |} in
        if negb (bool_decide (slice (oa_InvokeScopes narrowed) = []))
           || (headlessOnly binding && bool_decide (is_Some (oa_HeadlessScopes narrowed)))
        then Some narrowed else None
      else None
  end.
Definition consented_read (consent : gmap string ModuleReadAudience) (id : string)
    (binding : ModuleReadAudience) : option ModuleReadAudience :=
  match consent !! id with
  | None => None
  | Some installed =>
      if decide (ra_Audience installed = ra_Audience binding) then
        let scopes := intersectOperationScopes (readOperationScopes (ra_Scopes binding))
                        (readOperationScopes (ra_Scopes installed)) in
        if decide (scopes = []) then None
        else Some {| ra_Audience := ra_Audience binding;
                     ra_Scopes := map (fun s => {| rs_ResourceKind := ResourceKind s;
                                                   rs_ResourceIDs := ResourceIDs s |}) scopes |}
      else None
  end.
Definition consented_policy (consent : gmap string ExecutableArtifactPolicy) (id : string)
    (policy : ExecutableArtifactPolicy) : option ExecutableArtifactPolicy :=
  if decide (consent !! id = Some policy) then Some policy else None.

Definition intersectInstallationScope (g : ModulePrincipalGrant) (consent : InstallationScope) :
    ModulePrincipalGrant :=
  if is_Follows consent then g else
  {| g_PresenceGeneration := g_PresenceGeneration g;
     g_PresenceBinding := g_PresenceBinding g;
     g_ArtifactPolicies :=
       option_map (map_imap (consented_policy (entries (is_ArtifactPolicies consent)))) (g_ArtifactPolicies g);
     g_ReadAudiences :=
       option_map (map_imap (consented_read (entries (is_ReadAudiences consent)))) (g_ReadAudiences g);
     g_OperationAudiences :=
       option_map (map_imap (consented_operation (entries (is_OperationAudiences consent)))) (g_OperationAudiences g);
     g_Prefix := g_Prefix g;
     g_Queues := keepDeclared (g_Queues g) (is_Queues consent);
     g_Namespaces := keepDeclared (g_Namespaces g) (is_Namespaces consent);
     g_ExternalNamespaces := keepDeclared (g_ExternalNamespaces g) (is_ExternalNamespaces consent);
     g_Resources := keepDeclared (g_Resources g) (is_Resources consent);
     g_CrossTenant := g_CrossTenant g;
     g_Tenant := g_Tenant g;
     g_Workloads := g_Workloads g |}.

Inductive ScopeError := ExceedsCeiling | NotCanonical.
#[export] Instance ScopeError_eq_dec : EqDecision ScopeError.
Proof. solve_decision. Defined.
Definition canonical_or_empty (o : option (list ModuleOperationScope)) : bool :=
  bool_decide (slice o = []) || validOperationScopes (slice o) false.
Definition canonical_audience (b : ModuleOperationAudience) : bool :=
  canonical_or_empty (oa_InvokeScopes b) && canonical_or_empty (oa_LookupScopes b)
  && canonical_or_empty (oa_HeadlessScopes b) && canonical_or_empty (oa_SourceDelegationScopes b).
Definition validateInstallationScope (scope : InstallationScope) (grant : ModulePrincipalGrant) :
    result ScopeError unit :=
  guard! (InstallationScopeWithin scope (FullInstallationScope grant)) else ExceedsCeiling;
  guard! (bool_decide (map_Forall (fun _ b => canonical_audience b = true)
            (entries (is_OperationAudiences scope)))) else NotCanonical;
  Ok tt.

Definition moduleAvailableToOrganization (g : ModulePrincipalGrant) (orgID : string) : bool :=
  negb (bool_decide (orgID = ""))
  && (g_CrossTenant g || bool_decide (g_Tenant g = "") || bool_decide (g_Tenant g = orgID)).

(** ** Deriving a grant from a manifest

    What the code reads of a signed manifest (the solution-host contract).  The scopes
    are units "kind:action". *)
Record BindingRequest := {
  br_ID : string; br_Audience : string;
  br_invoke : list string; br_lookup : list string; br_headless : list string
}.
Record Authority := {
  au_Queues : list string; au_Namespaces : list string; au_ResourceKinds : list string;
  au_Bindings : list BindingRequest
}.

Definition manifest_audience (request : Authority) (binding : BindingRequest) : ModuleOperationAudience :=
  let invoke := scopesOf (br_invoke binding) in
  {| oa_DelegationMode := ""; oa_Audience := br_Audience binding;
     oa_InvokeScopes := Some invoke;
     oa_LookupScopes := Some (scopesOf (br_lookup binding));
     oa_HeadlessScopes := nilIfEmpty (scopesOf (br_headless binding));
     oa_SourceDelegationScopes :=
       if decide (length (au_Bindings request) = 1)%nat then nilIfEmpty invoke else None |}.
Definition empty_grant : ModulePrincipalGrant :=
  {| g_PresenceGeneration := 0; g_PresenceBinding := ""; g_ArtifactPolicies := None;
     g_ReadAudiences := None; g_OperationAudiences := None; g_Prefix := ""; g_Queues := [];
     g_Namespaces := []; g_ExternalNamespaces := []; g_Resources := []; g_CrossTenant := false;
     g_Tenant := ""; g_Workloads := [] |}.
Definition manifestCeiling (request : option Authority) : ModulePrincipalGrant :=
  match request with
  | None => empty_grant
  | Some request =>
      {| g_PresenceGeneration := 0; g_PresenceBinding := ""; g_ArtifactPolicies := None;
         g_ReadAudiences := None;
         g_OperationAudiences :=
           fold_left (fun m b => Some (<[br_ID b := manifest_audience request b]> (entries m)))
             (au_Bindings request) None;
         g_Prefix := ""; g_Queues := au_Queues request; g_Namespaces := au_Namespaces request;
         g_ExternalNamespaces := []; g_Resources := au_ResourceKinds request; g_CrossTenant := false;
         g_Tenant := ""; g_Workloads := [] |}
  end.
Definition asksNothing (request : option Authority) : bool :=
  match request with
  | None => true
  | Some r => bool_decide (au_Bindings r = []) && bool_decide (au_Queues r = [])
              && bool_decide (au_Namespaces r = []) && bool_decide (au_ResourceKinds r = [])
  end.

(** ** Checking a grant

    uuid.Parse and uuid.Validate (github.com/google/uuid), and the length of an
    installation scope's JSON form, are parameters. *)
Definition InstallationStepQueue : string := "installation-step".
Definition HostScopeRoles : string := "roles".
Definition HostScopeAudit : string := "audit".
Definition IsHostSealedScopeResource (resource : string) : bool :=
  bool_decide (resource = HostScopeRoles) || bool_decide (resource = HostScopeAudit).

(** The pattern of a registration identity and of a DNS-1123 label: lower-case letters,
    digits and hyphens, a letter or digit at both ends. *)
Definition label_edge (b : N) : bool := in_range b 97 122 || in_range b 48 57.
Definition label_bytes (l : list N) : bool :=
  match l with
  | [] => false
  | b :: rest =>
      label_edge b && forallb (fun c => label_edge c || (c =? 45)%N) rest
      && label_edge (List.last rest b)
  end.
Definition is_label (s : string) : bool := label_bytes (bytes_of s).

Definition artifactValue (s : string) (max : nat) : bool :=
  negb (bool_decide (s = "")) && bool_decide (String.length s <= max)%nat && valid_utf8 (bytes_of s)
  && forallb (fun b => negb ((b <=? 32) || (b =? 127))%N) (bytes_of s)
  && negb (existsb (N.eqb 42) (bytes_of s)).
(** "sha256:" and 64 lower-case hexadecimal digits. *)
Definition artifact_digest (s : string) : bool :=
  bool_decide (String.substring 0 7 s = "sha256:") && bool_decide (String.length s = 71)%nat
  && forallb (fun b => in_range b 48 57 || in_range b 97 102) (drop 7 (bytes_of s)).

Definition valid_policy (id : string) (p : ExecutableArtifactPolicy) : bool :=
  let sources := entries (ep_Sources p) in
  let contracts := slice (ep_Contracts p) in
  artifactValue id 128 && artifactValue (ep_Schema p) 128
  && negb (bool_decide (sources = ∅)) && bool_decide (size sources <= 128)%nat
  && negb (bool_decide (contracts = [])) && bool_decide (length contracts <= 256)%nat
  && negb (bool_decide (slice (ep_RequiredKinds p) = []))
  && bool_decide (map_Forall (fun source installed =>
       artifactValue source 512 = true /\ artifactValue installed 512 = true) sources)
  && forallb (fun q => artifactValue (ap_Resource q) 128 && artifactValue (ap_Action q) 64)
       [ep_Activate p; ep_Run p]
  && forallb (fun c => artifactValue (ac_Kind c) 64 && artifactValue (ac_Name c) 512
       && artifact_digest (ac_Digest c)) contracts
  && bool_decide (NoDup contracts)
  && forallb (fun kind => contains_string (map ac_Kind contracts) kind) (slice (ep_RequiredKinds p))
  && bool_decide (NoDup (slice (ep_RequiredKinds p))).
Definition validateArtifactPolicies (policies : gmap string ExecutableArtifactPolicy) : bool :=
  bool_decide (size policies <= 32)%nat
  && bool_decide (map_Forall (fun id p => valid_policy id p = true) policies).

(** [validateForm], of the workload's three fields. *)
Definition validateForm (w : ModuleWorkload) : bool :=
  forallb (fun value => bool_decide (TrimSpace value = value)
      && bool_decide (String.length value <= 63)%nat && is_label value)
    [mw_ServiceAccount w; mw_Namespace w; mw_Container w].

Inductive GrantError :=
| NamedAsId
| HostOnlyQueue
| WrongPrefix
| InvalidPrefix
| TenantNotAnId
| TenantNotCanonical
| InvalidArtifactPolicies
| InvalidReadAudiences
| InvalidOperationAudiences (cause : BindingError)
| NotInstallable
| HostSealedResource
| ExternalWithoutNamespace
| NoWorkload
| WorkloadIncomplete
| WorkloadMalformed.

Fixpoint validate_workloads (workloads : list ModuleWorkload) : result GrantError unit :=
  match workloads with
  | [] => Ok tt
  | w :: rest =>
      guard! (declared w) else WorkloadIncomplete;
      guard! (validateForm w) else WorkloadMalformed;
      validate_workloads rest
  end.

(** A map is ranged over in the order of [map_to_list]: the order decides which invalid
    binding is named, not whether one is. *)
Section Validation.
Context (uuid_Parse : string -> option string) (uuid_Validate : string -> bool)
        (encoded_length : InstallationScope -> Z) (installationScopeMaxBytes : Z).

Definition canonicalModuleTenant (raw : string) : result GrantError string :=
  if decide (raw = "") then Ok ""
  else match uuid_Parse raw with None => Err TenantNotAnId | Some tenant => Ok tenant end.

Definition validateModulePrincipalPrefix (prefix : string) : result GrantError unit :=
  guard! (negb (uuid_Validate prefix)) else NamedAsId;
  guard! (is_label prefix && bool_decide (String.length prefix <= 63)%nat) else InvalidPrefix;
  Ok tt.

Definition validateInstallableGrant (grant : ModulePrincipalGrant) : result GrantError unit :=
  guard! (encoded_length (FullInstallationScope grant) <=? installationScopeMaxBytes)%Z else NotInstallable;
  Ok tt.

Definition validateModulePrincipalCeiling (prefix : string) (grant : ModulePrincipalGrant) :
    result GrantError unit :=
  _ ← validateModulePrincipalPrefix prefix;
  canonical ← canonicalModuleTenant (g_Tenant grant);
  guard! (bool_decide (canonical = g_Tenant grant)) else TenantNotCanonical;
  guard! (validateArtifactPolicies (entries (g_ArtifactPolicies grant))) else InvalidArtifactPolicies;
  guard! (validateReadAudiences prefix (map_to_list (entries (g_ReadAudiences grant))))
    else InvalidReadAudiences;
  match validateOperationAudiences prefix (map_to_list (entries (g_OperationAudiences grant))) with
  | Err e => Err (InvalidOperationAudiences e)
  | Ok _ =>
      _ ← validateInstallableGrant grant;
      guard! (negb (existsb IsHostSealedScopeResource (g_Resources grant))) else HostSealedResource;
      guard! (forallb (contains_string (g_Namespaces grant)) (g_ExternalNamespaces grant))
        else ExternalWithoutNamespace;
      Ok tt
  end.

Definition ValidateModulePrincipalGrant (prefix : string) (grant : ModulePrincipalGrant) :
    result GrantError unit :=
  guard! (negb (bool_decide (is_Some (uuid_Parse prefix)))) else NamedAsId;
  guard! (negb (contains_string (g_Queues grant) InstallationStepQueue)) else HostOnlyQueue;
  guard! (bool_decide (g_Prefix grant = prefix)) else WrongPrefix;
  _ ← validateModulePrincipalCeiling prefix grant;
  guard! (negb (bool_decide (g_Workloads grant = []))) else NoWorkload;
  validate_workloads (g_Workloads grant).

(** One binding of the manifest against the envelope: [None] is an omission. *)
Definition derive_binding (prefix : string) (ceiling : gmap string ModuleOperationAudience)
    (asked : BindingRequest) : option ModuleOperationAudience :=
  match ceiling !! br_ID asked with
  | None => None
  | Some allowed =>
      if decide (oa_Audience allowed = br_Audience asked) then
        let invoke := scopeSet (br_invoke asked) in
        let headless := scopeSet (br_headless asked) in
        let lookup := scopeSet (br_lookup asked) in
        if decide (invoke = ∅ /\ headless = ∅) then None
        else
          let granted := intersectUnitScopes (slice (oa_InvokeScopes allowed)) invoke in
          let derived :=
            {| oa_DelegationMode := oa_DelegationMode allowed; oa_Audience := oa_Audience allowed;
               oa_InvokeScopes := nilIfEmpty granted;
               oa_HeadlessScopes :=
                 if decide (headless = ∅) then None
                 else nilIfEmpty (intersectUnitScopes (slice (oa_HeadlessScopes allowed)) headless);
               oa_LookupScopes :=
                 if decide (granted = [] \/ lookup = ∅) then None
                 else nilIfEmpty (intersectUnitScopes (slice (oa_LookupScopes allowed)) lookup);
               oa_SourceDelegationScopes :=
                 if decide (granted = []) then None
                 else nilIfEmpty (intersectUnitScopes (slice (oa_SourceDelegationScopes allowed)) invoke) |} in
          match validateOperationAudiences prefix [(br_ID asked, derived)] with
          | Err _ => None
          | Ok _ => Some derived
          end
      else None
  end.
Definition derive_bindings (prefix : string) (ceiling : gmap string ModuleOperationAudience)
    (bindings : list BindingRequest) : option (gmap string ModuleOperationAudience) :=
  fold_left (fun m asked =>
    match derive_binding prefix ceiling asked with
    | None => m
    | Some derived => Some (<[br_ID asked := derived]> (entries m))
    end) bindings None.

(** [deriveModulePrincipalGrant] of a manifest that asks for something; the omitted
    bindings, which are only reported, are the ones [derive_binding] leaves out. *)
Definition deriveModulePrincipalGrant (prefix : string) (entry : ModulePrincipalGrant)
    (binding : string) (generation : Z) (request : Authority) (workloads : list ModuleWorkload) :
    result GrantError ModulePrincipalGrant :=
  let ceiling :=
    if asksNothing (Some request) then
      {| g_PresenceGeneration := 0%Z; g_PresenceBinding := ""; g_ArtifactPolicies := None;
         g_ReadAudiences := None; g_OperationAudiences := None; g_Prefix := ""; g_Queues := [];
         g_Namespaces := []; g_ExternalNamespaces := []; g_Resources := []; g_CrossTenant := false;
         g_Tenant := g_Tenant entry; g_Workloads := [] |}
    else entry in
  let namespaces := keepDeclared (g_Namespaces ceiling) (au_Namespaces request) in
  let grant :=
    {| g_PresenceGeneration := generation; g_PresenceBinding := binding;
       g_ArtifactPolicies := g_ArtifactPolicies ceiling; g_ReadAudiences := g_ReadAudiences ceiling;
       g_OperationAudiences :=
         derive_bindings prefix (entries (g_OperationAudiences ceiling)) (au_Bindings request);
       g_Prefix := prefix;
       g_Queues := keepDeclared (g_Queues ceiling) (au_Queues request);
       g_Namespaces := namespaces;
       g_ExternalNamespaces := keepDeclared (g_ExternalNamespaces ceiling) namespaces;
       g_Resources := keepDeclared (g_Resources ceiling) (au_ResourceKinds request);
       g_CrossTenant := g_CrossTenant ceiling; g_Tenant := g_Tenant ceiling;
       g_Workloads := workloads |} in
  _ ← ValidateModulePrincipalGrant prefix grant;
  Ok grant.
End Validation.
