(* ===== verification/ModuleGrantsProofs.v ===== *)
(** What grants and consents allow, one permission at a time, and how validation,
    intersection and derivation act on it. *)
From S2P Require Import Prelude GoText ModuleScopes ModuleScopesProofs ModuleGrants.

#[local] Arguments slice {_} _ : simpl never.
#[local] Arguments entries {_} _ : simpl never.
#[local] Arguments nilIfEmpty {_} _ : simpl never.

(** ** Permissions

    What a module can be allowed: a queue, a namespace to publish into, a namespace
    whose facts may leave the platform, a resource type, an operation at another service
    in one of the four ways a binding lists operations, a read there, an artifact policy. *)
Inductive OperationList := Invoke | Lookup | Headless | SourceDelegation.
Inductive Permission :=
| UseQueue (queue : string)
| PublishIn (namespace : string)
| SendOutside (namespace : string)
| GovernedBy (resource : string)
| OperateAt (how : OperationList) (binding audience kind action id : string)
| ReadAt (binding audience kind id : string)
| UnderPolicy (id : string) (policy : ExecutableArtifactPolicy).

Definition read_permits (scopes : list ModuleReadScope) (kind id : string) : Prop :=
  exists s, s ∈ scopes /\ rs_ResourceKind s = kind /\ (rs_ResourceIDs s = [] \/ id ∈ rs_ResourceIDs s).

Definition op_scopes (how : OperationList) (x : ModuleOperationAudience) : list ModuleOperationScope :=
  slice match how with
        | Invoke => oa_InvokeScopes x
        | Lookup => oa_LookupScopes x
        | Headless => oa_HeadlessScopes x
        | SourceDelegation => oa_SourceDelegationScopes x
        end.
Definition operates (ops : gmap string ModuleOperationAudience) (how : OperationList) (b aud k a i : string) : Prop :=
  exists x, ops !! b = Some x /\ oa_Audience x = aud /\ permits (op_scopes how x) k a i.
Definition reads (ras : gmap string ModuleReadAudience) (b aud k i : string) : Prop :=
  exists x, ras !! b = Some x /\ ra_Audience x = aud /\ read_permits (ra_Scopes x) k i.

Definition grant_allows (g : ModulePrincipalGrant) (p : Permission) : Prop :=
  match p with
  | UseQueue q => allowsQueue g q = true
  | PublishIn n => allowsNamespace g n = true
  | SendOutside n => allowsExternalNamespace g n = true
  | GovernedBy r => allowsResource g r = true
  | OperateAt how b aud k a i => operates (entries (g_OperationAudiences g)) how b aud k a i
  | ReadAt b aud k i => reads (entries (g_ReadAudiences g)) b aud k i
  | UnderPolicy id policy => entries (g_ArtifactPolicies g) !! id = Some policy
  end.
Definition consent_allows (c : InstallationScope) (p : Permission) : Prop :=
  match p with
  | UseQueue q => q ∈ is_Queues c
  | PublishIn n => n ∈ is_Namespaces c
  | SendOutside n => n ∈ is_ExternalNamespaces c
  | GovernedBy r => r ∈ is_Resources c
  | OperateAt how b aud k a i => operates (entries (is_OperationAudiences c)) how b aud k a i
  | ReadAt b aud k i => reads (entries (is_ReadAudiences c)) b aud k i
  | UnderPolicy id policy => entries (is_ArtifactPolicies c) !! id = Some policy
  end.

(** When a binding of the grant is left at all: grant and consent share an invocation, or the
    binding is headless only and they share a headless operation. *)
Definition shared_operation (ops consent : gmap string ModuleOperationAudience) (how : OperationList)
    (b aud : string) : Prop :=
  exists k a i, operates ops how b aud k a i /\ operates consent how b aud k a i.
Definition binding_stands (ops consent : gmap string ModuleOperationAudience) (b aud : string) : Prop :=
  shared_operation ops consent Invoke b aud \/
  ((exists x, ops !! b = Some x /\ headlessOnly x = true) /\ shared_operation ops consent Headless b aud).
Definition stands (g : ModulePrincipalGrant) (c : InstallationScope) (p : Permission) : Prop :=
  match p with
  | OperateAt _ b aud _ _ _ =>
      binding_stands (entries (g_OperationAudiences g)) (entries (is_OperationAudiences c)) b aud
  | _ => True
  end.

(** Bindings whose scope lists are canonical. *)
Definition ops_canonical (ops : gmap string ModuleOperationAudience) : Prop :=
  forall id b how, ops !! id = Some b -> canonical (op_scopes how b).
Definition reads_canonical (ras : gmap string ModuleReadAudience) : Prop :=
  forall id b, ras !! id = Some b -> canonical (readOperationScopes (ra_Scopes b)).

(** ** Plain lists *)
Lemma keepDeclared_contains a b v :
  contains_string (keepDeclared a b) v = true <-> contains_string a v = true /\ v ∈ b.
Proof.
  rewrite !contains_string_spec. unfold keepDeclared. rewrite list_elem_of_filter, contains_string_spec.
  tauto.
Qed.
Lemma scopeStringsWithin_spec a b : scopeStringsWithin a b = true <-> a ⊆ b.
Proof.
  unfold scopeStringsWithin. rewrite forallb_forall. split; intros H v Hv.
  - apply contains_string_spec, H. by apply list_elem_of_In.
  - apply contains_string_spec, H. by apply list_elem_of_In.
Qed.
Lemma slice_nilIfEmpty {A} (l : list A) : slice (nilIfEmpty l) = l.
Proof. by destruct l. Qed.
Lemma slice_omit_empty {A} (o : option (list A)) : slice (omit_empty o) = slice o.
Proof. apply slice_nilIfEmpty. Qed.
Lemma entries_omit_empty {A} (m : option (gmap string A)) : entries (omit_empty_map m) = entries m.
Proof. unfold omit_empty_map. case_decide as H; [by rewrite H|done]. Qed.
Lemma entries_option_map {A B} (f : gmap string A -> gmap string B) m :
  f ∅ = ∅ -> entries (option_map f m) = f (entries m).
Proof. by destruct m. Qed.
Lemma map_imap_lookup {A B} (f : string -> A -> option B) (m : gmap string A) id :
  map_imap f m !! id = m !! id ≫= f id.
Proof. apply map_lookup_imap. Qed.

(** ** Reads as operations *)
Lemma sort_strings_elem v l : v ∈ sort_strings l <-> v ∈ l.
Proof. unfold sort_strings. by rewrite merge_sort_Permutation. Qed.
Lemma sort_strings_ascending l : NoDup l -> ascending (sort_strings l).
Proof.
  intros Hn. assert (NoDup (sort_strings l)) as Hs.
  { unfold sort_strings. by rewrite merge_sort_Permutation. }
  assert (StronglySorted String.le (sort_strings l)) as Ho.
  { apply Sorted_StronglySorted; [apply _|]. apply Sorted_merge_sort. apply _. }
  induction Ho as [|x k _ IH Hx]; [constructor|]. apply NoDup_cons in Hs as [Hxk Hs].
  constructor; [by apply IH|]. rewrite Forall_forall in *. intros y Hy. apply slt_le.
  split; [by apply Hx|]. by intros ->.
Qed.
Lemma read_permits_iff l k i : permits (readOperationScopes l) k "read" i <-> read_permits l k i.
Proof.
  unfold permits, read_permits, readOperationScopes. split.
  - intros (s & Hs & Hk & _ & Hi). apply list_elem_of_fmap in Hs as (t & -> & Ht). cbn in *.
    exists t. split; [done|]. split; [done|]. rewrite sort_strings_elem in Hi.
    destruct Hi as [Hi|Hi]; [left|by right]. destruct (rs_ResourceIDs t) as [|x y] eqn:E; [done|].
    exfalso. apply (elem_of_nil x). rewrite <- Hi. apply sort_strings_elem. by left.
  - intros (t & Ht & Hk & Hi). eexists. split; [by apply list_elem_of_fmap_2|]. split; [done|].
    cbn. split; [by left|]. rewrite sort_strings_elem. destruct Hi as [->|Hi]; [by left|by right].
Qed.
Lemma distinct_read_canonical seen l :
  distinct_read_scopes seen l = true ->
  canonical (readOperationScopes l) /\ forall s, s ∈ l -> rs_ResourceKind s ∉ seen.
Proof.
  unfold readOperationScopes. revert seen. induction l as [|s l IH]; intros seen H.
  { split; [apply canonical_nil|]. intros s Hs. by apply elem_of_nil in Hs. }
  cbn in H. bool_to_prop. destruct (IH (rs_ResourceKind s :: seen)) as [[Hn Hc] Hseen]; [done|].
  split.
  - split.
    + cbn. apply NoDup_cons. split; [|done]. intros Hin.
      apply list_elem_of_fmap in Hin as (t & Ht & Hin). apply list_elem_of_fmap in Hin as (u & -> & Hu).
      apply (Hseen u Hu). cbn in Ht. rewrite <- Ht. by left.
    + intros t Ht. apply elem_of_cons in Ht as [->|Ht]; [|by apply Hc].
      split; [done|]. split; cbn; [repeat constructor|].
      apply sort_strings_ascending. by eapply bool_decide_eq_true_1.
  - intros t Ht. apply elem_of_cons in Ht as [->|Ht].
    + by apply contains_string_false.
    + specialize (Hseen t Ht). contradict Hseen. by right.
Qed.

Lemma intersect_scope_actions m s t :
  intersect_scope m s = Some t -> Actions t <> [] /\ Actions t ⊆ Actions s.
Proof.
  unfold intersect_scope. intros H. repeat (case_match; try done); simplify_eq; cbn;
    (split; [done|]); intros v Hv; by apply list_elem_of_filter in Hv as [_ ?].
Qed.
Lemma intersect_reads_read l r s :
  s ∈ intersectOperationScopes (readOperationScopes l) r -> "read" ∈ Actions s.
Proof.
  intros Hs. apply list_elem_of_omap in Hs as (t & Ht & E).
  apply intersect_scope_actions in E as [Hne Hsub]. apply list_elem_of_fmap in Ht as (u & -> & _).
  cbn in Hsub. destruct (Actions s) as [|x y] eqn:E; [done|].
  assert (x ∈ ["read"]) as Hx by (apply Hsub; by left).
  apply list_elem_of_singleton in Hx as ->. by left.
Qed.

(** ** Validation gives canonical lists *)
Lemma validate_each_spec prefix l id b :
  validate_each prefix l = Ok tt -> (id, b) ∈ l -> validate_binding prefix id b = Ok tt.
Proof.
  induction l as [|[id' b'] l IH]; cbn; intros H Hin; [by apply elem_of_nil in Hin|].
  destruct (validate_binding prefix id' b') as [[]|] eqn:E; [|done]. cbn in H.
  apply elem_of_cons in Hin as [[= -> ->]|Hin]; [done|]. by apply IH.
Qed.
Lemma validateOperationAudiences_each prefix l id b :
  validateOperationAudiences prefix l = Ok tt -> (id, b) ∈ l -> validate_binding prefix id b = Ok tt.
Proof.
  unfold validateOperationAudiences. intros H. apply validate_each_spec.
  by destruct (validate_each prefix l) as [[]|].
Qed.

(** Everything a valid binding promises. *)
Record ValidBinding (prefix : string) (b : ModuleOperationAudience) : Prop := {
  vb_reserved : oa_Audience b <> ModuleCapabilitiesAudience;
  vb_self : oa_Audience b = prefix -> selfAdmittingBinding b = true;
  vb_invoke : forall l, oa_InvokeScopes b = Some l -> validOperationScopes l false = true;
  vb_lookup : forall l, oa_LookupScopes b = Some l ->
    validOperationScopes l true = true /\ operationScopesSubset l (slice (oa_InvokeScopes b)) = true;
  vb_headless : forall l, oa_HeadlessScopes b = Some l -> validOperationScopes l false = true /\
    (is_Some (oa_InvokeScopes b) -> operationScopesSubset l (slice (oa_InvokeScopes b)) = true);
  vb_source : forall l, oa_SourceDelegationScopes b = Some l ->
    validOperationScopes l false = true /\ operationScopesSubset l (slice (oa_InvokeScopes b)) = true;
  vb_some : is_Some (oa_InvokeScopes b) \/ is_Some (oa_HeadlessScopes b)
}.

Lemma refused_beside_false o lookup invoke l :
  refused_beside o lookup invoke = false -> o = Some l ->
  validOperationScopes l lookup = true /\ operationScopesSubset l invoke = true.
Proof. intros H ->. cbn in H. bool_to_prop. done. Qed.

Lemma validate_binding_valid prefix id b :
  validate_binding prefix id b = Ok tt -> ValidBinding prefix b.
Proof.
  unfold validate_binding. intros H.
  destruct (_ && _ && _) eqn:E1 in H; [|done].
  destruct (negb _) eqn:E2 in H; [|done].
  destruct (_ || _) eqn:E3 in H; [|done]. destruct (_ || _) eqn:E4 in H; [|done].
  bool_to_prop. apply bool_decide_eq_false_1 in E2.
  assert (oa_Audience b = prefix -> selfAdmittingBinding b = true) as Hself.
  { intros Hp. match goal with H : _ && _ = false |- _ => rename H into Hs end.
    rewrite (bool_decide_eq_true_2 _ Hp) in Hs. by apply negb_false_iff in Hs. }
  clear E3 E4. destruct (oa_InvokeScopes b) as [invoke|] eqn:Ei.
  - destruct (validOperationScopes invoke false) eqn:V1; [|done].
    destruct (negb _) eqn:V2 in H; [|done]. destruct (negb _) eqn:V3 in H; [|done].
    destruct (negb _) eqn:V4 in H; [|done]. bool_to_prop.
    split; try done; rewrite ?Ei; cbn.
    + by intros l [= <-].
    + intros l. by apply refused_beside_false.
    + intros l Hl. destruct (refused_beside_false _ _ _ l V3 Hl). done.
    + intros l. by apply refused_beside_false.
    + left. done.
  - destruct (oa_HeadlessScopes b) as [headless|] eqn:Eh; [|done].
    destruct (_ && _) eqn:V in H; [|done]. rewrite !andb_true_iff in V.
    destruct V as [[V Vl%bool_decide_eq_true_1] Vs%bool_decide_eq_true_1].
    split; try done; rewrite ?Ei, ?Eh, ?Vl, ?Vs; try done.
    + intros l [= <-]. split; [done|]. by intros [? ?].
    + right. done.
Qed.

Lemma validated_ops_canonical prefix ops :
  validateOperationAudiences prefix (map_to_list ops) = Ok tt -> ops_canonical ops.
Proof.
  intros H id b how Hb. apply elem_of_map_to_list in Hb.
  eapply validateOperationAudiences_each, validate_binding_valid in Hb; [|done]. destruct Hb.
  destruct how; [apply (canonical_slice _ false)|apply (canonical_slice _ true)|apply (canonical_slice _ false)..];
    naive_solver.
Qed.
Lemma validated_reads_canonical prefix ras :
  validateReadAudiences prefix (map_to_list ras) = true -> reads_canonical ras.
Proof.
  unfold validateReadAudiences. intros H id b Hb. bool_to_prop. rewrite forallb_forall in H0.
  apply elem_of_map_to_list, list_elem_of_In, H0 in Hb. unfold valid_read_binding in Hb. bool_to_prop.
  by eapply distinct_read_canonical.
Qed.
Lemma canonical_audience_scopes b how : canonical_audience b = true -> canonical (op_scopes how b).
Proof.
  assert (Hone : forall o, canonical_or_empty o = true -> canonical (slice o)).
  { unfold canonical_or_empty. intros o [E|E]%orb_true_iff; [|by eapply valid_canonical].
    apply bool_decide_eq_true_1 in E. rewrite E. apply canonical_nil. }
  unfold canonical_audience. rewrite !andb_true_iff. intros [[[? ?] ?] ?]. destruct how; by apply Hone.
Qed.
Lemma validated_scope_canonical c g :
  validateInstallationScope c g = Ok tt ->
  InstallationScopeWithin c (FullInstallationScope g) = true /\ ops_canonical (entries (is_OperationAudiences c)).
Proof.
  unfold validateInstallationScope. intros H.
  destruct (InstallationScopeWithin _ _); [|done]. split; [done|].
  destruct (bool_decide _) eqn:E; [|done]. apply bool_decide_eq_true_1 in E.
  intros id b how Hb. specialize (E id b Hb). by apply canonical_audience_scopes.
Qed.

(** ** Intersecting with consent *)
Lemma intersect_nonempty l r :
  intersectOperationScopes l r <> [] <-> exists k a i, permits (intersectOperationScopes l r) k a i.
Proof.
  split.
  - intros Hne. destruct (intersectOperationScopes l r) as [|t rest] eqn:E; [done|].
    assert (Ht : t ∈ intersectOperationScopes l r) by (rewrite E; by left).
    apply list_elem_of_omap in Ht as (x & _ & Hx). apply intersect_scope_actions in Hx as [Hact _].
    destruct (Actions t) as [|a acts] eqn:Ea; [done|].
    exists (ResourceKind t), a, (hd "" (ResourceIDs t)), t. split; [by left|]. split; [done|].
    split; [rewrite Ea; by left|]. destruct (ResourceIDs t); [by left|right; by left].
  - intros (k & a & i & t & Ht & _) E. rewrite E in Ht. by apply elem_of_nil in Ht.
Qed.

(** The binding that is left, list by list. *)
Lemma consented_operation_some consent b y x :
  consented_operation consent b y = Some x <->
  exists z, consent !! b = Some z /\ oa_Audience z = oa_Audience y /\ oa_Audience x = oa_Audience y /\
    oa_DelegationMode x = oa_DelegationMode y /\
    oa_InvokeScopes x = intersect_opt (oa_InvokeScopes y) (oa_InvokeScopes z) /\
    oa_LookupScopes x = intersect_opt (oa_LookupScopes y) (oa_LookupScopes z) /\
    oa_HeadlessScopes x = intersect_opt (oa_HeadlessScopes y) (oa_HeadlessScopes z) /\
    oa_SourceDelegationScopes x = intersect_opt (oa_SourceDelegationScopes y) (oa_SourceDelegationScopes z) /\
    (op_scopes Invoke x <> [] \/ (headlessOnly y = true /\ op_scopes Headless x <> [])).
Proof.
  assert (Hsome : forall l : list ModuleOperationScope, is_Some (nilIfEmpty l) <-> l <> []).
  { intros l. rewrite <- not_eq_None_Some. destruct l; unfold nilIfEmpty; naive_solver. }
  unfold consented_operation. split.
  - destruct (consent !! b) as [z|] eqn:Hz; [|done]. case_decide as He; [|done]. cbv zeta.
    case_match eqn:Hc; [|done]. intros [= <-]. exists z. cbn. split_and!; try done.
    cbn in Hc. rewrite orb_true_iff, andb_true_iff, negb_true_iff in Hc.
    destruct Hc as [Hc%bool_decide_eq_false_1|[Hh Hc%bool_decide_eq_true_1]]; [by left|right].
    split; [done|]. unfold op_scopes, intersect_opt in *. cbn. rewrite slice_nilIfEmpty. by apply Hsome.
  - intros (z & -> & He & Ha & Hm & Hi & Hl & Hh & Hs & Hst). rewrite decide_True by done. cbv zeta.
    destruct x as [mode aud inv look head src]; cbn in *; subst.
    assert (negb (bool_decide (slice (intersect_opt (oa_InvokeScopes y) (oa_InvokeScopes z)) = []))
      || (headlessOnly y && bool_decide (is_Some (intersect_opt (oa_HeadlessScopes y) (oa_HeadlessScopes z)))) = true)
      as ->; [|done].
    rewrite orb_true_iff, andb_true_iff, negb_true_iff. unfold op_scopes in Hst. cbn in Hst.
    destruct Hst as [Hst|[Hho Hst]]; [left; by apply bool_decide_eq_false_2|right; split; [done|]].
    apply bool_decide_eq_true_2. unfold intersect_opt in *. rewrite slice_nilIfEmpty in Hst. by apply Hsome.
Qed.

Lemma op_scopes_intersect how x y z :
  oa_InvokeScopes x = intersect_opt (oa_InvokeScopes y) (oa_InvokeScopes z) ->
  oa_LookupScopes x = intersect_opt (oa_LookupScopes y) (oa_LookupScopes z) ->
  oa_HeadlessScopes x = intersect_opt (oa_HeadlessScopes y) (oa_HeadlessScopes z) ->
  oa_SourceDelegationScopes x = intersect_opt (oa_SourceDelegationScopes y) (oa_SourceDelegationScopes z) ->
  op_scopes how x = intersectOperationScopes (op_scopes how y) (op_scopes how z).
Proof.
  intros H1 H2 H3 H4. unfold op_scopes. destruct how; rewrite ?H1, ?H2, ?H3, ?H4; apply slice_nilIfEmpty.
Qed.

Lemma shared_operation_iff ops consent how b y z :
  ops_canonical ops -> ops_canonical consent -> ops !! b = Some y -> consent !! b = Some z ->
  oa_Audience z = oa_Audience y ->
  shared_operation ops consent how b (oa_Audience y) <->
  intersectOperationScopes (op_scopes how y) (op_scopes how z) <> [].
Proof.
  intros Ho Hc Hy Hz He. rewrite intersect_nonempty. unfold shared_operation, operates.
  assert (Hp : forall k a i, permits (intersectOperationScopes (op_scopes how y) (op_scopes how z)) k a i <->
    permits (op_scopes how y) k a i /\ permits (op_scopes how z) k a i).
  { intros k a i. apply intersect_permits; [by eapply Ho|by eapply Hc]. }
  setoid_rewrite Hp. rewrite Hy, Hz. naive_solver.
Qed.

Lemma consented_operation_operates ops consent how b aud k a i :
  ops_canonical ops -> ops_canonical consent ->
  operates (map_imap (consented_operation consent) ops) how b aud k a i <->
  operates ops how b aud k a i /\ operates consent how b aud k a i /\ binding_stands ops consent b aud.
Proof.
  intros Ho Hc. unfold operates at 1. rewrite map_imap_lookup. split.
  - intros (x & Hx & Ha & Hp). destruct (ops !! b) as [y|] eqn:Hy; [|done]. cbn in Hx.
    apply consented_operation_some in Hx as (z & Hz & He & Hxa & _ & Hi & Hl & Hh & Hs & Hst).
    rewrite (op_scopes_intersect how x y z) in Hp by done.
    rewrite !(op_scopes_intersect _ x y z) in Hst by done.
    apply intersect_permits in Hp as [? ?]; [|by eapply Ho|by eapply Hc].
    assert (aud = oa_Audience y) as -> by congruence.
    split; [by exists y|]. split; [by exists z|].
    destruct Hst as [Hst|[Hho Hst]]; [left|right; split; [by exists y|]]; by eapply shared_operation_iff.
  - intros [(y & Hy & Ha & Hp) [(z & Hz & Ha' & Hp') Hst]]. rewrite Hy. cbn. subst aud.
    pose (x := {| oa_DelegationMode := oa_DelegationMode y; oa_Audience := oa_Audience y;
      oa_InvokeScopes := intersect_opt (oa_InvokeScopes y) (oa_InvokeScopes z);
      oa_LookupScopes := intersect_opt (oa_LookupScopes y) (oa_LookupScopes z);
      oa_HeadlessScopes := intersect_opt (oa_HeadlessScopes y) (oa_HeadlessScopes z);
      oa_SourceDelegationScopes := intersect_opt (oa_SourceDelegationScopes y) (oa_SourceDelegationScopes z) |}).
    exists x. split_and!; [apply consented_operation_some; exists z; split_and!; try done|done|].
    + rewrite !(op_scopes_intersect _ x y z) by done. unfold binding_stands in Hst.
      rewrite !(shared_operation_iff ops consent _ b y z) in Hst by done. naive_solver.
    + rewrite (op_scopes_intersect how x y z) by done. apply intersect_permits; [by eapply Ho|by eapply Hc|done].
Qed.

Lemma read_back scopes k i :
  (forall s, s ∈ scopes -> "read" ∈ Actions s) ->
  read_permits (map (fun s => {| rs_ResourceKind := ResourceKind s; rs_ResourceIDs := ResourceIDs s |}) scopes) k i
  <-> permits scopes k "read" i.
Proof.
  intros Hr. unfold read_permits, permits, scope_permits. split.
  - intros (s & Hs & Hk & Hi). apply list_elem_of_fmap in Hs as (t & -> & Ht). exists t. auto.
  - intros (t & Ht & Hk & _ & Hi). eexists. split; [by apply list_elem_of_fmap_2|]. by cbn.
Qed.

Lemma consented_read_reads ras consent b aud k i :
  reads_canonical ras -> reads_canonical consent ->
  reads (map_imap (consented_read consent) ras) b aud k i <->
  reads ras b aud k i /\ reads consent b aud k i.
Proof.
  intros Ho Hc. unfold reads. rewrite map_imap_lookup. split.
  - intros (x & Hx & Ha & Hp). destruct (ras !! b) as [y|] eqn:Hy; [|done]. cbn in Hx.
    unfold consented_read in Hx. destruct (consent !! b) as [z|] eqn:Hz; [|done].
    case_decide as He; [|done]. case_decide; [done|]. simplify_eq. cbn in *.
    apply read_back in Hp; [|apply intersect_reads_read].
    apply intersect_permits in Hp as [H1 H2]; [|by eapply Ho|by eapply Hc].
    apply read_permits_iff in H1, H2. split; eexists; by repeat split.
  - intros [(y & Hy & Ha & Hp) (z & Hz & Ha' & Hp')]. rewrite Hy. cbn.
    unfold consented_read. rewrite Hz, decide_True by congruence. cbn.
    assert (permits (intersectOperationScopes (readOperationScopes (ra_Scopes y))
              (readOperationScopes (ra_Scopes z))) k "read" i) as Hi.
    { apply intersect_permits; [by eapply Ho|by eapply Hc|]. by rewrite !read_permits_iff. }
    rewrite decide_False; [|intros E; rewrite E in Hi; by destruct Hi as (s & ?%elem_of_nil & _)].
    eexists. split; [done|]. cbn. split; [done|].
    apply read_back; [|done]. intros s. apply intersect_reads_read.
Qed.

Lemma consented_policy_lookup ps consent id policy :
  map_imap (consented_policy consent) ps !! id = Some policy <->
  ps !! id = Some policy /\ consent !! id = Some policy.
Proof.
  rewrite map_imap_lookup. unfold consented_policy. destruct (ps !! id) as [p|]; cbn; [|naive_solver].
  case_decide; naive_solver.
Qed.

Lemma intersect_allows g c p :
  is_Follows c = false ->
  ops_canonical (entries (g_OperationAudiences g)) -> ops_canonical (entries (is_OperationAudiences c)) ->
  reads_canonical (entries (g_ReadAudiences g)) -> reads_canonical (entries (is_ReadAudiences c)) ->
  grant_allows (intersectInstallationScope g c) p <->
  grant_allows g p /\ consent_allows c p /\ stands g c p.
Proof.
  intros Hf Ho Hco Hr Hcr. unfold intersectInstallationScope. rewrite Hf.
  destruct p as [q|q|q|q|how b aud k a i|b aud k i|id policy]; cbn [grant_allows consent_allows stands];
    rewrite ?(right_id True and); try apply keepDeclared_contains; cbn [g_OperationAudiences g_ReadAudiences g_ArtifactPolicies];
    rewrite ?entries_option_map by done.
  - by apply consented_operation_operates.
  - by apply consented_read_reads.
  - apply consented_policy_lookup.
Qed.

(** ** Consent within the ceiling *)
Lemma within_allows c g p :
  ops_canonical (entries (g_OperationAudiences g)) -> ops_canonical (entries (is_OperationAudiences c)) ->
  reads_canonical (entries (g_ReadAudiences g)) -> reads_canonical (entries (is_ReadAudiences c)) ->
  InstallationScopeWithin c (FullInstallationScope g) = true -> consent_allows c p -> grant_allows g p.
Proof.
  intros Ho Hco Hr Hcr. unfold InstallationScopeWithin. rewrite !andb_true_iff.
  intros [[[[[[[_ Hq] Hn] He] Hres] Hops%bool_decide_eq_true_1] Hreads%bool_decide_eq_true_1]
    Hpol%bool_decide_eq_true_1].
  apply scopeStringsWithin_spec in Hq, Hn, He, Hres. cbn in *.
  rewrite entries_omit_empty in Hops. rewrite entries_omit_empty in Hreads.
  rewrite entries_omit_empty in Hpol.
  destruct p as [q|n|n|r|how b aud k a i|b aud k i|id policy]; cbn.
  1-4: intros H; apply contains_string_spec; auto.
  - intros (x & Hx & Ha & Hp). specialize (Hops b x Hx). unfold operation_within in Hops.
    rewrite (entries_option_map (fmap copy_audience)), lookup_fmap in Hops by done.
    destruct (entries (g_OperationAudiences g) !! b) as [y|] eqn:Hy; [|done]. cbn in Hops.
    rewrite !slice_omit_empty in Hops. destruct Hops as (Hau & Hinv & Hlook & Hhead & Hsrc).
    exists y. split; [done|]. split; [congruence|].
    assert (operationScopesSubset (op_scopes how x) (op_scopes how y) = true) by by destruct how.
    eapply subset_permits; [by eapply Hco|by eapply Ho|done|done].
  - intros (x & Hx & Ha & Hp). specialize (Hreads b x Hx). unfold read_within in Hreads.
    destruct (entries (g_ReadAudiences g) !! b) as [y|] eqn:Hy; [|done].
    destruct Hreads as [Hau Hsub]. exists y. split; [done|]. split; [congruence|].
    apply read_permits_iff. apply read_permits_iff in Hp.
    eapply subset_permits; [by eapply Hcr|by eapply Hr|exact Hsub|done].
  - intros H. by apply Hpol.
Qed.

(** ** Deriving from a manifest *)
(** What a manifest asks for; a module delegates to a source only what it asks to invoke. *)
Definition asked_units (how : OperationList) (asked : BindingRequest) : list string :=
  match how with
  | Invoke | SourceDelegation => br_invoke asked
  | Lookup => br_lookup asked
  | Headless => br_headless asked
  end.
Definition asks (request : Authority) (p : Permission) : Prop :=
  match p with
  | UseQueue q => q ∈ au_Queues request
  | PublishIn n | SendOutside n => n ∈ au_Namespaces request
  | GovernedBy r => r ∈ au_ResourceKinds request
  | OperateAt how b aud k a _ =>
      exists asked, asked ∈ au_Bindings request /\ br_ID asked = b /\ br_Audience asked = aud
                    /\ (k +:+ ":" +:+ a) ∈ asked_units how asked
  | ReadAt _ _ _ _ | UnderPolicy _ _ => True
  end.

Lemma unit_scope_permits granted s t k a i :
  unit_scope granted s = Some t ->
  scope_permits t k a i <-> scope_permits s k a i /\ (k +:+ ":" +:+ a) ∈ granted.
Proof.
  unfold unit_scope, scope_permits. case_decide; [done|]. intros [= <-]. cbn.
  rewrite list_elem_of_filter. naive_solver.
Qed.
Lemma intersectUnitScopes_permits allowed granted k a i :
  permits (intersectUnitScopes allowed granted) k a i <->
  permits allowed k a i /\ (k +:+ ":" +:+ a) ∈ granted.
Proof.
  unfold intersectUnitScopes, permits. split.
  - intros (t & Ht & Hp). apply list_elem_of_omap in Ht as (s & Hs & E).
    apply (unit_scope_permits _ _ _ k a i E) in Hp as [? ?]. split; [by exists s|done].
  - intros [(s & Hs & Hp) Hg]. destruct (unit_scope granted s) as [t|] eqn:E.
    + exists t. split; [apply list_elem_of_omap; by exists s|].
      by apply (unit_scope_permits _ _ _ k a i E).
    + exfalso. unfold unit_scope in E. case_decide as He; [|done].
      destruct Hp as (Hk & Ha & _). apply (elem_of_nil a). rewrite <- He.
      apply list_elem_of_filter. by subst k.
Qed.

Lemma derive_binding_spec prefix ceiling asked x :
  derive_binding prefix ceiling asked = Some x ->
  exists allowed, ceiling !! br_ID asked = Some allowed /\ oa_Audience allowed = oa_Audience x /\
    br_Audience asked = oa_Audience x /\ ValidBinding prefix x /\
    forall how k a i, permits (op_scopes how x) k a i ->
      permits (op_scopes how allowed) k a i /\ (k +:+ ":" +:+ a) ∈ asked_units how asked.
Proof.
  unfold derive_binding. destruct (ceiling !! br_ID asked) as [y|]; [|done].
  case_decide as Ha; [|done]. case_decide; [done|]. cbv zeta.
  destruct (validateOperationAudiences _ _) eqn:V; [|done]. intros [= <-]. exists y.
  split; [done|]. split; [done|]. cbn. split; [done|]. split.
  - destruct value. eapply validate_binding_valid, validateOperationAudiences_each; [exact V|].
    by apply list_elem_of_singleton.
  - clear V. intros how k a i Hp.
    assert (Hnone : ~ permits (slice None) k a i) by (intros (t & Ht & _); by apply elem_of_nil in Ht).
    unfold op_scopes in *. destruct how; cbn [oa_InvokeScopes oa_LookupScopes oa_HeadlessScopes
      oa_SourceDelegationScopes asked_units] in *; repeat case_decide; try done;
      rewrite slice_nilIfEmpty, intersectUnitScopes_permits in Hp; unfold scopeSet in Hp; set_solver.
Qed.

Lemma derive_bindings_lookup prefix ceiling bindings id x :
  entries (derive_bindings prefix ceiling bindings) !! id = Some x ->
  exists asked, asked ∈ bindings /\ br_ID asked = id /\ derive_binding prefix ceiling asked = Some x.
Proof.
  unfold derive_bindings.
  assert (forall m, entries (fold_left (fun m asked =>
      match derive_binding prefix ceiling asked with
      | None => m | Some derived => Some (<[br_ID asked := derived]> (entries m)) end) bindings m) !! id = Some x ->
    entries m !! id = Some x \/
    exists asked, asked ∈ bindings /\ br_ID asked = id /\ derive_binding prefix ceiling asked = Some x) as Hgen.
  { induction bindings as [|asked l IH]; intros m; cbn; [by left|].
    intros H. apply IH in H as [H|(z & Hz & ? & ?)].
    - destruct (derive_binding prefix ceiling asked) as [y|] eqn:E; [|by left]. unfold entries in H at 1; cbn in H.
      apply lookup_insert_Some in H as [[<- ->]|[_ H]]; [|by left].
      right. exists asked. split; [by left|done].
    - right. exists z. split; [by right|done]. }
  intros H. destruct (Hgen None H) as [H'|]; [|done].
  unfold entries in H'; cbn in H'. by rewrite lookup_empty in H'.
Qed.

Lemma granted_bindings_valid prefix ceiling bindings id x :
  entries (derive_bindings prefix ceiling bindings) !! id = Some x -> ValidBinding prefix x.
Proof.
  intros H. apply derive_bindings_lookup in H as (asked & _ & _ & H).
  by apply derive_binding_spec in H as (_ & _ & _ & _ & ? & _).
Qed.

Section Derived.
Context (prefix binding : string) (generation : Z) (request : Authority) (workloads : list ModuleWorkload).

(** The grant [deriveModulePrincipalGrant] validates. *)
Definition derived_grant (ceiling : ModulePrincipalGrant) : ModulePrincipalGrant :=
  let namespaces := keepDeclared (g_Namespaces ceiling) (au_Namespaces request) in
  {| g_PresenceGeneration := generation; g_PresenceBinding := binding;
     g_ArtifactPolicies := g_ArtifactPolicies ceiling; g_ReadAudiences := g_ReadAudiences ceiling;
     g_OperationAudiences :=
       derive_bindings prefix (entries (g_OperationAudiences ceiling)) (au_Bindings request);
     g_Prefix := prefix; g_Queues := keepDeclared (g_Queues ceiling) (au_Queues request);
     g_Namespaces := namespaces;
     g_ExternalNamespaces := keepDeclared (g_ExternalNamespaces ceiling) namespaces;
     g_Resources := keepDeclared (g_Resources ceiling) (au_ResourceKinds request);
     g_CrossTenant := g_CrossTenant ceiling; g_Tenant := g_Tenant ceiling; g_Workloads := workloads |}.

Lemma derived_in_envelope entry p : grant_allows (derived_grant entry) p -> grant_allows entry p.
Proof.
  destruct p as [q|q|q|q|how b aud k a i|b aud k i|id policy]; cbn; try done.
  1-4: by intros [? _]%keepDeclared_contains.
  intros (x & Hx & Ha & Hp). apply derive_bindings_lookup in Hx as (asked & _ & <- & Hd).
  apply derive_binding_spec in Hd as (y & Hy & Hya & _ & _ & Hpi).
  exists y. split; [done|]. split; [congruence|]. by apply Hpi.
Qed.
Lemma derived_is_asked entry p : grant_allows (derived_grant entry) p -> asks request p.
Proof.
  destruct p as [q|q|q|q|how b aud k a i|b aud k i|id policy]; cbn; try done.
  1,2,4: by intros [_ ?]%keepDeclared_contains.
  - intros [_ H]%keepDeclared_contains. unfold keepDeclared in H.
    apply list_elem_of_filter in H as [H _]. by apply contains_string_spec.
  - intros (x & Hx & Ha & Hp). apply derive_bindings_lookup in Hx as (asked & Hin & <- & Hd).
    apply derive_binding_spec in Hd as (y & _ & _ & Hau & _ & Hpi).
    exists asked. split; [done|]. split; [done|]. split; [congruence|]. by eapply Hpi.
Qed.
End Derived.

(** A ceiling with nothing in it. *)
Lemma nothing_allowed g p :
  g_Queues g = [] -> g_Namespaces g = [] -> g_ExternalNamespaces g = [] -> g_Resources g = [] ->
  g_OperationAudiences g = None -> g_ReadAudiences g = None -> g_ArtifactPolicies g = None ->
  ~ grant_allows g p.
Proof.
  intros H1 H2 H3 H4 H5 H6 H7.
  destruct p; cbn; unfold allowsQueue, allowsNamespace, allowsExternalNamespace, allowsResource, operates, reads;
    rewrite ?H1, ?H2, ?H3, ?H4, ?H5, ?H6, ?H7; try done; unfold entries; cbn.
  all: by intros (x & Hx & _).
Qed.
