(* ===== verification/ModuleAuthority.v ===== *)
(** The decision every module capability passes, and what depends on it
    (accounts/code/pkg/business: module_envelope.go, module_manifest_grant.go,
    module_capability_enforcement.go, module_hop_binding.go,
    module_operation_audience.go, module_read_audience.go;
    accounts/code/pkg/infra/postgres_module_authority.go and the installation triggers
    of store/migrations/32 and 36).

    A decision meets three facts: the grant in this replica's registry, the consent in
    the organization's installation row, and what the credential was sealed with.  The
    reads happen at instants of their own; each takes the database it sees. *)
From S2P Require Import Prelude JobQueue ModuleScopes ModuleGrants.
Local Open Scope Z_scope.

(** ** The tables *)
Record Installation := {
  in_id : string;
  in_org_id : string;
  in_kind : string;
  in_target_id : option string;
  in_registry_binding_id : option string;
  in_registry_principal_id : option string;
  in_scope : InstallationScope;
  in_consent_receipt : string;  (** jsonb: the document of the approval the consent rests on *)
  in_exposure_revision : Z;
  in_status : string;
  in_revision : Z
}.
Record SolutionTarget := { st_id : string; st_binding_id : string; st_closed_generation : option Z }.
Record AppliedManifest := { am_Generation : Z; am_Removed : bool }.
Record SolutionHostBindingRecord := { hb_BindingID : string; hb_Applied : option AppliedManifest }.

(** [principal_authorization_revisions] by organization and principal, the envelope
    revisions, and the tables above. *)
Record DB := {
  installations : list Installation;
  solution_targets : list SolutionTarget;
  authorization_revisions : gmap (string * string) Z;
  module_envelopes : list Z;
  solution_host_bindings : list SolutionHostBindingRecord
}.
(** [COALESCE(max(revision), 0)] *)
Definition max_revision (l : list Z) : Z := fold_right Z.max 0 l.

(** ** The registry of a replica *)
Record installedModuleRegistry := {
  ir_manifestDerived : bool;
  ir_registry : gmap string ModulePrincipalGrant;
  ir_envelopeRevision : Z
}.
Definition no_registry : installedModuleRegistry :=
  {| ir_manifestDerived := false; ir_registry := ∅; ir_envelopeRevision := 0 |}.

(** What a replica is wired to, and what it remembers: the registry it published, the
    highest envelope revision it has seen, and whether a registry pass was requested. *)
Record Replica := {
  rp_modulePrincipals : option installedModuleRegistry;
  rp_envelopes_wired : bool;
  rp_authority_wired : bool;
  rp_envelopeRevisionSeen : Z;
  rp_passRequested : bool
}.
Definition set_seen (f : Z -> Z) (r : Replica) : Replica :=
  {| rp_modulePrincipals := rp_modulePrincipals r; rp_envelopes_wired := rp_envelopes_wired r;
     rp_authority_wired := rp_authority_wired r;
     rp_envelopeRevisionSeen := f (rp_envelopeRevisionSeen r); rp_passRequested := rp_passRequested r |}.
Definition requestRegistryPass (r : Replica) : Replica :=
  {| rp_modulePrincipals := rp_modulePrincipals r; rp_envelopes_wired := rp_envelopes_wired r;
     rp_authority_wired := rp_authority_wired r;
     rp_envelopeRevisionSeen := rp_envelopeRevisionSeen r; rp_passRequested := true |}.
Definition observeModuleEnvelopeRevision (revision : Z) (r : Replica) : Replica :=
  set_seen (fun seen => if revision <=? seen then seen else revision) r.
Definition moduleRegistrySnapshot (r : Replica) : installedModuleRegistry :=
  default no_registry (rp_modulePrincipals r).
Definition moduleRegistryFenced (r : Replica) : bool :=
  rp_envelopes_wired r
  && (ir_envelopeRevision (moduleRegistrySnapshot r) <? rp_envelopeRevisionSeen r).
Definition declaredModules (r : Replica) : gmap string ModulePrincipalGrant :=
  if moduleRegistryFenced r then ∅ else ir_registry (moduleRegistrySnapshot r).

(** ** Refusals *)
Inductive Code := Unauthenticated | PermissionDenied | FailedPrecondition | InvalidArgument | Unavailable.
#[export] Instance Code_eq_dec : EqDecision Code.
Proof. solve_decision. Defined.
Inductive Refusal :=
| CallerIdentityRequired
| ModuleNotRegistered
| ModuleTenantNotCurrent
| EnvelopeRevisionUnreadable
| ModuleRegistryStale
| RegistryGenerationDiffers
| LiveAuthorityUnavailable
| ModuleInstalledNowhere
| ModuleInstallationInactive
| ModuleAuthorityUnreadable
| LiveReadFailed
| ModuleInstallationConsentRequired
| ModuleAuthorityStale.
#[export] Instance Refusal_eq_dec : EqDecision Refusal.
Proof. solve_decision. Defined.
Definition refusal_code (r : Refusal) : Code :=
  match r with
  | CallerIdentityRequired | ModuleNotRegistered | ModuleTenantNotCurrent | ModuleInstalledNowhere
  | ModuleInstallationInactive | ModuleAuthorityStale => Unauthenticated
  | EnvelopeRevisionUnreadable | ModuleRegistryStale | RegistryGenerationDiffers
  | LiveAuthorityUnavailable | LiveReadFailed => Unavailable
  | ModuleAuthorityUnreadable => InvalidArgument
  | ModuleInstallationConsentRequired => FailedPrecondition
  end.

(** ** The live read *)
Record LiveModuleAuthority := {
  lv_RegistryBindingID : string;
  lv_Scope : InstallationScope;
  lv_EnvelopeRevision : option Z;
  lv_InstallationID : string;
  lv_InstallationRevision : Z;
  lv_ProducerEpoch : Z
}.
Inductive LiveError := LiveUnreadable | LiveInactive | LiveFailed.

(** The row of the SELECT: the installation joined to its open target. *)
Definition open_target (db : DB) (i : Installation) : Prop :=
  Exists (fun t => in_target_id i = Some (st_id t) /\ in_registry_binding_id i = Some (st_binding_id t)
                   /\ st_closed_generation t = None) (solution_targets db).
Definition live_row (db : DB) (principalID orgID installationID : string) (i : Installation) : Prop :=
  in_org_id i = orgID /\ in_registry_principal_id i = Some principalID
  /\ (installationID = "" \/ in_id i = installationID) /\ in_status i = "active" /\ open_target db i.
#[export] Instance open_target_dec db i : Decision (open_target db i).
Proof. unfold open_target. apply _. Defined.
#[export] Instance live_row_dec db p o n i : Decision (live_row db p o n i).
Proof. unfold live_row. apply _. Defined.

(** [LiveModuleAuthority]; [fails]: a statement of it failed. *)
Definition read_live (db : DB) (fails : bool) (principalID orgID installationID : string) :
    result LiveError LiveModuleAuthority :=
  if decide (orgID = "") then Err LiveUnreadable
  else if fails then Err LiveFailed
  else match list_find (live_row db principalID orgID installationID) (installations db) with
  | None => Err LiveInactive
  | Some (_, i) =>
      Ok {| lv_RegistryBindingID := default "" (in_registry_binding_id i); lv_Scope := in_scope i;
            lv_EnvelopeRevision := Some (max_revision (module_envelopes db));
            lv_InstallationID := in_id i; lv_InstallationRevision := in_revision i;
            lv_ProducerEpoch := default 0 (authorization_revisions db !! (orgID, principalID)) |}
  end.

(** ** The fences of the registry *)
(** What a decision reads of its surroundings: the bindings and the committed envelope
    revision (at the first decision of the request), then the live authority.  [None]
    is a read that fails. *)
Record Reads := {
  rd_bindings : option DB;
  rd_envelope : option DB;
  rd_live : DB;
  rd_live_fails : bool
}.

Definition live_generations (db : DB) : gmap string Z :=
  fold_left (fun m record =>
    match hb_Applied record with
    | Some a => if am_Removed a then m else <[hb_BindingID record := am_Generation a]> m
    | None => m
    end) (solution_host_bindings db) ∅.
(** Whether every grant of the registry is of the generation applied now. *)
Definition generations_current (db : DB) (registry : gmap string ModulePrincipalGrant) : Prop :=
  map_Forall (fun _ grant =>
    default 0 (live_generations db !! g_PresenceBinding grant) = g_PresenceGeneration grant
    /\ g_PresenceGeneration grant <> 0) registry.
#[export] Instance generations_current_dec db r : Decision (generations_current db r).
Proof. unfold generations_current. apply _. Defined.

Definition fenceManifestGenerations (rd : Reads) (snapshot : installedModuleRegistry) (r : Replica) :
    result Refusal unit * Replica :=
  match rd_bindings rd with
  | Some db =>
      if decide (generations_current db (ir_registry snapshot)) then (Ok tt, r)
      else (Err RegistryGenerationDiffers, requestRegistryPass r)
  | None => (Err RegistryGenerationDiffers, requestRegistryPass r)
  end.

Definition fence_envelope (rd : Reads) (snapshot : installedModuleRegistry) (r : Replica) :
    result Refusal unit * Replica :=
  if rp_envelopes_wired r then
    match rd_envelope rd with
    | None => (Err EnvelopeRevisionUnreadable, r)
    | Some db =>
        let latest := max_revision (module_envelopes db) in
        let r := observeModuleEnvelopeRevision latest r in
        if latest =? ir_envelopeRevision snapshot then (Ok tt, r)
        else (Err ModuleRegistryStale, requestRegistryPass r)
    end
  else (Ok tt, r).
Definition fenceModuleRegistrySnapshot (rd : Reads) (snapshot : installedModuleRegistry) (r : Replica) :
    result Refusal unit * Replica :=
  if ir_manifestDerived snapshot then
    match fenceManifestGenerations rd snapshot r with
    | (Err e, r) => (Err e, r)
    | (Ok _, r) => fence_envelope rd snapshot r
    end
  else fence_envelope rd snapshot r.

Definition currentModuleGrantFromSnapshot (rd : Reads) (snapshot : installedModuleRegistry)
    (principalID : string) (r : Replica) : result Refusal (option ModulePrincipalGrant) * Replica :=
  match ir_registry snapshot !! principalID with
  | None =>
      if rp_envelopes_wired r && (ir_envelopeRevision snapshot <? rp_envelopeRevisionSeen r)
      then (Err ModuleRegistryStale, requestRegistryPass r)
      else (Ok None, r)
  | Some grant =>
      match fenceModuleRegistrySnapshot rd snapshot r with
      | (Err e, r) => (Err e, r)
      | (Ok _, r) => (Ok (Some grant), r)
      end
  end.

(** [consentedGrant] *)
Definition consentedGrant (snapshot : installedModuleRegistry) (g : ModulePrincipalGrant)
    (consent : InstallationScope) : result Refusal ModulePrincipalGrant :=
  guard! (negb (is_Follows consent && (ir_envelopeRevision snapshot =? 0)))
    else ModuleInstallationConsentRequired;
  Ok (intersectInstallationScope g consent).

(** ** The decision *)
Record SealedModuleAuthority := {
  sm_InstallationID : option string;
  sm_InstallationRevision : option Z;
  sm_ProducerEpoch : option Z;
  sm_BindingID : option string;
  sm_BindingRevision : option Z
}.
Record ModuleCaller := {
  mc_PrincipalID : string;
  mc_BoundOrg : string;
  mc_Sealed : option SealedModuleAuthority
}.
Record ModuleCapabilityAuthority := {
  ca_Caller : ModuleCaller;
  ca_Grant : ModulePrincipalGrant;
  ca_InstallationID : string;
  ca_InstallationRevision : Z;
  ca_ProducerEpoch : Z
}.

(** An absent sealed value claims nothing; a present one must equal the live one. *)
Definition claims {A} `{EqDecision A} (sealed : option A) (live : A) : bool :=
  match sealed with None => true | Some v => bool_decide (v = live) end.
Definition checkAgainstSealed (a : ModuleCapabilityAuthority) (sealed : option SealedModuleAuthority) :
    result Refusal unit :=
  match sealed with
  | None => Ok tt
  | Some s =>
      guard! (claims (sm_InstallationID s) (ca_InstallationID a)) else ModuleAuthorityStale;
      guard! (claims (sm_InstallationRevision s) (ca_InstallationRevision a)) else ModuleAuthorityStale;
      guard! (claims (sm_ProducerEpoch s) (ca_ProducerEpoch a)) else ModuleAuthorityStale;
      Ok tt
  end.

(** From the live read on. *)
Definition decide_live (rd : Reads) (snapshot : installedModuleRegistry) (caller : ModuleCaller)
    (grant : ModulePrincipalGrant) : result Refusal ModuleCapabilityAuthority :=
  let sealedInstallation :=
    match mc_Sealed caller with Some s => default "" (sm_InstallationID s) | None => "" end in
  match read_live (rd_live rd) (rd_live_fails rd) (mc_PrincipalID caller) (mc_BoundOrg caller)
          sealedInstallation with
  | Err LiveInactive => Err ModuleInstalledNowhere
  | Err LiveUnreadable => Err ModuleAuthorityUnreadable
  | Err LiveFailed => Err LiveReadFailed
  | Ok live =>
      guard! (negb (bool_decide (lv_InstallationID live = "")) && is_Capabilities (lv_Scope live))
        else ModuleInstalledNowhere;
      guard! (bool_decide (lv_RegistryBindingID live = g_PresenceBinding grant))
        else ModuleInstallationInactive;
      guard! (match lv_EnvelopeRevision live with
              | Some revision => revision =? ir_envelopeRevision snapshot
              | None => true
              end) else ModuleRegistryStale;
      consented ← consentedGrant snapshot grant (lv_Scope live);
      let authority :=
        {| ca_Caller := caller; ca_Grant := consented; ca_InstallationID := lv_InstallationID live;
           ca_InstallationRevision := lv_InstallationRevision live;
           ca_ProducerEpoch := lv_ProducerEpoch live |} in
      _ ← checkAgainstSealed authority (mc_Sealed caller);
      Ok authority
  end.

Definition authorizeModuleCapabilityFromSnapshot (rd : Reads) (snapshot : installedModuleRegistry)
    (caller : ModuleCaller) (r : Replica) : result Refusal ModuleCapabilityAuthority * Replica :=
  if decide (mc_PrincipalID caller = "") then (Err CallerIdentityRequired, r)
  else match currentModuleGrantFromSnapshot rd snapshot (mc_PrincipalID caller) r with
  | (Err e, r) => (Err e, r)
  | (Ok None, r) => (Err ModuleNotRegistered, r)
  | (Ok (Some grant), r) =>
      if moduleAvailableToOrganization grant (mc_BoundOrg caller) then
        if rp_authority_wired r then (decide_live rd snapshot caller grant, r)
        else (Err LiveAuthorityUnavailable, r)
      else (Err ModuleTenantNotCurrent, r)
  end.
Definition AuthorizeModuleCapability (rd : Reads) (caller : ModuleCaller) (r : Replica) :
    result Refusal ModuleCapabilityAuthority * Replica :=
  authorizeModuleCapabilityFromSnapshot rd (moduleRegistrySnapshot r) caller r.
Definition moduleCapability (rd : Reads) (caller : ModuleCaller) (r : Replica) :
    result Refusal ModulePrincipalGrant * Replica :=
  let '(decided, r) := AuthorizeModuleCapability rd caller r in
  (authority ← decided; Ok (ca_Grant authority), r).

(** ** Deferred work *)
Record DeferredWorkAuthority := {
  dw_PrincipalID : string;
  dw_OrganizationID : string;
  dw_InstallationID : string;
  dw_InstallationRevision : Z;
  dw_ProducerEpoch : Z
}.
Definition StampDeferredWork (a : ModuleCapabilityAuthority) : DeferredWorkAuthority :=
  {| dw_PrincipalID := mc_PrincipalID (ca_Caller a); dw_OrganizationID := mc_BoundOrg (ca_Caller a);
     dw_InstallationID := ca_InstallationID a; dw_InstallationRevision := ca_InstallationRevision a;
     dw_ProducerEpoch := ca_ProducerEpoch a |}.
(** The caller a stamp stands for. *)
Definition stamp_caller (stamp : DeferredWorkAuthority) : ModuleCaller :=
  {| mc_PrincipalID := dw_PrincipalID stamp; mc_BoundOrg := dw_OrganizationID stamp;
     mc_Sealed := Some {| sm_InstallationID := Some (dw_InstallationID stamp);
                          sm_InstallationRevision := Some (dw_InstallationRevision stamp);
                          sm_ProducerEpoch := Some (dw_ProducerEpoch stamp);
                          sm_BindingID := None; sm_BindingRevision := None |} |}.
Inductive DeferredRefusal := DeferredWorkRevoked (cause : Refusal) | DeferredUndecided (cause : Refusal).
Definition deferred_refusal (e : Refusal) : DeferredRefusal :=
  if decide (e = ModuleAuthorityStale \/ refusal_code e = PermissionDenied
             \/ refusal_code e = Unauthenticated)
  then DeferredWorkRevoked e else DeferredUndecided e.
Definition AuthorizeDeferredWork (rd : Reads) (stamp : DeferredWorkAuthority) (r : Replica) :
    result DeferredRefusal ModuleCapabilityAuthority * Replica :=
  let '(decided, r) := AuthorizeModuleCapability rd (stamp_caller stamp) r in
  (match decided with Ok a => Ok a | Err e => Err (deferred_refusal e) end, r).

(** The stamp of a module's job (JobQueue). *)
Definition JobAuthority (a : ModuleCapabilityAuthority) : ModuleAuthority :=
  {| ma_PrincipalID := mc_PrincipalID (ca_Caller a); ma_OrganizationID := mc_BoundOrg (ca_Caller a);
     ma_InstallationID := ca_InstallationID a; ma_InstallationRevision := ca_InstallationRevision a;
     ma_BindingID := g_PresenceBinding (ca_Grant a); ma_AllowsGlobal := g_CrossTenant (ca_Grant a) |}.

(** ** Operation bindings by id

    The store of [ExactOperationBinding] is an interface without an implementation in
    the repository, so its answer is an argument. *)
Record ModuleOperationBinding := {
  ob_BindingID : string; ob_Revision : Z; ob_Audience : string; ob_Scopes : list string
}.
Inductive BindingRefusal := NamesNoBinding | NoBindingStore | BindingReadFailed | BindingNotHeld | BindingStale.
Definition ExactOperationBinding
    (store : option (string -> string -> result unit (option ModuleOperationBinding)))
    (authority : ModuleCapabilityAuthority) (sealed : option SealedModuleAuthority) :
    result BindingRefusal ModuleOperationBinding :=
  match sealed ≫= sm_BindingID with
  | None => Err NamesNoBinding
  | Some id =>
      guard! (negb (bool_decide (id = ""))) else NamesNoBinding;
      match store with
      | None => Err NoBindingStore
      | Some lookup =>
          match lookup (mc_PrincipalID (ca_Caller authority)) id with
          | Err _ => Err BindingReadFailed
          | Ok None => Err BindingNotHeld
          | Ok (Some binding) =>
              guard! (claims (sealed ≫= sm_BindingRevision) (ob_Revision binding)) else BindingStale;
              Ok binding
          end
      end
  end.

(** ** Redeeming an audience *)
Inductive AudienceRefusal :=
| CapabilityRefused (cause : Refusal)
| TenantDenied
| AudienceMismatch
| InstalledAudienceRequired
| HeadlessOnlyBinding
| DelegationNotActive
| DelegationOfAnotherOrganization
| ArtifactPolicyRequired
| InvalidInstalledArtifactPolicy.
#[export] Instance AudienceRefusal_eq_dec : EqDecision AudienceRefusal.
Proof. solve_decision. Defined.

Definition authorizeTenant (caller : ModuleCaller) (requested : string) : bool :=
  bool_decide (requested = mc_BoundOrg caller).

Definition lift_refusal {A} (r : result Refusal A) : result AudienceRefusal A :=
  match r with Ok a => Ok a | Err e => Err (CapabilityRefused e) end.

(** The checks both exchanges of an operation binding share. *)
Definition redeem_binding (grant : ModulePrincipalGrant) (parentAudience bindingID : string) :
    result AudienceRefusal ModuleOperationAudience :=
  guard! (negb (bool_decide (g_Prefix grant = "")) && bool_decide (parentAudience = g_Prefix grant))
    else AudienceMismatch;
  match entries (g_OperationAudiences grant) !! bindingID with
  | None => Err InstalledAudienceRequired
  | Some binding =>
      guard! (is_ok (validateOperationAudiences (g_Prefix grant) [(bindingID, binding)]))
        else InstalledAudienceRequired;
      guard! (negb (headlessOnly binding)) else HeadlessOnlyBinding;
      Ok binding
  end.
Definition RedeemModuleOperationAudience (rd : Reads) (caller : ModuleCaller)
    (tenant parentAudience bindingID : string) (r : Replica) :
    result AudienceRefusal ModuleOperationAudience * Replica :=
  let '(decided, r) := moduleCapability rd caller r in
  (grant ← lift_refusal decided;
   guard! (authorizeTenant caller tenant) else TenantDenied;
   redeem_binding grant parentAudience bindingID, r).

Record SourceDelegation := { sd_OrgID : string; sd_RevokedAt : option Z }.
Definition delegation_active (d : option SourceDelegation) : bool :=
  match d with None => false | Some d => bool_decide (sd_RevokedAt d = None) end.
Definition ModuleOperationAudienceForDelegation (rd : Reads) (caller : ModuleCaller)
    (delegation : option SourceDelegation) (parentAudience bindingID : string) (r : Replica) :
    result AudienceRefusal ModuleOperationAudience * Replica :=
  match delegation with
  | None => (Err DelegationNotActive, r)
  | Some d =>
      if negb (delegation_active delegation) then (Err DelegationNotActive, r)
      else if negb (bool_decide (sd_OrgID d = mc_BoundOrg caller))
      then (Err DelegationOfAnotherOrganization, r)
      else
        let '(decided, r) := moduleCapability rd caller r in
        (grant ← lift_refusal decided; redeem_binding grant parentAudience bindingID, r)
  end.

Definition RedeemModuleReadAudience (rd : Reads) (caller : ModuleCaller)
    (tenant parentAudience bindingID : string) (r : Replica) :
    result AudienceRefusal ModuleReadAudience * Replica :=
  let '(decided, r) := moduleCapability rd caller r in
  (grant ← lift_refusal decided;
   guard! (authorizeTenant caller tenant) else TenantDenied;
   guard! (negb (bool_decide (g_Prefix grant = "")) && bool_decide (parentAudience = g_Prefix grant))
     else AudienceMismatch;
   match entries (g_ReadAudiences grant) !! bindingID with
   | None => Err InstalledAudienceRequired
   | Some binding =>
       guard! (validateReadAudiences (g_Prefix grant) [(bindingID, binding)]) else InstalledAudienceRequired;
       Ok binding
   end, r).

Definition ExecutableArtifactPolicyFor (rd : Reads) (caller : ModuleCaller)
    (tenant audience id : string) (r : Replica) :
    result AudienceRefusal ExecutableArtifactPolicy * Replica :=
  let '(decided, r) := moduleCapability rd caller r in
  (grant ← lift_refusal decided;
   guard! (authorizeTenant caller tenant) else TenantDenied;
   match entries (g_ArtifactPolicies grant) !! id with
   | None => Err ArtifactPolicyRequired
   | Some policy =>
       guard! (negb (bool_decide (g_Prefix grant = "")) && bool_decide (audience = g_Prefix grant))
         else ArtifactPolicyRequired;
       guard! (validateArtifactPolicies {[id := policy]}) else InvalidInstalledArtifactPolicy;
       Ok policy
   end, r).

(** ** Confirming a hop *)
(** The last check of [ConfirmModuleHopBinding]: the three lists of the binding in one,
    and the hop's scopes within it. *)
Definition hop_scopes_stand (binding : ModuleOperationAudience) (scopes : list ModuleOperationScope) : bool :=
  bool_decide (scopes = [])
  || operationScopesSubset scopes
       (slice (oa_InvokeScopes binding) ++ slice (oa_LookupScopes binding)
        ++ slice (oa_HeadlessScopes binding)).

Record HopThrough := { ht_BindingID : string; ht_Operation : string; ht_GrantedScopes : list ModuleOperationScope }.
Definition operation_set (binding : ModuleOperationAudience) (operation : string) :
    option (list ModuleOperationScope) :=
  if decide (operation = "invoke") then Some (slice (oa_InvokeScopes binding))
  else if decide (operation = "lookup") then Some (slice (oa_LookupScopes binding))
  else if decide (operation = "headless") then Some (slice (oa_HeadlessScopes binding))
  else None.
(** The loop of [hopWithinItsSet] over the hop's scopes. *)
Definition hop_within_set (set granted scopes : list ModuleOperationScope) : bool :=
  negb (bool_decide (granted = []))
  && forallb (fun scope =>
       negb (contains_string (map ResourceKind granted) (ResourceKind scope))
       || bool_decide (Actions scope = []) || operationScopesSubset [scope] set) scopes.

(** ** The life of an installation row

    The BEFORE UPDATE trigger [installation_authority_revision] as migration 54 leaves it:
    which updates stand, and the revision they leave.  A new approval receipt, a change of
    the teams the installation root is exposed to, a changed scope and a revocation each
    begin a new revision; any other update keeps it.  The scope column holds the document
    of a scope, one document for one scope. *)
Definition begins_revision (old new : Installation) : bool :=
  negb (bool_decide (in_consent_receipt new = in_consent_receipt old))
  || negb (in_exposure_revision new =? in_exposure_revision old)
  || negb (bool_decide (in_scope new = in_scope old))
  || (bool_decide (in_status new = "revoked") && negb (bool_decide (in_status old = "revoked"))).
Inductive UpdateError := IdentityImmutable | RevokedIsFinal | RevisionIsOwned.
Definition installation_authority_revision (old new : Installation) :
    result UpdateError Installation :=
  guard! (bool_decide (in_org_id new = in_org_id old) && bool_decide (in_kind new = in_kind old)
          && bool_decide (in_registry_binding_id new = in_registry_binding_id old)
          && bool_decide (in_registry_principal_id new = in_registry_principal_id old))
    else IdentityImmutable;
  guard! (negb (bool_decide (in_status old = "revoked") && negb (bool_decide (in_status new = "revoked"))))
    else RevokedIsFinal;
  if begins_revision old new
  then Ok {| in_id := in_id new; in_org_id := in_org_id new; in_kind := in_kind new;
             in_target_id := in_target_id new; in_registry_binding_id := in_registry_binding_id new;
             in_registry_principal_id := in_registry_principal_id new; in_scope := in_scope new;
             in_consent_receipt := in_consent_receipt new; in_exposure_revision := in_exposure_revision new;
             in_status := in_status new; in_revision := in_revision old + 1 |}
  else guard! (in_revision new =? in_revision old) else RevisionIsOwned; Ok new.
