(* ===== verification/ModuleAuthorityProofs.v ===== *)
(** The decision a capability passes: what an answer means, and what later databases
    can no longer answer. *)
From S2P Require Import Prelude JobQueue ModuleScopes ModuleScopesProofs.
From S2P Require Import ModuleGrants ModuleGrantsProofs ModuleAuthority.
Local Open Scope Z_scope.

#[local] Arguments slice {_} _ : simpl never.
#[local] Arguments entries {_} _ : simpl never.
#[local] Arguments claims {_ _} _ _ : simpl never.

(** ** The fences leave the registry in place *)
Lemma fence_snapshot rd snapshot r e r' :
  fenceModuleRegistrySnapshot rd snapshot r = (e, r') ->
  rp_modulePrincipals r' = rp_modulePrincipals r /\ rp_authority_wired r' = rp_authority_wired r /\
  rp_envelopes_wired r' = rp_envelopes_wired r.
Proof.
  unfold fenceModuleRegistrySnapshot, fenceManifestGenerations, fence_envelope. intros H.
  repeat (case_match; simplify_eq; try done).
Qed.

Lemma fence_ok_snapshot rd snapshot r r' :
  fenceModuleRegistrySnapshot rd snapshot r = (Ok tt, r') ->
  (ir_manifestDerived snapshot = true -> exists db, rd_bindings rd = Some db /\
     generations_current db (ir_registry snapshot)) /\
  (rp_envelopes_wired r = true -> exists db, rd_envelope rd = Some db /\
     max_revision (module_envelopes db) = ir_envelopeRevision snapshot).
Proof.
  assert (forall q q', fence_envelope rd snapshot q = (Ok tt, q') -> rp_envelopes_wired q = true ->
    exists db, rd_envelope rd = Some db /\ max_revision (module_envelopes db) = ir_envelopeRevision snapshot)
    as Henv.
  { intros q q' H Hw. unfold fence_envelope in H. rewrite Hw in H.
    destruct (rd_envelope rd) as [db|]; [|done]. cbv zeta in H.
    destruct (_ =? _) eqn:E; [|done]. apply Z.eqb_eq in E. eauto. }
  unfold fenceModuleRegistrySnapshot, fenceManifestGenerations. intros H.
  destruct (ir_manifestDerived snapshot); [|split; [done|by eapply Henv]].
  destruct (rd_bindings rd) as [db|]; [|done]. case_decide; [|done].
  split; [by eauto|by eapply Henv].
Qed.

(** The fence reads the same twice: what passed passes again. *)
Lemma fence_again rd snapshot r r' :
  fenceModuleRegistrySnapshot rd snapshot r = (Ok tt, r') ->
  exists r'', fenceModuleRegistrySnapshot rd snapshot r' = (Ok tt, r'').
Proof.
  intros H. pose proof (fence_snapshot _ _ _ _ _ H) as (_ & _ & Hw).
  unfold fenceModuleRegistrySnapshot, fenceManifestGenerations, fence_envelope in *. rewrite Hw.
  repeat (case_match; simplify_eq; try done); eauto.
Qed.

Lemma current_grant_ok rd snapshot principal r g r' :
  currentModuleGrantFromSnapshot rd snapshot principal r = (Ok (Some g), r') ->
  ir_registry snapshot !! principal = Some g /\ fenceModuleRegistrySnapshot rd snapshot r = (Ok tt, r').
Proof.
  unfold currentModuleGrantFromSnapshot. destruct (ir_registry snapshot !! principal) as [g'|].
  - destruct (fenceModuleRegistrySnapshot rd snapshot r) as [[[]|] q]; intros [= <- <-]. done.
  - by destruct (_ && _).
Qed.

(** ** A decision in favour *)
Lemma authorize_ok rd snapshot caller r a r' :
  authorizeModuleCapabilityFromSnapshot rd snapshot caller r = (Ok a, r') ->
  exists g, mc_PrincipalID caller <> "" /\ ir_registry snapshot !! mc_PrincipalID caller = Some g /\
    fenceModuleRegistrySnapshot rd snapshot r = (Ok tt, r') /\
    moduleAvailableToOrganization g (mc_BoundOrg caller) = true /\ rp_authority_wired r = true /\
    decide_live rd snapshot caller g = Ok a.
Proof.
  unfold authorizeModuleCapabilityFromSnapshot. case_decide; [done|].
  destruct (currentModuleGrantFromSnapshot _ _ _ _) as [[[g|]|] q] eqn:E; [|done|done].
  destruct (moduleAvailableToOrganization _ _) eqn:Hm; [|done].
  destruct (rp_authority_wired q) eqn:Hw; [|done]. intros [= Hd <-]. exists g.
  apply current_grant_ok in E as [Hg Hf]. pose proof (fence_snapshot _ _ _ _ _ Hf) as (_ & Hw' & _).
  repeat split; try done. congruence.
Qed.

Definition sealed_installation (caller : ModuleCaller) : string :=
  match mc_Sealed caller with Some s => default "" (sm_InstallationID s) | None => "" end.

(** The row the decision read. *)
Lemma decide_live_ok rd snapshot caller g a :
  decide_live rd snapshot caller g = Ok a ->
  exists n i, list_find (live_row (rd_live rd) (mc_PrincipalID caller) (mc_BoundOrg caller)
                   (sealed_installation caller)) (installations (rd_live rd)) = Some (n, i) /\
    mc_BoundOrg caller <> "" /\ rd_live_fails rd = false /\
    in_id i <> "" /\ is_Capabilities (in_scope i) = true /\
    default "" (in_registry_binding_id i) = g_PresenceBinding g /\
    max_revision (module_envelopes (rd_live rd)) = ir_envelopeRevision snapshot /\
    consentedGrant snapshot g (in_scope i) = Ok (ca_Grant a) /\
    ca_Caller a = caller /\ ca_InstallationID a = in_id i /\ ca_InstallationRevision a = in_revision i /\
    ca_ProducerEpoch a =
      default 0 (authorization_revisions (rd_live rd) !! (mc_BoundOrg caller, mc_PrincipalID caller)) /\
    checkAgainstSealed a (mc_Sealed caller) = Ok tt.
Proof.
  unfold decide_live, read_live. fold (sealed_installation caller). intros H.
  case_decide as Ho; [done|]. destruct (rd_live_fails rd); [done|].
  destruct (list_find _ _) as [[n i]|] eqn:Hf; [|done]. cbn in H.
  destruct (_ && _) eqn:E1 in H; [|done]. destruct (bool_decide _) eqn:E2 in H; [|done].
  destruct (_ =? _) eqn:E3 in H; [|done].
  destruct (consentedGrant _ _ _) as [gr|] eqn:E4; [|done]. cbn in H.
  destruct (checkAgainstSealed _ _) as [[]|] eqn:E5; [|done]. cbn in H. injection H as <-.
  apply andb_true_iff in E1 as [E1%negb_true_iff%bool_decide_eq_false_1 Hc].
  apply bool_decide_eq_true_1 in E2. apply Z.eqb_eq in E3.
  exists n, i. by repeat split.
Qed.

Lemma check_sealed_ok a s :
  checkAgainstSealed a (Some s) = Ok tt ->
  (forall v, sm_InstallationID s = Some v -> v = ca_InstallationID a) /\
  (forall v, sm_InstallationRevision s = Some v -> v = ca_InstallationRevision a) /\
  (forall v, sm_ProducerEpoch s = Some v -> v = ca_ProducerEpoch a).
Proof.
  cbn. intros H. destruct (claims _ _) eqn:E1 in H; [|done]. destruct (claims _ _) eqn:E2 in H; [|done].
  destruct (claims _ _) eqn:E3 in H; [|done]. unfold claims in *.
  split_and!; intros v Hv; rewrite Hv in *; by eapply bool_decide_eq_true_1.
Qed.

(** ** How the database moves

    Installations are inserted under fresh ids and updated through the trigger; rows of
    the other tables change freely. *)
Inductive db_step (db db' : DB) : Prop :=
| step_install i :
    (forall j, j ∈ installations db -> in_id j <> in_id i) ->
    installations db' = installations db ++ [i] -> db_step db db'
| step_update n old new row :
    installations db !! n = Some old -> in_id new = in_id old ->
    installation_authority_revision old new = Ok row ->
    installations db' = <[n := row]> (installations db) -> db_step db db'
| step_other :
    installations db' = installations db -> db_step db db'.

(** A stamp that the database has moved past: its installation exists, and every row of
    that id has a later revision. *)
Definition superseded (db : DB) (stamp : DeferredWorkAuthority) : Prop :=
  (exists i, i ∈ installations db /\ in_id i = dw_InstallationID stamp) /\
  forall i, i ∈ installations db -> in_id i = dw_InstallationID stamp ->
    dw_InstallationRevision stamp < in_revision i.

(** What a revocation or a renewed consent changes of a row: the scope, the approval
    receipt, the exposed teams, or the status. *)
Definition withdraws (old new : Installation) : Prop :=
  in_scope new <> in_scope old \/ in_consent_receipt new <> in_consent_receipt old \/
  in_exposure_revision new <> in_exposure_revision old \/
  (in_status new = "revoked" /\ in_status old <> "revoked").
Lemma withdraws_begins old new : withdraws old new -> begins_revision old new = true.
Proof.
  unfold begins_revision. intros [H|[H|[H|[Hn Ho]]]].
  - by rewrite (bool_decide_eq_false_2 _ H), orb_true_r.
  - by rewrite (bool_decide_eq_false_2 _ H).
  - by rewrite (proj2 (Z.eqb_neq _ _) H), orb_true_r.
  - by rewrite (bool_decide_eq_true_2 _ Hn), (bool_decide_eq_false_2 _ Ho), orb_true_r.
Qed.

Lemma revision_grows old new row :
  installation_authority_revision old new = Ok row ->
  in_id row = in_id new /\ in_revision old <= in_revision row /\
  (withdraws old new -> in_revision row = in_revision old + 1).
Proof.
  unfold installation_authority_revision. intros H.
  destruct (_ && _) in H; [|done]. destruct (negb _) in H; [|done].
  destruct (begins_revision _ _) eqn:E in H.
  - injection H as <-. cbn. split; [done|]. split; [lia|done].
  - destruct (_ =? _) eqn:Er in H; [|done]. injection H as <-. apply Z.eqb_eq in Er.
    split; [done|]. split; [lia|]. intros Hw%withdraws_begins. congruence.
Qed.

Lemma superseded_step db db' stamp : db_step db db' -> superseded db stamp -> superseded db' stamp.
Proof.
  intros Hst [(i0 & Hi0 & Hid0) Hall]. destruct Hst as [i Hfresh He|n old new row Hn Hid Hrow He|He];
    unfold superseded; rewrite He; [| |eauto].
  - split; [exists i0; split; [apply elem_of_app; by left|done]|].
    intros j Hj Hj'. apply elem_of_app in Hj as [Hj|Hj]; [by apply Hall|].
    apply list_elem_of_singleton in Hj as ->. exfalso. apply (Hfresh i0 Hi0). congruence.
  - apply revision_grows in Hrow as (Hid' & Hrev & _).
    assert (old ∈ installations db) as Hold by (by eapply list_elem_of_lookup_2). split.
    + apply list_elem_of_lookup in Hi0 as [m Hm]. destruct (decide (m = n)) as [->|Hne].
      * exists row. split; [|congruence]. eapply list_elem_of_lookup_2.
        apply list_lookup_insert_eq. by eapply lookup_lt_Some.
      * exists i0. split; [|done]. eapply list_elem_of_lookup_2.
        by rewrite list_lookup_insert_ne.
    + intros j Hj Hj'. apply list_elem_of_lookup in Hj as [m Hm].
      apply list_lookup_insert_Some in Hm as [(-> & <- & _)|[_ Hm]].
      * assert (dw_InstallationRevision stamp < in_revision old); [|lia]. apply Hall; [done|congruence].
      * apply Hall; [by eapply list_elem_of_lookup_2|done].
Qed.
Lemma superseded_run db db' stamp : rtc db_step db db' -> superseded db stamp -> superseded db' stamp.
Proof. induction 1; eauto using superseded_step. Qed.

(** No read of a database that has moved past a stamp accepts it. *)
Lemma superseded_refused rd stamp r a r' :
  superseded (rd_live rd) stamp -> AuthorizeDeferredWork rd stamp r = (Ok a, r') -> False.
Proof.
  unfold AuthorizeDeferredWork, AuthorizeModuleCapability. intros [_ Hall] H.
  destruct (authorizeModuleCapabilityFromSnapshot _ _ _ _) as [[b|e] q] eqn:E; [|done].
  injection H as <- <-. apply authorize_ok in E as (g & _ & _ & _ & _ & _ & Hd).
  apply decide_live_ok in Hd as (n & i & Hf & _ & _ & _ & _ & _ & _ & _ & _ & Hid & Hrev & _ & Hs).
  apply check_sealed_ok in Hs as (H1 & H2 & _). cbn in H1, H2.
  specialize (H1 _ eq_refl). specialize (H2 _ eq_refl).
  apply list_find_Some in Hf as (Hl & _). apply list_elem_of_lookup_2 in Hl.
  specialize (Hall i Hl). rewrite Hid in H1. specialize (Hall (eq_sym H1)). lia.
Qed.

Lemma check_sealed_claims a s :
  checkAgainstSealed a (Some s) = Ok tt ->
  claims (sm_InstallationID s) (ca_InstallationID a) = true /\
  claims (sm_InstallationRevision s) (ca_InstallationRevision a) = true /\
  claims (sm_ProducerEpoch s) (ca_ProducerEpoch a) = true.
Proof.
  cbn. destruct (claims _ _); [|done]. destruct (claims _ _); [|done]. by destruct (claims _ _).
Qed.
Lemma claims_live {A} `{EqDecision A} (v : A) : claims (Some v) v = true.
Proof. by apply bool_decide_eq_true_2. Qed.

(** The row found without naming it is found when its id is named. *)
Lemma find_named db p o sealed n i :
  list_find (live_row db p o sealed) (installations db) = Some (n, i) ->
  list_find (live_row db p o (in_id i)) (installations db) = Some (n, i).
Proof.
  rewrite !list_find_Some. intros (Hl & (Ho & Hp & Hs & Hst & Hopen) & Hmin). split; [done|].
  split; [by repeat split; try done; right|]. intros j y Hj Hlt (Ho' & Hp' & Hid & Hst' & Hopen').
  apply (Hmin j y Hj Hlt). repeat split; try done.
  destruct Hs as [|Hs]; [by left|]. destruct Hid as [Hid|Hid]; [|right; congruence].
  left. by rewrite <- Hs.
Qed.

(** A decision in favour, taken again from its own stamp. *)
Lemma decide_live_again rd snapshot caller g a :
  decide_live rd snapshot caller g = Ok a ->
  exists a', decide_live rd snapshot (stamp_caller (StampDeferredWork a)) g = Ok a' /\
    ca_Grant a' = ca_Grant a /\ StampDeferredWork a' = StampDeferredWork a.
Proof.
  intros H. apply decide_live_ok in H
    as (n & i & Hf & Ho & Hfails & Hne & Hcap & Hb & Henv & Hcons & Hcal & Hid & Hrev & Hep & _).
  unfold decide_live, read_live. cbn. rewrite Hcal, Hid, Hrev, decide_False, Hfails by done.
  rewrite (find_named _ _ _ _ _ _ Hf). cbn.
  rewrite (bool_decide_eq_false_2 _ Hne), Hcap. cbn.
  rewrite (bool_decide_eq_true_2 _ Hb), Henv, Z.eqb_refl, Hcons. cbn.
  rewrite Hep, !claims_live. cbn. eexists. split; [done|]. split; [done|].
  unfold StampDeferredWork. cbn. by rewrite Hcal, Hid, Hrev, Hep.
Qed.

(** A stamp the database has not fallen behind: ids are unique, its installation exists,
    and every row of its id has its revision or a later one. *)
Definition not_behind (db : DB) (stamp : DeferredWorkAuthority) : Prop :=
  NoDup (map in_id (installations db)) /\
  (exists i, i ∈ installations db /\ in_id i = dw_InstallationID stamp) /\
  forall i, i ∈ installations db -> in_id i = dw_InstallationID stamp ->
    dw_InstallationRevision stamp <= in_revision i.
Lemma stamp_not_behind rd caller r a r' :
  AuthorizeModuleCapability rd caller r = (Ok a, r') ->
  NoDup (map in_id (installations (rd_live rd))) -> not_behind (rd_live rd) (StampDeferredWork a).
Proof.
  intros Ha Hn. apply authorize_ok in Ha as (g & _ & _ & _ & _ & _ & Hd).
  apply decide_live_ok in Hd as (m & i & Hf & _ & _ & _ & _ & _ & _ & _ & _ & Hai & Har & _).
  apply list_find_Some in Hf as (Hi%list_elem_of_lookup_2 & _). split_and!; [done|by exists i|].
  intros j Hj Hid. cbn in *. assert (j = i) as ->; [|lia].
  eapply (NoDup_map_inj_in in_id); [done|done|done|congruence].
Qed.
(** A row replaced by one of its own id. *)
Lemma replaced_ids (l : list Installation) n old row :
  l !! n = Some old -> in_id row = in_id old -> map in_id (<[n := row]> l) = map in_id l.
Proof.
  intros Hn Hid. change (map in_id) with (fmap (M := list) in_id). rewrite list_fmap_insert, Hid.
  apply list_insert_id. by rewrite list_lookup_fmap, Hn.
Qed.
Lemma not_behind_step db db' stamp : db_step db db' -> not_behind db stamp -> not_behind db' stamp.
Proof.
  unfold not_behind. intros Hst (Hn & (i0 & Hi0 & Hid0) & Hall).
  destruct Hst as [i Hfresh He|n old new row Hold Hid Hrow He|He]; rewrite He; [| |eauto].
  - split_and!.
    + rewrite map_app. apply NoDup_app. split_and!; [done| |apply NoDup_singleton].
      intros x (j & -> & Hj)%list_elem_of_fmap Hx%list_elem_of_singleton. by apply (Hfresh j Hj).
    + exists i0. split; [apply elem_of_app; by left|done].
    + intros j [Hj|Hj%list_elem_of_singleton]%elem_of_app Hj'; [by apply Hall|]. subst j.
      exfalso. apply (Hfresh i0 Hi0). congruence.
  - apply revision_grows in Hrow as (Hid' & Hrev & _).
    assert (old ∈ installations db) as Ho by (by eapply list_elem_of_lookup_2).
    assert (map in_id (<[n := row]> (installations db)) = map in_id (installations db)) as Hids
      by (apply (replaced_ids _ _ old); [done|congruence]).
    split_and!; [by rewrite Hids| |].
    + assert (in_id i0 ∈ map in_id (<[n := row]> (installations db))) as Hin
        by (rewrite Hids; by apply list_elem_of_fmap_2).
      apply list_elem_of_fmap in Hin as (j & Hj & Hin). exists j. split; [done|congruence].
    + intros j Hj Hj'. apply list_elem_of_lookup in Hj as [m Hm].
      apply list_lookup_insert_Some in Hm as [(-> & <- & _)|[_ Hm]].
      * assert (dw_InstallationRevision stamp <= in_revision old); [|lia]. apply Hall; [done|congruence].
      * apply Hall; [by eapply list_elem_of_lookup_2|done].
Qed.
Lemma not_behind_run db db' stamp : rtc db_step db db' -> not_behind db stamp -> not_behind db' stamp.
Proof. induction 1; eauto using not_behind_step. Qed.

(** A withdrawal moves the row past the stamps taken before it. *)
Lemma superseded_by_update db0 stamp n old new row db :
  not_behind db0 stamp ->
  installations db0 !! n = Some old -> in_id old = dw_InstallationID stamp ->
  in_id new = in_id old -> withdraws old new ->
  installation_authority_revision old new = Ok row ->
  installations db = <[n := row]> (installations db0) ->
  superseded db stamp.
Proof.
  intros (Hn & _ & Hall) Hold Hid Hnew Hch Hrow Hdb.
  specialize (Hall old (list_elem_of_lookup_2 _ _ _ Hold) Hid).
  apply revision_grows in Hrow as (Hrid & _ & Hrev). specialize (Hrev Hch).
  unfold superseded. rewrite Hdb. split.
  - exists row. split; [|congruence]. eapply list_elem_of_lookup_2, list_lookup_insert_eq.
    by eapply lookup_lt_Some.
  - intros j Hj Hj'. apply list_elem_of_lookup in Hj as [k Hk].
    apply list_lookup_insert_Some in Hk as [(-> & <- & _)|[Hne Hk]]; [lia|].
    exfalso. apply Hne. eapply (NoDup_lookup (map in_id (installations db0)) n k (in_id old));
      [done| |]; rewrite list_lookup_fmap; [by rewrite Hold|rewrite Hk; cbn; f_equal; congruence].
Qed.

(** ** The concatenated lists of a hop *)
Lemma by_kind_app l1 l2 k t :
  NoDup (map ResourceKind l2) -> t ∈ l2 -> ResourceKind t = k -> by_kind (l1 ++ l2) !! k = Some t.
Proof.
  intros Hn Ht Hk. unfold by_kind. rewrite fold_left_app, by_kind_fold by done.
  destruct (list_find_elem_of (fun s => ResourceKind s = k) l2 t Ht Hk) as [[i u] Hf].
  rewrite Hf. f_equal. apply list_find_Some in Hf as (Hl & Hu & _).
  eapply (NoDup_map_inj_in ResourceKind l2); [done|by eapply list_elem_of_lookup_2|done|congruence].
Qed.
Lemma by_kind_skips l1 l2 k :
  (forall u, u ∈ l2 -> ResourceKind u <> k) -> by_kind (l1 ++ l2) !! k = by_kind l1 !! k.
Proof.
  unfold by_kind. rewrite fold_left_app. generalize (fold_left (fun m s => <[ResourceKind s := s]> m) l1
    (∅ : gmap string ModuleOperationScope)). induction l2 as [|u l2 IH]; intros m Hl; [done|]. cbn.
  rewrite IH; [|intros v Hv; apply Hl; by right]. apply lookup_insert_ne. apply Hl. by left.
Qed.
Lemma shadowed_scope invoke look headless s t action :
  validOperationScopes look true = true -> t ∈ look -> ResourceKind t = ResourceKind s ->
  (forall u, u ∈ headless -> ResourceKind u <> ResourceKind s) ->
  action ∈ Actions s -> action <> "read" ->
  operationScopesSubset [s] (invoke ++ look ++ headless) = false.
Proof.
  intros Hv Ht Hk Hh Ha Hr. pose proof (valid_canonical _ _ Hv) as [Hn Hc].
  unfold operationScopesSubset. cbn [forallb].
  rewrite app_assoc, (by_kind_skips _ headless _ Hh), (by_kind_app invoke look _ t Hn Ht Hk).
  rewrite andb_true_r. apply andb_false_iff. left.
  destruct (operationValuesSubset (Actions s) (Actions t)) eqn:E; [|done]. exfalso.
  apply operationValuesSubset_spec in E; [|by apply Hc].
  unfold validOperationScopes in Hv. apply andb_true_iff in Hv as [_ Hv].
  destruct (valid_scopes_elem _ _ _ _ Hv Ht) as [q Hq].
  apply valid_scope_parts in Hq as (_ & _ & _ & _ & Hread). by apply Hr, (Hread action (E action Ha)).
Qed.
Lemma one_scope_outside s scopes sup :
  s ∈ scopes -> operationScopesSubset [s] sup = false -> operationScopesSubset scopes sup = false.
Proof.
  unfold operationScopesSubset. intros Hs Ho. destruct (forallb _ scopes) eqn:E; [|done].
  rewrite forallb_forall in E. apply list_elem_of_In in Hs. specialize (E s Hs).
  cbn [forallb] in Ho. by rewrite E in Ho.
Qed.
