(* ===== verification/ModuleAuthorityTheorems.v ===== *)
(** Module authority end to end: what a scope list allows, what a module holds of its
    grant and an organization's consent, what a positive decision rests on, and what
    becomes of authority that was withdrawn. *)
From S2P Require Import Prelude GoText JobQueue ModuleScopes ModuleScopesProofs.
From S2P Require Import ModuleGrants ModuleGrantsProofs ModuleAuthority ModuleAuthorityProofs.
Local Open Scope Z_scope.

(** ** Scope lists *)

(** C12. The subset check is inclusion of what the lists allow: for lists that pass
    [validOperationScopes], [operationScopesSubset] answers yes exactly when every
    action on every resource the first list allows is allowed by the second, an empty
    list of resources standing for all of them. *)
Theorem scope_subset_is_inclusion (sub sup : list ModuleOperationScope) (l1 l2 : bool) :
  validOperationScopes sub l1 = true -> validOperationScopes sup l2 = true ->
  operationScopesSubset sub sup = true <->
  forall kind action id, permits sub kind action id -> permits sup kind action id.
Proof. intros H1 H2. apply subset_permits; by eapply valid_canonical. Qed.

(** An intersection of valid scope lists allows exactly what both allow, and is
    itself empty or valid, so it can be sealed into a capability and checked again. *)
Theorem scope_intersection_is_meet (l r : list ModuleOperationScope) (lookup lookup' : bool) :
  validOperationScopes l lookup = true -> validOperationScopes r lookup' = true ->
  (forall kind action id, permits (intersectOperationScopes l r) kind action id <->
     permits l kind action id /\ permits r kind action id) /\
  (intersectOperationScopes l r = [] \/
   validOperationScopes (intersectOperationScopes l r) lookup = true).
Proof.
  intros Hl Hr. split.
  - intros k a i. apply intersect_permits; by eapply valid_canonical.
  - destruct (decide (intersectOperationScopes l r = [])) as [|Hne]; [by left|right].
    by eapply intersect_valid.
Qed.

Definition scope (kind : string) (actions ids : list string) : ModuleOperationScope :=
  {| ResourceKind := kind; Actions := actions; ResourceIDs := ids |}.

Lemma scope_subset_is_inclusion_witness :
  permits [scope "docs" ["read"; "write"] []] "docs" "read" "d2".
Proof.
  refine (proj1 (scope_subset_is_inclusion [scope "docs" ["read"] ["d1"; "d2"]]
    [scope "docs" ["read"; "write"] []] true false _ _) _ "docs" "read" "d2" _).
  1-3: vm_compute; reflexivity.
  exists (scope "docs" ["read"] ["d1"; "d2"]). split; [by left|].
  split; [done|]. split; [by left|]. right. by right; left.
Defined.

Lemma scope_intersection_is_meet_witness :
  intersectOperationScopes [scope "docs" ["read"; "write"] []; scope "logs" ["read"] []]
    [scope "docs" ["read"] ["d1"]] = [scope "docs" ["read"] ["d1"]] /\
  ~ permits [scope "docs" ["read"] ["d1"]] "logs" "read" "l1".
Proof.
  split; [vm_compute; reflexivity|]. intros Hp.
  destruct (scope_intersection_is_meet [scope "docs" ["read"; "write"] []; scope "logs" ["read"] []]
    [scope "docs" ["read"] ["d1"]] false false) as [Hm _]; [vm_compute; reflexivity..|].
  assert (intersectOperationScopes [scope "docs" ["read"; "write"] []; scope "logs" ["read"] []]
    [scope "docs" ["read"] ["d1"]] = [scope "docs" ["read"] ["d1"]]) as E by (vm_compute; reflexivity).
  specialize (Hm "logs" "read" "l1"). rewrite E in Hm. apply Hm in Hp as [_ (s & Hs & Hk & _)].
  apply list_elem_of_singleton in Hs as ->. discriminate Hk.
Defined.

(** ** What a module holds *)
Section Holding.
Context (g : ModulePrincipalGrant) (c : InstallationScope) (prefix : string).
Context (Hops : validateOperationAudiences prefix (map_to_list (entries (g_OperationAudiences g))) = Ok tt)
        (Hreads : validateReadAudiences prefix (map_to_list (entries (g_ReadAudiences g))) = true)
        (Hcreads : validateReadAudiences prefix (map_to_list (entries (is_ReadAudiences c))) = true)
        (Hfollows : is_Follows c = false).

(** C8. Authority is the meet of grant and consent, for a grant that passed validation and a
    consent whose lists are canonical: for queues, namespaces, resources, reads at
    other services, artifact policies and each of the four lists of operations a binding has
    (invoke, lookup, headless, source delegation), what a module holds in an organization whose
    consent does not follow the grant is exactly what both grant and consent allow, whichever
    of the two shrank since the installation; of an operation, provided its binding is left at
    all, which it is when both allow some invocation through it or it is headless only and both
    allow some headless operation. *)
Theorem authority_is_the_meet (p : Permission) :
  map_Forall (fun _ b => canonical_audience b = true) (entries (is_OperationAudiences c)) ->
  grant_allows (intersectInstallationScope g c) p <->
  grant_allows g p /\ consent_allows c p /\ stands g c p.
Proof.
  intros Hcops. apply intersect_allows; [done|by eapply validated_ops_canonical| |
    by eapply validated_reads_canonical..].
  intros id b how Hb. specialize (Hcops id b Hb). by apply canonical_audience_scopes.
Qed.

(** An accepted consent is held exactly: when the installation's scope passed
    [validateInstallationScope] against the grant, the module holds what was consented
    to, no less and no more, of the bindings that are left. *)
Theorem accepted_consent_is_held (p : Permission) :
  validateInstallationScope c g = Ok tt ->
  grant_allows (intersectInstallationScope g c) p <-> consent_allows c p /\ stands g c p.
Proof.
  intros Hv. apply validated_scope_canonical in Hv as [Hw Hc].
  rewrite intersect_allows; [|done|by eapply validated_ops_canonical|done|by eapply validated_reads_canonical..].
  split; [by intros [_ ?]|]. intros [H Hst]. split; [|done].
  eapply within_allows; [by eapply validated_ops_canonical|done|by eapply validated_reads_canonical..|done|done].
Qed.
End Holding.

(** C11. A derived grant is bounded twice: whatever the reconciler installs for a module -
    each entry of the invoke, lookup, headless and source-delegation lists of its bindings
    included - is in the administrator's envelope and, on every axis a manifest names, asked for
    by the signed manifest; and each operation binding it holds, headless-only ones included,
    passed validation, so it never names the host's own audience, looks up only what it may
    invoke and reads, and, where it has an invoke list, does nothing headless or for a source
    beyond it. *)
Theorem derived_grant_is_bounded uuid_Parse uuid_Validate encoded_length max prefix entry
    binding generation request workloads grant :
  deriveModulePrincipalGrant uuid_Parse uuid_Validate encoded_length max prefix entry binding
    generation request workloads = Ok grant ->
  (forall p : Permission, grant_allows grant p -> grant_allows entry p /\ asks request p) /\
  (forall id b, entries (g_OperationAudiences grant) !! id = Some b -> ValidBinding prefix b).
Proof.
  unfold deriveModulePrincipalGrant. cbv zeta.
  destruct (ValidateModulePrincipalGrant _ _ _ _ _ _) as [[]|] eqn:V; [|done]. intros [= <-].
  split; [|by eapply granted_bindings_valid]. intros p Hp. split.
  - apply derived_in_envelope in Hp. case_match; [|done].
    by apply nothing_allowed in Hp.
  - by eapply derived_is_asked.
Qed.

(** ** A positive decision *)

(** C9. What an authorized capability rests on: its principal is in the registry this
    replica serves, available to the organization; the organization has an active
    installation of that principal on an open target of the very binding the registry
    entry came from, at the revision, epoch and id the credential was sealed with, as
    far as it claims any; the registry is of the envelope revision committed when the
    installation was read; and the authority is the grant met with that row's consent,
    where a consent that follows the grant counts only under an envelope. *)
Theorem authorized_means_live rd caller r a r' :
  AuthorizeModuleCapability rd caller r = (Ok a, r') ->
  exists g i,
    ir_registry (moduleRegistrySnapshot r) !! mc_PrincipalID caller = Some g /\
    moduleAvailableToOrganization g (mc_BoundOrg caller) = true /\
    i ∈ installations (rd_live rd) /\
    live_row (rd_live rd) (mc_PrincipalID caller) (mc_BoundOrg caller) (ca_InstallationID a) i /\
    in_registry_binding_id i = Some (g_PresenceBinding g) /\ is_Capabilities (in_scope i) = true /\
    ca_InstallationRevision a = in_revision i /\
    max_revision (module_envelopes (rd_live rd)) = ir_envelopeRevision (moduleRegistrySnapshot r) /\
    ca_Grant a = intersectInstallationScope g (in_scope i) /\
    (is_Follows (in_scope i) = true -> ir_envelopeRevision (moduleRegistrySnapshot r) <> 0) /\
    (forall s, mc_Sealed caller = Some s ->
       claims (sm_InstallationID s) (in_id i) = true /\
       claims (sm_InstallationRevision s) (in_revision i) = true /\
       claims (sm_ProducerEpoch s) (default 0 (authorization_revisions (rd_live rd)
         !! (mc_BoundOrg caller, mc_PrincipalID caller))) = true).
Proof.
  intros H. apply authorize_ok in H as (g & _ & Hg & _ & Hm & _ & Hd).
  apply decide_live_ok in Hd as (n & i & Hf & _ & _ & Hne & Hcap & Hb & Henv & Hcons & _ & Hid & Hrev & Hep & Hs).
  exists g, i. apply list_find_Some in Hf as (Hl & Hrow & _). apply list_elem_of_lookup_2 in Hl.
  destruct Hrow as (Ho & Hp & _ & Hst & Hopen).
  assert (exists b, in_registry_binding_id i = Some b) as [b Hbind].
  { unfold open_target in Hopen. apply Exists_exists in Hopen as (t & _ & _ & Ht & _). eauto. }
  unfold consentedGrant in Hcons. destruct (negb _) eqn:Hf in Hcons; [|done]. injection Hcons as Hcons.
  split_and!; try done.
  - unfold live_row. rewrite Hid. split_and!; try done. by right.
  - rewrite Hbind in Hb |- *. cbn in Hb. by subst.
  - intros Hfol He. apply Z.eqb_eq in He. by rewrite Hfol, He in Hf.
  - intros s Hsl. rewrite Hsl in Hs. apply check_sealed_claims in Hs.
    by rewrite Hid, Hrev, Hep in Hs.
Qed.

(** ** Deferred work *)

(** A stamp taken under current authority is honoured while nothing moved: work
    deferred by an authorized producer, run against the same registry and rows, is
    authorized under the same grant and takes the same stamp again. *)
Theorem fresh_stamp_is_honoured rd caller r a r' :
  AuthorizeModuleCapability rd caller r = (Ok a, r') ->
  exists a', (AuthorizeDeferredWork rd (StampDeferredWork a) r').1 = Ok a' /\
    ca_Grant a' = ca_Grant a /\ StampDeferredWork a' = StampDeferredWork a.
Proof.
  intros H. apply authorize_ok in H as (g & Hp & Hg & Hf & Hm & Hw & Hd).
  destruct (decide_live_again _ _ _ _ _ Hd) as (a' & Hd' & Hgr & Hst). exists a'.
  destruct (fence_again _ _ _ _ Hf) as [r'' Hf'].
  pose proof (fence_snapshot _ _ _ _ _ Hf) as (Hsn & Hwi & _).
  pose proof (fence_snapshot _ _ _ _ _ Hf') as (_ & Hwi' & _).
  apply decide_live_ok in Hd as (n & i & _ & _ & _ & _ & _ & _ & _ & _ & Hcal & _).
  split; [|done]. unfold AuthorizeDeferredWork, AuthorizeModuleCapability.
  replace (moduleRegistrySnapshot r') with (moduleRegistrySnapshot r)
    by (unfold moduleRegistrySnapshot; by rewrite Hsn).
  assert (mc_PrincipalID (stamp_caller (StampDeferredWork a)) = mc_PrincipalID caller) as Hp'
    by (cbn; by rewrite Hcal).
  assert (mc_BoundOrg (stamp_caller (StampDeferredWork a)) = mc_BoundOrg caller) as Ho'
    by (cbn; by rewrite Hcal).
  unfold authorizeModuleCapabilityFromSnapshot, currentModuleGrantFromSnapshot.
  by rewrite Hp', Ho', decide_False, Hg, Hf', Hm, Hwi', Hwi, Hw, Hd' by done.
Qed.

(** C10. Withdrawn authority never comes back: once the scope of the installation a stamp was
    taken under changes, its approval receipt is replaced, the teams its root is exposed to
    change, or it is revoked - right after the stamp or any number of other installs and
    updates later - the deferred work is refused in every later database, whatever is
    installed under fresh ids, updated through the live trigger or re-delivered afterwards,
    on every replica and whatever else the decision reads. *)
Theorem withdrawn_stamp_never_returns rd0 caller r0 a r0' db0 n old new row db1 db2 rd r :
  AuthorizeModuleCapability rd0 caller r0 = (Ok a, r0') ->
  NoDup (map in_id (installations (rd_live rd0))) ->
  rtc db_step (rd_live rd0) db0 ->
  installations db0 !! n = Some old -> in_id old = ca_InstallationID a ->
  in_id new = in_id old ->
  in_scope new <> in_scope old \/ in_consent_receipt new <> in_consent_receipt old \/
    in_exposure_revision new <> in_exposure_revision old \/
    (in_status new = "revoked" /\ in_status old <> "revoked") ->
  installation_authority_revision old new = Ok row ->
  installations db1 = <[n := row]> (installations db0) ->
  rtc db_step db1 db2 -> rd_live rd = db2 ->
  is_ok (AuthorizeDeferredWork rd (StampDeferredWork a) r).1 = false.
Proof.
  intros Ha Hn Hbefore Hold Hid Hnew Hch Hrow Hdb1 Hrun Hrd.
  destruct (AuthorizeDeferredWork _ _ _) as [[b|e] q] eqn:E; [|done]. exfalso.
  eapply superseded_refused; [|exact E]. rewrite Hrd. eapply superseded_run; [exact Hrun|].
  eapply (superseded_by_update db0); [|done..]. eapply not_behind_run; [exact Hbefore|].
  by eapply stamp_not_behind.
Qed.

(** ** Confirming a hop *)


(** ** A concrete host

    One module, [notes], whose binding to [store] may read and write documents and look
    them up; the organization [org] consented to reading two of them, and follows nothing. *)
Definition store_binding : ModuleOperationAudience :=
  {| oa_DelegationMode := ""; oa_Audience := "store";
     oa_InvokeScopes := Some [scope "docs" ["read"; "write"] []];
     oa_LookupScopes := Some [scope "docs" ["read"] []];
     oa_HeadlessScopes := None; oa_SourceDelegationScopes := None |}.
Definition narrow_binding : ModuleOperationAudience :=
  {| oa_DelegationMode := ""; oa_Audience := "store";
     oa_InvokeScopes := Some [scope "docs" ["read"] ["d1"; "d2"]];
     oa_LookupScopes := None; oa_HeadlessScopes := None; oa_SourceDelegationScopes := None |}.
Definition notes_grant : ModulePrincipalGrant :=
  {| g_PresenceGeneration := 3; g_PresenceBinding := "bind-notes"; g_ArtifactPolicies := None;
     g_ReadAudiences := None; g_OperationAudiences := Some {["store" := store_binding]};
     g_Prefix := "notes"; g_Queues := ["notes-work"; "notes-mail"]; g_Namespaces := ["notes"];
     g_ExternalNamespaces := []; g_Resources := ["documents"]; g_CrossTenant := false; g_Tenant := "";
     g_Workloads := [{| mw_ServiceAccount := "notes"; mw_Namespace := "apps"; mw_Container := "main" |}] |}.
Definition org_consent : InstallationScope :=
  {| is_Capabilities := true; is_Follows := false; is_Queues := ["notes-work"]; is_Namespaces := ["notes"];
     is_ExternalNamespaces := []; is_Resources := []; is_ReadAudiences := None;
     is_OperationAudiences := Some {["store" := narrow_binding]}; is_ArtifactPolicies := None |}.
Definition org_installation : Installation :=
  {| in_id := "inst-1"; in_org_id := "org"; in_kind := "module"; in_target_id := Some "target-1";
     in_registry_binding_id := Some "bind-notes"; in_registry_principal_id := Some "p-notes";
     in_scope := org_consent; in_consent_receipt := "{}"; in_exposure_revision := 0;
     in_status := "active"; in_revision := 4 |}.
Definition host_db : DB :=
  {| installations := [org_installation];
     solution_targets := [{| st_id := "target-1"; st_binding_id := "bind-notes"; st_closed_generation := None |}];
     authorization_revisions := {[("org", "p-notes") := 9]}; module_envelopes := [1; 2];
     solution_host_bindings := [{| hb_BindingID := "bind-notes";
       hb_Applied := Some {| am_Generation := 3; am_Removed := false |} |}] |}.
Definition host_replica : Replica :=
  {| rp_modulePrincipals := Some {| ir_manifestDerived := true; ir_registry := {["p-notes" := notes_grant]};
                                    ir_envelopeRevision := 2 |};
     rp_envelopes_wired := true; rp_authority_wired := true; rp_envelopeRevisionSeen := 1;
     rp_passRequested := false |}.
Definition reads_of (db : DB) : Reads :=
  {| rd_bindings := Some db; rd_envelope := Some db; rd_live := db; rd_live_fails := false |}.
Definition notes_caller : ModuleCaller :=
  {| mc_PrincipalID := "p-notes"; mc_BoundOrg := "org";
     mc_Sealed := Some {| sm_InstallationID := Some "inst-1"; sm_InstallationRevision := Some 4;
                          sm_ProducerEpoch := None; sm_BindingID := None; sm_BindingRevision := None |} |}.
Definition notes_authority : ModuleCapabilityAuthority :=
  {| ca_Caller := notes_caller; ca_Grant := intersectInstallationScope notes_grant org_consent;
     ca_InstallationID := "inst-1"; ca_InstallationRevision := 4; ca_ProducerEpoch := 9 |}.
Definition replica_after : Replica := observeModuleEnvelopeRevision 2 host_replica.

(** The consent narrowed to nothing but its queue. *)
Definition narrowed_scope : InstallationScope :=
  {| is_Capabilities := true; is_Follows := false; is_Queues := ["notes-work"]; is_Namespaces := [];
     is_ExternalNamespaces := []; is_Resources := []; is_ReadAudiences := None;
     is_OperationAudiences := None; is_ArtifactPolicies := None |}.
Definition narrowed_installation (revision : Z) : Installation :=
  {| in_id := "inst-1"; in_org_id := "org"; in_kind := "module"; in_target_id := Some "target-1";
     in_registry_binding_id := Some "bind-notes"; in_registry_principal_id := Some "p-notes";
     in_scope := narrowed_scope; in_consent_receipt := "{}"; in_exposure_revision := 0;
     in_status := "active"; in_revision := revision |}.
Definition narrowed_db : DB :=
  {| installations := [narrowed_installation 5]; solution_targets := solution_targets host_db;
     authorization_revisions := authorization_revisions host_db; module_envelopes := module_envelopes host_db;
     solution_host_bindings := solution_host_bindings host_db |}.

Lemma notes_authorized :
  AuthorizeModuleCapability (reads_of host_db) notes_caller host_replica = (Ok notes_authority, replica_after).
Proof. vm_compute. reflexivity. Qed.

Lemma authority_is_the_meet_witness :
  grant_allows (intersectInstallationScope notes_grant org_consent) (OperateAt Invoke "store" "store" "docs" "read" "d1") /\
  ~ grant_allows (intersectInstallationScope notes_grant org_consent) (UseQueue "notes-mail").
Proof.
  split.
  - apply (authority_is_the_meet notes_grant org_consent "notes"); try (vm_compute; reflexivity).
    + by apply (bool_decide_eq_true_1 (map_Forall (fun _ b => canonical_audience b = true)
        (entries (is_OperationAudiences org_consent)))); vm_compute.
    + assert (grant_allows notes_grant (OperateAt Invoke "store" "store" "docs" "read" "d1")) as Hg.
      { eexists; split; [vm_compute; reflexivity|]; split; [reflexivity|].
        exists (scope "docs" ["read"; "write"] []). split; [by left|]. split; [done|]. split; [by left|by left]. }
      assert (consent_allows org_consent (OperateAt Invoke "store" "store" "docs" "read" "d1")) as Hc.
      { eexists; split; [vm_compute; reflexivity|]; split; [reflexivity|].
        exists (scope "docs" ["read"] ["d1"; "d2"]). split; [by left|]. split; [done|]. split; [by left|]. right. by left. }
      split_and!; [done|done|]. left. by exists "docs", "read", "d1".
  - vm_compute. discriminate.
Defined.

Lemma accepted_consent_is_held_witness :
  validateInstallationScope org_consent notes_grant = Ok tt /\
  grant_allows (intersectInstallationScope notes_grant org_consent) (UseQueue "notes-work").
Proof.
  split; [vm_compute; reflexivity|].
  apply (accepted_consent_is_held notes_grant org_consent "notes"); try (vm_compute; reflexivity).
  split; [by left|done].
Defined.

Lemma authorized_means_live_witness :
  exists i, i ∈ installations host_db /\ in_revision i = 4.
Proof.
  destruct (authorized_means_live (reads_of host_db) notes_caller host_replica notes_authority replica_after
    notes_authorized) as (g & i & _ & _ & Hi & _ & _ & _ & Hr & _). by exists i.
Defined.

Lemma fresh_stamp_is_honoured_witness :
  is_ok (AuthorizeDeferredWork (reads_of host_db) (StampDeferredWork notes_authority) replica_after).1 = true.
Proof.
  destruct (fresh_stamp_is_honoured _ _ _ _ _ notes_authorized) as (a & -> & _). reflexivity.
Defined.

Lemma withdrawn_stamp_never_returns_witness :
  is_ok (AuthorizeDeferredWork (reads_of narrowed_db) (StampDeferredWork notes_authority) replica_after).1 = false.
Proof.
  apply (withdrawn_stamp_never_returns (reads_of host_db) notes_caller host_replica notes_authority replica_after
    host_db 0 org_installation (narrowed_installation 4) (narrowed_installation 5) narrowed_db narrowed_db);
    try reflexivity.
  - vm_compute. repeat constructor. by intros ?%elem_of_nil.
  - left. discriminate.
Defined.

Definition parse_none (_ : string) : option string := None.
Definition short_scope (_ : InstallationScope) : Z := 100.
Definition notes_request : Authority :=
  {| au_Queues := ["notes-work"]; au_Namespaces := ["notes"]; au_ResourceKinds := [];
     au_Bindings := [{| br_ID := "store"; br_Audience := "store"; br_invoke := ["docs:read"; "docs:delete"];
                        br_lookup := []; br_headless := [] |}] |}.
Definition derived_notes : result GrantError ModulePrincipalGrant :=
  deriveModulePrincipalGrant parse_none (fun _ => false) short_scope 1000 "notes" notes_grant "bind-notes" 4
    notes_request (g_Workloads notes_grant).

Lemma derived_grant_is_bounded_witness :
  exists grant, derived_notes = Ok grant /\ grant_allows notes_grant (UseQueue "notes-work") /\
    entries (g_OperationAudiences grant) !! "store" =
      Some {| oa_DelegationMode := ""; oa_Audience := "store";
              oa_InvokeScopes := Some [scope "docs" ["read"] []]; oa_LookupScopes := None;
              oa_HeadlessScopes := None; oa_SourceDelegationScopes := None |}.
Proof.
  destruct derived_notes as [grant|e] eqn:E; [|exfalso; vm_compute in E; discriminate].
  exists grant. split; [done|]. split.
  - refine (proj1 (proj1 (derived_grant_is_bounded parse_none (fun _ => false) short_scope 1000 "notes" notes_grant
      "bind-notes" 4 notes_request (g_Workloads notes_grant) grant E) (UseQueue "notes-work") _)).
    vm_compute in E. injection E as <-. reflexivity.
  - vm_compute in E. injection E as <-. reflexivity.
Defined.


(** ** A narrowing that disables its binding

    [validateInstallationScope] accepts a consent that keeps the headless list whole and
    narrows the invoke list below it; the binding that results is refused at every use,
    because its headless list is no longer within its invoke list. *)
Definition headless_binding (invoke : list string) : ModuleOperationAudience :=
  {| oa_DelegationMode := ""; oa_Audience := "store"; oa_InvokeScopes := Some [scope "docs" invoke []];
     oa_LookupScopes := None; oa_HeadlessScopes := Some [scope "docs" ["read"; "write"] []];
     oa_SourceDelegationScopes := None |}.
Definition with_binding (b : ModuleOperationAudience) (g : ModulePrincipalGrant) : ModulePrincipalGrant :=
  {| g_PresenceGeneration := g_PresenceGeneration g; g_PresenceBinding := g_PresenceBinding g;
     g_ArtifactPolicies := g_ArtifactPolicies g; g_ReadAudiences := g_ReadAudiences g;
     g_OperationAudiences := Some {["store" := b]}; g_Prefix := g_Prefix g; g_Queues := g_Queues g;
     g_Namespaces := g_Namespaces g; g_ExternalNamespaces := g_ExternalNamespaces g;
     g_Resources := g_Resources g; g_CrossTenant := g_CrossTenant g; g_Tenant := g_Tenant g;
     g_Workloads := g_Workloads g |}.
Definition headless_grant : ModulePrincipalGrant :=
  with_binding (headless_binding ["read"; "write"]) notes_grant.
Definition headless_consent : InstallationScope :=
  {| is_Capabilities := true; is_Follows := false; is_Queues := []; is_Namespaces := [];
     is_ExternalNamespaces := []; is_Resources := []; is_ReadAudiences := None;
     is_OperationAudiences := Some {["store" := headless_binding ["read"]]}; is_ArtifactPolicies := None |}.
Lemma accepted_narrowing_disables_binding :
  validateInstallationScope headless_consent headless_grant = Ok tt /\
  grant_allows (intersectInstallationScope headless_grant headless_consent)
    (OperateAt Invoke "store" "store" "docs" "read" "d1") /\
  redeem_binding headless_grant "notes" "store" = Ok (headless_binding ["read"; "write"]) /\
  redeem_binding (intersectInstallationScope headless_grant headless_consent) "notes" "store"
    = Err InstalledAudienceRequired.
Proof.
  split; [vm_compute; reflexivity|]. split; [|split; vm_compute; reflexivity].
  eexists. split; [vm_compute; reflexivity|]. split; [reflexivity|].
  exists (scope "docs" ["read"] []). split; [by left|]. split; [done|]. split; [by left|by left].
Qed.
