(* ===== verification/ModuleSurface.v ===== *)
(** The module-facing surface: accounts/code/pkg/business/module_capabilities.go (jobs,
    events, approvals) over accounts/code/pkg/infra/postgres_events_subscriptions.go.

    Every call takes the capability decision of ModuleAuthority.v first and acts on the
    stores under the authority it answers: the queue of JobQueue.v, the transport of
    EventRelay.v and the approval engine of Approvals.v.  A failing call rolls its
    transaction back; what the decision itself changed (the replica's memory) stays. *)
From Stdlib Require Import Ascii.
From S2P Require Import Prelude JobState JobQueue EventEnvelope EventRelay.
From S2P Require Import ModuleScopes ModuleGrants ModuleAuthority.
From S2P Require Approvals.
Local Open Scope Z_scope.

(** ** Answers *)
Inductive GrpcCode :=
| CodeInvalidArgument | CodePermissionDenied | CodeFailedPrecondition | CodeAlreadyExists
| CodeNotFound | CodeInternal.
#[export] Instance GrpcCode_eq_dec : EqDecision GrpcCode.
Proof. solve_decision. Defined.
(** A refusal of the decision, a status of the handler, or an error passed on as it
    came. *)
Inductive SurfaceError :=
| Refused (cause : Refusal)
| Answer (code : GrpcCode)
| Fault.
#[export] Instance SurfaceError_eq_dec : EqDecision SurfaceError.
Proof. solve_decision. Defined.

Definition moduleJobError (e : JobError) : SurfaceError :=
  match e with
  | ErrInvalidCommand _ | ErrOrderingKeyTooLong => Answer CodeInvalidArgument
  | ErrIdempotencyConflict => Answer CodeAlreadyExists
  | ErrLeaseLost => Answer CodeFailedPrecondition
  | ErrJobNotFound => Answer CodeNotFound
  | ErrTransactionRequired => Answer CodeInternal
  | _ => Fault
  end.
Definition mapPublishError (e : EventError) : SurfaceError :=
  match e with
  | ErrEventConflict => Answer CodeFailedPrecondition
  | ErrInvalidEnvelope => Answer CodeInvalidArgument
  | _ => Answer CodeInternal
  end.
Definition moduleApprovalError (e : Approvals.ApprovalError) : SurfaceError :=
  match e with
  | Approvals.StoreError Approvals.ErrTypeValidation _ => Answer CodeInvalidArgument
  | Approvals.StoreError Approvals.ErrTypeNotFound _ => Answer CodeNotFound
  | Approvals.StoreError Approvals.ErrTypeConflict _ => Answer CodeFailedPrecondition
  | Approvals.StoreError Approvals.ErrTypePermission _ => Answer CodePermissionDenied
  | _ => Fault
  end.

(** ** The state *)
Inductive SurfaceEvent := EventSubscriptionCreated | EventSubscriptionRevoked | EventReplayed.
Record SurfaceAudit := {
  sa_actor : string; sa_event : SurfaceEvent; sa_resource_id : string;
  sa_payload : list (string * string)
}.
Record Surface := {
  su_replica : Replica;
  su_events : EventDb;
  su_members : gset (string * string);
  su_audit : list SurfaceAudit
}.
Definition set_replica (r : Replica) (s : Surface) : Surface :=
  {| su_replica := r; su_events := su_events s; su_members := su_members s; su_audit := su_audit s |}.
Definition set_event_db (d : EventDb) (s : Surface) : Surface :=
  {| su_replica := su_replica s; su_events := d; su_members := su_members s; su_audit := su_audit s |}.
Definition add_surface_audit (e : SurfaceAudit) (s : Surface) : Surface :=
  {| su_replica := su_replica s; su_events := su_events s; su_members := su_members s;
     su_audit := su_audit s ++ [e] |}.

Definition Handler (A : Type) : Type := Surface -> result SurfaceError A * Surface.
Definition reject {A} (e : SurfaceError) : Handler A := fun s => (Err e, s).

(** The decision every handler opens with. *)
Definition authorized {A} (rd : Reads) (caller : ModuleCaller)
    (k : ModuleCapabilityAuthority -> Handler A) : Handler A := fun s =>
  let '(decided, r) := AuthorizeModuleCapability rd caller (su_replica s) in
  match decided with
  | Err e => (Err (Refused e), set_replica r s)
  | Ok a => k a (set_replica r s)
  end.
(** [if !cond { return status }] *)
Definition unless {A} (cond : bool) (e : GrpcCode) (k : Handler A) : Handler A :=
  if cond then k else reject (Answer e).

(** A transaction of the job store. *)
Definition on_jobs {A} (m : tx JobDb JobError A) : Handler A := fun s =>
  match m (ed_jobs (su_events s)) with
  | Ok (a, j) => (Ok a, set_event_db (set_jobs j (su_events s)) s)
  | Err e => (Err (moduleJobError e), s)
  end.

(** ** Subscriptions (postgres_events_subscriptions.go) *)
Definition maxEventSubscriptionsRead : nat := 1000.

(** The CHECK constraints of event_subscriptions: the type pattern and the queue. *)
Definition type_pattern_ok (pattern : string) : bool :=
  match String.list_ascii_of_string (default pattern (trailingWildcard pattern)) with
  | [] => false
  | c :: rest => lower c && dotted false true rest
  end.
Definition queue_char (c : ascii) : bool := word c || Ascii.eqb c "."%char || Ascii.eqb c "-"%char.
Definition queue_ok (queue : string) : bool :=
  match String.list_ascii_of_string queue with
  | [] => false
  | c :: rest => lower c && forallb queue_char rest && bool_decide (length rest <= 127)%nat
  end && negb (bool_decide (queue = "events.relay")).

(** [COALESCE(NULLIF($4, ''), 'unordered')] under the delivery and subscriber-kind
    constraints: a subscription of a principal is ordered or unordered. *)
Definition principal_delivery (delivery : string) : option Delivery :=
  if decide (delivery = "" \/ delivery = "unordered") then Some DeliveryUnordered
  else if decide (delivery = "ordered") then Some DeliveryOrdered
  else None.

Definition same_subscription (principal pattern queue : string) (row : EventSubscriptionRow) : Prop :=
  es_subscriber_principal_id row = Some principal /\ es_type_pattern row = pattern /\
  es_queue row = queue /\ es_revoked_at row = None.
#[export] Instance same_subscription_dec p t q r : Decision (same_subscription p t q r).
Proof. unfold same_subscription. apply _. Defined.
Definition subscription_rows (d : EventDb) : list EventSubscriptionRow :=
  map snd (map_to_list (ed_subscriptions d)).

(** [new_id] and [now]: the defaults of the row. *)
Definition CreateEventSubscription (new_id : string) (now : instant)
    (principal pattern queue delivery createdBy : string) (d : EventDb) :
    result unit (EventSubscriptionRow * bool * EventDb) :=
  match principal_delivery delivery with
  | None => Err tt
  | Some kind =>
      if negb (type_pattern_ok pattern && queue_ok queue) then Err tt
      else match filter (same_subscription principal pattern queue) (subscription_rows d) with
      | row :: _ => Ok (row, false, d)
      | [] =>
          if decide (is_Some (ed_subscriptions d !! new_id)) then Err tt
          else
            let row := {| es_id := new_id; es_subscriber_principal_id := Some principal;
                          es_type_pattern := pattern; es_queue := queue; es_delivery := kind;
                          es_created_by := if decide (createdBy = "") then None else Some createdBy;
                          es_created_at := now; es_revoked_at := None; es_org_id := None;
                          es_webhook_subscription_id := None |} in
            Ok (row, true, set_subscriptions (<[new_id := row]> (ed_subscriptions d)) d)
      end
  end.

Definition revoked_at (now : instant) (row : EventSubscriptionRow) : EventSubscriptionRow :=
  {| es_id := es_id row; es_subscriber_principal_id := es_subscriber_principal_id row;
     es_type_pattern := es_type_pattern row; es_queue := es_queue row; es_delivery := es_delivery row;
     es_created_by := es_created_by row; es_created_at := es_created_at row;
     es_revoked_at := Some now; es_org_id := es_org_id row;
     es_webhook_subscription_id := es_webhook_subscription_id row |}.
Definition RevokeEventSubscription (now : instant) (id principal : string) (d : EventDb) : bool * EventDb :=
  match ed_subscriptions d !! id with
  | Some row =>
      if decide (es_subscriber_principal_id row = Some principal /\ es_revoked_at row = None)
      then (true, set_subscriptions (<[id := revoked_at now row]> (ed_subscriptions d)) d)
      else (false, d)
  | None => (false, d)
  end.

(** ORDER BY created_at, id *)
Definition oldest_first (x y : EventSubscriptionRow) : Prop :=
  es_created_at x < es_created_at y \/ (es_created_at x = es_created_at y /\ String.le (es_id x) (es_id y)).
#[export] Instance oldest_first_dec : RelDecision oldest_first.
Proof. intros x y. unfold oldest_first. apply _. Defined.
Definition ListEventSubscriptions (principal : string) (d : EventDb) : list EventSubscriptionRow :=
  let rows := take (S maxEventSubscriptionsRead)
    (merge_sort oldest_first
      (filter (fun row => es_subscriber_principal_id row = Some principal /\ es_revoked_at row = None)
        (subscription_rows d))) in
  if decide (maxEventSubscriptionsRead < length rows)%nat then take maxEventSubscriptionsRead rows else rows.
Definition CountLiveEventSubscriptions (d : EventDb) : nat :=
  length (filter (fun row => es_revoked_at row = None) (subscription_rows d)).

(** [sync_webhook_event_subscriptions]: rows of the endpoint for names no longer
    registered are deleted, and rows for new names inserted. *)
Definition publishableEventType (name : string) : bool := domain_event_type name.
Definition webhook_row (new_id : string -> string) (now : instant) (org webhook pattern : string) :
    EventSubscriptionRow :=
  {| es_id := new_id pattern; es_subscriber_principal_id := None; es_type_pattern := pattern;
     es_queue := "webhooks"; es_delivery := DeliveryWebhook; es_created_by := None; es_created_at := now;
     es_revoked_at := None; es_org_id := Some org; es_webhook_subscription_id := Some webhook |}.
Definition add_webhook_row (new_id : string -> string) (now : instant) (org webhook : string)
    (m : gmap string EventSubscriptionRow) (pattern : string) : gmap string EventSubscriptionRow :=
  if decide (Exists (fun row => es_webhook_subscription_id row = Some webhook /\ es_type_pattern row = pattern
                               /\ es_revoked_at row = None) (map snd (map_to_list m)))
  then m
  else if decide (is_Some (m !! new_id pattern)) then m
  else <[new_id pattern := webhook_row new_id now org webhook pattern]> m.
Definition role_may_sync (role : Role) (org : string) : bool :=
  match role with
  | app_tenant current _ => bool_decide (current = Some org)
  | app_control_plane | app_job_worker => true
  | other_role => false
  end.
Definition SyncWebhookEventSubscriptions (role : Role) (new_id : string -> string) (now : instant)
    (org webhook : string) (eventNames : list string) (d : EventDb) : result unit EventDb :=
  let publishable := filter (fun name => publishableEventType name = true) eventNames in
  guard! (role_may_sync role org) else tt;
  guard! (match ed_endpoints d !! webhook with
          | Some endpoint => bool_decide (we_org_id endpoint = org) | None => false end) else tt;
  let kept := filter (fun kv : string * EventSubscriptionRow =>
    ~ (es_webhook_subscription_id kv.2 = Some webhook /\ es_type_pattern kv.2 ∉ publishable))
    (ed_subscriptions d) in
  Ok (set_subscriptions (fold_left (add_webhook_row new_id now org webhook) publishable kept) d).

(** ** The handlers *)
Section Handlers.
Context (format_uint : Z -> string) (base64url : string -> string)
        (fingerprint : string -> Command -> string)
        (ValidateCommand : Command -> result JobError unit)
        (parse_uuid : string -> option string)
        (published : list PublishedEvent) (followable : list FollowableResource)
        (digest : EventEnvelope -> string)
        (webhooks : option (RelayWorld -> EventEnvelope -> Subscription -> E WebhookDeliveryOutcome)).
(** Whether audit is wired, and what of it an entry makes fail; whether a transport is. *)
Context (audit : option (SurfaceAudit -> bool)) (transport_wired : bool).

Definition emitTx (e : SurfaceAudit) (s : Surface) : result SurfaceError Surface :=
  match audit with
  | None => Ok s
  | Some accepts => if accepts e then Ok (add_surface_audit e s) else Err (Answer CodeInternal)
  end.

(** *** Jobs *)
Definition requireTenantMember (tenant user : string) (s : Surface) : bool :=
  bool_decide ((tenant, user) ∈ su_members s).

Definition ModuleEnqueueJob (rd : Reads) (w : JobWorld) (caller : ModuleCaller) (tenant : string)
    (req : option NewJob) : Handler EnqueueResponse :=
  authorized rd caller (fun authority =>
  unless (authorizeTenant caller tenant) CodePermissionDenied (
  match req with
  | None => reject (Answer CodeInvalidArgument)
  | Some job =>
      unless (allowsQueue (ca_Grant authority) (job_queue job)) CodePermissionDenied (
      let stamped := {| er_job := StampModuleJob format_uint job (JobAuthority authority) |} in
      match job_scope job with
      | JobScope_OrganizationId org =>
          unless (negb (bool_decide (org = ""))) CodeInvalidArgument (
          unless (bool_decide (org = tenant)) CodeInvalidArgument (
          on_jobs (PostgresStore_EnqueueJob base64url fingerprint ValidateCommand parse_uuid w
            (app_tenant (parse_uuid org) None) true stamped)))
      | JobScope_SubjectId user =>
          unless (negb (bool_decide (user = ""))) CodeInvalidArgument (fun s =>
          if requireTenantMember tenant user s then
            on_jobs (PostgresStore_EnqueueJob base64url fingerprint ValidateCommand parse_uuid w
              (app_tenant None (parse_uuid user)) true stamped) s
          else (Err (Answer CodeFailedPrecondition), s))
      | JobScope_Global =>
          unless (g_CrossTenant (ca_Grant authority)) CodePermissionDenied (
          on_jobs (PostgresJobStore_EnqueueJob base64url fingerprint ValidateCommand parse_uuid w stamped))
      end)
  end)).

Definition ModuleClaimJobs (rd : Reads) (w : JobWorld) (caller : ModuleCaller) (req : ClaimJobsRequest) :
    Handler (list JobEnvelope) :=
  authorized rd caller (fun authority =>
  unless (allowsQueue (ca_Grant authority) (cr_queue req)) CodePermissionDenied (
  on_jobs (JobQueue.Claim format_uint ValidateCommand w (Some (JobAuthority authority)) req))).

Definition ModuleHeartbeatJob (rd : Reads) (w : JobWorld) (caller : ModuleCaller)
    (lease : JobLeaseReference) (extension : duration) : Handler JobLease :=
  authorized rd caller (fun authority =>
  on_jobs (JobQueue.Heartbeat format_uint ValidateCommand w (Some (JobAuthority authority)) lease extension)).

Definition ModuleAckJob (rd : Reads) (w : JobWorld) (caller : ModuleCaller)
    (lease : JobLeaseReference) (executionKind executionID : string) : Handler unit :=
  authorized rd caller (fun authority =>
  unless (bool_decide (executionKind = "" <-> executionID = "")) CodeInvalidArgument (
  let execution :=
    if decide (executionKind = "") then None
    else Some {| exec_owner := g_Prefix (ca_Grant authority); exec_kind := executionKind; exec_id := executionID |} in
  on_jobs (Complete format_uint ValidateCommand w (Some (JobAuthority authority)) lease execution))).

Definition ModuleNackJob (rd : Reads) (w : JobWorld) (caller : ModuleCaller)
    (lease : JobLeaseReference) (failure : JobFailure) (retryable : bool) (retryAt : option instant) :
    Handler unit :=
  authorized rd caller (fun authority =>
  let stamp := Some (JobAuthority authority) in
  if retryable then
    match retryAt with
    | None => reject (Answer CodeInvalidArgument)
    | Some t => on_jobs (Retry format_uint ValidateCommand w stamp lease failure t;; mret tt)
    end
  else on_jobs (DeadLetter format_uint ValidateCommand w stamp lease failure)).

(** *** Events *)
Definition missingFollowableSubject (e : EventEnvelope) : bool :=
  bool_decide (ev_Subject e = "") && bool_decide (is_Some (LookupFollowable followable (ev_Type e))).

Definition addressed (e : EventEnvelope) (tenant partition : string) : EventEnvelope :=
  {| ev_Id := ev_Id e; ev_Source := ev_Source e; ev_Type := ev_Type e; ev_Subject := ev_Subject e;
     ev_Time := ev_Time e; ev_Specversion := ev_Specversion e;
     ev_Datacontenttype := ev_Datacontenttype e; ev_Dataschema := ev_Dataschema e; ev_Data := ev_Data e;
     ev_TenantId := tenant; ev_BoundaryId := ev_BoundaryId e; ev_PartitionKey := partition;
     ev_CorrelationId := ev_CorrelationId e; ev_CausationId := ev_CausationId e;
     ev_ActorPrincipalId := ev_ActorPrincipalId e; ev_OwnerPrincipalId := ev_OwnerPrincipalId e;
     ev_Traceparent := ev_Traceparent e; ev_SchemaVersion := ev_SchemaVersion e |}.

(** Inside a transaction Publish drains nothing, so [env] is not looked at. *)
Definition ModulePublishEvent (rd : Reads) (now : instant) (env : nat -> RelayWorld) (caller : ModuleCaller) (tenant : string)
    (envelope : option EventEnvelope) : Handler string :=
  authorized rd caller (fun authority =>
  unless transport_wired CodeInternal (
  match envelope with
  | None => reject (Answer CodeInvalidArgument)
  | Some e =>
      unless (negb (bool_decide (tenant = ""))) CodeInvalidArgument (
      unless (authorizeTenant caller tenant) CodePermissionDenied (
      unless (allowsNamespace (ca_Grant authority) (Namespace (ev_Type e))) CodePermissionDenied (
      match LookupPublished published (ev_Type e) with
      | None => reject (Answer CodeFailedPrecondition)
      | Some declared =>
          unless (negb (missingFollowableSubject e)) CodeInvalidArgument (fun s =>
          let e := addressed e tenant
            (if decide (ev_PartitionKey e = "")
             then ResolvePartition (pe_Partition declared) tenant (ev_BoundaryId e)
             else ev_PartitionKey e) in
          match Publish base64url fingerprint ValidateCommand parse_uuid published digest webhooks
                  (app_tenant (parse_uuid tenant) None) now true
                  env e (su_events s) with
          | (Err err, _) => (Err (mapPublishError err), s)
          | (Ok _, d) => (Ok (ev_Id e), set_event_db d s)
          end)
      end)))
  end)).

(** [internalType] is any the pattern matches; the first one is named in the refusal. *)
Definition matches_any (pattern : string) (types : list string) : bool :=
  existsb (Matches pattern) types.

Definition ModuleSubscribe (rd : Reads) (new_id : string) (now : instant) (caller : ModuleCaller)
    (typePattern queue delivery : string) : Handler EventSubscriptionRow :=
  authorized rd caller (fun authority =>
  unless (allowsQueue (ca_Grant authority) queue) CodePermissionDenied (
  unless (negb (matches_any typePattern (InternalPublishedTypes published))) CodePermissionDenied (
  unless (negb (bool_decide (Namespace typePattern = PlatformAuditNamespace))) CodePermissionDenied (
  unless (negb (bool_decide (delivery = "ordered")
                && matches_any typePattern
                     (UnorderedPublishedTypesInNamespace published (Namespace typePattern))))
    CodeFailedPrecondition (fun s =>
  match CreateEventSubscription new_id now (mc_PrincipalID caller) typePattern queue delivery
          (mc_PrincipalID caller) (su_events s) with
  | Err _ => (Err (Answer CodeInternal), s)
  | Ok (row, false, _) => (Ok row, s)
  | Ok (row, true, d) =>
      match emitTx {| sa_actor := mc_PrincipalID caller; sa_event := EventSubscriptionCreated;
                      sa_resource_id := es_id row;
                      sa_payload := [("subscription_id", es_id row);
                        ("subscriber_principal_id", default "" (es_subscriber_principal_id row));
                        ("type_pattern", es_type_pattern row); ("queue", es_queue row)] |}
              (set_event_db d s) with
      | Err e => (Err e, s)
      | Ok s => (Ok row, s)
      end
  end))))).

Definition ModuleUnsubscribe (rd : Reads) (now : instant) (caller : ModuleCaller) (id : string) :
    Handler unit :=
  authorized rd caller (fun _ s =>
  match RevokeEventSubscription now id (mc_PrincipalID caller) (su_events s) with
  | (false, _) => (Err (Answer CodeNotFound), s)
  | (true, d) =>
      match emitTx {| sa_actor := mc_PrincipalID caller; sa_event := EventSubscriptionRevoked;
                      sa_resource_id := id; sa_payload := [("subscription_id", id)] |}
              (set_event_db d s) with
      | Err e => (Err e, s)
      | Ok s => (Ok tt, s)
      end
  end).

Definition ModuleListSubscriptions (rd : Reads) (caller : ModuleCaller) : Handler (list EventSubscriptionRow) :=
  authorized rd caller (fun _ s => (Ok (ListEventSubscriptions (mc_PrincipalID caller) (su_events s)), s)).

(** A replay commits its pages one by one; [None] when the fuel runs out.  The audit
    entry follows when every page was redelivered. *)
Definition ModuleReplayEvents (rd : Reads) (env : nat -> RelayWorld) (fuel : nat) (caller : ModuleCaller)
    (tenant eventType : string) (since : instant) (s : Surface) :
    option (result SurfaceError Z * Surface) :=
  let '(decided, r) := AuthorizeModuleCapability rd caller (su_replica s) in
  let s := set_replica r s in
  match decided with
  | Err e => Some (Err (Refused e), s)
  | Ok authority =>
      if negb transport_wired then Some (Err (Answer CodeInternal), s)
      else if bool_decide (tenant = "") then Some (Err (Answer CodeInvalidArgument), s)
      else if negb (authorizeTenant caller tenant) then Some (Err (Answer CodePermissionDenied), s)
      else match Replay base64url fingerprint ValidateCommand parse_uuid published env fuel
                   {| sel_Type := eventType; sel_TenantID := tenant; sel_Since := since;
                      sel_SubscriberPrincipalID := mc_PrincipalID caller |} (su_events s) with
      | None => None
      | Some (_, Some _, d) => Some (Err (Answer CodeInternal), set_event_db d s)
      | Some (redelivered, None, d) =>
          let s := set_event_db d s in
          match emitTx {| sa_actor := mc_PrincipalID caller; sa_event := EventReplayed;
                          sa_resource_id := eventType; sa_payload := [("type", eventType); ("redelivered", format_uint redelivered)] |} s with
          | Err e => Some (Err e, s)
          | Ok s => Some (Ok redelivered, s)
          end
      end
  end.
End Handlers.

(** ** Approvals

    The engine's own database beside the replica. *)
Section ApprovalHandlers.
Context {Json : Type} (svc : Approvals.Service) (w : Approvals.World).

Definition ApprovalHandler (A : Type) : Type :=
  Replica -> Approvals.Db (Json := Json) -> result SurfaceError A * Replica * Approvals.Db (Json := Json).

(** What the three handlers share: the decision, the tenant, then a transaction. *)
Definition with_approvals {A} (rd : Reads) (caller : ModuleCaller) (tenant : string)
    (allowed : ModulePrincipalGrant -> bool)
    (m : tx (Approvals.Db (Json := Json)) Approvals.ApprovalError A) : ApprovalHandler A := fun r d =>
  let '(decided, r) := moduleCapability rd caller r in
  match decided with
  | Err e => (Err (Refused e), r, d)
  | Ok grant =>
      if negb (authorizeTenant caller tenant) then (Err (Answer CodePermissionDenied), r, d)
      else if negb (allowed grant) then (Err (Answer CodePermissionDenied), r, d)
      else match run_tx m d with
      | (Ok a, d) => (Ok a, r, d)
      | (Err e, d) => (Err (moduleApprovalError e), r, d)
      end
  end.

(** The module names the queue, topic and payload of the resume job and nothing else. *)
Definition resume_of (r : Approvals.ResumeRef (Json := Json)) : Approvals.ResumeRef (Json := Json) :=
  {| Approvals.rr_mode := ""; Approvals.rr_job_kind := ""; Approvals.rr_payload := Approvals.rr_payload r;
     Approvals.rr_queue := Approvals.rr_queue r; Approvals.rr_topic := Approvals.rr_topic r |}.
Definition request_of (in_ : Approvals.CreateApprovalRequestInput (Json := Json)) :
    Approvals.CreateApprovalRequestInput (Json := Json) :=
  {| Approvals.ci_org := Approvals.ci_org in_; Approvals.ci_resource := Approvals.ci_resource in_;
     Approvals.ci_action := Approvals.ci_action in_; Approvals.ci_subject := Approvals.ci_subject in_;
     Approvals.ci_requested_by := Approvals.ci_requested_by in_; Approvals.ci_quorum := Approvals.ci_quorum in_;
     Approvals.ci_policy := Approvals.ci_policy in_; Approvals.ci_resume := resume_of (Approvals.ci_resume in_);
     Approvals.ci_expires_at := Approvals.ci_expires_at in_;
     Approvals.ci_escalate_at := Approvals.ci_escalate_at in_ |}.
Definition ModuleRequestApproval (rd : Reads) (caller : ModuleCaller)
    (in_ : Approvals.CreateApprovalRequestInput (Json := Json)) : ApprovalHandler string :=
  with_approvals rd caller (Approvals.ci_org in_)
    (fun grant => allowsQueue grant (Approvals.rr_queue (Approvals.ci_resume in_)))
    (Approvals.CreateApprovalRequest svc w (request_of in_)).
Definition ModuleGetApproval (rd : Reads) (caller : ModuleCaller) (tenant id : string) :
    ApprovalHandler (Approvals.ApprovalRequest (Json := Json)) :=
  with_approvals rd caller tenant (fun _ => true) (Approvals.GetApprovalRequest id tenant).
Definition ModuleCancelApproval (rd : Reads) (caller : ModuleCaller) (tenant id reason : string) :
    ApprovalHandler unit :=
  with_approvals rd caller tenant (fun _ => true) (Approvals.CancelApprovalRequest svc w tenant id reason).
End ApprovalHandlers.
