(* ===== verification/ModuleSurfaceProofs.v ===== *)
(** What a module's call that succeeds has passed, and the tables it leaves alone. *)
From S2P Require Import Prelude JobState JobQueue JobQueueProofs.
From S2P Require Import EventEnvelope EventRelay EventRelayProofs.
From S2P Require Import ModuleScopes ModuleGrants ModuleAuthority ModuleAuthorityProofs ModuleSurface.
Local Open Scope Z_scope.

(** ** Inverting a handler *)
Lemma authorized_ok {A} rd caller (k : ModuleCapabilityAuthority -> Handler A) s a s' :
  authorized rd caller k s = (Ok a, s') ->
  exists au r, AuthorizeModuleCapability rd caller (su_replica s) = (Ok au, r) /\
    k au (set_replica r s) = (Ok a, s').
Proof. unfold authorized. destruct (AuthorizeModuleCapability _ _ _) as [[au|e] r]; [by eauto|done]. Qed.
Lemma unless_ok {A} cond e (k : Handler A) s a s' :
  unless cond e k s = (Ok a, s') -> cond = true /\ k s = (Ok a, s').
Proof. by destruct cond. Qed.
Lemma on_jobs_ok {A} (m : tx JobDb JobError A) s a s' :
  on_jobs m s = (Ok a, s') ->
  exists j, m (ed_jobs (su_events s)) = Ok (a, j) /\ s' = set_event_db (set_jobs j (su_events s)) s.
Proof. unfold on_jobs. destruct (m _) as [[a' j]|]; [|done]. intros [= <- <-]. by eauto. Qed.

(** A decision answers for the caller it was asked about. *)
Lemma authority_caller rd caller r a r' :
  AuthorizeModuleCapability rd caller r = (Ok a, r') -> ca_Caller a = caller.
Proof.
  unfold AuthorizeModuleCapability. intros H. apply authorize_ok in H as (g & _ & _ & _ & _ & _ & H).
  apply decide_live_ok in H as (n & i & H). tauto.
Qed.

Lemma tenant_bound caller tenant : authorizeTenant caller tenant = true -> tenant = mc_BoundOrg caller.
Proof. unfold authorizeTenant. apply bool_decide_eq_true. Qed.

(** ** Enqueueing under an authority *)
Lemma reserved_attributes fu a k :
  reserved_key k = false -> Attributes fu a !! k = None.
Proof.
  intros Hk. unfold Attributes.
  repeat (rewrite lookup_insert_ne by (intros <-; by vm_compute in Hk)). apply lookup_empty.
Qed.
(** The reserved keys of a stamped job are the stamp's and nothing else. *)
Lemma stamp_reserved fu job a k :
  reserved_key k = true -> job_attributes (StampModuleJob fu job a) !! k = Attributes fu a !! k.
Proof.
  intros Hk. unfold StampModuleJob; cbn [job_attributes]. rewrite lookup_union. destruct (Attributes fu a !! k) as [v|]; cbn.
  - by destruct (filter _ _ !! k).
  - rewrite (left_id None _). apply map_lookup_filter_None. right. intros v _ Hf. cbn [fst] in Hf. congruence.
Qed.
Lemma stamp_free fu job a k :
  reserved_key k = false -> job_attributes (StampModuleJob fu job a) !! k = job_attributes job !! k.
Proof.
  intros Hk. unfold StampModuleJob; cbn [job_attributes]. rewrite lookup_union, reserved_attributes by done.
  rewrite (left_id None _). destruct (job_attributes job !! k) as [v|] eqn:E.
  - by apply map_lookup_filter_Some.
  - apply map_lookup_filter_None. by left.
Qed.

Lemma prepare_fields b64 fp vc pu r j :
  prepareJobEnqueue b64 fp vc pu r = Ok j ->
  pj_queue j = job_queue (er_job r) /\ pj_attributes j = job_attributes (er_job r) /\
  enqueueScopeValues pu (job_scope (er_job r)) = Ok (pj_scopeKind j, pj_organizationID j, pj_subjectID j).
Proof.
  unfold prepareJobEnqueue. intros H.
  destruct (EnqueueFingerprint _ _ _); [|done]. destruct (DatabaseDirection _); [|done].
  destruct (enqueueScopeValues _ _) as [[[k o] u]|]; [|done].
  destruct (CanonicalOrderingKey _ _ _); [|done]. by injection H as <-.
Qed.

(** What an accepted enqueue leaves: one row, new or found. *)
Record enqueued_as (role : Role) (j : preparedJobEnqueue) (d d' : JobDb) (id : string)
    (disp : JobEnqueueDisposition) (m : JobMessage) : Prop := {
  en_allowed : role_may_enqueue role j = true;
  en_row : messages d' !! id = Some m;
  en_others : forall i, i <> id -> messages d' !! i = messages d !! i;
  en_identity : identity_of (m_columns m) =
    (pj_direction j, pj_scopeKind j, coalesce (pj_organizationID j), coalesce (pj_subjectID j),
     pj_queue j, pj_source j, pj_idempotencyKey j);
  en_new : disp = DISPOSITION_INSERTED -> messages d !! id = None /\ c_attributes (m_columns m) = pj_attributes j;
  en_old : disp = DISPOSITION_DUPLICATE -> messages d' = messages d;
}.
Lemma enqueued_one w role j d d' id disp :
  queue_inv d -> enqueuePreparedJob w role j d = Ok ((id, disp), d') ->
  exists m, enqueued_as role j d d' id disp m.
Proof.
  intros Hinv H. apply enqueuePrepared_ok in H
    as (c & ins & Hrole & Hc & _ & _ & _ & _ & _ & Hk & Hid & Hdisp & H); [|done].
  cbn in Hdisp, H. injection Hk as _ _ Hat.
  apply insert_or_find_ok in H; [|done]. destruct ins; subst disp.
  - destruct H as (Hn & -> & _ & _ & _ & ->). eexists. constructor; cbn.
    + done.
    + apply lookup_insert_eq.
    + intros i Hi. by rewrite lookup_insert_ne.
    + exact Hid.
    + done.
    + done.
  - destruct H as [-> (m & Hm & Hi & _)]. exists m. constructor; cbn; try done. by rewrite Hi.
Qed.

(** ** Subscriptions *)
Lemma matches_any_false pattern types :
  matches_any pattern types = false <-> forall t, t ∈ types -> Matches pattern t = false.
Proof.
  unfold matches_any. rewrite <- not_true_iff_false, existsb_exists. split.
  - intros H t Ht. apply not_true_iff_false. intros Hm. apply H. exists t. split; [by apply list_elem_of_In|done].
  - intros H (t & Ht & Hm). rewrite H in Hm; [done|by apply list_elem_of_In].
Qed.
(** The scan of one namespace overlooks nothing. *)
Lemma matches_any_namespace published pattern :
  matches_any pattern (UnorderedPublishedTypesInNamespace published (Namespace pattern)) = false ->
  forall t, t ∈ UnorderedPublishedTypes published -> Matches pattern t = false.
Proof.
  rewrite matches_any_false. intros H t Ht. apply not_true_iff_false. intros Hm.
  rewrite H in Hm; [done|]. apply Matches_namespace in Hm.
  unfold UnorderedPublishedTypes in Ht. apply list_elem_of_fmap in Ht as (e & -> & [He Hin]%list_elem_of_filter).
  apply list_elem_of_fmap. exists e. split; [done|]. by apply list_elem_of_filter.
Qed.

Lemma create_ok new_id now p pat q del by_ d row ins d' :
  CreateEventSubscription new_id now p pat q del by_ d = Ok (row, ins, d') ->
  same_subscription p pat q row /\
  if ins then ed_subscriptions d !! new_id = None /\ es_id row = new_id /\
              principal_delivery del = Some (es_delivery row) /\ es_webhook_subscription_id row = None /\
              d' = set_subscriptions (<[new_id := row]> (ed_subscriptions d)) d
  else d' = d /\ row ∈ subscription_rows d.
Proof.
  unfold CreateEventSubscription. intros H. destruct (principal_delivery del) as [kind|]; [|done].
  destruct (negb _); [done|]. destruct (filter _ _) as [|x l] eqn:E.
  - case_decide as Hn; [done|]. injection H as <- <- <-. split; [done|].
    split_and!; try done. apply eq_None_not_Some. done.
  - injection H as <- <- <-. assert (x ∈ x :: l) as Hx by by left.
    rewrite <- E, list_elem_of_filter in Hx. tauto.
Qed.
Lemma revoke_ok now id p d d' :
  RevokeEventSubscription now id p d = (true, d') ->
  exists row, ed_subscriptions d !! id = Some row /\ es_subscriber_principal_id row = Some p /\
    es_revoked_at row = None /\
    d' = set_subscriptions (<[id := revoked_at now row]> (ed_subscriptions d)) d.
Proof.
  unfold RevokeEventSubscription. destruct (ed_subscriptions d !! id) as [row|]; [|done].
  case_decide as Hc; [|done]. intros [= <-]. destruct Hc. by exists row.
Qed.

Lemma webhook_rows_only new_id now org webhook types m m' id row :
  fold_left (add_webhook_row new_id now org webhook) types m = m' -> m' !! id = Some row ->
  m !! id = Some row \/ es_subscriber_principal_id row = None.
Proof.
  revert m. induction types as [|t types IH]; intros m; cbn; [intros ->; by left|].
  intros H Hid. destruct (IH _ H Hid) as [Hrow|Hrow]; [|by right].
  unfold add_webhook_row in Hrow. repeat case_decide; [by left|by left|].
  apply lookup_insert_Some in Hrow as [[_ <-]|[_ Hrow]]; [by right|by left].
Qed.
Lemma sync_ok role new_id now org webhook names d d' id row :
  SyncWebhookEventSubscriptions role new_id now org webhook names d = Ok d' ->
  ed_subscriptions d' !! id = Some row ->
  ed_subscriptions d !! id = Some row \/ es_subscriber_principal_id row = None.
Proof.
  unfold SyncWebhookEventSubscriptions. intros H. destruct (role_may_sync role org); [|done].
  destruct (match _ with Some _ => _ | None => _ end); [|done]. cbn in H. injection H as <-.
  cbn [ed_subscriptions set_subscriptions].
  intros Hrow. destruct (webhook_rows_only _ _ _ _ _ _ _ _ _ eq_refl Hrow) as [Hk|Hk]; [|by right].
  left. by apply map_lookup_filter_Some in Hk as [Hk _].
Qed.

(** ** Calls that fail

    [Atomic]: a call that answers an error leaves the state as it found it. *)
Class Atomic {A} (h : Handler A) : Prop := atomic s e s' : h s = (Err e, s') -> s' = s.
#[export] Hint Mode Atomic - ! : typeclass_instances.

#[export] Instance reject_atomic {A} e : Atomic (reject (A := A) e).
Proof. intros s e' s' H. by injection H as _ <-. Qed.
#[export] Instance unless_atomic {A} cond e (k : Handler A) : Atomic k -> Atomic (unless cond e k).
Proof. intros Hk. by destruct cond; [|apply reject_atomic]. Qed.
#[export] Instance on_jobs_atomic {A} (m : tx JobDb JobError A) : Atomic (on_jobs m).
Proof. intros s e s' H. unfold on_jobs in H. destruct (m _) as [[? ?]|]; [done|]. by injection H as _ <-. Qed.

(** What the decision leaves the rest of the call: the replica it updated. *)
Definition decided {A} (rd : Reads) (caller : ModuleCaller) (h : Handler A) : Prop := forall s,
  match AuthorizeModuleCapability rd caller (su_replica s) with
  | (Err e, r) => h s = (Err (Refused e), set_replica r s)
  | (Ok _, r) => forall e s', h s = (Err e, s') -> s' = set_replica r s
  end.
Lemma authorized_decided {A} rd caller (k : ModuleCapabilityAuthority -> Handler A) :
  (forall a, Atomic (k a)) -> decided rd caller (authorized rd caller k).
Proof.
  intros Hk s. unfold authorized.
  destruct (AuthorizeModuleCapability _ _ _) as [[a|e] r]; [|done]. intros e s' H. by eapply Hk.
Qed.

(** Down the guards of a handler to its transaction, then by the cases of that. *)
Ltac fails_whole :=
  repeat first [ progress cbv zeta | apply unless_atomic | apply reject_atomic | apply on_jobs_atomic
               | match goal with |- Atomic (match ?x with _ => _ end) => destruct x end ];
  try (let H := fresh in intros ? ? ? H; unfold emitTx in H; cbn zeta in H;
       repeat (case_match; simplify_eq; try done);
       first [done | by eapply on_jobs_atomic in H]).
