(* ===== verification/ModuleSurfaceTheorems.v ===== *)
(** The module-facing surface: a call acts inside what its decision grants - the queues,
    the namespaces and the one organization - and what fails changes nothing. *)
From S2P Require Import Prelude GoText JobState JobQueue JobQueueProofs JobQueueTheorems.
From S2P Require Import EventEnvelope EventRelay EventRelayProofs ModuleScopes ModuleGrants.
From S2P Require Import ModuleAuthority ModuleAuthorityProofs ModuleSurface ModuleSurfaceProofs.
From S2P Require Import ModuleAuthorityTheorems EventRelayTheorems.
From S2P Require Approvals ApprovalsTheorems.
Local Open Scope Z_scope.

Section Surface.
Context (format_uint : Z -> string) (base64url : string -> string)
        (fingerprint : string -> Command -> string)
        (ValidateCommand : Command -> result JobError unit)
        (parse_uuid : string -> option string)
        (published : list PublishedEvent) (followable : list FollowableResource)
        (digest : EventEnvelope -> string)
        (webhooks : option (RelayWorld -> EventEnvelope -> Subscription -> E WebhookDeliveryOutcome))
        (audit : option (SurfaceAudit -> bool)) (transport_wired : bool).

Abbreviation Enqueue := (ModuleEnqueueJob format_uint base64url fingerprint ValidateCommand parse_uuid).
Abbreviation ClaimFor := (ModuleClaimJobs format_uint ValidateCommand).
Abbreviation PublishFor := (ModulePublishEvent base64url fingerprint ValidateCommand parse_uuid published
  followable digest webhooks transport_wired).
Abbreviation SubscribeFor := (ModuleSubscribe published audit).

(** ** Calls

    A call acts on the host: the replica, the queue and the transport of [Surface], and
    the approval engine's database beside them. *)
Context {Json : Type} (svc : Approvals.Service).
Abbreviation Host := (Surface * Approvals.Db (Json := Json))%type.
Definition on_surface {A} (h : Handler A) : Host -> result SurfaceError A * Host := fun x =>
  let '(answer, s) := h x.1 in (answer, (s, x.2)).
Definition on_approvals {A} (h : ApprovalHandler (Json := Json) A) : Host -> result SurfaceError A * Host := fun x =>
  let '(answer, r, d) := h (su_replica x.1) x.2 in (answer, (set_replica r x.1, d)).

(** The modelled calls that are one transaction: all but the replay. *)
Inductive module_call (rd : Reads) (caller : ModuleCaller) :
    forall A, (Host -> result SurfaceError A * Host) -> Prop :=
| call_enqueue w tenant req : module_call rd caller _ (on_surface (Enqueue rd w caller tenant req))
| call_claim w req : module_call rd caller _ (on_surface (ClaimFor rd w caller req))
| call_heartbeat w lease extension : module_call rd caller _
    (on_surface (ModuleHeartbeatJob format_uint ValidateCommand rd w caller lease extension))
| call_ack w lease kind id : module_call rd caller _
    (on_surface (ModuleAckJob format_uint ValidateCommand rd w caller lease kind id))
| call_nack w lease failure retryable at_ : module_call rd caller _
    (on_surface (ModuleNackJob format_uint ValidateCommand rd w caller lease failure retryable at_))
| call_publish now env tenant e : module_call rd caller _ (on_surface (PublishFor rd now env caller tenant e))
| call_subscribe new_id now pattern queue delivery :
    module_call rd caller _ (on_surface (SubscribeFor rd new_id now caller pattern queue delivery))
| call_unsubscribe now id : module_call rd caller _ (on_surface (ModuleUnsubscribe audit rd now caller id))
| call_list : module_call rd caller _ (on_surface (ModuleListSubscriptions rd caller))
| call_request_approval w in_ :
    module_call rd caller _ (on_approvals (ModuleRequestApproval svc w rd caller in_))
| call_get_approval tenant id : module_call rd caller _ (on_approvals (ModuleGetApproval rd caller tenant id))
| call_cancel_approval w tenant id reason :
    module_call rd caller _ (on_approvals (ModuleCancelApproval svc w rd caller tenant id reason)).

(** What the decision leaves the rest of a call of the host. *)
Definition decided_host {A} rd caller (h : Host -> result SurfaceError A * Host) : Prop := forall s d,
  match AuthorizeModuleCapability rd caller (su_replica s) with
  | (Err e, r) => h (s, d) = (Err (Refused e), (set_replica r s, d))
  | (Ok _, r) => forall e x, h (s, d) = (Err e, x) -> x = (set_replica r s, d)
  end.
Lemma on_surface_decided {A} rd caller (h : Handler A) :
  decided rd caller h -> decided_host rd caller (on_surface h).
Proof.
  intros Hd s d. specialize (Hd s). unfold on_surface. cbn [fst snd].
  destruct (AuthorizeModuleCapability _ _ _) as [[a|e] r]; [|by rewrite Hd].
  destruct (h s) as [answer s'] eqn:E. intros e x [= -> <-]. by rewrite (Hd _ _ eq_refl).
Qed.
Lemma on_approvals_decided {A} rd caller tenant allowed (m : tx _ _ A) :
  decided_host rd caller (on_approvals (with_approvals rd caller tenant allowed m)).
Proof.
  intros s d. unfold on_approvals, with_approvals, moduleCapability. cbn [fst snd].
  destruct (AuthorizeModuleCapability _ _ _) as [[a|e] r]; [|done]. intros e x.
  cbn. unfold run_tx. repeat (case_match; simplify_eq/=; try done); intros [= _ <-]; done.
Qed.

(** C14. A module's call on jobs, publishing, subscriptions or approvals is decided before it
    acts, and fails whole: when the capability decision refuses, the call answers that refusal
    and only the replica's own memory of what it read has changed; when the decision is
    positive but the call then fails - a queue not granted, another tenant, an invalid
    argument, an error of the queue, the transport, the approval engine or the audit - no
    job, event, subscription, approval or audit entry has changed.  The replay is not among
    these calls: it commits page by page. *)
Theorem failed_call_changes_nothing rd caller A (h : Host -> result SurfaceError A * Host) s d :
  module_call rd caller A h ->
  match AuthorizeModuleCapability rd caller (su_replica s) with
  | (Err e, r) => h (s, d) = (Err (Refused e), (set_replica r s, d))
  | (Ok _, r) => forall e x, h (s, d) = (Err e, x) -> x = (set_replica r s, d)
  end.
Proof.
  intros Hc. revert s d. change (decided_host rd caller h).
  destruct Hc; first [apply on_approvals_decided | apply on_surface_decided, authorized_decided; intros a; fails_whole].
Qed.

(** ** Jobs *)
(** The organization and the person a job is for: the caller's organization, a member of
    it, or nobody, which takes the cross-tenant grant. *)
Definition confined (tenant : string) (a : ModuleCapabilityAuthority) (s : Surface) (scope : JobScope)
    (c : JobColumns) : Prop :=
  match scope with
  | JobScope_OrganizationId org =>
      org = tenant /\ c_direction c = "outbox" /\ c_scope_kind c = "tenant" /\
      coalesce (c_organization_id c) = coalesce (parse_uuid tenant) /\ coalesce (c_subject_id c) = ""
  | JobScope_SubjectId user =>
      (tenant, user) ∈ su_members s /\ c_direction c = "outbox" /\ c_scope_kind c = "subject" /\
      coalesce (c_organization_id c) = "" /\ coalesce (c_subject_id c) = coalesce (parse_uuid user)
  | JobScope_Global => g_CrossTenant (ca_Grant a) = true /\ c_scope_kind c = "global"
  end.

Lemma tenant_may_enqueue org user j :
  role_may_enqueue (app_tenant org user) j = true -> pj_direction j = "outbox".
Proof. cbn. by intros [H%bool_decide_eq_true_1 _]%andb_true_iff. Qed.
(** What a producer under [role] leaves of a stamped job. *)
Lemma stamped_enqueue w role tenant a r s job id disp s' :
  queue_inv (ed_jobs (su_events s)) ->
  on_jobs (PostgresStore_EnqueueJob base64url fingerprint ValidateCommand parse_uuid w role true
    {| er_job := StampModuleJob format_uint job (JobAuthority a) |}) (set_replica r s) = (Ok (id, disp), s') ->
  (forall j c, role_may_enqueue role j = true -> c_direction c = pj_direction j ->
     enqueueScopeValues parse_uuid (job_scope job) = Ok (pj_scopeKind j, pj_organizationID j, pj_subjectID j) ->
     c_scope_kind c = pj_scopeKind j -> coalesce (c_organization_id c) = coalesce (pj_organizationID j) ->
     coalesce (c_subject_id c) = coalesce (pj_subjectID j) -> confined tenant a s (job_scope job) c) ->
  exists m, messages (ed_jobs (su_events s')) !! id = Some m /\ c_queue (m_columns m) = job_queue job /\
    confined tenant a s (job_scope job) (m_columns m) /\
    (disp = DISPOSITION_INSERTED -> messages (ed_jobs (su_events s)) !! id = None /\
       forall k, c_attributes (m_columns m) !! k =
         if reserved_key k then Attributes format_uint (JobAuthority a) !! k else job_attributes job !! k) /\
    (forall i, i <> id -> messages (ed_jobs (su_events s')) !! i = messages (ed_jobs (su_events s)) !! i) /\
    (disp = DISPOSITION_DUPLICATE ->
       messages (ed_jobs (su_events s')) = messages (ed_jobs (su_events s))).
Proof.
  intros Hinv H Hscope. apply on_jobs_ok in H as (d' & H & ->). cbn [su_events set_replica] in H.
  unfold PostgresStore_EnqueueJob in H. apply tx_bind_ok in H as (j & d0 & Hj & He).
  apply tx_lift_ok in Hj as [Hj ->]. apply prepare_fields in Hj as (Hjq & Hja & Hjs).
  apply enqueued_one in He as [m [Hrole Hrow Hrest Hid Hnew Hold]]; [|done].
  unfold identity_of in Hid. injection Hid as Hdir Hkind Horg Hsub Hqueue _ _.
  cbn [er_job StampModuleJob job_queue] in Hjq.
  exists m. split_and!; [done|congruence|by eapply Hscope| |done|done].
  intros Hd. destruct (Hnew Hd) as [Hn Hat]. split; [done|]. intros k. rewrite Hat, Hja. cbn [er_job].
  destruct (reserved_key k) eqn:Hk; [by apply stamp_reserved|by apply stamp_free].
Qed.

(** C15. A module's job stays inside its authority: an accepted enqueue was decided for
    the caller, names a queue of the grant and the caller's own organization; the row it
    answers is on that queue and for that organization, for a member of it, or - with the
    cross-tenant grant - global; a new row carries exactly the current authority under
    the reserved attribute keys and the request's own values elsewhere; and no other row
    has changed. *)
Theorem enqueue_stays_inside rd w caller tenant req s id disp s' :
  queue_inv (ed_jobs (su_events s)) ->
  Enqueue rd w caller tenant req s = (Ok (id, disp), s') ->
  exists a r job, AuthorizeModuleCapability rd caller (su_replica s) = (Ok a, r) /\ req = Some job /\
    tenant = mc_BoundOrg caller /\ allowsQueue (ca_Grant a) (job_queue job) = true /\
  exists m, messages (ed_jobs (su_events s')) !! id = Some m /\ c_queue (m_columns m) = job_queue job /\
    confined tenant a s (job_scope job) (m_columns m) /\
    (disp = DISPOSITION_INSERTED -> messages (ed_jobs (su_events s)) !! id = None /\
       forall k, c_attributes (m_columns m) !! k =
         if reserved_key k then Attributes format_uint (JobAuthority a) !! k else job_attributes job !! k) /\
    (forall i, i <> id -> messages (ed_jobs (su_events s')) !! i = messages (ed_jobs (su_events s)) !! i) /\
    (disp = DISPOSITION_DUPLICATE ->
       messages (ed_jobs (su_events s')) = messages (ed_jobs (su_events s))).
Proof.
  intros Hinv H. apply authorized_ok in H as (a & r & Ha & H).
  apply unless_ok in H as [Ht H]. apply tenant_bound in Ht. destruct req as [job|]; [|done].
  apply unless_ok in H as [Hq H]. cbv zeta in H. exists a, r, job. split_and!; [done..|].
  destruct (job_scope job) as [org|user|] eqn:Hs; apply unless_ok in H as [Hg H]; rewrite <- Hs.
  - apply unless_ok in H as [Ho%bool_decide_eq_true_1 H]. eapply stamped_enqueue; [exact Hinv|exact H|].
    rewrite Hs; cbn [confined]. intros j c Hr%tenant_may_enqueue -> Hv -> -> ->. cbn in Hv.
    destruct (parse_uuid org) eqn:Hu; [|done]. injection Hv as <- <- <-. subst org. by rewrite Hu.
  - unfold requireTenantMember in H. cbn [su_members set_replica] in H. case_bool_decide as Hm; [|done].
    eapply stamped_enqueue; [exact Hinv|exact H|].
    rewrite Hs; cbn [confined]. intros j c Hr%tenant_may_enqueue -> Hv -> -> ->. cbn in Hv.
    destruct (parse_uuid user) eqn:Hu; [|done]. by injection Hv as <- <- <-.
  - change (PostgresJobStore_EnqueueJob base64url fingerprint ValidateCommand parse_uuid w
      {| er_job := StampModuleJob format_uint job (JobAuthority a) |}) with
      (PostgresStore_EnqueueJob base64url fingerprint ValidateCommand parse_uuid w app_job_worker true
      {| er_job := StampModuleJob format_uint job (JobAuthority a) |}) in H.
    eapply stamped_enqueue; [exact Hinv|exact H|].
    rewrite Hs; cbn [confined]. intros j c _ _ Hv -> _ _. cbn in Hv. by injection Hv as <- _ _.
Qed.

(** Work attributable to an organization: nothing on the row names another one, and
    something on it names this one, unless the row is global and the claim takes those. *)
Definition attributable (org : string) (cross_tenant : bool) (c : JobColumns) : Prop :=
  (forall o, c_organization_id c = Some o -> o = org) /\
  (forall h, c_attributes c !! "codefly.organization_id" = Some h -> h = "" \/ h = org) /\
  (forall h, c_attributes c !! "datasource.org_id" = Some h -> h = "" \/ h = org) /\
  (c_organization_id c = Some org \/ c_attributes c !! "codefly.organization_id" = Some org \/
   c_attributes c !! "datasource.org_id" = Some org \/
   (c_scope_kind c = "global" /\ cross_tenant = true)).

Lemma hint_agrees hint org : org_hint_agrees hint org = true -> forall h, hint = Some h -> h = "" \/ h = org.
Proof.
  unfold org_hint_agrees. intros H h ->. apply orb_true_iff in H as [H|H];
    apply bool_decide_eq_true_1 in H; auto.
Qed.
Lemma hint_named hint org :
  org_hint_agrees hint org = true -> nonempty_hint hint = true -> hint = Some org.
Proof.
  intros H Hn. destruct hint as [h|]; [|done]. cbn in Hn. apply negb_true_iff, bool_decide_eq_false_1 in Hn.
  by destruct (hint_agrees _ _ H h eq_refl) as [-> | ->].
Qed.
Lemma tenant_agrees_attributable c org cross :
  tenant_agrees c org cross = true -> attributable org cross c.
Proof.
  unfold tenant_agrees. rewrite !andb_true_iff, !orb_true_iff. intros [[[Ho H1] H2] H3].
  assert (forall o, c_organization_id c = Some o -> o = org) as Horg.
  { intros o Heq. rewrite Heq in Ho. by apply bool_decide_eq_true_1 in Ho. }
  split_and!; [done|by apply hint_agrees|by apply hint_agrees|].
  destruct H3 as [[[H3|H3]|H3]|H3].
  - left. destruct (c_organization_id c) as [o|]; [|done]. by rewrite (Horg o eq_refl).
  - right; left. by apply hint_named.
  - do 2 right; left. by apply hint_named.
  - do 3 right. apply andb_true_iff in H3 as [H3%bool_decide_eq_true_1 ->]. done.
Qed.

Lemma stamped_org a : Attributes format_uint (JobAuthority a) !! "codefly.organization_id"
  = Some (mc_BoundOrg (ca_Caller a)).
Proof. unfold Attributes. by rewrite lookup_insert_ne, lookup_insert_eq. Qed.

(** C16. A module claims its own work only: every job a claim answers was decided for the
    caller, is on a queue of the grant - the requested one - and now processes under the
    caller's current stamp, which was live when it was leased; and it is attributable to
    the caller's organization: no column or attribute of it names another organization,
    and one names this one unless the job is global and the grant is cross-tenant. *)
Theorem claims_stay_inside rd w caller req s es s' :
  queue_inv (ed_jobs (su_events s)) ->
  ClaimFor rd w caller req s = (Ok es, s') ->
  exists a r, AuthorizeModuleCapability rd caller (su_replica s) = (Ok a, r) /\
    allowsQueue (ca_Grant a) (cr_queue req) = true /\
    forall e, e ∈ es -> exists m,
      messages (ed_jobs (su_events s')) !! e_id e = Some m /\ c_queue (m_columns m) = cr_queue req /\
      m_state m = "processing" /\
      m_consumer_authority m = Some (Attributes format_uint (JobAuthority a)) /\
      jw_module_current w (Attributes format_uint (JobAuthority a)) = true /\
      attributable (mc_BoundOrg caller) (g_CrossTenant (ca_Grant a)) (m_columns m).
Proof.
  intros Hinv H. apply authorized_ok in H as (a & r & Ha & H). pose proof (authority_caller _ _ _ _ _ Ha) as Hca.
  apply unless_ok in H as [Hq H]. apply on_jobs_ok in H as (d' & H & ->).
  exists a, r. split_and!; [done..|]. cbn [su_events set_event_db ed_jobs set_jobs set_replica] in *.
  apply claim_phases in H as (d1 & d2 & u1 & u2 & _ & _ & _ & _ & Hi2 & H & _); [|done].
  apply claimJobs_ok in H as (_ & _ & Hes & _ & Hin & _); [|done].
  set (l := candidates _ _ _ _ _ _) in *.
  apply scan_all_ok in Hes; [|intros id (m & Hm & <-)%ids_of_elem; by destruct (Hin m Hm) as (_ & _ & -> & _)].
  intros e He. apply list_elem_of_lookup in He as [n Hn].
  destruct (Forall2_lookup_r _ _ _ _ _ Hes Hn) as (id & Hid & m' & Hm' & Hscan).
  apply list_elem_of_lookup_2, ids_of_elem in Hid as (m & Hm & <-).
  destruct (Hin m Hm) as (_ & _ & Hrow & _). rewrite Hrow in Hm'. injection Hm' as <-.
  apply scanned in Hscan as (Hid & _).
  destruct (stamped_fields (jw_now w) m (claimed_row format_uint w (Some (JobAuthority a)) req m)) as (Hc & Hst & _ & _ & _ & _ & Hau & _).
  destruct (candidates_elem _ _ _ _ _ _ _ Hi2 Hm) as (_ & Hcl & _).
  apply claimable_queued in Hcl as (Hqueue & _ & Had & _).
  rewrite Hid, Hc. exists (stamped (jw_now w) m (claimed_row format_uint w (Some (JobAuthority a)) req m)).
  rewrite Hc. unfold authority_admits in Had. cbn [moduleClaimStamp] in Had. rewrite stamped_org in Had.
  apply andb_true_iff in Had as [_ [Hcur Htn]%andb_true_iff]. cbn [default ma_AllowsGlobal JobAuthority] in Htn.
  split_and!; try done.
  rewrite <- Hca. by apply tenant_agrees_attributable.
Qed.

(** ** Events *)
(** The envelope the host publishes for a module: the authorized tenant in place of the
    written one, and the declared partition where the module set none. *)
Definition published_as (e : EventEnvelope) (declared : PublishedEvent) (tenant : string) : EventEnvelope :=
  addressed e tenant (if decide (ev_PartitionKey e = "")
                      then ResolvePartition (pe_Partition declared) tenant (ev_BoundaryId e)
                      else ev_PartitionKey e).

(** C17. A module publishes what it declared, for its own tenant: an accepted publish was
    decided for the caller, is in a namespace of the grant and of a type of the composed
    catalog, with a subject when the type is followable; whatever tenant the envelope
    named, the row it leaves carries the caller's own, and the partition key the caller set,
    or the one the type declares if it set none - or the very fact was published before and
    no row changes; jobs and subscriptions are untouched. *)
Theorem publish_stays_in_tenant rd now env caller tenant envelope s id s' :
  PublishFor rd now env caller tenant envelope s = (Ok id, s') ->
  exists a r e declared key org,
    AuthorizeModuleCapability rd caller (su_replica s) = (Ok a, r) /\ envelope = Some e /\ id = ev_Id e /\
    tenant = mc_BoundOrg caller /\ allowsNamespace (ca_Grant a) (Namespace (ev_Type e)) = true /\
    LookupPublished published (ev_Type e) = Some declared /\
    (ev_Subject e = "" -> LookupFollowable followable (ev_Type e) = None) /\
    parse_uuid id = Some key /\ parse_uuid tenant = Some org /\
    let print := eventFingerprint digest (published_as e declared tenant) in
    let d := su_events s in let d' := su_events s' in
    ((ed_events d !! key = None /\
      ed_events d' = <[key := fresh_event (event_columns key (ed_next_seq d) (Some org) now
                                 (published_as e declared tenant) print)]> (ed_events d)) \/
     (ed_events d' = ed_events d /\ exists row, ed_events d !! key = Some row /\
        dc_request_fingerprint (de_columns row) = print)) /\
    ed_jobs d' = ed_jobs d /\ ed_subscriptions d' = ed_subscriptions d.
Proof.
  intros H. apply authorized_ok in H as (a & r & Ha & H). apply unless_ok in H as [_ H].
  destruct envelope as [e|]; [|done]. apply unless_ok in H as [Htn H]. apply unless_ok in H as [Ht H].
  apply unless_ok in H as [Hn H]. destruct (LookupPublished _ _) as [declared|] eqn:Hd; [|done].
  apply unless_ok in H as [Hs H]. cbv zeta in H. fold (published_as e declared tenant) in H.
  apply tenant_bound in Ht. apply negb_true_iff, bool_decide_eq_false_1 in Htn.
  unfold Publish in H. destruct (_ || _); [done|].
  destruct (insertDomainEvent _ _ _ _ _ _) as [[u d']|err] eqn:Hi; [|done]. injection H as <- <-.
  apply insertDomainEvent_ok in Hi as (key & org & Hkey & Horg & _ & Hrows).
  unfold nullableUUID in Horg. change (ev_TenantId (published_as e declared tenant)) with tenant in Horg.
  rewrite decide_False in Horg by done. destruct Horg as (o & Ho & ->).
  exists a, r, e, declared, key, o. split_and!; try done.
  - intros Hsub. unfold missingFollowableSubject in Hs. rewrite bool_decide_true in Hs by done.
    apply negb_true_iff, bool_decide_eq_false_1, eq_None_not_Some in Hs. done.
  - cbv zeta. destruct Hrows as [[Hnone ->]|[-> Hrow]]; split_and!; try done; [by left|by right].
Qed.

(** ** Subscriptions over a run *)
(** What a pattern admitted under the catalog does not match. *)
Record admissible (row : EventSubscriptionRow) : Prop := {
  ad_internal : forall t, t ∈ InternalPublishedTypes published -> Matches (es_type_pattern row) t = false;
  ad_platform : forall t, Namespace t = PlatformAuditNamespace -> Matches (es_type_pattern row) t = false;
  ad_ordered : es_delivery row = DeliveryOrdered ->
    forall t, t ∈ UnorderedPublishedTypes published -> Matches (es_type_pattern row) t = false;
}.

Definition same_terms (x y : EventSubscriptionRow) : Prop :=
  es_subscriber_principal_id x = es_subscriber_principal_id y /\ es_type_pattern x = es_type_pattern y /\
  es_delivery x = es_delivery y /\ es_queue x = es_queue y.

(** What writes the table: modules that subscribe and unsubscribe, and the endpoints of
    an organization; everything else (publishing, the relay, replays, jobs) leaves it. *)
Inductive surface_step (s s' : Surface) : Prop :=
| step_subscribe rd new_id now caller pattern queue delivery r :
    SubscribeFor rd new_id now caller pattern queue delivery s = (r, s') -> surface_step s s'
| step_unsubscribe rd now caller id r :
    ModuleUnsubscribe audit rd now caller id s = (r, s') -> surface_step s s'
| step_sync role new_id now org webhook names d :
    SyncWebhookEventSubscriptions role new_id now org webhook names (su_events s) = Ok d ->
    s' = set_event_db d s -> surface_step s s'
| step_elsewhere :
    ed_subscriptions (su_events s') = ed_subscriptions (su_events s) -> surface_step s s'.

Lemma failed_keeps rd caller A (h : Handler A) s e s' :
  decided rd caller h -> h s = (Err e, s') -> su_events s' = su_events s.
Proof.
  intros Hd H. specialize (Hd s). destruct (AuthorizeModuleCapability _ _ _) as [[a|x] r].
  - by rewrite (Hd _ _ H).
  - rewrite Hd in H. by injection H as _ <-.
Qed.
Lemma emitTx_tables e s s' : emitTx audit e s = Ok s' -> su_events s' = su_events s.
Proof. unfold emitTx. repeat case_match; intros; by simplify_eq. Qed.

Lemma asked_ordered delivery kind :
  principal_delivery delivery = Some kind -> delivery = "ordered" <-> kind = DeliveryOrdered.
Proof.
  unfold principal_delivery. case_decide as Hu; [|case_decide as Ho]; intros [= <-]; split; try done.
  intros ->. by destruct Hu.
Qed.
Lemma subscribe_ok rd new_id now caller pattern queue delivery s row s' :
  SubscribeFor rd new_id now caller pattern queue delivery s = (Ok row, s') ->
  same_subscription (mc_PrincipalID caller) pattern queue row /\
  (ed_subscriptions (su_events s') = ed_subscriptions (su_events s) \/
   (ed_subscriptions (su_events s') = <[new_id := row]> (ed_subscriptions (su_events s)) /\
    (delivery = "ordered" <-> es_delivery row = DeliveryOrdered))) /\
  matches_any pattern (InternalPublishedTypes published) = false /\
  Namespace pattern <> PlatformAuditNamespace /\
  (delivery = "ordered" ->
     matches_any pattern (UnorderedPublishedTypesInNamespace published (Namespace pattern)) = false).
Proof.
  intros H. apply authorized_ok in H as (a & r & Ha & H). apply unless_ok in H as [_ H].
  apply unless_ok in H as [Hi%negb_true_iff H].
  apply unless_ok in H as [Hp%negb_true_iff%bool_decide_eq_false_1 H].
  apply unless_ok in H as [Ho%negb_true_iff H].
  destruct (CreateEventSubscription _ _ _ _ _ _ _ _) as [[[x ins] d]|] eqn:Hc; [|done].
  apply create_ok in Hc as [Hsame Hc].
  assert (delivery = "ordered" -> matches_any pattern
    (UnorderedPublishedTypesInNamespace published (Namespace pattern)) = false) as Hord.
  { intros ->. by rewrite bool_decide_true in Ho. }
  destruct ins.
  - destruct Hc as (_ & _ & Hk & _ & ->). destruct (emitTx _ _ _) as [s1|] eqn:He; [|done].
    injection H as <- <-. apply emitTx_tables in He. rewrite He. split; [done|]. split_and!; [|done..].
    right. split; [done|]. by apply asked_ordered.
  - injection H as <- <-. split; [done|]. split_and!; [by left|done..].
Qed.

Lemma subscribe_decided rd new_id now caller pattern queue delivery :
  decided rd caller (SubscribeFor rd new_id now caller pattern queue delivery).
Proof. apply authorized_decided. intros a. fails_whole. Qed.
Lemma unsubscribe_decided rd now caller id : decided rd caller (ModuleUnsubscribe audit rd now caller id).
Proof. apply authorized_decided. intros a. fails_whole. Qed.

(** A row a principal holds after a step: one there was before, revoked at most, or one
    the catalog admits. *)
Lemma step_rows s s' id row :
  surface_step s s' -> ed_subscriptions (su_events s') !! id = Some row ->
  is_Some (es_subscriber_principal_id row) ->
  (exists row0, ed_subscriptions (su_events s) !! id = Some row0 /\ same_terms row0 row) \/ admissible row.
Proof.
  intros [rd new_id now caller pattern queue delivery r H|rd now caller i r H|role new_id now org webhook names d H ->|H].
  - destruct r as [x|e]; [|rewrite (failed_keeps _ _ _ _ _ _ _ (subscribe_decided _ _ _ _ _ _ _) H);
      intros Hr _; left; by exists row].
    apply subscribe_ok in H as ((Hw & Hpat & _) & Hrows & Hi & Hp & Ho).
    destruct Hrows as [->|[-> Hd]]; [intros Hr _; left; by exists row|].
    rewrite lookup_insert_Some. intros [[_ <-]|[_ Hx]] _; [right|left; by exists row].
    constructor; rewrite Hpat.
    + by apply matches_any_false.
    + intros t Ht. apply not_true_iff_false. intros Hm%Matches_namespace. congruence.
    + intros Hk. apply matches_any_namespace, Ho, Hd, Hk.
  - destruct r as [u|e]; [|rewrite (failed_keeps _ _ _ _ _ _ _ (unsubscribe_decided _ _ _ _) H);
      intros Hr _; left; by exists row].
    apply authorized_ok in H as (a & r & Ha & H).
    destruct (RevokeEventSubscription _ _ _ _) as [[] d] eqn:Hr; [|done].
    destruct (emitTx _ _ _) as [s1|] eqn:He; [|done]. injection H as <- <-. apply emitTx_tables in He.
    apply revoke_ok in Hr as (row0 & Hrow & _ & _ & ->). rewrite He. cbn.
    rewrite lookup_insert_Some. intros [[<- <-]|[_ Hx]] _; left; [by exists row0|by exists row].
  - intros Hx Hs. destruct (sync_ok _ _ _ _ _ _ _ _ _ _ H Hx) as [Hk|Hk]; [left; by exists row|].
    rewrite Hk in Hs. by destruct Hs.
  - rewrite H. intros Hr _. left. by exists row.
Qed.
End Surface.

(** ** What reaches a module

    The catalog is the build's: over a run it changes with every deployment.  [in_force]
    says which catalogs the servers ran with. *)
Section Delivery.
Context (base64url : string -> string) (fingerprint : string -> Command -> string)
        (ValidateCommand : Command -> result JobError unit) (parse_uuid : string -> option string)
        (webhooks : option (RelayWorld -> EventEnvelope -> Subscription -> E WebhookDeliveryOutcome)).
Context (dispatches : forall deliver, webhooks = Some deliver -> WebhookDispatcher deliver).
Context (in_force : list PublishedEvent -> Prop).

Definition some_step (s s' : Surface) : Prop :=
  exists published audit, in_force published /\ surface_step published audit s s'.
(** Held since before the run, or admitted under a catalog in force. *)
Definition admitted (s0 : Surface) (id : string) (row : EventSubscriptionRow) : Prop :=
  (exists row0, ed_subscriptions (su_events s0) !! id = Some row0 /\ same_terms row0 row) \/
  exists published, in_force published /\ admissible published row.

Lemma same_terms_admissible published row0 row :
  same_terms row0 row -> admissible published row0 -> admissible published row.
Proof. intros (_ & Hp & Hd & _) [H1 H2 H3]. rewrite Hp in *. rewrite Hd in *. by constructor. Qed.
Lemma run_admitted s0 s id row :
  rtc some_step s0 s -> ed_subscriptions (su_events s) !! id = Some row ->
  is_Some (es_subscriber_principal_id row) -> admitted s0 id row.
Proof.
  intros Hrun Hrow Hp. induction Hrun as [s|s0 s1 s (published & audit & Hf & Hstep) _ IH].
  { left. exists row. by split. }
  destruct (IH Hrow) as [(row1 & H1 & Ht)|Ha]; [|by right].
  destruct (step_rows _ _ _ _ id row1 Hstep H1) as [(row0 & H0 & Ht')|Ha].
  - by rewrite (proj1 Ht).
  - left. exists row0. split; [done|]. unfold same_terms in *. intuition congruence.
  - right. exists published. split; [done|]. by eapply same_terms_admissible.
Qed.

(** C18. What a module can be sent: whatever modules and organizations did to the
    subscription table under whichever catalogs were in force, and whatever rows it held
    before, relaying an event - with any webhook dispatcher that keeps [WebhookDispatcher] - adds no inbox job when the relay's own catalog keeps its type
    internal, none when the type is of the platform's namespace, and otherwise only jobs on
    the queue of a live subscription that matches the type; if a principal holds that
    subscription, it either dates from before the run, or was admitted under a catalog in
    force that did not keep the type internal and, for an ordered subscription, declared a
    partition for it if it knew it. *)
Theorem modules_receive_what_was_admitted published s0 s w e types d u d' :
  rtc some_step s0 s ->
  relayEvent base64url fingerprint ValidateCommand parse_uuid published webhooks w e
    (liveSubscriptions types (su_events s)) d = Ok (u, d') ->
  appends (fun c => c_direction c <> "outbox" ->
    IsInternalPublished published (ev_Type e) = false /\ Namespace (ev_Type e) <> PlatformAuditNamespace /\
    exists id row, ed_subscriptions (su_events s) !! id = Some row /\ es_revoked_at row = None /\
      Matches (es_type_pattern row) (ev_Type e) = true /\ c_queue c = es_queue row /\
      (is_Some (es_subscriber_principal_id row) ->
        (exists row0, ed_subscriptions (su_events s0) !! id = Some row0 /\ same_terms row0 row) \/
        exists admitting, in_force admitting /\ (ev_Type e ∉ InternalPublishedTypes admitting) /\
          (es_delivery row = DeliveryOrdered -> ev_Type e ∉ UnorderedPublishedTypes admitting)))
    (ed_jobs d) (ed_jobs d').
Proof.
  intros Hrun H. apply (relayEvent_ok _ _ _ _ _ _ dispatches) in H. eapply appends_impl; [|apply (rel_jobs _ _ _ _ _ _ _ _ _ H)].
  intros c (Hi & _ & [Ho|(sub & Hsub & (Hm & _ & Hn) & Hc)]) Hin; [done|]. split_and!; [done..|].
  unfold liveSubscriptions in Hsub. apply list_elem_of_fmap in Hsub as (row & -> & [Hlive Hrow]%list_elem_of_filter).
  apply list_elem_of_fmap in Hrow as ([id row'] & -> & Hrow%elem_of_map_to_list). cbn [snd] in *.
  exists id, row'. split_and!; [done| |done|by rewrite (ca_queue _ _ _ _ _ _ _ Hc)|].
  - unfold live_subscription in Hlive. by destruct (es_revoked_at row').
  - intros Hp. destruct (run_admitted _ _ _ _ Hrun Hrow Hp) as [?|(cat & Hf & [H1 _ H3])]; [by left|right].
    exists cat. split_and!; [done| |].
    + intros Ht. cbn in Hm. by rewrite (H1 _ Ht) in Hm.
    + intros Hd Ht. cbn in Hm. by rewrite (H3 Hd _ Ht) in Hm.
Qed.
End Delivery.

(** ** A concrete host, continued

    The module of ModuleAuthorityTheorems.v acting for [org], over a catalog with one
    partitioned, one unpartitioned and one internal type. *)
Module SurfaceRun.
Definition entry (type visibility partition : string) : PublishedEvent :=
  {| pe_Type := type; pe_Namespace := "notes"; pe_Visibility := visibility; pe_Partition := partition |}.
Definition catalog : list PublishedEvent :=
  [entry "notes.created" "external" "{tenant_id}"; entry "notes.viewed" "tenant" "";
   entry "notes.indexed" "internal" ""].
Definition start : Surface :=
  {| su_replica := host_replica; su_events := EventRun.start []; su_members := {[("org", "u1")]};
     su_audit := [] |}.
Definition rd : Reads := reads_of host_db.

Definition work (queue : string) (scope : JobScope) : NewJob :=
  {| job_direction := JOB_DIRECTION_OUTBOX; job_scope := scope; job_queue := queue; job_topic := "t";
     job_source := "notes"; job_idempotency_key := "k1"; job_ordering := None; job_schema_version := 1;
     job_payload := "p"; job_content_type := "text";
     job_attributes := {["codefly.installation_id" := "forged"; "colour" := "blue"]};
     job_priority := 0; job_max_attempts := 2; job_available_at := None |}.
Definition enqueue (queue : string) (scope : JobScope) : Handler EnqueueResponse :=
  ModuleEnqueueJob QueueRun.fmt QueueRun.b64 QueueRun.print QueueRun.valid QueueRun.uuid rd
    (QueueRun.world 1 "A") notes_caller "org" (Some (work queue scope)).
Definition claim (queue : string) : Handler (list JobEnvelope) :=
  ModuleClaimJobs QueueRun.fmt QueueRun.valid rd (QueueRun.world 2 "c") notes_caller
    {| cr_queue := queue; cr_worker_id := "w"; cr_limit := 10; cr_lease_duration := 100 |}.
Definition note : EventEnvelope :=
  {| ev_Id := "n1"; ev_Type := "notes.created"; ev_Source := "notes"; ev_Subject := "n/1";
     ev_Time := Some 1234567; ev_Specversion := "1.0"; ev_Datacontenttype := ""; ev_Dataschema := "";
     ev_Data := "data"; ev_TenantId := "other-org"; ev_BoundaryId := ""; ev_PartitionKey := "";
     ev_CorrelationId := ""; ev_CausationId := ""; ev_ActorPrincipalId := ""; ev_OwnerPrincipalId := "";
     ev_Traceparent := ""; ev_SchemaVersion := 0 |}.
Definition digest (e : EventEnvelope) : string := EventRun.print.
Definition publish : Handler string :=
  ModulePublishEvent QueueRun.b64 QueueRun.print QueueRun.valid QueueRun.uuid catalog [] digest None true rd 1
    (fun n => EventRun.world 1 ∅ EventRun.no_fault) notes_caller "org" (Some note).
Definition subscribe (id pattern delivery : string) : Handler EventSubscriptionRow :=
  ModuleSubscribe catalog None rd id 5 notes_caller pattern "notes-work" delivery.
Definition after {A} (h : Handler A) (s : Surface) : Surface := snd (h s).

Lemma ran {A} (h : Handler A) s : is_ok (h s).1 = true -> exists a, h s = (Ok a, after h s).
Proof. unfold after. destruct (h s) as [[a|e] s']; [by eexists|done]. Qed.

Definition enqueued : Surface := after (enqueue "notes-work" (JobScope_OrganizationId "org")) start.
Definition subscribed : Surface := after (subscribe "s1" "notes.created" "ordered") start.

(** The relay carries the event to the subscription. *)
Definition relay_note : E unit :=
  relayEvent QueueRun.b64 QueueRun.print QueueRun.valid QueueRun.uuid catalog None (EventRun.world 6 ∅ EventRun.no_fault)
    note (liveSubscriptions ["notes.created"] (su_events subscribed)).
Definition relayed : EventDb := EventRun.after relay_note (su_events subscribed).
Lemma relay_runs : relay_note (su_events subscribed) = Ok (tt, relayed).
Proof. vm_compute. reflexivity. Qed.
Definition created : EventSubscriptionRow :=
  {| es_id := "s1"; es_subscriber_principal_id := Some "p-notes"; es_type_pattern := "notes.created";
     es_queue := "notes-work"; es_delivery := DeliveryOrdered; es_created_by := Some "p-notes"; es_created_at := 5;
     es_revoked_at := None; es_org_id := None; es_webhook_subscription_id := None |}.
Definition svc : Approvals.Service := ApprovalsTheorems.Run.svc.
Definition no_approvals : Approvals.Db (Json := string) := ApprovalsTheorems.Run.d0.

Example refused_queue : (enqueue "notes-mail" (JobScope_OrganizationId "org") start).1 = Err (Answer CodePermissionDenied).
Proof. by vm_compute. Qed.
Example refused_tenant : (enqueue "notes-work" (JobScope_OrganizationId "other-org") start).1 = Err (Answer CodeInvalidArgument).
Proof. by vm_compute. Qed.
Example refused_subject : (enqueue "notes-work" (JobScope_SubjectId "u2") start).1 = Err (Answer CodeFailedPrecondition).
Proof. by vm_compute. Qed.
Example refused_internal : (subscribe "s1" "notes.*" "" start).1 = Err (Answer CodePermissionDenied).
Proof. by vm_compute. Qed.
Example refused_platform : (subscribe "s1" "saas.user.*" "" start).1 = Err (Answer CodePermissionDenied).
Proof. by vm_compute. Qed.
Example refused_ordered : (subscribe "s1" "notes.viewed" "ordered" start).1 = Err (Answer CodeFailedPrecondition).
Proof. by vm_compute. Qed.
End SurfaceRun.

Lemma empty_queue_start : queue_inv (ed_jobs (su_events SurfaceRun.start)).
Proof. apply empty_inv. Qed.

Lemma enqueue_stays_inside_witness :
  exists m, messages (ed_jobs (su_events SurfaceRun.enqueued)) !! "job-A" = Some m /\
    c_attributes (m_columns m) !! "codefly.installation_id" = Some "inst-1" /\
    c_attributes (m_columns m) !! "colour" = Some "blue".
Proof.
  assert (SurfaceRun.enqueue "notes-work" (JobScope_OrganizationId "org") SurfaceRun.start
    = (Ok ("job-A", DISPOSITION_INSERTED), SurfaceRun.enqueued)) as Hrun by (vm_compute; reflexivity).
  unfold SurfaceRun.enqueue in Hrun.
  destruct (enqueue_stays_inside _ _ _ _ _ _ _ _ _ _ _ _ _ _ empty_queue_start Hrun)
    as (a & r & job & Ha & Hjob & _ & _ & m & Hm & _ & _ & Hnew & _).
  exists m. split; [done|]. destruct (Hnew eq_refl) as [_ Hat]. rewrite !Hat. injection Hjob as <-.
  vm_compute in Ha. injection Ha as <- _. split; vm_compute; reflexivity.
Defined.

Lemma enqueued_inv : queue_inv (ed_jobs (su_events SurfaceRun.enqueued)).
Proof.
  destruct (SurfaceRun.ran (SurfaceRun.enqueue "notes-work" (JobScope_OrganizationId "org")) SurfaceRun.start)
    as [x Hx]; [vm_compute; reflexivity|].
  apply authorized_ok in Hx as (a & r & _ & Hx). apply unless_ok in Hx as [_ Hx].
  apply unless_ok in Hx as [_ Hx]. cbv zeta in Hx. cbn [SurfaceRun.work job_scope] in Hx.
  apply unless_ok in Hx as [_ Hx]. apply unless_ok in Hx as [_ Hx].
  apply on_jobs_ok in Hx as (d & Hx & He). unfold SurfaceRun.enqueued. rewrite He.
  eapply rtc_moves_inv; [exact empty_queue_start|]. eapply (queue_step_moves QueueRun.fmt);
    [exact empty_queue_start|].
  eapply q_enqueue, Hx.
Qed.

Lemma claims_stay_inside_witness :
  exists es s', SurfaceRun.claim "notes-work" SurfaceRun.enqueued = (Ok es, s') /\ length es = 1%nat /\
    forall e, e ∈ es -> exists m, messages (ed_jobs (su_events s')) !! e_id e = Some m /\
      attributable "org" false (m_columns m).
Proof.
  destruct (SurfaceRun.ran (SurfaceRun.claim "notes-work") SurfaceRun.enqueued) as [es Hes]; [vm_compute; reflexivity|].
  exists es, (SurfaceRun.after (SurfaceRun.claim "notes-work") SurfaceRun.enqueued). split; [done|]. split.
  { vm_compute in Hes. injection Hes as <-. reflexivity. }
  unfold SurfaceRun.claim in Hes at 1.
  destruct (claims_stay_inside _ _ _ _ _ _ _ _ _ enqueued_inv Hes) as (a & r & Ha & _ & Hall).
  intros e He. destruct (Hall e He) as (m & Hm & _ & _ & _ & _ & Hat). exists m. split; [done|].
  enough (g_CrossTenant (ca_Grant a) = false) as Hf by (rewrite Hf in Hat; exact Hat).
  assert ((AuthorizeModuleCapability SurfaceRun.rd notes_caller (su_replica SurfaceRun.enqueued)).1
    = Ok notes_authority) as Hb by (vm_compute; reflexivity).
  rewrite Ha in Hb. cbn in Hb. injection Hb as ->. reflexivity.
Defined.

Lemma publish_stays_in_tenant_witness :
  exists row, ed_events (su_events (SurfaceRun.after SurfaceRun.publish SurfaceRun.start)) !! "n1" = Some row /\
    dc_tenant_id (de_columns row) = Some "org" /\ dc_partition_key (de_columns row) = "org".
Proof.
  assert (SurfaceRun.publish SurfaceRun.start
    = (Ok "n1", SurfaceRun.after SurfaceRun.publish SurfaceRun.start)) as Hrun by (vm_compute; reflexivity).
  unfold SurfaceRun.publish in Hrun at 1.
  destruct (publish_stays_in_tenant _ _ _ _ _ _ _ _ _ _ _ _ _ _ _ _ _ _ Hrun)
    as (a & r & e & declared & key & org & _ & He & _ & _ & _ & Hd & _ & Hkey & Horg & Hrows & _).
  injection He as <-. injection Hkey as <-. injection Horg as <-. vm_compute in Hd. injection Hd as <-.
  destruct Hrows as [[_ ->]|[_ (row & Hrow & _)]]; [|vm_compute in Hrow; discriminate].
  eexists. split; [apply lookup_insert_eq|]. split; vm_compute; reflexivity.
Defined.

Lemma modules_receive_what_was_admitted_witness :
  exists m, messages (ed_jobs SurfaceRun.relayed) !! "job-n1:s1" = Some m /\
    c_queue (m_columns m) = "notes-work" /\ Namespace "notes.created" <> PlatformAuditNamespace /\
    ("notes.created" ∉ InternalPublishedTypes SurfaceRun.catalog).
Proof.
  assert (rtc (some_step (eq SurfaceRun.catalog)) SurfaceRun.start SurfaceRun.subscribed) as Hrun.
  { apply rtc_once. exists SurfaceRun.catalog, None. split; [done|].
    eapply (step_subscribe _ _ _ _ SurfaceRun.rd "s1" 5 notes_caller "notes.created" "notes-work" "ordered").
    apply surjective_pairing. }
  destruct (modules_receive_what_was_admitted QueueRun.b64 QueueRun.print QueueRun.valid QueueRun.uuid None
    ltac:(done) _ SurfaceRun.catalog SurfaceRun.start SurfaceRun.subscribed _ SurfaceRun.note ["notes.created"] _ _ _
    Hrun SurfaceRun.relay_runs) as (_ & _ & Hnew).
  destruct (messages (ed_jobs SurfaceRun.relayed) !! "job-n1:s1") as [m|] eqn:Hm; [|exfalso; vm_compute in Hm; discriminate].
  exists m. split; [done|]. destruct (Hnew _ _ Hm) as [Hold|(_ & Hp & _)]; [exfalso; vm_compute in Hold; discriminate|].
  assert (c_direction (m_columns m) = "inbox") as Hd by (vm_compute in Hm; injection Hm as <-; reflexivity).
  destruct Hp as (_ & Hn & id & row & Hrow & _ & _ & Hq & Ha); [by rewrite Hd|].
  assert (id = "s1") as ->.
  { destruct (decide (id = "s1")) as [|Hne]; [done|]. exfalso.
    replace (ed_subscriptions (su_events SurfaceRun.subscribed)) with
      ({["s1" := SurfaceRun.created]} : gmap string EventSubscriptionRow) in Hrow by (vm_compute; reflexivity).
    by rewrite lookup_singleton_ne in Hrow. }
  vm_compute in Hrow. injection Hrow as <-. split; [exact Hq|]. split; [exact Hn|].
  destruct Ha as [(r0 & Hr0 & _)|(cat & <- & Hi & _)]; [by eexists|exfalso; vm_compute in Hr0; discriminate|exact Hi].
Defined.

Lemma claim_mail_refused : SurfaceRun.claim "notes-mail" SurfaceRun.start
  = (Err (Answer CodePermissionDenied), SurfaceRun.after (SurfaceRun.claim "notes-mail") SurfaceRun.start).
Proof. unfold SurfaceRun.after. vm_compute. reflexivity. Qed.
Lemma host_answer {Json A} (h : Handler A) s answer s' (d : Approvals.Db (Json := Json)) :
  h s = (answer, s') -> on_surface h (s, d) = (answer, (s', d)).
Proof. unfold on_surface. cbn [fst snd]. by intros ->. Qed.

Lemma failed_call_changes_nothing_witness :
  exists r, SurfaceRun.after (SurfaceRun.claim "notes-mail") SurfaceRun.start = set_replica r SurfaceRun.start.
Proof.
  pose proof (failed_call_changes_nothing (Json := string) QueueRun.fmt QueueRun.b64 QueueRun.print QueueRun.valid
    QueueRun.uuid SurfaceRun.catalog [] SurfaceRun.digest None None true SurfaceRun.svc SurfaceRun.rd notes_caller _
    (on_surface (SurfaceRun.claim "notes-mail")) SurfaceRun.start SurfaceRun.no_approvals
    (call_claim _ _ _ _ _ _ _ _ _ _ _ _ _ _ _ _)) as H.
  destruct (AuthorizeModuleCapability _ _ _) as [[a|e] r] eqn:E; exists r.
  - apply (f_equal fst (H (Answer CodePermissionDenied) (SurfaceRun.after (SurfaceRun.claim "notes-mail") SurfaceRun.start,
      SurfaceRun.no_approvals) (host_answer _ _ _ _ _ claim_mail_refused))).
  - pose proof notes_authorized as Ha. exfalso. revert E. unfold SurfaceRun.rd. cbn [su_replica SurfaceRun.start].
    by rewrite Ha.
Defined.

(** ** A re-affirmed subscription keeps its delivery

    [ModuleSubscribe] checks a request for ordered delivery and then answers the live row
    of the same shape unchanged, which may be unordered. *)
Lemma reaffirmed_delivery_is_kept :
  let s := SurfaceRun.after (SurfaceRun.subscribe "s1" "notes.created" "") SurfaceRun.start in
  exists row, SurfaceRun.subscribe "s2" "notes.created" "ordered" s = (Ok row, s) /\
    es_delivery row = DeliveryUnordered.
Proof. eexists. split; vm_compute; reflexivity. Qed.
