(* ===== verification/ModuleApprovals.v ===== *)
(** Approvals a module opens: the module's call composed with the approval engine, from
    the request to the job its decision resumes. *)
From S2P Require Import Prelude JobState Approvals ApprovalsProofs ApprovalsTheorems.
From S2P Require Import ModuleScopes ModuleGrants ModuleAuthority.
From S2P Require ModuleSurface ModuleAuthorityTheorems.
Local Open Scope Z_scope.

Section Approvals.
Context {Json : Type}.
Context (json_marshal : Json -> result string string).
Context (sha256_hex : string -> string).
Context (resume_payload : @ApprovalRequest Json -> string -> string -> result string string).
Context (svc : Service).

Abbreviation engine := (engine_step json_marshal sha256_hex resume_payload svc).
Abbreviation reach := (reachable json_marshal sha256_hex resume_payload svc).

(** The head of a request - who asked, where, and what it resumes - outlives every step. *)
Lemma head_kept (d d' : @Db Json) id r :
  db_inv d -> requests d !! id = Some r -> spec_step svc d d' ->
  exists r', requests d' !! id = Some r' /\ same_head r r'.
Proof.
  intros Hinv Hr Hs. assert (Hrefl : same_head r r) by by split_and!.
  assert (Hkey := inv_keyed _ Hinv). assert (Hput : forall id0 r0 r1 : _, requests d !! id0 = Some r0 ->
    same_head r0 r1 -> exists r', <[id0 := r1]> (requests d) !! id = Some r' /\ same_head r r').
  { intros i r0 r1 H0 Hm. destruct (decide (i = id)) as [->|Hne].
    - rewrite lookup_insert_eq. exists r1. simplify_eq. done.
    - rewrite lookup_insert_ne by done. by exists r. }
  destruct Hs; cbn; repeat (rewrite ?log_entry_requests; cbn); try (by exists r);
    [rewrite lookup_insert_ne by congruence; by exists r|..];
    match goal with H : moved _ _ _ |- _ => apply moved_same in H as [? _] end;
    match goal with H : requests d !! ?i = Some ?r0 |- context [ar_id ?r0] =>
      rewrite (Hkey _ _ H) | _ => idtac end; by eapply Hput.
Qed.

Lemma head_stays d d' id r :
  db_inv d -> requests d !! id = Some r -> rtc engine d d' ->
  exists r', requests d' !! id = Some r' /\ same_head r r'.
Proof.
  intros Hinv Hr Hs. revert r Hinv Hr. induction Hs as [|d d1 d2 Hstep _ IH]; intros r Hinv Hr.
  { exists r. by split_and!. }
  destruct (head_kept d d1 id r Hinv Hr) as (r1 & Hr1 & Hh); [eapply engine_step_spec; [apply Hinv|exact Hstep]|].
  destruct (IH r1) as (r2 & Hr2 & Hh2); [by eapply engine_step_inv|done|].
  exists r2. split; [done|]. unfold same_head in *. intuition congruence.
Qed.

(** What the module's call leaves. *)
Lemma asked w rd caller in_ r (d : @Db Json) id r' d' :
  ModuleSurface.ModuleRequestApproval svc w rd caller in_ r d = (Ok id, r', d') ->
  exists grant req, moduleCapability rd caller r = (Ok grant, r') /\
    engine d d' /\ requests d' !! id = Some req /\ ar_id req = id /\ ar_org req = mc_BoundOrg caller /\
    allowsQueue grant (rr_queue (ar_resume req)) = true /\ ar_state req = ApprovalPending.
Proof.
  unfold ModuleSurface.ModuleRequestApproval, ModuleSurface.with_approvals. intros H.
  destruct (moduleCapability _ _ _) as [[grant|e] q]; [|done].
  destruct (authorizeTenant _ _) eqn:Ht; [|done]. apply bool_decide_eq_true_1 in Ht.
  destruct (allowsQueue _ _) eqn:Hq; [|done]. cbn [negb] in H.
  unfold run_tx in H. destruct (CreateApprovalRequest _ _ _ _) as [[x d1]|err] eqn:Hc; [|done].
  injection H as <- <- <-. pose proof Hc as Hstep. unfold CreateApprovalRequest in Hc.
  destruct (validate _); [|done]. apply tx_bind_ok in Hc as (u & d2 & Hi & Hc).
  apply tx_bind_ok in Hc as (u' & d3 & He & Hc). apply emitTx_ok in He as (e & -> & He).
  cbv [mret tx_ret] in Hc. injection Hc as <- <-. unfold InsertApprovalRequest in Hi. cbn in Hi.
  destruct (requests d !! new_id w) eqn:Hn; [done|]. destruct (_ || _) in Hi; [done|]. injection Hi as _ <-.
  exists grant. eexists. split_and!; [done|by eapply step_create| |..].
  { rewrite log_entry_requests. cbn. apply lookup_insert_eq. }
  all: done.
Qed.

(** C19. An approval a module opens stays in its authority to the end: it is opened for
    the caller's organization only, and whatever becomes of it - votes, a decision, a
    cancellation, sweeps, other requests in between - a job that resumes it is for that
    organization and on a queue the module's grant held when it asked. *)
Theorem resume_stays_in_the_grant w rd caller in_ r d id r' d1 d2 j :
  reach d -> ModuleSurface.ModuleRequestApproval svc w rd caller in_ r d = (Ok id, r', d1) ->
  rtc engine d1 d2 -> j ∈ outbox d2 -> job_idempotency_key j = resume_key id ->
  exists grant, moduleCapability rd caller r = (Ok grant, r') /\
    allowsQueue grant (job_queue j) = true /\
    job_scope j = JobScope_OrganizationId (mc_BoundOrg caller).
Proof.
  intros Hreach H Hrun Hj Hkey. apply reachable_inv in Hreach.
  apply asked in H as (grant & req & Hg & Hstep & Hreq & Hid & Horg & Hq & _).
  assert (db_inv d1) as Hinv1 by by eapply engine_step_inv.
  destruct (head_stays _ _ _ _ Hinv1 Hreq Hrun) as (req2 & Hreq2 & Hh).
  assert (db_inv d2) as Hinv2.
  { clear -Hinv1 Hrun. induction Hrun; [done|]. eauto using engine_step_inv. }
  destruct Hinv2 as [Hk _ _ (Hjobs & _)]. destruct (Hjobs j Hj) as (r0 & p & Hr0 & _ & _ & ->).
  cbn in Hkey. apply resume_key_inj in Hkey. rewrite Hkey, Hreq2 in Hr0. injection Hr0 as <-.
  exists grant. split; [done|]. destruct Hh as (_ & Ho & _ & _ & _ & Hres & _). cbn. by rewrite Hres, Ho, Horg.
Qed.
End Approvals.

(** ** A concrete approval

    The module [notes] of ModuleAuthorityTheorems.v asks for two approvals before a job
    on its own queue. *)
Module ApprovalRun.
Import ModuleAuthorityTheorems.
Definition input : @CreateApprovalRequestInput string :=
  {| ci_org := "org"; ci_resource := "note"; ci_action := "publish"; ci_subject := "{42}";
     ci_requested_by := "req"; ci_quorum := 2;
     ci_policy := {| ApproverSet := ["alice"; "bob"]; AllowSelf := false; DecidePermission := "" |};
     ci_resume := {| rr_mode := "job"; rr_job_kind := ""; rr_payload := ""; rr_queue := "notes-work";
                     rr_topic := "" |};
     ci_expires_at := None; ci_escalate_at := None |}.
Definition elsewhere : @CreateApprovalRequestInput string :=
  {| ci_org := "org"; ci_resource := "note"; ci_action := "publish"; ci_subject := "{42}";
     ci_requested_by := "req"; ci_quorum := 2; ci_policy := ci_policy input;
     ci_resume := {| rr_mode := ""; rr_job_kind := ""; rr_payload := ""; rr_queue := "notes-mail"; rr_topic := "" |};
     ci_expires_at := None; ci_escalate_at := None |}.
Definition request := ModuleSurface.ModuleRequestApproval (Json := string) Run.svc (Run.at_ 1 "r1") (reads_of host_db) notes_caller.
Definition d1 : @Db string := snd (request input host_replica Run.d0).
Definition d2 : @Db string := Run.after Run.alice d1.
Definition d3 : @Db string := Run.after Run.bob d2.

Example other_queue_refused : (request elsewhere host_replica Run.d0).1.1
  = Err (ModuleSurface.Answer ModuleSurface.CodePermissionDenied).
Proof. by vm_compute. Qed.
Lemma opened : request input host_replica Run.d0 = (Ok "r1", replica_after, d1).
Proof. vm_compute. reflexivity. Qed.
Lemma step_alice : engine_step Run.marshal Run.sha Run.payload Run.svc d1 d2.
Proof. destruct (Run.after_ok Run.alice d1) as [a Ha]; [by vm_compute|]. eapply step_decide, Ha. Qed.
Lemma step_bob : engine_step Run.marshal Run.sha Run.payload Run.svc d2 d3.
Proof. destruct (Run.after_ok Run.bob d2) as [a Ha]; [by vm_compute|]. eapply step_decide_reviewed, Ha. Qed.
Lemma decided_twice : rtc (engine_step Run.marshal Run.sha Run.payload Run.svc) d1 d3.
Proof. eapply rtc_l; [exact step_alice|]. apply rtc_once, step_bob. Qed.
End ApprovalRun.

Lemma resume_stays_in_the_grant_witness :
  exists j, j ∈ outbox ApprovalRun.d3 /\ job_queue j = "notes-work" /\
    job_scope j = JobScope_OrganizationId "org".
Proof.
  destruct (outbox ApprovalRun.d3) as [|j l] eqn:E; [exfalso; vm_compute in E; discriminate|].
  assert (job_queue j = "notes-work" /\ job_idempotency_key j = resume_key "r1") as [Hq Hk]
    by (vm_compute in E; injection E as <- _; split; reflexivity).
  exists j. split; [by left|]. split; [exact Hq|].
  destruct (resume_stays_in_the_grant Run.marshal Run.sha Run.payload Run.svc (Run.at_ 1 "r1")
    (ModuleAuthorityTheorems.reads_of ModuleAuthorityTheorems.host_db) ModuleAuthorityTheorems.notes_caller
    ApprovalRun.input ModuleAuthorityTheorems.host_replica Run.d0 "r1" ModuleAuthorityTheorems.replica_after
    ApprovalRun.d1 ApprovalRun.d3 j) as (grant & _ & _ & Hs); [|exact ApprovalRun.opened|
    exact ApprovalRun.decided_twice|rewrite E; by left|exact Hk|exact Hs].
  exists ∅. apply rtc_refl.
Defined.
