(* ===== verification/NetAddr.v ===== *)
(** Internet addresses as Go's standard library reads and writes them: what
    auth-gateway/code/ratelimit.go uses of net/netip (ParseAddr, ParsePrefix, Unmap,
    Contains, String) and net.SplitHostPort, over lists of characters. *)
From S2P Require Import Prelude GoText.
From Stdlib Require Import Ascii.
Local Open Scope Z_scope.

(** ** Characters *)
Definition dot : ascii := "."%char.
Definition colon : ascii := ":"%char.
Definition percent : ascii := "%"%char.
Definition comma : ascii := ","%char.
Definition slash : ascii := "/"%char.
Definition same (c d : ascii) : bool := Ascii.eqb c d.

(** The value of a hexadecimal digit, and [strconv.AppendUint(n, 16)]'s digit. *)
Definition hex_value (c : ascii) : option Z :=
  let n := Z.of_N (Ascii.N_of_ascii c) in
  if (48 <=? n) && (n <=? 57) then Some (n - 48)
  else if (97 <=? n) && (n <=? 102) then Some (n - 87)
  else if (65 <=? n) && (n <=? 70) then Some (n - 55)
  else None.
Definition hex_digit (n : Z) : ascii :=
  Ascii.ascii_of_N (Z.to_N (if n <? 10 then 48 + n else 87 + n)).
Fixpoint span_hex (l : chars) : list Z * chars :=
  match l with
  | [] => ([], [])
  | c :: rest =>
      match hex_value c with
      | Some d => let '(ds, r) := span_hex rest in (d :: ds, r)
      | None => ([], l)
      end
  end.
Definition read_hex (ds : list Z) : Z := foldl (fun acc d => 16 * acc + d) 0 ds.

(** The part before the first [c] and the part after it. *)
Fixpoint cut (c : ascii) (l : chars) : chars * option chars :=
  match l with
  | [] => ([], None)
  | x :: rest => if same x c then ([], Some rest) else let '(a, b) := cut c rest in (x :: a, b)
  end.
(** [strings.Split] on one character. *)
Fixpoint split_on (c : ascii) (l : chars) : list chars :=
  match l with
  | [] => [[]]
  | x :: rest =>
      if same x c then [] :: split_on c rest
      else match split_on c rest with [] => [[x]] | p :: ps => (x :: p) :: ps end
  end.
Definition has (c : ascii) (l : chars) : bool := existsb (fun x => same x c) l.
(** [strings.LastIndexByte]: what is before and after the last [c]. *)
Definition cut_last (c : ascii) (l : chars) : option (chars * chars) :=
  match cut c (rev l) with
  | (after, Some before) => Some (rev before, rev after)
  | (_, None) => None
  end.

(** ** Addresses *)
(** Four or sixteen bytes as a number, and the zone of an IPv6 address. *)
Inductive Addr := V4 (bits : Z) | V6 (bits : Z) (zone : chars).
#[export] Instance Addr_eq_dec : EqDecision Addr.
Proof. solve_decision. Defined.

Definition valid_addr (a : Addr) : Prop :=
  match a with V4 b => 0 <= b < 2 ^ 32 | V6 b _ => 0 <= b < 2 ^ 128 end.

Definition Is4In6 (a : Addr) : bool :=
  match a with V4 _ => false | V6 b _ => Z.shiftr b 32 =? 65535 end.
Definition Unmap (a : Addr) : Addr :=
  match a with
  | V4 _ => a
  | V6 b _ => if Is4In6 a then V4 (Z.land b (2 ^ 32 - 1)) else a
  end.

(** *** Reading *)
(** [parseIPv4Fields]: [val] and [digits] are of the octet being read. *)
Fixpoint parse4 (l : chars) (val : Z) (digits : nat) (fields : list Z) : option (list Z) :=
  match l with
  | [] => if (length fields <? 3)%nat then None else Some (fields ++ [val])
  | c :: rest =>
      match digit_value c with
      | Some d =>
          if (digits =? 1)%nat && (val =? 0) then None
          else if 255 <? val * 10 + d then None
          else parse4 rest (val * 10 + d) (S digits) fields
      | None =>
          if negb (same c dot) then None
          else if (digits =? 0)%nat || bool_decide (rest = []) then None
          else if (length fields =? 3)%nat then None
          else parse4 rest 0 0 (fields ++ [val])
      end
  end.
Definition join_octets (fields : list Z) : Z := foldl (fun acc f => 256 * acc + f) 0 fields.
Definition parseIPv4 (l : chars) : option Z := join_octets <$> parse4 l 0 0 [].

(** The loop of [parseIPv6], a group of sixteen bits at a time; [ellipsis] is where "::"
    stood.  Answers the groups, the ellipsis and what was not read. *)
Fixpoint groups6 (fuel : nat) (groups : list Z) (ellipsis : option nat) (l : chars) :
    option (list Z * option nat * chars) :=
  match fuel with
  | O => Some (groups, ellipsis, l)
  | S fuel =>
      let '(ds, rest) := span_hex l in
      if (4 <? length ds)%nat || (length ds =? 0)%nat then None
      else match rest with
      | [] => Some (groups ++ [read_hex ds], ellipsis, [])
      | c :: rest1 =>
          if same c dot then
            if (bool_decide (ellipsis = None) && negb (length groups =? 6)%nat) || (8 <? length groups + 2)%nat
            then None
            else match parseIPv4 l with
            | None => None
            | Some v => Some (groups ++ [Z.shiftr v 16; Z.land v 65535], ellipsis, [])
            end
          else if negb (same c colon) then None
          else
            let groups := groups ++ [read_hex ds] in
            match rest1 with
            | [] => None
            | c2 :: rest2 =>
                if same c2 colon then
                  if negb (bool_decide (ellipsis = None)) then None
                  else if bool_decide (rest2 = []) then Some (groups, Some (length groups), [])
                  else groups6 fuel groups (Some (length groups)) rest2
                else groups6 fuel groups ellipsis rest1
            end
      end
  end.
Definition expand (groups : list Z) (ellipsis : option nat) : option (list Z) :=
  if (length groups <? 8)%nat then
    match ellipsis with
    | None => None
    | Some e => Some (take e groups ++ repeat 0 (8 - length groups) ++ drop e groups)
    end
  else if negb (bool_decide (ellipsis = None)) then None else Some groups.
Definition join_groups (groups : list Z) : Z := foldl (fun acc g => 65536 * acc + g) 0 groups.
Definition parse6_groups (l : chars) : option (list Z) :=
  match l with
  | a :: b :: rest =>
      if same a colon && same b colon then
        if bool_decide (rest = []) then Some (repeat 0 8)
        else match groups6 8 [] (Some 0%nat) rest with
        | Some (groups, ellipsis, []) => expand groups ellipsis
        | _ => None
        end
      else match groups6 8 [] None l with
      | Some (groups, ellipsis, []) => expand groups ellipsis
      | _ => None
      end
  | _ =>
      match groups6 8 [] None l with
      | Some (groups, ellipsis, []) => expand groups ellipsis
      | _ => None
      end
  end.
Definition parseIPv6 (l : chars) : option Addr :=
  let '(s, zone) := cut percent l in
  if bool_decide (zone = Some []) then None
  else groups ← parse6_groups s; Some (V6 (join_groups groups) (default [] zone)).

(** The first of the three characters decides. *)
Fixpoint first_mark (l : chars) : option ascii :=
  match l with
  | [] => None
  | c :: rest => if same c dot || same c colon || same c percent then Some c else first_mark rest
  end.
Definition parse_addr (l : chars) : option Addr :=
  match first_mark l with
  | Some c => if same c dot then V4 <$> parseIPv4 l else if same c colon then parseIPv6 l else None
  | None => None
  end.
Definition ParseAddr (s : string) : option Addr := parse_addr (untext s).

(** *** Writing *)
Definition octets (b : Z) : list Z :=
  [Z.shiftr b 24; Z.land (Z.shiftr b 16) 255; Z.land (Z.shiftr b 8) 255; Z.land b 255].
Fixpoint join_with (sep : ascii) (parts : list chars) : chars :=
  match parts with
  | [] => []
  | [p] => p
  | p :: rest => p ++ sep :: join_with sep rest
  end.
Definition string4 (b : Z) : chars := join_with dot (map decimal (octets b)).

Fixpoint groups_of (n : nat) (b : Z) : list Z :=
  match n with O => [] | S n => groups_of n (Z.shiftr b 16) ++ [Z.land b 65535] end.
(** [appendHex]: no leading zeros. *)
Definition hex (g : Z) : chars :=
  (if 4096 <=? g then [hex_digit (Z.shiftr g 12)] else [])
  ++ (if 256 <=? g then [hex_digit (Z.land (Z.shiftr g 8) 15)] else [])
  ++ (if 16 <=? g then [hex_digit (Z.land (Z.shiftr g 4) 15)] else [])
  ++ [hex_digit (Z.land g 15)].
Fixpoint zeros (l : list Z) : nat :=
  match l with x :: rest => if x =? 0 then S (zeros rest) else 0 | [] => 0 end.
(** The first longest run of at least two zero groups from position [i] on: where it
    starts and how long it is. *)
Fixpoint longest_run (i : nat) (l : list Z) (best : option (nat * nat)) : option (nat * nat) :=
  match l with
  | [] => best
  | _ :: rest =>
      let n := zeros l in
      longest_run (S i) rest
        (if (2 <=? n)%nat && (match best with Some (_, m) => m | None => 0 end <? n)%nat
         then Some (i, n) else best)
  end.
Definition write_groups (groups : list Z) : chars :=
  match longest_run 0 groups None with
  | None => join_with colon (map hex groups)
  | Some (i, n) =>
      join_with colon (map hex (take i groups)) ++ [colon; colon]
      ++ join_with colon (map hex (drop (i + n) groups))
  end.
Definition zone_text (zone : chars) : chars := if bool_decide (zone = []) then [] else percent :: zone.
Definition write_addr (a : Addr) : chars :=
  match a with
  | V4 b => string4 b
  | V6 b zone =>
      (if Is4In6 a then untext "::ffff:" ++ string4 (Z.land b (2 ^ 32 - 1))
       else write_groups (groups_of 8 b)) ++ zone_text zone
  end.
Definition addr_String (a : Addr) : string := text (write_addr a).

(** ** Prefixes *)
Record Prefix := { pf_addr : Addr; pf_bits : Z }.
Definition BitLen (a : Addr) : Z := match a with V4 _ => 32 | V6 _ _ => 128 end.
Definition Is4 (a : Addr) : bool := match a with V4 _ => true | V6 _ _ => false end.
Definition hasZone (a : Addr) : bool := match a with V4 _ => false | V6 _ z => negb (bool_decide (z = [])) end.
Definition withoutZone (a : Addr) : Addr := match a with V4 b => V4 b | V6 b _ => V6 b [] end.
Definition addr_bits (a : Addr) : Z := match a with V4 b | V6 b _ => b end.

Definition PrefixFrom (a : Addr) (bits : Z) : Prefix := {| pf_addr := withoutZone a; pf_bits := bits |}.
Definition clear_low (b n : Z) : Z := Z.shiftl (Z.shiftr b n) n.
Definition Masked (p : Prefix) : Prefix :=
  {| pf_addr := match pf_addr p with
                | V4 b => V4 (clear_low b (32 - pf_bits p))
                | V6 b z => V6 (clear_low b (128 - pf_bits p)) z
                end;
     pf_bits := pf_bits p |}.
(** Same family, no zone, and the same leading bits. *)
Definition Prefix_Contains (p : Prefix) (a : Addr) : bool :=
  negb (hasZone a) && (BitLen (pf_addr p) =? BitLen a)
  && (Z.shiftr (Z.lxor (addr_bits a) (addr_bits (pf_addr p))) (BitLen a - pf_bits p) =? 0).

Definition parse_bits (l : chars) : option Z :=
  match l with
  | [] => None
  | c :: rest =>
      if negb (bool_decide (rest = [])) && negb (is_digit c && negb (same c "0"%char)) then None
      else read l
  end.
Definition parse_prefix (l : chars) : option Prefix :=
  match cut_last slash l with
  | None => None
  | Some (a, b) =>
      ip ← parse_addr a;
      if hasZone ip then None
      else bits ← parse_bits b;
        if bits <=? BitLen ip then Some (PrefixFrom ip bits) else None
  end.
Definition ParsePrefix (s : string) : option Prefix := parse_prefix (untext s).

(** ** net.SplitHostPort, of which the host is used *)
Definition split_host (l : chars) : option chars :=
  match cut_last colon l with
  | None => None
  | Some (before, _) =>
      let open := "["%char in let close := "]"%char in
      match l with
      | c :: inside =>
          if same c open then
            match cut close inside with
            | (_, None) => None
            | (host, Some rest) =>
                if negb (bool_decide (length host + 2 = length before)%nat) then None
                else if has open inside || has close rest then None else Some host
            end
          else if has colon before || has open l || has close l then None else Some before
      | [] => None
      end
  end.
