(* ===== verification/RateLimit.v ===== *)
(** The rate limiter of the auth gateway: auth-gateway/code/ratelimit.go, the route
    policy of gateway.go it is called with and its wiring in main.go.

    [rateLimitBackend] is the interface of the code with its two implementations as
    instances: the counters in memory and the Redis of RedisState.  [clientIP] finds
    the caller behind trusted hops, [Middleware] meters a request, and [run] is what a
    gateway does with the requests that reach it. *)
From S2P Require Import Prelude GoText RedisState NetAddr.
From Stdlib Require Import Ascii.
Local Open Scope Z_scope.

(** ** Backends *)
(** [Background] is what an implementation does between calls. *)
Class rateLimitBackend (b : Type) : Type := {
  Increment : string -> duration -> instant -> b -> result StateErr Z * b;
  Background : instant -> b -> b;
}.

(** *** In memory *)
Record window : Type := { wn_count : Z; wn_resetAt : instant }.
Definition memoryBackend : Type := gmap string window.

(** LoadOrStore and Add, two atomic steps of the code, are one step: only a window long
    past its minute can be collected in between. *)
Definition memory_Increment (key : string) (ttl : duration) (t : instant) (m : memoryBackend)
    : result StateErr Z * memoryBackend :=
  let resetAt := time_add t ttl in
  let w := default {| wn_count := 0; wn_resetAt := resetAt |} (m !! key) in
  let count := wrap64 (wn_count w + 1) in
  (Ok count, <[key := {| wn_count := count; wn_resetAt := wn_resetAt w |}]> m).

(** A tick of the ticker. *)
Definition cleanup (t : instant) (m : memoryBackend) : memoryBackend :=
  filter (fun kv => time_after t (wn_resetAt (snd kv)) = false) m.

#[export] Instance memory_backend : rateLimitBackend memoryBackend := {|
  Increment := memory_Increment; Background := cleanup;
|}.

(** *** Redis *)
Record redisBackend (s : Type) : Type := { rb_client : s }.
#[global] Arguments rb_client {s} _.
#[global] Arguments Build_redisBackend {s} _.

(** The script is INCR with a PEXPIRE on the first count: [Incr] of the shared state. *)
Definition redis_Increment {s} `{State s} (key : string) (ttl : duration) (t : instant)
    (r : redisBackend s) : result StateErr Z * redisBackend s :=
  let ttlMillis := duration_milliseconds ttl in
  let ttlMillis := if ttlMillis <? 1 then 1 else ttlMillis in
  let '(count, st) := Incr key (ttlMillis * millisecond) t (rb_client r) in
  (count, {| rb_client := st |}).

#[export] Instance redis_backend {s} `{State s} : rateLimitBackend (redisBackend s) := {|
  Increment := redis_Increment; Background := fun _ r => r;
|}.

(** ** Trusted hops and the caller *)
Record proxyTrust : Type := { pt_prefixes : list Prefix }.

(** What the code reads of an [http.Request]; header names are canonical. *)
Record Request : Type := {
  rq_RemoteAddr : string;
  rq_Header : gmap string (list string);
}.
(** [Header.Get]: the first line of that name, or the empty string. *)
Definition header_Get (r : Request) (name : string) : string :=
  match rq_Header r !! name with Some (v :: _) => v | _ => "" end.
(** [strings.Split(s, ",")] *)
Definition split_commas (s : string) : list string := map text (split_on comma (untext s)).

Inductive TrustErr : Type := ErrInvalidEntry (candidate : string) | ErrNoTrustedHop.
#[export] Instance TrustErr_eq_dec : EqDecision TrustErr.
Proof. solve_decision. Defined.

Fixpoint parse_entries (candidates : list string) (prefixes : list Prefix) : result TrustErr proxyTrust :=
  match candidates with
  | [] => Ok {| pt_prefixes := prefixes |}
  | candidate :: rest =>
      let candidate := TrimSpace candidate in
      if decide (candidate = "") then parse_entries rest prefixes
      else match ParseAddr candidate with
      | Some addr =>
          let addr := Unmap addr in
          let bits := if Is4 addr then 32 else 128 in
          parse_entries rest (prefixes ++ [PrefixFrom addr bits])
      | None =>
          match ParsePrefix candidate with
          | Some prefix => parse_entries rest (prefixes ++ [Masked prefix])
          | None => Err (ErrInvalidEntry candidate)
          end
      end
  end.
Definition parseProxyTrust (raw : string) : result TrustErr proxyTrust :=
  parse_entries (split_commas raw) [].

Definition newProxyTrust (raw : string) : proxyTrust :=
  match parseProxyTrust raw with Ok trust => trust | Err _ => {| pt_prefixes := [] |} end.

Definition requireProxyTrust (raw : string) (isLocal : bool) : result TrustErr unit :=
  trust ← parseProxyTrust raw;
  if isLocal || negb (bool_decide (pt_prefixes trust = [])) then Ok () else Err ErrNoTrustedHop.

Definition contains (t : proxyTrust) (addr : Addr) : bool :=
  let addr := Unmap addr in
  existsb (fun prefix => Prefix_Contains prefix addr) (pt_prefixes t).

Definition parsePeerAddress (remoteAddr : string) : option Addr :=
  let host := match split_host (untext remoteAddr) with
              | Some splitHost => text splitHost
              | None => remoteAddr
              end in
  Unmap <$> ParseAddr (TrimSpace host).

(** The entries of the header, all of them addresses. *)
Definition parse_part (part : string) : option Addr := Unmap <$> ParseAddr (TrimSpace part).
Fixpoint parse_chain (parts : list string) : option (list Addr) :=
  match parts with
  | [] => Some []
  | part :: rest => addr ← parse_part part; chain ← parse_chain rest; Some (addr :: chain)
  end.
(** The loop from the last entry down; [turned] is the chain last entry first. *)
Fixpoint walk (t : proxyTrust) (turned : list Addr) : option Addr :=
  match turned with
  | [] => None
  | addr :: rest =>
      if bool_decide (rest = []) || negb (contains t addr) then Some addr else walk t rest
  end.

Definition real_ip (peer : Addr) (r : Request) : string :=
  let realIP := TrimSpace (header_Get r "X-Real-Ip") in
  if decide (realIP = "") then addr_String peer
  else match ParseAddr realIP with
  | Some addr => addr_String (Unmap addr)
  | None => addr_String peer
  end.

Definition clientIP (t : proxyTrust) (r : Request) : string :=
  match parsePeerAddress (rq_RemoteAddr r) with
  | None => rq_RemoteAddr r
  | Some peer =>
      if negb (contains t peer) then addr_String peer
      else
        let xff := header_Get r "X-Forwarded-For" in
        if decide (xff = "") then real_ip peer r
        else
          let parts := split_commas xff in
          if (32 <? length parts)%nat then addr_String peer
          else match parse_chain parts with
          | None => addr_String peer
          | Some chain =>
              match walk t (rev (chain ++ [peer])) with
              | Some addr => addr_String addr
              | None => real_ip peer r
              end
          end
  end.

(** ** The limiter *)
Record RateLimiter : Type := {
  rl_limit : Z;
  rl_burst : Z;
  rl_authenticationAttemptLimit : Z;
  rl_proxies : proxyTrust;
}.
Definition authenticationAttemptLimitPerMinute : Z := 10.

(** *** Construction *)
Record rateLimiterOptions : Type := {
  ro_redisURL : string;
  ro_authenticationAttemptLimit : Z;
  ro_allowInProcessBackend : bool;
}.
Abbreviation RateLimiterOption := (rateLimiterOptions -> rateLimiterOptions) (only parsing).
Definition WithRedisURL (redisURL : string) : RateLimiterOption := fun o =>
  {| ro_redisURL := redisURL; ro_authenticationAttemptLimit := ro_authenticationAttemptLimit o;
     ro_allowInProcessBackend := ro_allowInProcessBackend o |}.
Definition WithAuthenticationAttemptLimit (limit : Z) : RateLimiterOption := fun o =>
  {| ro_redisURL := ro_redisURL o; ro_authenticationAttemptLimit := limit;
     ro_allowInProcessBackend := ro_allowInProcessBackend o |}.
Definition WithInProcessBackendAllowed (allowed : bool) : RateLimiterOption := fun o =>
  {| ro_redisURL := ro_redisURL o; ro_authenticationAttemptLimit := ro_authenticationAttemptLimit o;
     ro_allowInProcessBackend := allowed |}.

(** Which implementation a limiter was given. *)
Inductive BackendKind : Type := InMemory | SharedRedis.
Inductive LimiterErr : Type := ErrSharedStoreUnreachable | ErrNoSharedStore.

(** [env] is REDIS_URL, [proxies] TRUSTED_PROXY_CIDRS; [reachable] says whether a Redis
    answers at a URL. *)
Definition NewRateLimiter (reachable : string -> bool) (env proxies : string)
    (requestsPerMinute : Z) (optionFns : list RateLimiterOption)
    : result LimiterErr (RateLimiter * BackendKind) :=
  let options := foldl (fun o option => option o)
    {| ro_redisURL := env; ro_authenticationAttemptLimit := authenticationAttemptLimitPerMinute;
       ro_allowInProcessBackend := false |} optionFns in
  let burst := Z.quot requestsPerMinute 5 in
  let burst := if burst <? 1 then 1 else burst in
  let rl := {| rl_limit := requestsPerMinute; rl_burst := burst;
               rl_authenticationAttemptLimit := ro_authenticationAttemptLimit options;
               rl_proxies := newProxyTrust proxies |} in
  if decide (ro_redisURL options <> "") then
    if reachable (ro_redisURL options) then Ok (rl, SharedRedis)
    else if negb (ro_allowInProcessBackend options) then Err ErrSharedStoreUnreachable
    else Ok (rl, InMemory)
  else if negb (ro_allowInProcessBackend options) then Err ErrNoSharedStore
  else Ok (rl, InMemory).

(** [strconv.Atoi] *)
Definition Atoi (s : string) : option Z :=
  let '(neg, ds) := match untext s with
                    | c :: rest => if same c "-"%char then (true, rest)
                                   else if same c "+"%char then (false, rest) else (false, c :: rest)
                    | [] => (false, [])
                    end in
  match ds with
  | [] => None
  | _ => match read ds with
         | Some n => let n := if neg : bool then - n else n in
                     if (int64_min <=? n) && (n <=? int64_max) then Some n else None
         | None => None
         end
  end.

Definition configuredAuthenticationAttemptLimit (configured : string) : option Z :=
  let raw := TrimSpace configured in
  if decide (raw = "") then Some authenticationAttemptLimitPerMinute
  else match Atoi raw with
  | Some limit => if (limit <? 1) || (1000 <? limit) then None else Some limit
  | None => None
  end.

(** The limiter part of the start of the gateway; [None] is a panic. *)
Definition start_limiter (reachable : string -> bool) (isLocal : bool)
    (attempts proxies env redisURL : string) : option (RateLimiter * BackendKind) :=
  authenticationAttemptLimit ← configuredAuthenticationAttemptLimit attempts;
  match requireProxyTrust proxies isLocal with
  | Err _ => None
  | Ok _ =>
      match NewRateLimiter reachable env proxies 1000
              [WithRedisURL redisURL; WithAuthenticationAttemptLimit authenticationAttemptLimit;
               WithInProcessBackendAllowed isLocal] with
      | Ok started => Some started
      | Err _ => None
      end
  end.

(** *** Metering *)
Definition minuteKey (key : string) (now : instant) : string :=
  "rl:" +:+ key +:+ ":" +:+ FormatInt (Z.quot (time_unix now) 60).

(** Allowed, remaining, the reset in Unix seconds and the error. *)
Record Verdict : Type := {
  vd_allowed : bool;
  vd_remaining : Z;
  vd_resetUnix : Z;
  vd_err : option StateErr;
}.

Definition allowWithBudget {b} `{rateLimitBackend b} (key : string) (limit burst : Z)
    (now : instant) (st : b) : Verdict * b :=
  let resetAt := time_unix (time_add (time_truncate now minute) minute) in
  match Increment (minuteKey key now) (120 * second) now st with
  | (Err err, st) =>
      ({| vd_allowed := false; vd_remaining := 0; vd_resetUnix := resetAt; vd_err := Some err |}, st)
  | (Ok count, st) =>
      let effective := wrap64 (limit + burst) in
      if effective <? count
      then ({| vd_allowed := false; vd_remaining := 0; vd_resetUnix := resetAt; vd_err := None |}, st)
      else
        let rem := wrap64 (effective - count) in
        let rem := if rem <? 0 then 0 else rem in
        ({| vd_allowed := true; vd_remaining := rem; vd_resetUnix := resetAt; vd_err := None |}, st)
  end.
Definition Allow {b} `{rateLimitBackend b} (rl : RateLimiter) (key : string) (now : instant)
    (st : b) : Verdict * b :=
  allowWithBudget key (rl_limit rl) (rl_burst rl) now st.

(** ** The middleware *)
Inductive limiterFailureMode : Type := limiterFailOpen | limiterFailClosed.
Inductive edgeRateLimitClass : Type :=
| edgeRateLimitClassUnspecified | edgeRateLimitClassPublic | edgeRateLimitClassAuthentication
| edgeRateLimitClassStandardRead | edgeRateLimitClassStandardWrite | edgeRateLimitClassSensitive
| edgeRateLimitClassWebhook | edgeRateLimitClassInternal | edgeRateLimitClassMFA.
#[export] Instance limiterFailureMode_eq_dec : EqDecision limiterFailureMode.
Proof. solve_decision. Defined.
#[export] Instance edgeRateLimitClass_eq_dec : EqDecision edgeRateLimitClass.
Proof. solve_decision. Defined.

(** What a route declares to the limiter. *)
Record RouteEntry : Type := {
  re_RateLimitClass : edgeRateLimitClass;
  re_RateLimitBackendFailClosed : bool;
  re_AuthenticationFactorAttempt : bool;
}.
Definition rateLimitClassFor (entry : option RouteEntry) : edgeRateLimitClass :=
  match entry with None => edgeRateLimitClassUnspecified | Some e => re_RateLimitClass e end.
Definition limiterFailureModeFor (entry : option RouteEntry) : limiterFailureMode :=
  match entry with
  | None => limiterFailClosed
  | Some e => if re_RateLimitBackendFailClosed e then limiterFailClosed else limiterFailOpen
  end.

Abbreviation headers := (gmap string string) (only parsing).
(** The next handler runs, with the headers set so far; or the limiter answers. *)
Inductive Outcome : Type :=
| Served (h : headers)
| Refused (status : Z) (h : headers) (body : string).
Definition is_served (o : Outcome) : bool := match o with Served _ => true | _ => false end.

(** The bucket and its budget. *)
Definition choose_bucket (rl : RateLimiter) (class : edgeRateLimitClass)
    (authenticationFactorAttempt : bool) (r : Request) : string * Z * Z :=
  let org := header_Get r "X-Org-Id" in
  let key := if decide (org = "") then clientIP (rl_proxies rl) r else org in
  let key := if decide (class = edgeRateLimitClassWebhook)
             then "webhook:" +:+ clientIP (rl_proxies rl) r else key in
  if authenticationFactorAttempt then
    let limit := rl_authenticationAttemptLimit rl in
    let limit := if limit <=? 0 then authenticationAttemptLimitPerMinute else limit in
    ("auth-factor:" +:+ clientIP (rl_proxies rl) r, limit, 0)
  else (key, rl_limit rl, rl_burst rl).

Definition plain_headers : headers :=
  <["Content-Type" := "text/plain; charset=utf-8"]> (<["X-Content-Type-Options" := "nosniff"]> ∅).

(** [now] is when the budget is read, [answered] when the answer is written. *)
Definition Middleware {b} `{rateLimitBackend b} (rl : RateLimiter) (mode : limiterFailureMode)
    (class : edgeRateLimitClass) (authenticationFactorAttempt : bool) (r : Request)
    (now answered : instant) (st : b) : Outcome * b :=
  let '(key, limit, burst) := choose_bucket rl class authenticationFactorAttempt r in
  let '(v, st) := allowWithBudget key limit burst now st in
  match vd_err v with
  | Some _ =>
      if decide (mode = limiterFailOpen) then (Served ∅, st)
      else (Refused 503 (<["Retry-After" := "1"]> plain_headers) "rate limit service unavailable", st)
  | None =>
      let h := <["X-Ratelimit-Limit" := FormatInt limit]>
        (<["X-Ratelimit-Remaining" := FormatInt (vd_remaining v)]>
        (<["X-Ratelimit-Reset" := FormatInt (vd_resetUnix v)]> ∅)) in
      if negb (vd_allowed v) then
        let retryAfter := vd_resetUnix v - time_unix answered in
        let retryAfter := if retryAfter <? 1 then 1 else retryAfter in
        (Refused 429 (<["Retry-After" := FormatInt retryAfter]> (plain_headers ∪ h)) "rate limit exceeded", st)
      else (Served h, st)
  end.

(** ** A gateway at work *)
(** A request of a route, answered at its own time; or the backend's own work. *)
Inductive event : Type :=
| Arrive (entry : RouteEntry) (r : Request) (answered : instant)
| Background_tick.

Section Run.
Context {b : Type} `{rateLimitBackend b}.
Variable rl : RateLimiter.

Definition serve (entry : RouteEntry) (r : Request) (now answered : instant) (st : b) : Outcome * b :=
  Middleware rl (limiterFailureModeFor (Some entry)) (rateLimitClassFor (Some entry))
    (re_AuthenticationFactorAttempt entry) r now answered st.

Definition step (now : instant) (ev : event) (st : b) : option Outcome * b :=
  match ev with
  | Arrive entry r answered => let '(o, st) := serve entry r now answered st in (Some o, st)
  | Background_tick => (None, Background now st)
  end.

Fixpoint run (es : list (instant * event)) (st : b) : list (option Outcome) * b :=
  match es with
  | [] => ([], st)
  | (now, ev) :: es =>
      let '(o, st) := step now ev st in
      let '(os, st) := run es st in (o :: os, st)
  end.
End Run.
