(* ===== verification/RateLimitProofs.v ===== *)
(** What a backend of the gateway's rate limiter owes it, that both backends of the code
    do, and the lemmas on buckets, callers and counts the theorems share. *)
From S2P Require Import Prelude GoText RedisState RedisStateTheorems NetAddr RateLimit.
From Stdlib Require Import Ascii DecimalString DecimalZ.
Local Open Scope Z_scope.

(** ** The interface *)
Section Slots.
Abbreviation slot := (option (Z * option instant)) (only parsing).
(** Certainly still there at [t]. *)
Definition open (t : instant) (until : option instant) : Prop :=
  match until with None => True | Some x => t < x end.
Definition slot_kept (t : instant) (before after : slot) : Prop :=
  after = before \/ (after = None /\ exists c x, before = Some (c, x) /\ ~ open t x).
(** One more, or the first one of a new window. *)
Definition bumped (t : instant) (ttl : duration) (before after : slot) : Prop :=
  exists c' x', after = Some (c', x') /\
    ((exists c, before = Some (c, x') /\ c' = wrap64 (c + 1)) \/
     ((forall c x, before = Some (c, x) -> ~ open t x) /\ c' = 1 /\
      exists u, x' = Some u /\ t + ttl - 2 * millisecond < u)).
End Slots.

Class BackendLaws (b : Type) `{rateLimitBackend b} : Type := {
  (** The count of a key and when it may go. *)
  slot : b -> string -> option (Z * option instant);
  increment_counts k ttl t st n : millisecond <= ttl -> fst (Increment k ttl t st) = Ok n ->
    bumped t ttl (slot st k) (slot (snd (Increment k ttl t st)) k) /\
    fst <$> slot (snd (Increment k ttl t st)) k = Some n;
  (** A failed increment may have counted without the caller hearing of it. *)
  increment_fails k ttl t st e : millisecond <= ttl -> fst (Increment k ttl t st) = Err e ->
    slot_kept t (slot st k) (slot (snd (Increment k ttl t st)) k) \/
    bumped t ttl (slot st k) (slot (snd (Increment k ttl t st)) k);
  increment_keeps k ttl t st k' : k' <> k ->
    slot_kept t (slot st k') (slot (snd (Increment k ttl t st)) k');
  background_keeps t st k : slot_kept t (slot st k) (slot (Background t st) k);
}.

(** ** The two backends *)
#[export] Program Instance memory_backend_laws : BackendLaws memoryBackend := {|
  slot m k := (fun w => (wn_count w, Some (wn_resetAt w))) <$> m !! k;
|}.
Next Obligation.
  intros k ttl t m n Httl. cbn. unfold memory_Increment, memoryBackend in *. cbn. intros [= <-].
  rewrite lookup_insert_eq. cbn. split; [|done]. do 2 eexists. split; [done|].
  destruct (m !! k) as [w|]; cbn; [left; by eexists|right].
  split_and!; [done|done|]. eexists. split; [done|]. unfold time_add, millisecond. lia.
Qed.
Next Obligation. done. Qed.
Next Obligation.
  intros k ttl t m k' Hk. cbn. unfold memory_Increment, memoryBackend in *. cbn.
  rewrite lookup_insert_ne by done. by left.
Qed.
Next Obligation.
  intros t m k. cbn. unfold cleanup, slot_kept, memoryBackend in *. rewrite map_lookup_filter.
  destruct (m !! k) as [w|]; cbn; [|by left]. unfold time_after, guard. case_match; cbn; [by left|].
  right. split; [done|]. do 2 eexists. split; [done|]. unfold open.
  destruct (Z.ltb_spec (wn_resetAt w) t); [lia|done].
Qed.

Section Redis.
Context {s : Type} `{Hs : State s} `{Hl : !StateLaws s}.

Definition entry_slot (e : Entry) : Z * option instant := (ParseInt (en_value e), en_expires e).
Definition ttl_sent (ttl : duration) : duration :=
  (if duration_milliseconds ttl <? 1 then 1 else duration_milliseconds ttl) * millisecond.

Lemma ttl_sent_enough ttl : millisecond <= ttl -> 0 < ttl_sent ttl /\ ttl - millisecond < ttl_sent ttl.
Proof.
  intros H. unfold ttl_sent, duration_milliseconds. rewrite Z.quot_div_nonneg by (unfold millisecond in *; lia).
  pose proof (Z.div_mod ttl millisecond ltac:(done)). pose proof (Z.mod_pos_bound ttl millisecond ltac:(done)).
  assert (1 <= ttl / millisecond) by (apply Z.div_le_lower_bound; [done|lia]).
  destruct (Z.ltb_spec (ttl / millisecond) 1); unfold millisecond in *; lia.
Qed.

Lemma kept_slot t o o' : kept t o o' -> slot_kept t (entry_slot <$> o) (entry_slot <$> o').
Proof.
  intros [-> |(-> & e & -> & He)]; [by left|right]. split; [done|]. cbn. do 2 eexists. split; [done|exact He].
Qed.

(** What [Incr] did to the entry of its key. *)
Lemma bumped_entry t ttl o e' n :
  millisecond <= ttl -> in_int64 n -> en_value e' = FormatInt n ->
  (exists e, o = Some e /\ ~ dead t e /\ en_expires e' = en_expires e /\ n = wrap64 (ParseInt (en_value e) + 1)) \/
  ((forall e, o = Some e -> ~ live t e) /\ n = 1 /\ armed t (ttl_sent ttl) e') ->
  bumped t ttl (entry_slot <$> o) (Some (entry_slot e')).
Proof.
  intros Httl Hn Hv H. destruct (ttl_sent_enough ttl Httl) as [_ Hsent].
  exists n, (en_expires e'). unfold entry_slot at 1. rewrite Hv, ParseInt_FormatInt by done. split; [done|].
  destruct H as [(e & -> & _ & -> & ->)|(Hold & -> & u & Hu & Harm)].
  - left. cbn. by eexists.
  - right. split_and!; [|done|exists u; split; [done|lia]].
    intros c x Hc. apply fmap_Some in Hc as (e & He & [= -> ->]). by apply (Hold e).
Qed.

Lemma one_int64 : in_int64 1. Proof. done. Qed.

#[export] Program Instance redis_backend_laws : BackendLaws (redisBackend s) := {|
  slot r k := entry_slot <$> entry (rb_client r) k;
|}.
Next Obligation.
  intros k ttl t r n Httl. cbn. unfold redis_Increment. fold (ttl_sent ttl).
  destruct (ttl_sent_enough ttl Httl) as [Hpos _].
  pose proof (incr_counts k (ttl_sent ttl) t (rb_client r) n Hpos) as Hc.
  destruct (Incr k (ttl_sent ttl) t (rb_client r)) as [o st]. cbn in *. intros Ho.
  destruct (Hc Ho) as (e' & He & Hv & Hd). rewrite He.
  assert (Hn : in_int64 n).
  { destruct Hd as [(? & _ & _ & _ & ->)|(_ & -> & _)]; [apply wrap64_range|done]. }
  split; [by apply (bumped_entry t ttl _ e' n)|]. cbn. by rewrite Hv, ParseInt_FormatInt.
Qed.
Next Obligation.
  intros k ttl t r e Httl. cbn. unfold redis_Increment. fold (ttl_sent ttl).
  destruct (ttl_sent_enough ttl Httl) as [Hpos _].
  pose proof (incr_fails k (ttl_sent ttl) t (rb_client r) e Hpos) as Hc.
  destruct (Incr k (ttl_sent ttl) t (rb_client r)) as [o st]. cbn in *. intros Ho.
  destruct (Hc Ho) as [Hk|(e' & He & [(e0 & H0 & Hd & Hx & Hv)|(H0 & Hv & Ha)])].
  - left. by apply kept_slot.
  - right. rewrite He. eapply bumped_entry; [done|apply wrap64_range|exact Hv|]. left. by exists e0.
  - right. rewrite He. eapply bumped_entry; [done|exact one_int64|exact Hv|]. by right.
Qed.
Next Obligation.
  intros k ttl t r k' Hk. cbn. unfold redis_Increment. fold (ttl_sent ttl).
  pose proof (incr_keeps k (ttl_sent ttl) t (rb_client r) k' Hk) as Hc.
  destruct (Incr k (ttl_sent ttl) t (rb_client r)) as [o st]. cbn in *. by apply kept_slot.
Qed.
Next Obligation. intros t r k. by left. Qed.
End Redis.

(** ** Bucket keys *)
Definition colon_free (x : string) : Prop := has colon (untext x) = false.

#[local] Arguments String.append !_ _ / : simpl nomatch.
Lemma untext_app (a b : string) : untext (a ++ b) = untext a ++ untext b.
Proof. unfold untext. induction a as [|c a IH]; cbn; [done|]. by rewrite IH. Qed.
Lemma has_rev c l : has c (rev l) = has c l.
Proof.
  apply eq_true_iff_eq. unfold has. rewrite !existsb_exists. setoid_rewrite <- in_rev. done.
Qed.
Lemma has_app c l k : has c (l ++ k) = has c l || has c k.
Proof. apply existsb_app. Qed.
Lemma cut_at_byte c l rest : has c l = false -> cut c (l ++ c :: rest) = (l, Some rest).
Proof.
  unfold same, has. induction l as [|x l IH]; cbn; unfold same; [by rewrite Ascii.eqb_refl|].
  intros [Hx Hl]%orb_false_iff. unfold same in Hx. by rewrite Hx, IH.
Qed.

(** The last colon is where they were joined. *)
Lemma last_colon (a b x y : string) : colon_free b -> colon_free y ->
  (a +:+ ":" +:+ b)%string = (x +:+ ":" +:+ y)%string -> a = x /\ b = y.
Proof.
  unfold colon_free. intros Hb Hy H. apply (f_equal (fun z => cut colon (rev (untext z)))) in H.
  rewrite !untext_app, !rev_app_distr in H. cbn [untext] in H.
  change (rev (untext ":")) with [colon] in H. rewrite <- !app_assoc in H. cbn [app] in H.
  rewrite !cut_at_byte in H by (by rewrite has_rev). injection H as H1 H2.
  apply rev_inj in H1, H2. rewrite <- (text_untext a), <- (text_untext b), H1, H2. by rewrite !text_untext.
Qed.

Lemma uint_colon_free d : colon_free (NilEmpty.string_of_uint d).
Proof. unfold colon_free, untext, has. induction d; cbn in *; done. Qed.
Lemma FormatInt_colon_free n : colon_free (FormatInt n).
Proof. unfold FormatInt. destruct (Z.to_int n); apply uint_colon_free. Qed.
Lemma FormatInt_inj n m : FormatInt n = FormatInt m -> n = m.
Proof.
  unfold FormatInt. intros H. apply (f_equal NilEmpty.int_of_string) in H. rewrite !NilEmpty.isi in H.
  injection H as H. by rewrite <- (DecimalZ.of_to n), <- (DecimalZ.of_to m), H.
Qed.

Definition minute_of (t : instant) : Z := Z.quot (time_unix t) 60.
(** The key of a bucket in minute [m]. *)
Definition minute_key (key : string) (m : Z) : string := "rl:" +:+ key +:+ ":" +:+ FormatInt m.
Lemma minuteKey_at key t : minuteKey key t = minute_key key (minute_of t).
Proof. done. Qed.
Lemma minute_key_inj key key' m m' : minute_key key m = minute_key key' m' -> key = key' /\ m = m'.
Proof.
  unfold minute_key. intros H. apply append_inj_l in H.
  apply last_colon in H as [-> H]; [|apply FormatInt_colon_free..]. split; [done|by apply FormatInt_inj].
Qed.

Definition minute_end (m : Z) : instant := (m + 1) * minute.
Lemma minute_of_bounds t : 0 <= t -> minute_of t * minute <= t < minute_end (minute_of t).
Proof.
  intros Ht. unfold minute_of, minute_end, time_unix, minute.
  assert (0 <= t / second) by (apply Z.div_pos; [done|done]).
  rewrite Z.quot_div_nonneg by lia. rewrite Z.div_div by done.
  pose proof (Z.div_mod t (second * 60) ltac:(done)). pose proof (Z.mod_pos_bound t (second * 60) ltac:(done)).
  unfold second in *. lia.
Qed.

(** ** The caller behind trusted hops *)
Lemma parse_chain_all parts chain : Forall2 (fun part a => parse_part part = Some a) parts chain ->
  parse_chain parts = Some chain.
Proof. induction 1 as [|part a parts chain Ha _ IH]; cbn; [done|]. by rewrite Ha, IH. Qed.

Lemma walk_past t hops c rest :
  Forall (fun a => contains t a = true) hops -> contains t c = false -> walk t (hops ++ c :: rest) = Some c.
Proof.
  intros Hh Hc. induction Hh as [|a hops Ha _ IH]; cbn; [by rewrite Hc, orb_true_r|].
  rewrite Ha, IH. by rewrite bool_decide_eq_false_2 by (by destruct hops).
Qed.

(** [c] is where the request comes from: the peer, when it is no trusted hop, or the
    address a trusted peer and the trusted hops before it vouch for, whatever addresses the
    caller wrote in front. *)
Definition comes_from (t : proxyTrust) (c : Addr) (r : Request) : Prop :=
  exists peer, parsePeerAddress (rq_RemoteAddr r) = Some peer /\ contains t c = false /\
    (peer = c \/
     (contains t peer = true /\ exists forged hops,
        (length (forged ++ c :: hops) <= 32)%nat /\
        Forall (fun a => contains t a = true) hops /\
        Forall2 (fun part a => parse_part part = Some a)
          (split_commas (header_Get r "X-Forwarded-For")) (forged ++ c :: hops))).

Lemma comes_from_client t c r : comes_from t c r -> clientIP t r = addr_String c.
Proof.
  intros (peer & Hpeer & Hc & [-> |(Ht & forged & hops & Hlen & Hh & Hp)]); unfold clientIP; rewrite Hpeer.
  { by rewrite Hc. }
  rewrite Ht. cbn [negb]. case_decide as He.
  { rewrite He in Hp. change (split_commas "") with [""] in Hp.
    apply Forall2_cons_inv_l in Hp as (a & chain & Ha & _). by vm_compute in Ha. }
  rewrite (Forall2_length _ _ _ Hp), (proj2 (Nat.ltb_ge _ _)) by done.
  rewrite (parse_chain_all _ _ Hp), <- app_assoc, rev_app_distr. cbn [app rev].
  rewrite <- app_assoc. cbn [app]. rewrite walk_past; [done| |done].
  rewrite rev_app_distr. constructor; [done|]. by apply Forall_rev.
Qed.

(** ** Counting *)
Section Counts.
Context {b : Type} `{Hb : rateLimitBackend b} `{Hl : !BackendLaws b}.

(** Key [k] has counted [c] and keeps the count until [deadline]. *)
Definition tally (k : string) (deadline : instant) (c : Z) (st : b) : Prop :=
  (c = 0 /\ slot st k = None) \/
  (0 < c /\ exists x, slot st k = Some (c, x) /\ forall t, t < deadline -> open t x).

Lemma kept_tally k deadline t c st st' : t < deadline -> slot_kept t (slot st k) (slot st' k) ->
  tally k deadline c st -> tally k deadline c st'.
Proof.
  intros Ht [Hk|(Hk & c0 & x0 & Hs & Ho)] [[-> H]|(Hc & x & H & Hx)].
  - left. by rewrite Hk.
  - right. split; [done|]. exists x. by rewrite Hk.
  - congruence.
  - destruct Ho. rewrite H in Hs. injection Hs as -> ->. by apply Hx.
Qed.

Lemma bumped_tally k deadline t ttl c st st' : t < deadline -> deadline <= t + ttl - 2 * millisecond ->
  c + 1 < 2 ^ 63 -> bumped t ttl (slot st k) (slot st' k) -> tally k deadline c st -> tally k deadline (c + 1) st'.
Proof.
  intros Ht Hd Hmax (c' & x' & Hs & Hcase) [[-> H]|(Hc & x & H & Hx)]; right; (split; [lia|]); exists x'.
  - destruct Hcase as [(c0 & Hc0 & _)|(_ & -> & u & -> & Hu)]; [congruence|]. split; [done|].
    intros t' Ht'. cbn. lia.
  - destruct Hcase as [(c0 & Hc0 & ->)|(Hgone & _)].
    + rewrite H in Hc0. injection Hc0 as <- <-. rewrite wrap64_id in Hs by (unfold in_int64, int64_min, int64_max; lia).
      done.
    + by destruct (Hgone c x H (Hx t Ht)).
Qed.

Lemma minute_ttl t m : 0 <= t -> minute_of t = m -> t < minute_end m /\
  minute_end m <= t + 120 * second - 2 * millisecond.
Proof.
  intros Ht <-. pose proof (minute_of_bounds t Ht). unfold minute_end, minute, second, millisecond in *. lia.
Qed.

(** An increment of the key within its minute. *)
Lemma increment_tally key t m c st : 0 <= t -> minute_of t = m -> c + 1 < 2 ^ 63 ->
  tally (minuteKey key t) (minute_end m) c st ->
  let '(o, st') := Increment (minuteKey key t) (120 * second) t st in
  (o = Ok (c + 1) /\ tally (minuteKey key t) (minute_end m) (c + 1) st') \/
  (is_ok o = false /\ (tally (minuteKey key t) (minute_end m) c st' \/ tally (minuteKey key t) (minute_end m) (c + 1) st')).
Proof.
  intros Ht Hm Hmax Hta. destruct (minute_ttl t m Ht Hm) as [Hend Httl].
  assert (Hms : millisecond <= 120 * second) by done.
  pose proof (fun n => increment_counts (minuteKey key t) (120 * second) t st n Hms) as Hok.
  pose proof (fun e => increment_fails (minuteKey key t) (120 * second) t st e Hms) as Herr.
  destruct (Increment (minuteKey key t) (120 * second) t st) as [[n|e] st']; cbn [fst snd] in Hok, Herr.
  - left. destruct (Hok n eq_refl) as [Hbump Hn].
    assert (Hta' : tally (minuteKey key t) (minute_end m) (c + 1) st') by (by eapply bumped_tally).
    split; [|done]. f_equal. destruct Hta' as [[H0 Hnone]|(_ & x & Hsome & _)].
    + by rewrite Hnone in Hn.
    + rewrite Hsome in Hn. cbn in Hn. congruence.
  - right. split; [done|]. destruct (Herr e eq_refl) as [Hk|Hk]; [left; by eapply kept_tally|right; by eapply bumped_tally].
Qed.

(** ** One request *)
Variable rl : RateLimiter.

Definition bucket_of (entry : RouteEntry) (r : Request) : string * Z * Z :=
  choose_bucket rl (rateLimitClassFor (Some entry)) (re_AuthenticationFactorAttempt entry) r.

(** What the request does to the backend, and when it is served. *)
Lemma serve_spec entry r now answered st key limit burst :
  bucket_of entry r = (key, limit, burst) ->
  let '(count, st') := Increment (minuteKey key now) (120 * second) now st in
  snd (serve rl entry r now answered st) = st' /\
  is_served (fst (serve rl entry r now answered st)) =
    match count with
    | Ok n => n <=? wrap64 (limit + burst)
    | Err _ => negb (re_RateLimitBackendFailClosed entry)
    end.
Proof.
  unfold bucket_of, serve, Middleware. intros ->. unfold allowWithBudget.
  destruct (Increment _ _ _ _) as [[n|e] st'].
  - rewrite Z.leb_antisym. by destruct (wrap64 (limit + burst) <? n).
  - cbn. by destruct (re_RateLimitBackendFailClosed entry).
Qed.

(** A step leaves the count of any key it does not count for. *)
Lemma step_other k deadline c now ev st : now < deadline ->
  match ev with Arrive entry r _ => minuteKey (fst (fst (bucket_of entry r))) now <> k | Background_tick => True end ->
  tally k deadline c st -> tally k deadline c (snd (step rl now ev st)).
Proof.
  intros Ht Hk Hta. destruct ev as [entry r answered|]; cbn [step].
  - destruct (bucket_of entry r) as [[key limit] burst] eqn:Hbucket. cbn [fst] in Hk.
    pose proof (serve_spec entry r now answered st key limit burst Hbucket) as Hs.
    destruct (serve rl entry r now answered st) as [o st1]. cbn [fst snd] in Hs |- *.
    pose proof (increment_keeps (minuteKey key now) (120 * second) now st k (not_eq_sym Hk)) as Hkeep.
    destruct (Increment (minuteKey key now) (120 * second) now st) as [n st']. cbn [snd] in Hkeep.
    destruct Hs as [-> _]. by eapply kept_tally.
  - eapply kept_tally; [exact Ht|apply background_keeps|done].
Qed.
End Counts.
