(* ===== verification/RateLimitTheorems.v ===== *)
(** What the gateway's rate limiter promises: no header a caller can write buys it more
    authentication attempts than the budget of its address, and in a minute a bucket
    serves exactly its budget, whoever else is metered. *)
From S2P Require Import Prelude GoText RedisState RedisStateTheorems NetAddr RateLimit RateLimitProofs.
From Stdlib Require Import Ascii.
Local Open Scope Z_scope.

(** Requests and the backend's own work in the order of time. *)
Definition in_order (es : list (instant * event)) : Prop :=
  Sorted Z.le (map fst es) /\ Forall (fun x => 0 <= fst x) es.
Definition attempt_limit (rl : RateLimiter) : Z :=
  if rl_authenticationAttemptLimit rl <=? 0 then authenticationAttemptLimitPerMinute
  else rl_authenticationAttemptLimit rl.
Definition attempt_bucket (c : Addr) : string := "auth-factor:" +:+ addr_String c.

Section Runs.
Context {b : Type} `{Hb : rateLimitBackend b}.
Variable rl : RateLimiter.

(** The authentication attempts of minute [m] that are [mine] and reach the service. *)
Fixpoint served_attempts (mine : Request -> bool) (m : Z) (es : list (instant * event)) (st : b) : Z :=
  match es with
  | [] => 0
  | (now, ev) :: es =>
      let '(o, st') := step rl now ev st in
      match ev, o with
      | Arrive entry r _, Some o =>
          if re_AuthenticationFactorAttempt entry && mine r && (minute_of now =? m) && is_served o then 1 else 0
      | _, _ => 0
      end + served_attempts mine m es st'
  end.

(** Whether each request metered in [key]'s bucket in minute [m] is served, in order. *)
Fixpoint answers (key : string) (m : Z) (es : list (instant * event)) (st : b) : list bool :=
  match es with
  | [] => []
  | (now, ev) :: es =>
      let '(o, st') := step rl now ev st in
      match ev, o with
      | Arrive entry r _, Some o =>
          if bool_decide (fst (fst (bucket_of rl entry r)) = key) && (minute_of now =? m)
          then [is_served o] else []
      | _, _ => []
      end ++ answers key m es st'
  end.

Context `{Hl : !BackendLaws b}.

Lemma in_order_cons x es : in_order (x :: es) ->
  0 <= fst x /\ Forall (fun y => fst x <= fst y) es /\ in_order es.
Proof.
  intros [Hs Hf]. apply Sorted_StronglySorted in Hs; [|intros ???; lia]. cbn in Hs.
  inversion Hs as [|? ? Hrest Hall]; subst. inversion Hf; subst. split_and!; [done| |].
  - by rewrite Stdlib.Lists.List.Forall_map in Hall.
  - split; [by apply StronglySorted_Sorted|done].
Qed.

(** A bucket's count before a run: kept to the end of its minute, unless that is over. *)
Definition counted (key : string) (m : Z) (es : list (instant * event)) (c : Z) (st : b) : Prop :=
  Forall (fun x => minute_end m <= fst x) es \/ tally (minute_key key m) (minute_end m) c st.

Lemma over m now (es : list (instant * event)) : minute_end m <= now -> Forall (fun y => now <= fst y) es ->
  Forall (fun x => minute_end m <= fst x) es.
Proof. intros H Hes. eapply Forall_impl; [exact Hes|]. cbn. lia. Qed.
Lemma not_over m t : 0 <= t -> minute_end m <= t -> minute_of t <> m.
Proof. intros Ht Hend <-. pose proof (minute_of_bounds t Ht). lia. Qed.

(** A step that does not count for the bucket. *)
Lemma step_elsewhere key m c now ev es st : in_order ((now, ev) :: es) ->
  match ev with
  | Arrive entry r _ => fst (fst (bucket_of rl entry r)) = key -> minute_of now <> m
  | Background_tick => True
  end ->
  counted key m ((now, ev) :: es) c st -> counted key m es c (snd (step rl now ev st)).
Proof.
  intros Ho Hev Hc. apply in_order_cons in Ho as (H0 & Hle & _). cbn [fst] in *.
  destruct (Z.le_gt_cases (minute_end m) now) as [Hend|Hend]; [left; by eapply over|].
  destruct Hc as [Hover|Hta]; [inversion Hover as [|? ? Hx]; cbn in Hx; lia|]. right. apply step_other; [done| |done].
  destruct ev as [entry r answered|]; [|done]. intros Hk. rewrite minuteKey_at in Hk.
  apply minute_key_inj in Hk as [Hkey Hm]. by apply Hev.
Qed.

(** A request metered in the bucket within its minute. *)
Lemma step_counted key m limit burst c entry r now answered es st :
  in_order ((now, Arrive entry r answered) :: es) -> c + 1 < 2 ^ 63 ->
  bucket_of rl entry r = (key, limit, burst) -> minute_of now = m ->
  counted key m ((now, Arrive entry r answered) :: es) c st ->
  let '(o, st') := step rl now (Arrive entry r answered) st in
  (o = Some (fst (serve rl entry r now answered st)) /\
   is_served (fst (serve rl entry r now answered st)) = (c + 1 <=? wrap64 (limit + burst)) /\
   counted key m es (c + 1) st') \/
  (is_ok (fst (Increment (minuteKey key now) (120 * second) now st)) = false /\
   o = Some (fst (serve rl entry r now answered st)) /\
   is_served (fst (serve rl entry r now answered st)) = negb (re_RateLimitBackendFailClosed entry) /\
   exists c', c <= c' <= c + 1 /\ counted key m es c' st').
Proof.
  intros Ho Hmax Hbucket Hm Hc. apply in_order_cons in Ho as (H0 & _). cbn [fst] in *.
  destruct Hc as [Hover|Hta].
  { inversion Hover as [|? ? Hend]; subst. by apply (not_over _ _ H0) in Hend. }
  assert (Hk : minute_key key m = minuteKey key now) by (by rewrite minuteKey_at, Hm).
  rewrite Hk in Hta. pose proof (increment_tally key now m c st H0 Hm Hmax Hta) as Hi.
  pose proof (serve_spec rl entry r now answered st key limit burst Hbucket) as Hs. cbn [step].
  unfold counted. rewrite Hk.
  destruct (serve rl entry r now answered st) as [o st1]. cbn [fst snd] in *.
  destruct (Increment (minuteKey key now) (120 * second) now st) as [count st']. cbn [fst].
  destruct Hs as [-> ->], Hi as [[-> Hi]|[Hf Hi]].
  - left. split_and!; [done|done|by right].
  - right. destruct count; [done|]. split_and!; [done..|].
    destruct Hi; [exists c|exists (c + 1)]; (split; [lia|by right]).
Qed.

(** ** The budget of an address *)
Lemma choose_attempt entry r : re_AuthenticationFactorAttempt entry = true ->
  bucket_of rl entry r = ("auth-factor:" +:+ clientIP (rl_proxies rl) r, attempt_limit rl, 0).
Proof. unfold bucket_of, choose_bucket, attempt_limit. by intros ->. Qed.

Lemma wrap64_below z : 0 <= z -> wrap64 z <= z.
Proof.
  intros Hz. unfold wrap64. pose proof (Z.mod_le (z + 2 ^ 63) (2 ^ 64) ltac:(lia) ltac:(lia)). lia.
Qed.
Lemma attempt_limit_pos : 0 <= attempt_limit rl + 0.
Proof. unfold attempt_limit. destruct (Z.leb_spec (rl_authenticationAttemptLimit rl) 0); [done|lia]. Qed.

(** Attempts of the address that the policy lets through only on a counted budget. *)
Definition guarded (c : Addr) (mine : Request -> bool) (x : instant * event) : Prop :=
  match snd x with
  | Arrive entry r _ => re_AuthenticationFactorAttempt entry = true -> mine r = true ->
      re_RateLimitBackendFailClosed entry = true /\ comes_from (rl_proxies rl) c r
  | Background_tick => True
  end.

Lemma served_attempts_bound c mine m es st n :
  in_order es -> Forall (guarded c mine) es -> 0 <= n -> n + Z.of_nat (length es) < 2 ^ 63 ->
  counted (attempt_bucket c) m es n st ->
  served_attempts mine m es st <= Z.max 0 (attempt_limit rl - n).
Proof.
  revert st n. induction es as [|[now ev] es IH]; intros st n Ho Hg Hn Hmax Hc; [cbn; lia|].
  inversion Hg as [|? ? Hx Hg']; subst. cbn [length] in Hmax.
  destruct (in_order_cons _ _ Ho) as (H0 & _ & Ho').
  pose proof (step_elsewhere (attempt_bucket c) m n now ev es st Ho) as Helse.
  cbn [served_attempts].
  destruct ev as [entry r answered|].
  - destruct (bucket_of rl entry r) as [[key limit] burst] eqn:Hbucket.
    destruct (decide (key = attempt_bucket c /\ minute_of now = m)) as [[-> Hm]|Hnot].
    + pose proof (step_counted _ m limit burst n entry r now answered es st Ho ltac:(lia) Hbucket Hm Hc) as Hs.
      destruct (step rl now (Arrive entry r answered) st) as [o st'].
      destruct Hs as [(-> & Hserved & Hc')|(_ & -> & Hserved & n' & Hn' & Hc')].
      * pose proof (IH st' (n + 1) Ho' Hg' ltac:(lia) ltac:(lia) Hc') as Hrest.
        destruct (re_AuthenticationFactorAttempt entry) eqn:Hatt; cbn [andb]; [|lia].
        destruct (mine r && (minute_of now =? m)); cbn [andb]; [|lia].
        rewrite Hserved. rewrite choose_attempt in Hbucket by done. injection Hbucket as _ <- <-.
        destruct (Z.leb_spec (n + 1) (wrap64 (attempt_limit rl + 0))) as [Hle|]; [|lia].
        pose proof (wrap64_below _ attempt_limit_pos). lia.
      * pose proof (IH st' n' Ho' Hg' ltac:(lia) ltac:(lia) Hc') as Hrest.
        destruct (re_AuthenticationFactorAttempt entry) eqn:Hatt; cbn [andb]; [|lia].
        destruct (mine r) eqn:Hmine; cbn [andb]; [|lia].
        rewrite Hserved. cbn in Hx. destruct (Hx Hatt Hmine) as [-> _]. rewrite andb_false_r. lia.
    + cbn [fst] in Helse. specialize (Helse ltac:(intros -> ?; by apply Hnot) Hc).
      destruct (step rl now (Arrive entry r answered) st) as [o st'].
      pose proof (IH st' n Ho' Hg' ltac:(lia) ltac:(lia) Helse) as Hrest.
      destruct o as [o|]; [|lia].
      destruct (re_AuthenticationFactorAttempt entry) eqn:Hatt; cbn [andb]; [|lia].
      destruct (mine r) eqn:Hmine; cbn [andb]; [|lia].
      destruct (Z.eqb_spec (minute_of now) m) as [Hm|]; cbn [andb]; [|lia].
      exfalso. apply Hnot. split; [|done]. cbn in Hx. destruct (Hx Hatt Hmine) as [_ Hcl].
      rewrite choose_attempt in Hbucket by done. injection Hbucket as <- _ _.
      by rewrite (comes_from_client _ _ _ Hcl).
  - specialize (Helse I Hc). destruct (step rl now Background_tick st) as [o st'].
    pose proof (IH st' n Ho' Hg' ltac:(lia) ltac:(lia) Helse). destruct o; lia.
Qed.

(** C20. Whatever else reaches the gateway, on whichever lawful backend and whether or not it
    fails: in a minute, at most the configured number of authentication attempts that come
    from one address are served, where the policy of every route they take fails closed.  A
    request comes from an address when that is the untrusted peer, or what the trusted hops
    vouch for in an X-Forwarded-For of at most 32 entries that all read as addresses
    ([comes_from]); then the organization header, X-Real-Ip and the addresses the caller
    writes in front of its own make no difference.  A chain that is longer or holds an entry
    that is no address is metered as the hop instead (unreadable_chain_is_the_hop). *)
Theorem no_forged_header_buys_attempts c mine m es st :
  in_order es -> Forall (guarded c mine) es -> Z.of_nat (length es) < 2 ^ 63 ->
  slot st (minute_key (attempt_bucket c) m) = None ->
  served_attempts mine m es st <= attempt_limit rl.
Proof.
  intros Ho Hg Hmax Hfresh.
  pose proof (served_attempts_bound c mine m es st 0 Ho Hg ltac:(lia) ltac:(lia)
    ltac:(right; left; by split)) as Hb0.
  pose proof attempt_limit_pos. lia.
Qed.

(** ** A minute's budget *)
(** Requests metered in the bucket all have its budget. *)
Definition budgeted (key : string) (limit burst : Z) (x : instant * event) : Prop :=
  match snd x with
  | Arrive entry r _ => fst (fst (bucket_of rl entry r)) = key -> bucket_of rl entry r = (key, limit, burst)
  | Background_tick => True
  end.
Definition in_budget (total from : Z) (n : nat) : list bool :=
  map (fun i => from + Z.of_nat i <? total) (seq 0 n).

Lemma in_budget_cons total from n :
  in_budget total from (S n) = (from + 1 <=? total) :: in_budget total (from + 1) n.
Proof.
  unfold in_budget. cbn [seq map]. f_equal.
  - apply eq_true_iff_eq. rewrite Z.ltb_lt, Z.leb_le. lia.
  - rewrite <- seq_shift, map_map. apply map_ext. intros i. f_equal. lia.
Qed.

Context (reliable : forall k ttl t st, is_ok (fst (Increment k ttl t st)) = true).

Lemma answers_in_budget key limit burst m es st n :
  in_order es -> Forall (budgeted key limit burst) es -> 0 <= n -> n + Z.of_nat (length es) < 2 ^ 63 ->
  counted key m es n st ->
  answers key m es st = in_budget (wrap64 (limit + burst)) n (length (answers key m es st)).
Proof using Hl reliable.
  revert st n. induction es as [|[now ev] es IH]; intros st n Ho Hg Hn Hmax Hc; [done|].
  inversion Hg as [|? ? Hx Hg']; subst. cbn [length] in Hmax.
  destruct (in_order_cons _ _ Ho) as (H0 & _ & Ho').
  pose proof (step_elsewhere key m n now ev es st Ho) as Helse. cbn [answers].
  destruct ev as [entry r answered|].
  - destruct (decide (fst (fst (bucket_of rl entry r)) = key /\ minute_of now = m)) as [[Hkey Hm]|Hnot].
    + pose proof (step_counted _ m limit burst n entry r now answered es st Ho ltac:(lia) (Hx Hkey) Hm Hc) as Hs.
      destruct (step rl now (Arrive entry r answered) st) as [o st'].
      destruct Hs as [(-> & Hserved & Hc')|(Hf & _)]; [|by rewrite reliable in Hf].
      rewrite bool_decide_eq_true_2, Hm, Z.eqb_refl by done. cbn [andb app length].
      rewrite in_budget_cons, Hserved. f_equal. apply IH; [done|done|lia|lia|done].
    + specialize (Helse ltac:(intros ? ?; by apply Hnot) Hc).
      destruct (step rl now (Arrive entry r answered) st) as [o st'].
      assert (Hno : bool_decide (fst (fst (bucket_of rl entry r)) = key) && (minute_of now =? m) = false).
      { apply not_true_iff_false. rewrite andb_true_iff, bool_decide_eq_true, Z.eqb_eq. done. }
      rewrite Hno. destruct o as [o|]; cbn [app]; (apply IH; [done|done|lia|lia|done]).
  - specialize (Helse I Hc). destruct (step rl now Background_tick st) as [o st'].
    destruct o; cbn [app]; (apply IH; [done|done|lia|lia|done]).
Qed.

(** C21. On a lawful backend that does not fail, of the requests metered in one bucket in one
    minute the first limit + burst are served and all later ones are refused, whatever is
    metered in other buckets and minutes in between and whenever the backend cleans up. *)
Theorem a_minute_grants_its_budget key limit burst m es st :
  in_order es -> Forall (budgeted key limit burst) es -> Z.of_nat (length es) < 2 ^ 63 ->
  in_int64 (limit + burst) -> slot st (minute_key key m) = None ->
  answers key m es st = map (fun i => Z.of_nat i <? limit + burst) (seq 0 (length (answers key m es st))).
Proof using Hl reliable.
  intros Ho Hg Hmax Hint Hfresh. rewrite <- (wrap64_id (limit + burst)) by done.
  apply (answers_in_budget key limit burst m es st 0); [done|done|lia|lia|]. right; left; by split.
Qed.
End Runs.

(** ** The start of a gateway *)
(** A deployed gateway that starts counts in the shared store, names a trusted hop and has an
    attempt budget between 1 and 1000. *)
Lemma deployed_start reachable attempts proxies env redisURL rl kind :
  start_limiter reachable false attempts proxies env redisURL = Some (rl, kind) ->
  kind = SharedRedis /\ reachable redisURL = true /\ pt_prefixes (rl_proxies rl) <> [] /\
  1 <= attempt_limit rl <= 1000 /\ rl_limit rl = 1000 /\ rl_burst rl = 200.
Proof.
  unfold start_limiter. intros (limit & Hlimit & H)%bind_Some.
  unfold requireProxyTrust in H. destruct (parseProxyTrust proxies) as [trust|] eqn:Hp; cbn in H; [|done].
  destruct (bool_decide (pt_prefixes trust = [])) eqn:He; cbn in H; [done|].
  apply bool_decide_eq_false_1 in He.
  unfold NewRateLimiter in H. cbn in H. unfold newProxyTrust in H. rewrite Hp in H.
  repeat case_match; simplify_eq/=. split_and!; try done.
  all: unfold attempt_limit; cbn; unfold configuredAuthenticationAttemptLimit in Hlimit;
    repeat (case_match; simplify_eq/=); unfold authenticationAttemptLimitPerMinute in *; lia.
Qed.

(** ** What the caller search answers where it finds no caller *)
(** An entry that is no address, or too many entries, and the answer is the hop: every caller
    that writes one shares that bucket. *)
Lemma unreadable_chain_is_the_hop t r peer : parsePeerAddress (rq_RemoteAddr r) = Some peer ->
  let parts := split_commas (header_Get r "X-Forwarded-For") in
  header_Get r "X-Forwarded-For" <> "" ->
  parse_chain parts = None \/ (32 < length parts)%nat -> clientIP t r = addr_String peer.
Proof.
  intros Hpeer parts Hx H. unfold clientIP. rewrite Hpeer. fold parts.
  destruct (contains t peer); cbn [negb]; [|done]. rewrite decide_False by done.
  destruct (Nat.ltb_spec 32 (length parts)); [done|]. destruct H as [-> |]; [done|lia].
Qed.

(** Of several header lines only the first counts: what a hop adds in a line of its own is
    not read. *)
Lemma later_lines_are_not_read t r lines lines' v :
  rq_Header r !! "X-Forwarded-For" = Some (v :: lines) ->
  clientIP t r = clientIP t {| rq_RemoteAddr := rq_RemoteAddr r;
                               rq_Header := <["X-Forwarded-For" := v :: lines']> (rq_Header r) |}.
Proof.
  intros Hv. unfold clientIP, real_ip, header_Get. cbn [rq_RemoteAddr rq_Header].
  rewrite lookup_insert_eq, lookup_insert_ne by done. by rewrite Hv.
Qed.

(** A range of IPv4-mapped addresses is accepted and matches nothing, because addresses are
    unmapped before they are compared and ranges are not. *)
Definition mapped_range (p : Prefix) : Prop :=
  exists v z, pf_addr p = V6 v z /\ Is4In6 (pf_addr p) = true /\ 96 <= pf_bits p <= 128.
Lemma unmapped a : Is4In6 (Unmap a) = false.
Proof. unfold Unmap. destruct a as [v|v z]; [done|]. by destruct (Is4In6 (V6 v z)) eqn:?. Qed.
Lemma mapped_range_matches_nothing t a : Forall mapped_range (pt_prefixes t) -> contains t a = false.
Proof.
  intros Hf. unfold contains. pose proof (unmapped a) as Hu. induction Hf as [|p ps Hp _ IH]; [done|]. cbn.
  rewrite IH, orb_false_r. destruct Hp as (v & z & Hv & Hm & Hbits). rewrite Hv in Hm. cbn in Hm.
  apply Z.eqb_eq in Hm. unfold Prefix_Contains. rewrite Hv.
  apply not_true_iff_false. rewrite !andb_true_iff, !Z.eqb_eq. intros [[_ Hlen] H].
  destruct (Unmap a) as [|w y]; [done|]. cbn in H, Hu. apply Z.eqb_neq in Hu. apply Hu.
  rewrite <- Hm. apply Z.bits_inj'. intros i Hi. rewrite !Z.shiftr_spec by done.
  apply (f_equal (fun x => Z.testbit x (i + 32 - (128 - pf_bits p)))) in H.
  rewrite Z.shiftr_spec, Z.lxor_spec, Z.bits_0 in H by lia.
  replace (i + 32 - (128 - pf_bits p) + (128 - pf_bits p)) with (i + 32) in H by lia.
  by apply xorb_eq.
Qed.
Example a_mapped_range_starts : requireProxyTrust "::ffff:10.0.0.0/104" false = Ok () /\
  bool_decide (pt_prefixes (newProxyTrust "::ffff:10.0.0.0/104") = []) = false /\
  contains (newProxyTrust "::ffff:10.0.0.0/104") (V4 167772163) = false /\
  contains (newProxyTrust "10.0.0.0/8") (V4 167772163) = true.
Proof. by vm_compute. Qed.

(** ** Concrete runs *)
(** A gateway that trusts 10.0.0.0/8, with a budget of two attempts. *)
Definition the_limiter : RateLimiter :=
  {| rl_limit := 1; rl_burst := 1; rl_authenticationAttemptLimit := 2;
     rl_proxies := newProxyTrust " 10.0.0.0/8, 192.0.2.7" |}.
Definition the_caller : Addr := V4 3325256748.
Example the_caller_text : addr_String the_caller = "198.51.100.44".
Proof. by vm_compute. Qed.

(** A request through the hops 192.0.2.7 and 10.0.0.3. *)
Definition behind_hops (forged org : string) : Request :=
  {| rq_RemoteAddr := "10.0.0.3:443";
     rq_Header := <["X-Forwarded-For" := [(forged +:+ ", 198.51.100.44, 192.0.2.7")%string]]>
                 (<["X-Real-Ip" := ["203.0.113.1"]]> (<["X-Org-Id" := [org]]> ∅)) |}.
Definition attempt_route : RouteEntry :=
  {| re_RateLimitClass := edgeRateLimitClassAuthentication; re_RateLimitBackendFailClosed := true;
     re_AuthenticationFactorAttempt := true |}.
Definition plain_route : RouteEntry :=
  {| re_RateLimitClass := edgeRateLimitClassStandardRead; re_RateLimitBackendFailClosed := false;
     re_AuthenticationFactorAttempt := false |}.
(** In minute 100: three attempts with other forged addresses, and reads of two tenants. *)
Definition the_events : list (instant * event) :=
  [(6000 * second, Arrive attempt_route (behind_hops "1.1.1.1" "acme") 0);
   (6001 * second, Arrive plain_route (behind_hops "1.1.1.1" "acme") 0);
   (6002 * second, Arrive attempt_route (behind_hops "::ffff:2.2.2.2" "globex") 0);
   (6003 * second, Background_tick);
   (6004 * second, Arrive plain_route (behind_hops "1.1.1.1" "globex") 0);
   (6005 * second, Arrive plain_route (behind_hops "1.1.1.1" "acme") 0);
   (6006 * second, Arrive attempt_route (behind_hops "2001:db8::1" "acme") 0);
   (6007 * second, Arrive plain_route (behind_hops "1.1.1.1" "acme") 0);
   (6060 * second, Arrive plain_route (behind_hops "1.1.1.1" "acme") 0)].

Lemma the_events_in_order : in_order the_events.
Proof. split; [|repeat constructor; done]. by apply (bool_decide_eq_true_1 _). Qed.

Lemma comes_from_the_caller forged org a : parse_part forged = Some a ->
  split_commas (forged +:+ ", 198.51.100.44, 192.0.2.7")%string = [forged; " 198.51.100.44"; " 192.0.2.7"] ->
  comes_from (rl_proxies the_limiter) the_caller (behind_hops forged org).
Proof.
  intros Ha Hs. exists (V4 167772163). split_and!; [by vm_compute..|]. right.
  split; [by vm_compute|]. exists [a], [V4 3221225991]. split_and!; [cbn; lia|by repeat constructor|].
  unfold header_Get, behind_hops. cbn [rq_Header]. rewrite lookup_insert_eq, Hs.
  repeat constructor; [done|by vm_compute..].
Qed.
Lemma the_events_guarded : Forall (guarded the_limiter the_caller (fun _ => true)) the_events.
Proof.
  unfold the_events. repeat apply Forall_cons_2; try apply Forall_nil_2;
    cbn [guarded snd]; try done; intros _ _; (split; [done|]);
    (eapply comes_from_the_caller; [vm_compute; reflexivity|by vm_compute]).
Qed.

Lemma no_forged_header_buys_attempts_witness :
  served_attempts (b := memoryBackend) the_limiter (fun _ => true) 100 the_events ∅ = 2 /\
  served_attempts (b := memoryBackend) the_limiter (fun _ => true) 100 the_events ∅ <= attempt_limit the_limiter.
Proof.
  split; [by vm_compute|].
  apply (no_forged_header_buys_attempts (b := memoryBackend) the_limiter the_caller).
  - apply the_events_in_order.
  - apply the_events_guarded.
  - by vm_compute.
  - by vm_compute.
Defined.

Lemma memory_redis_reliable k ttl t (st : redisBackend memoryState) : is_ok (fst (Increment k ttl t st)) = true.
Proof.
  cbn. unfold redis_Increment. cbn. unfold memory_Incr.
  by destruct (match rb_client st !! k with Some _ => _ | None => _ end).
Qed.
Definition empty_redis : redisBackend memoryState := Build_redisBackend (∅ : memoryState).

Lemma a_minute_grants_its_budget_witness :
  answers the_limiter "acme" 100 the_events empty_redis = [true; true; false] /\
  answers the_limiter "acme" 100 the_events empty_redis =
    map (fun i => Z.of_nat i <? 1 + 1) (seq 0 (length (answers the_limiter "acme" 100 the_events empty_redis))).
Proof.
  split; [by vm_compute|].
  apply (a_minute_grants_its_budget the_limiter memory_redis_reliable).
  - apply the_events_in_order.
  - repeat constructor; vm_compute; intros; congruence.
  - by vm_compute.
  - done.
  - by vm_compute.
Defined.
