(* ===== verification/Sessions.v ===== *)
(** Refreshable sessions: accounts/code/pkg/auth/pg/session_store.go and
    client_session_store.go over the sessions table of store/migrations, the triggers that
    revoke sessions when what they carry changes, and the statements of
    pkg/infra/postgres_sessions.go that end sessions.

    The database is a value: the sessions in physical order and the tables a session's
    authorization is read from.  Every method of the store is a transaction on it; what it
    commits together with an error is its outcome ([Refused]).  [Clock] is what a
    transaction reads of the database's clock and of the process's. *)
From S2P Require Import Prelude.
From Stdlib Require Import Ascii.
Local Open Scope Z_scope.

(** UUIDs are strings in canonical spelling; [uuid.Nil] is the zero one. *)
Definition uuid_Nil : string := "00000000-0000-0000-0000-000000000000".
Definition is_Nil (id : string) : bool := bool_decide (id = uuid_Nil).

(** ** Errors (pkg/auth/errors.go) *)
Definition RefreshRejectionHashMismatch : string := "refresh_hash_mismatch".
Definition RefreshRejectionMFAReauthentication : string := "mfa_reauthentication_required".
Definition RefreshRejectionUserNotActive : string := "user_not_active".
Definition RefreshRejectionOrganizationMembership : string := "organization_membership_revoked".
Definition RefreshRejectionAbsoluteLifetime : string := "session_absolute_lifetime".
Definition RefreshRejectionIdleTimeout : string := "session_idle_timeout".

Inductive AuthErr : Type :=
| ErrAccountInactive | ErrRefreshRevoked | ErrRefreshResourceMismatch | ErrRefreshReuse
| ErrSessionUnavailable | ErrOrganizationAccessDenied
| refreshRejection (reason : string)
| NoRows
| UniqueViolation | ForeignKeyViolation | CheckViolation
| Failed (what : string).
#[export] Instance AuthErr_eq_dec : EqDecision AuthErr.
Proof. solve_decision. Defined.

Definition RejectRefresh (reason : string) : AuthErr :=
  refreshRejection (if decide (reason = "") then "refresh_policy_rejected" else reason).
Definition RefreshRejectionReason (e : AuthErr) : option string :=
  match e with refreshRejection reason => Some reason | _ => None end.
(** [errors.Is(err, ErrRefreshRevoked)]: a rejection unwraps to it. *)
Definition is_ErrRefreshRevoked (e : AuthErr) : bool :=
  match e with ErrRefreshRevoked | refreshRejection _ => true | _ => false end.

(** ** Policy and records *)
Record SessionPolicy : Type := {
  sp_AbsoluteLifetime : duration;
  sp_IdleTimeout : duration;
  sp_MaxActiveDevices : Z;
}.
Definition DefaultSessionPolicy : SessionPolicy :=
  {| sp_AbsoluteLifetime := 7 * 24 * hour; sp_IdleTimeout := 24 * hour; sp_MaxActiveDevices := 10 |}.
Definition WithDefaults (p : SessionPolicy) : SessionPolicy :=
  let or_default x y := if x =? 0 then y else x in
  {| sp_AbsoluteLifetime := or_default (sp_AbsoluteLifetime p) (sp_AbsoluteLifetime DefaultSessionPolicy);
     sp_IdleTimeout := or_default (sp_IdleTimeout p) (sp_IdleTimeout DefaultSessionPolicy);
     sp_MaxActiveDevices := or_default (sp_MaxActiveDevices p) (sp_MaxActiveDevices DefaultSessionPolicy) |}.
Definition Validate (p : SessionPolicy) : option AuthErr :=
  if sp_AbsoluteLifetime p <=? 0 then Some (Failed "session absolute lifetime must be positive")
  else if sp_IdleTimeout p <=? 0 then Some (Failed "session idle timeout must be positive")
  else if sp_AbsoluteLifetime p <? sp_IdleTimeout p
  then Some (Failed "session idle timeout must not exceed absolute lifetime")
  else if sp_MaxActiveDevices p <? 1 then Some (Failed "maximum active devices must be at least one")
  else None.

Record SessionRecord : Type := {
  sr_ID : string;
  sr_UserID : string;
  sr_OrgID : string;
  sr_OrgRole : string;
  sr_PlatformRole : string;
  sr_Email : string;
  sr_DisplayName : string;
  sr_MFASatisfied : bool;
  sr_AuthenticationMethods : list string;
  sr_AuthenticatedAt : instant;
  sr_AssuranceLevel : string;
  sr_MFAVerifiedAt : instant;
  sr_DeviceInfo : gmap string string;
  sr_IPAddress : string;
  sr_FamilyID : string;
  sr_ClientID : string;
  sr_Resource : string;
  sr_ActingAsUserID : string;
  sr_RefreshHash : string;
  sr_IssuedAt : instant;
  sr_LastActiveAt : instant;
  sr_IdleExpiresAt : instant;
  sr_ExpiresAt : instant;
  sr_RevokedAt : option instant;
  sr_RevokedReason : string;
}.

Record RefreshAuthorization : Type := {
  ra_OrgID : string;
  ra_OrgRole : string;
  ra_PlatformRole : string;
  ra_MFAEnrolled : bool;
  ra_ScopedRoles : gmap string (list string);
  ra_ScopedRolesTruncated : bool;
}.

(** ** The tables *)
Record Session : Type := {
  se_id : string;
  se_user_id : string;
  se_refresh_token_hash : option string;
  se_family_id : string;
  se_device_info : gmap string string;
  se_ip_address : option string;
  se_created_at : instant;
  se_last_active_at : instant;
  se_idle_expires_at : instant;
  se_expires_at : instant;
  se_revoked_at : option instant;
  se_revoked_reason : option string;
  se_org_id : option string;
  se_org_role : string;
  se_platform_role : string;
  se_mfa_satisfied : bool;
  se_authentication_methods : list string;
  se_auth_time : option instant;
  se_assurance_level : string;
  se_mfa_verified_at : option instant;
  se_email : option string;
  se_display_name : option string;
  se_acting_as_user_id : option string;
  se_client_id : option string;
  se_resource : option string;
}.

Record User : Type := { us_status : string; us_default_org_id : option string }.
Record Member : Type := {
  om_org_id : string; om_user_id : string; om_role : string; om_joined_at : instant;
}.
Record MfaDevice : Type := { md_id : string; md_user_id : string; md_verified_at : option instant }.
Record RoleAssignment : Type := {
  as_subject_kind : string; as_subject_id : string; as_org_id : option string;
  as_scope : option string; as_role_id : string;
}.
#[export] Instance RoleAssignment_eq_dec : EqDecision RoleAssignment.
Proof. solve_decision. Defined.

Record AuthDb : Type := {
  sessions : list Session;
  users : gmap string User;
  organization_members : list Member;
  platform_admins : gmap string string;
  mfa_devices : list MfaDevice;
  role_assignments : list RoleAssignment;
  role_names : gmap string string;
}.
Abbreviation M := (tx AuthDb AuthErr) (only parsing).

Definition set_sessions (f : list Session -> list Session) (d : AuthDb) : AuthDb :=
  {| sessions := f (sessions d); users := users d; organization_members := organization_members d;
     platform_admins := platform_admins d; mfa_devices := mfa_devices d;
     role_assignments := role_assignments d; role_names := role_names d |}.
Definition set_users (f : gmap string User -> gmap string User) (d : AuthDb) : AuthDb :=
  {| sessions := sessions d; users := f (users d); organization_members := organization_members d;
     platform_admins := platform_admins d; mfa_devices := mfa_devices d;
     role_assignments := role_assignments d; role_names := role_names d |}.

(** The database's clock at the start of a transaction and [time.Now] in it. *)
Record Clock : Type := { db_now : instant; go_now : instant }.

(** ** Revoking *)
Definition live (r : Session) : bool := bool_decide (se_revoked_at r = None).
Definition revoked_row (reason : string) (at_ : instant) (r : Session) : Session :=
  {| se_id := se_id r; se_user_id := se_user_id r; se_refresh_token_hash := se_refresh_token_hash r;
     se_family_id := se_family_id r; se_device_info := se_device_info r;
     se_ip_address := se_ip_address r; se_created_at := se_created_at r;
     se_last_active_at := se_last_active_at r; se_idle_expires_at := se_idle_expires_at r;
     se_expires_at := se_expires_at r; se_revoked_at := Some at_; se_revoked_reason := Some reason;
     se_org_id := se_org_id r; se_org_role := se_org_role r; se_platform_role := se_platform_role r;
     se_mfa_satisfied := se_mfa_satisfied r;
     se_authentication_methods := se_authentication_methods r; se_auth_time := se_auth_time r;
     se_assurance_level := se_assurance_level r; se_mfa_verified_at := se_mfa_verified_at r;
     se_email := se_email r; se_display_name := se_display_name r;
     se_acting_as_user_id := se_acting_as_user_id r; se_client_id := se_client_id r;
     se_resource := se_resource r |}.
(** UPDATE sessions SET revoked_at, revoked_reason WHERE ... AND revoked_at IS NULL; the
    reason may depend on the row. *)
Definition revoke_rows (P : Session -> bool) (reason : Session -> string) (at_ : instant)
    (rows : list Session) : list Session :=
  map (fun r => if P r && live r then revoked_row (reason r) at_ r else r) rows.
Definition revoke_where (P : Session -> bool) (reason : string) (at_ : instant) (d : AuthDb) : AuthDb :=
  set_sessions (revoke_rows P (fun _ => reason) at_) d.

Definition of_user (user : string) (r : Session) : bool := bool_decide (se_user_id r = user).
Definition of_family (family : string) (r : Session) : bool := bool_decide (se_family_id r = family).

Definition revokeActiveUserSessions (c : Clock) (user reason : string) (d : AuthDb) : AuthDb :=
  revoke_where (of_user user) reason (timestamptz (db_now c)) d.
Definition revokeActiveFamily (c : Clock) (family reason : string) (d : AuthDb) : AuthDb :=
  revoke_where (of_family family) reason (timestamptz (db_now c)) d.

(** ** Reading and writing rows *)
Definition hex_char (n : N) : ascii := ascii_of_N (if (n <? 10)%N then 48 + n else 87 + n)%N.
(** [hex.EncodeToString] *)
Fixpoint hex_encode (s : string) : string :=
  match s with
  | EmptyString => EmptyString
  | String c rest =>
      String (hex_char (N_of_ascii c / 16)) (String (hex_char (N_of_ascii c mod 16)) (hex_encode rest))
  end.

Definition nilIfEmpty (value : string) : option string := if decide (value = "") then None else Some value.
Definition nil_if_Nil (id : string) : option string := if is_Nil id then None else Some id.
Definition nil_if_zero (t : instant) : option instant := if time_is_zero t then None else Some (timestamptz t).

Definition scanSession (hash : string) (r : Session) : SessionRecord :=
  {| sr_ID := se_id r; sr_UserID := se_user_id r; sr_OrgID := default uuid_Nil (se_org_id r);
     sr_OrgRole := se_org_role r; sr_PlatformRole := se_platform_role r;
     sr_Email := default "" (se_email r); sr_DisplayName := default "" (se_display_name r);
     sr_MFASatisfied := se_mfa_satisfied r;
     sr_AuthenticationMethods := se_authentication_methods r;
     sr_AuthenticatedAt := default zero_time (se_auth_time r);
     sr_AssuranceLevel := se_assurance_level r;
     sr_MFAVerifiedAt := default zero_time (se_mfa_verified_at r);
     sr_DeviceInfo := se_device_info r; sr_IPAddress := default "" (se_ip_address r);
     sr_FamilyID := se_family_id r; sr_ClientID := default "" (se_client_id r);
     sr_Resource := default "" (se_resource r);
     sr_ActingAsUserID := default uuid_Nil (se_acting_as_user_id r);
     sr_RefreshHash := hash; sr_IssuedAt := se_created_at r; sr_LastActiveAt := se_last_active_at r;
     sr_IdleExpiresAt := se_idle_expires_at r; sr_ExpiresAt := se_expires_at r;
     sr_RevokedAt := se_revoked_at r; sr_RevokedReason := default "" (se_revoked_reason r) |}.

(** The columns of a new row. *)
Definition session_columns (rec : SessionRecord) : Session :=
  {| se_id := sr_ID rec; se_user_id := sr_UserID rec;
     se_refresh_token_hash := hex_encode <$> nilIfEmpty (sr_RefreshHash rec);
     se_family_id := sr_FamilyID rec; se_device_info := sr_DeviceInfo rec;
     se_ip_address := nilIfEmpty (sr_IPAddress rec);
     se_created_at := timestamptz (sr_IssuedAt rec);
     se_last_active_at := timestamptz (sr_LastActiveAt rec);
     se_idle_expires_at := timestamptz (sr_IdleExpiresAt rec);
     se_expires_at := timestamptz (sr_ExpiresAt rec);
     se_revoked_at := None; se_revoked_reason := None;
     se_org_id := nil_if_Nil (sr_OrgID rec); se_org_role := sr_OrgRole rec;
     se_platform_role := sr_PlatformRole rec; se_mfa_satisfied := sr_MFASatisfied rec;
     se_authentication_methods := sr_AuthenticationMethods rec;
     se_auth_time := nil_if_zero (sr_AuthenticatedAt rec);
     se_assurance_level := sr_AssuranceLevel rec;
     se_mfa_verified_at := nil_if_zero (sr_MFAVerifiedAt rec);
     se_email := nilIfEmpty (sr_Email rec); se_display_name := nilIfEmpty (sr_DisplayName rec);
     se_acting_as_user_id := nil_if_Nil (sr_ActingAsUserID rec);
     se_client_id := nilIfEmpty (sr_ClientID rec); se_resource := nilIfEmpty (sr_Resource rec) |}.

(** The constraints of the table: its keys, the two references to users and the checks. *)
Definition row_checks (r : Session) : bool :=
  bool_decide (se_assurance_level r = "aal1" \/ se_assurance_level r = "aal2")
  && Bool.eqb (bool_decide (se_refresh_token_hash r = None)) (negb (bool_decide (se_acting_as_user_id r = None))).
Definition references_users (d : AuthDb) (r : Session) : bool :=
  bool_decide (is_Some (users d !! se_user_id r))
  && match se_acting_as_user_id r with Some u => bool_decide (is_Some (users d !! u)) | None => true end.
Definition same_key (r r' : Session) : bool :=
  bool_decide (se_id r = se_id r')
  || match se_refresh_token_hash r with
     | Some h => bool_decide (se_refresh_token_hash r' = Some h)
     | None => false
     end.

Definition insertSession (rec : SessionRecord) : M unit := fun d =>
  let r := session_columns rec in
  if negb (row_checks r) then Err CheckViolation
  else if existsb (same_key r) (sessions d) then Err UniqueViolation
  else if negb (references_users d r) then Err ForeignKeyViolation
  else Ok (tt, set_sessions (fun rows => rows ++ [r]) d).

(** [drawn] is a new id. *)
Definition prepareSessionRecord (drawn : string) (now : instant) (rec : SessionRecord)
    : result AuthErr SessionRecord :=
  if is_Nil (sr_UserID rec) then Err (Failed "pgauth: session record missing user id")
  else if is_Nil (sr_FamilyID rec) then Err (Failed "pgauth: session record missing family id")
  else
    let issued := if time_is_zero (sr_IssuedAt rec) then now else sr_IssuedAt rec in
    if time_is_zero (sr_IdleExpiresAt rec) then Err (Failed "pgauth: session record missing idle expiry")
    else if bool_decide (sr_RefreshHash rec = "") && is_Nil (sr_ActingAsUserID rec)
    then Err (Failed "pgauth: session record missing refresh hash")
    else if negb (bool_decide (sr_RefreshHash rec = "")) && negb (is_Nil (sr_ActingAsUserID rec))
    then Err (Failed "pgauth: impersonation session record carries a refresh hash")
    else if time_is_zero (sr_ExpiresAt rec) then Err (Failed "pgauth: session record missing expiry")
    else Ok
      {| sr_ID := if is_Nil (sr_ID rec) then drawn else sr_ID rec; sr_UserID := sr_UserID rec;
         sr_OrgID := sr_OrgID rec; sr_OrgRole := sr_OrgRole rec; sr_PlatformRole := sr_PlatformRole rec;
         sr_Email := sr_Email rec; sr_DisplayName := sr_DisplayName rec;
         sr_MFASatisfied := sr_MFASatisfied rec;
         sr_AuthenticationMethods := sr_AuthenticationMethods rec;
         sr_AuthenticatedAt := sr_AuthenticatedAt rec;
         sr_AssuranceLevel := if decide (sr_AssuranceLevel rec = "") then "aal1" else sr_AssuranceLevel rec;
         sr_MFAVerifiedAt := sr_MFAVerifiedAt rec; sr_DeviceInfo := sr_DeviceInfo rec;
         sr_IPAddress := sr_IPAddress rec; sr_FamilyID := sr_FamilyID rec;
         sr_ClientID := sr_ClientID rec; sr_Resource := sr_Resource rec;
         sr_ActingAsUserID := sr_ActingAsUserID rec; sr_RefreshHash := sr_RefreshHash rec;
         sr_IssuedAt := issued;
         sr_LastActiveAt := if time_is_zero (sr_LastActiveAt rec) then issued else sr_LastActiveAt rec;
         sr_IdleExpiresAt := sr_IdleExpiresAt rec; sr_ExpiresAt := sr_ExpiresAt rec;
         sr_RevokedAt := sr_RevokedAt rec; sr_RevokedReason := sr_RevokedReason rec |}.

(** ** The authorization a session carries *)
Definition active : string := "active".
Definition loadUserStatus (user : string) (d : AuthDb) : option string := us_status <$> users d !! user.

(** ORDER BY a.scope, r.name *)
Definition pair_le (x y : string * string) : Prop :=
  String.ltb x.1 y.1 = true \/ (x.1 = y.1 /\ String.leb x.2 y.2 = true).
#[export] Instance pair_le_dec : RelDecision pair_le.
Proof. intros x y. unfold pair_le. apply _. Defined.

Definition MaxScopedRoleAssignments : nat := 64.
(** The direct, scoped grants of a user in an organization, joined with the role names. *)
Definition scoped_grant (user org : string) (names : gmap string string) (a : RoleAssignment)
    : option (string * string) :=
  if bool_decide (as_subject_kind a = "principal") && bool_decide (as_subject_id a = user)
     && bool_decide (as_org_id a = Some org)
  then scope ← as_scope a; name ← names !! as_role_id a; Some (scope, name) else None.
Fixpoint append_scoped (rows : list (string * string)) (scoped : gmap string (list string))
    : gmap string (list string) :=
  match rows with
  | [] => scoped
  | (scope, role) :: rows =>
      append_scoped rows (<[scope := default [] (scoped !! scope) ++ [role]]> scoped)
  end.
Definition resolveScopedRoles (user org : string) (d : AuthDb) : gmap string (list string) * bool :=
  if is_Nil org then (∅, false)
  else
    let rows := merge_sort pair_le
      (remove_dups (omap (scoped_grant user org (role_names d)) (role_assignments d))) in
    (append_scoped (take MaxScopedRoleAssignments rows) ∅,
     (MaxScopedRoleAssignments <? length rows)%nat).

Definition mfa_enrolled (user : string) (d : AuthDb) : bool :=
  existsb (fun m => bool_decide (md_user_id m = user) && negb (bool_decide (md_verified_at m = None)))
    (mfa_devices d).
Definition resolveGlobalAuthorization (user org role : string) (d : AuthDb) : RefreshAuthorization :=
  let '(scoped, truncated) := resolveScopedRoles user org d in
  {| ra_OrgID := org; ra_OrgRole := role; ra_PlatformRole := default "" (platform_admins d !! user);
     ra_MFAEnrolled := mfa_enrolled user d; ra_ScopedRoles := scoped;
     ra_ScopedRolesTruncated := truncated |}.

Definition member_of (user org : string) (m : Member) : bool :=
  bool_decide (om_user_id m = user) && bool_decide (om_org_id m = org).
Definition find_member (user org : string) (d : AuthDb) : option Member :=
  List.find (member_of user org) (organization_members d).
(** ORDER BY joined_at DESC *)
Definition joined_last (m n : Member) : Prop := om_joined_at n <= om_joined_at m.
#[export] Instance joined_last_dec : RelDecision joined_last.
Proof. intros m n. apply Z_le_dec. Defined.
Definition newest_member (user : string) (d : AuthDb) : option Member :=
  head (merge_sort joined_last (filter (fun m => om_user_id m = user) (organization_members d))).

(** [None]: the selected membership is gone. *)
Definition resolveRefreshAuthorization (current : SessionRecord) (d : AuthDb)
    : option RefreshAuthorization :=
  let user := sr_UserID current in
  if negb (is_Nil (sr_OrgID current)) then
    match find_member user (sr_OrgID current) d with
    | None => None
    | Some m => Some (resolveGlobalAuthorization user (om_org_id m) (om_role m) d)
    end
  else match newest_member user d with
  | None => Some (resolveGlobalAuthorization user uuid_Nil "" d)
  | Some m => Some (resolveGlobalAuthorization user (om_org_id m) (om_role m) d)
  end.

Definition resolveOrganizationAuthorization (user target : string) (d : AuthDb)
    : result AuthErr RefreshAuthorization :=
  match find_member user target d with
  | None => Err ErrOrganizationAccessDenied
  | Some m => Ok (resolveGlobalAuthorization user target (om_role m) d)
  end.

(** ** Admission *)
Definition expired (at_ : instant) (r : Session) : bool :=
  (se_expires_at r <=? at_) || (se_idle_expires_at r <=? at_).
(** The reason the first UPDATE gives. *)
Definition expiry_reason (at_ : instant) (r : Session) : string :=
  if se_expires_at r <=? at_ then RefreshRejectionAbsoluteLifetime else RefreshRejectionIdleTimeout.

(** ROW_NUMBER() OVER (ORDER BY max DESC, id DESC) *)
Definition latest_first (x y : instant * string) : Prop :=
  y.1 < x.1 \/ (x.1 = y.1 /\ String.leb y.2 x.2 = true).
#[export] Instance latest_first_dec : RelDecision latest_first.
Proof. intros x y. unfold latest_first. apply _. Defined.

(** GROUP BY family_id with MAX(last_active_at) over the rows [P] selects. *)
Definition families (P : Session -> bool) (rows : list Session) : list string :=
  remove_dups (map se_family_id (filter (fun r => P r = true) rows)).
Definition last_active (P : Session -> bool) (rows : list Session) (family : string) : instant :=
  match map se_last_active_at (filter (fun r => P r && of_family family r = true) rows) with
  | [] => 0
  | t :: ts => foldl Z.max t ts
  end.
(** The families at or beyond place [max]. *)
Definition evicted_families (P : Session -> bool) (max : Z) (rows : list Session) : list string :=
  map snd (drop (Z.to_nat (max - 1))
    (merge_sort latest_first (map (fun f => (last_active P rows f, f)) (families P rows)))).
Definition evicted_windows (P : Session -> bool) (max : Z) (rows : list Session) : list string :=
  map snd (drop (Z.to_nat (max - 1))
    (merge_sort latest_first (map (fun r => (se_created_at r, se_id r)) (filter (fun r => P r = true) rows)))).

Definition client_session (user client : string) (r : Session) : bool :=
  of_user user r && live r && bool_decide (se_client_id r = Some client).
Definition open_window (user : string) (r : Session) : bool :=
  of_user user r && live r && negb (bool_decide (se_acting_as_user_id r = None)).
Definition active_device (user : string) (r : Session) : bool :=
  of_user user r && live r && bool_decide (se_acting_as_user_id r = None) && bool_decide (se_client_id r = None).

Definition mem (x : string) (xs : list string) : bool := bool_decide (x ∈ xs).
Definition admitSession (policy : SessionPolicy) (c : Clock) (rec : SessionRecord) : M unit := fun d =>
  let user := sr_UserID rec in
  let at_ := timestamptz (db_now c) in
  match loadUserStatus user d with
  | None => Err NoRows
  | Some status =>
      if decide (status <> active) then Err ErrAccountInactive
      else
        let rows := revoke_rows (fun r => of_user user r && expired at_ r) (expiry_reason at_) at_ (sessions d) in
        let max := sp_MaxActiveDevices policy in
        let rows :=
          if decide (sr_ClientID rec <> "") then
            let evicted := evicted_families (client_session user (sr_ClientID rec)) max rows in
            revoke_rows (fun r => of_user user r && mem (se_family_id r) evicted)
              (fun _ => "client_session_limit_exceeded") at_ rows
          else if negb (is_Nil (sr_ActingAsUserID rec)) then
            let evicted := evicted_windows (open_window user) max rows in
            revoke_rows (fun r => mem (se_id r) evicted) (fun _ => "impersonation_limit_exceeded") at_ rows
          else
            let evicted := evicted_families (active_device user) max rows in
            revoke_rows (fun r => of_user user r && mem (se_family_id r) evicted)
              (fun _ => "device_limit_exceeded") at_ rows in
        Ok (tt, set_sessions (fun _ => rows) d)
  end.

(** ** The store *)
(** What a transaction commits: a result, or an error it answers after the commit. *)
Inductive Committed (T : Type) : Type :=
| Done (value : T)
| Refused (outcome : AuthErr).
#[global] Arguments Done {T} value.
#[global] Arguments Refused {T} outcome.
Definition settle {T} (m : M (Committed T)) (d : AuthDb) : result AuthErr T * AuthDb :=
  match run_tx m d with
  | (Ok (Done value), d) => (Ok value, d)
  | (Ok (Refused e), d) => (Err e, d)
  | (Err e, d) => (Err e, d)
  end.
Definition commit_refusal {T} (f : AuthDb -> AuthDb) (e : AuthErr) : M (Committed T) :=
  fun d => Ok (Refused e, f d).

Record SessionStore : Type := { ss_policy : SessionPolicy; ss_configErr : option AuthErr }.
Definition NewSessionStore (configured : option SessionPolicy) : SessionStore :=
  let policy := match configured with Some p => WithDefaults p | None => DefaultSessionPolicy end in
  {| ss_policy := policy; ss_configErr := Validate policy |}.

Definition Insert (s : SessionStore) (c : Clock) (drawn : string) (rec : SessionRecord) (d : AuthDb)
    : result AuthErr unit * AuthDb :=
  match ss_configErr s with
  | Some _ => (Err (Failed "pgauth: invalid session policy"), d)
  | None =>
      match prepareSessionRecord drawn (go_now c) rec with
      | Err e => (Err e, d)
      | Ok rec => run_tx (_ ← admitSession (ss_policy s) c rec; insertSession rec) d
      end
  end.

Definition has_hash (h : string) (r : Session) : bool := bool_decide (se_refresh_token_hash r = Some h).
Definition FindByRefreshHash (hash : string) (d : AuthDb) : result AuthErr SessionRecord :=
  match List.find (has_hash (hex_encode hash)) (sessions d) with
  | None => Err ErrRefreshRevoked
  | Some r => Ok (scanSession hash r)
  end.

Definition validateRefreshReplacement (current next : SessionRecord) (a : RefreshAuthorization)
    : result AuthErr unit :=
  let same x y := bool_decide (x = y :> string) in
  if negb (same (sr_UserID next) (sr_UserID current)) then Err (Failed "changed user id")
  else if negb (same (sr_FamilyID next) (sr_FamilyID current)) then Err (Failed "changed family id")
  else if negb (same (sr_ClientID next) (sr_ClientID current)) then Err (Failed "changed client")
  else if negb (same (sr_Resource next) (sr_Resource current)) then Err (Failed "changed resource")
  else if negb (same (sr_OrgID next) (ra_OrgID a) && same (sr_OrgRole next) (ra_OrgRole a)
                && same (sr_PlatformRole next) (ra_PlatformRole a))
  then Err (Failed "did not project current authorization")
  else if same (sr_ID next) (sr_ID current) then Err (Failed "reused session id")
  else if same (sr_RefreshHash next) (sr_RefreshHash current) then Err (Failed "reused token hash")
  else if negb (bool_decide (sr_RevokedAt next = None)) || negb (same (sr_RevokedReason next) "")
  then Err (Failed "is already revoked")
  else if negb (sr_IssuedAt next =? sr_IssuedAt current) || negb (sr_ExpiresAt next =? sr_ExpiresAt current)
  then Err (Failed "changed absolute session lifetime")
  else if time_before (sr_LastActiveAt next) (sr_LastActiveAt current)
  then Err (Failed "moved activity backwards")
  else if negb (time_after (sr_IdleExpiresAt next) (sr_LastActiveAt next))
          || time_after (sr_IdleExpiresAt next) (sr_ExpiresAt next)
  then Err (Failed "has invalid idle expiry")
  else if negb (bool_decide (sr_DeviceInfo next = sr_DeviceInfo current))
          || negb (same (sr_IPAddress next) (sr_IPAddress current))
  then Err (Failed "changed device identity")
  else Ok ().

Section Store.
Context {T : Type}.

(** The callback answers the successor and what the caller keeps of its minting. *)
Definition rotate (c : Clock) (drawn hash : string)
    (replacement : SessionRecord -> RefreshAuthorization -> result AuthErr (SessionRecord * T))
    : M (Committed T) := fun d =>
  match List.find (has_hash (hex_encode hash)) (sessions d) with
  | None => Err ErrRefreshRevoked
  | Some r =>
      let current := scanSession hash r in
      match loadUserStatus (sr_UserID current) d with
      | None => Err ErrRefreshRevoked
      | Some status =>
          if decide (status <> active)
          then commit_refusal (revokeActiveUserSessions c (sr_UserID current) RefreshRejectionUserNotActive)
                 ErrRefreshRevoked d
          else if negb (bool_decide (sr_RevokedAt current = None)) then
            if decide (sr_RevokedReason current <> "rotated") then Err ErrRefreshRevoked
            else commit_refusal (revokeActiveUserSessions c (sr_UserID current) "refresh-reuse-all-sessions")
                   ErrRefreshReuse d
          else match resolveRefreshAuthorization current d with
          | None => commit_refusal
              (revokeActiveFamily c (sr_FamilyID current) RefreshRejectionOrganizationMembership)
              ErrRefreshRevoked d
          | Some authorization =>
              match replacement current authorization with
              | Err e =>
                  match RefreshRejectionReason e with
                  | Some reason =>
                      commit_refusal (revokeActiveFamily c (sr_FamilyID current) reason) ErrRefreshRevoked d
                  | None => Err e
                  end
              | Ok (next, kept) =>
                  (next ← tx_lift (prepareSessionRecord drawn (go_now c) next);
                   _ ← tx_lift (validateRefreshReplacement current next authorization);
                   _ ← (fun d => Ok (tt, revokeActiveFamily c (sr_FamilyID current) "rotated" d));
                   _ ← insertSession next;
                   mret (Done kept)) d
              end
          end
      end
  end.

Definition RotateRefresh (c : Clock) (drawn hash : string)
    (replacement : SessionRecord -> RefreshAuthorization -> result AuthErr (SessionRecord * T))
    (d : AuthDb) : result AuthErr T * AuthDb :=
  if decide (hash = "") then (Err ErrRefreshRevoked, d) else settle (rotate c drawn hash replacement) d.

Definition session_of (id user : string) (r : Session) : bool :=
  bool_decide (se_id r = id) && of_user user r.
(** UPDATE sessions SET org_id, org_role, platform_role *)
Definition projected_row (a : RefreshAuthorization) (r : Session) : Session :=
  {| se_id := se_id r; se_user_id := se_user_id r; se_refresh_token_hash := se_refresh_token_hash r;
     se_family_id := se_family_id r; se_device_info := se_device_info r;
     se_ip_address := se_ip_address r; se_created_at := se_created_at r;
     se_last_active_at := se_last_active_at r; se_idle_expires_at := se_idle_expires_at r;
     se_expires_at := se_expires_at r; se_revoked_at := se_revoked_at r;
     se_revoked_reason := se_revoked_reason r;
     se_org_id := Some (ra_OrgID a); se_org_role := ra_OrgRole a; se_platform_role := ra_PlatformRole a;
     se_mfa_satisfied := se_mfa_satisfied r;
     se_authentication_methods := se_authentication_methods r; se_auth_time := se_auth_time r;
     se_assurance_level := se_assurance_level r; se_mfa_verified_at := se_mfa_verified_at r;
     se_email := se_email r; se_display_name := se_display_name r;
     se_acting_as_user_id := se_acting_as_user_id r; se_client_id := se_client_id r;
     se_resource := se_resource r |}.

Definition exchange (c : Clock) (user session target : string)
    (issue : SessionRecord -> RefreshAuthorization -> result AuthErr T) : M (Committed T) := fun d =>
  match List.find (session_of session user) (sessions d) with
  | None => Err ErrSessionUnavailable
  | Some r =>
      let current := scanSession "" r in
      if negb (bool_decide (sr_RevokedAt current = None)) then Err ErrSessionUnavailable
      else if negb (is_Nil (sr_ActingAsUserID current)) then Err ErrSessionUnavailable
      else match loadUserStatus (sr_UserID current) d with
      | None => Err ErrSessionUnavailable
      | Some status =>
          if decide (status <> active)
          then commit_refusal (revokeActiveUserSessions c (sr_UserID current) RefreshRejectionUserNotActive)
                 ErrSessionUnavailable d
          else
            let now := go_now c in
            if negb (time_before now (sr_ExpiresAt current)) || negb (time_before now (sr_IdleExpiresAt current))
            then commit_refusal (revokeActiveFamily c (sr_FamilyID current)
                   (if negb (time_before now (sr_ExpiresAt current))
                    then RefreshRejectionAbsoluteLifetime else RefreshRejectionIdleTimeout))
                   ErrSessionUnavailable d
            else match resolveOrganizationAuthorization (sr_UserID current) target d with
            | Err e => Err e
            | Ok authorization =>
                match issue current authorization with
                | Err e =>
                    match RefreshRejectionReason e with
                    | Some reason =>
                        commit_refusal (revokeActiveFamily c (sr_FamilyID current) reason)
                          ErrSessionUnavailable d
                    | None => Err e
                    end
                | Ok issued =>
                    Ok (Done issued,
                      set_users (alter (fun u => {| us_status := us_status u;
                                   us_default_org_id := Some (ra_OrgID authorization) |}) user)
                      (set_sessions (map (fun r =>
                         if session_of session user r && live r then projected_row authorization r else r)) d))
                end
            end
      end
  end.
Definition ExchangeOrganization (c : Clock) (user session target : string)
    (issue : SessionRecord -> RefreshAuthorization -> result AuthErr T) (d : AuthDb)
    : result AuthErr T * AuthDb :=
  if is_Nil user || is_Nil session || is_Nil target then (Err ErrSessionUnavailable, d)
  else settle (exchange c user session target issue) d.

Definition authorize_client (s : SessionStore) (c : Clock) (drawn user session : string)
    (issue : SessionRecord -> RefreshAuthorization -> result AuthErr (SessionRecord * T))
    : M (Committed T) := fun d =>
  match List.find (session_of session user) (sessions d) with
  | None => Err ErrSessionUnavailable
  | Some r =>
      let current := scanSession "" r in
      if negb (bool_decide (sr_RevokedAt current = None)) then Err ErrSessionUnavailable
      else if negb (is_Nil (sr_ActingAsUserID current)) then Err ErrSessionUnavailable
      else if negb (bool_decide (sr_ClientID current = "")) then Err ErrSessionUnavailable
      else match loadUserStatus (sr_UserID current) d with
      | None => Err ErrSessionUnavailable
      | Some status =>
          if decide (status <> active)
          then commit_refusal (revokeActiveUserSessions c (sr_UserID current) RefreshRejectionUserNotActive)
                 ErrSessionUnavailable d
          else
            let now := go_now c in
            if negb (time_before now (sr_ExpiresAt current)) || negb (time_before now (sr_IdleExpiresAt current))
            then Err ErrSessionUnavailable
            else match resolveRefreshAuthorization current d with
            | None => Err ErrSessionUnavailable
            | Some authorization =>
                match issue current authorization with
                | Err e => if bool_decide (is_Some (RefreshRejectionReason e))
                           then Err ErrSessionUnavailable else Err e
                | Ok (next, kept) =>
                    (next ← tx_lift (prepareSessionRecord drawn (go_now c) next);
                     _ ← tx_lift (if negb (bool_decide (sr_UserID next = sr_UserID current))
                                  then Err (Failed "client session changed user id")
                                  else if bool_decide (sr_FamilyID next = sr_FamilyID current)
                                  then Err (Failed "client session reused the authorizing device family")
                                  else if bool_decide (sr_ClientID next = "")
                                  then Err (Failed "client session names no client") else Ok ());
                     _ ← (fun d => match admitSession (ss_policy s) c next d with
                                   | Err ErrAccountInactive => Err ErrSessionUnavailable
                                   | other => other
                                   end);
                     _ ← insertSession next;
                     mret (Done kept)) d
                end
            end
      end
  end.
Definition AuthorizeClientSession (s : SessionStore) (c : Clock) (drawn user session : string)
    (issue : SessionRecord -> RefreshAuthorization -> result AuthErr (SessionRecord * T)) (d : AuthDb)
    : result AuthErr T * AuthDb :=
  if is_Nil user || is_Nil session then (Err ErrSessionUnavailable, d)
  else settle (authorize_client s c drawn user session issue) d.
End Store.

Definition RevokeFamily (c : Clock) (family reason : string) (d : AuthDb) : AuthDb :=
  revokeActiveFamily c family reason d.

(** *** pkg/infra/postgres_sessions.go *)
(** The live rows a statement revokes; it answers their ids. *)
Definition live_ids (P : Session -> bool) (d : AuthDb) : list string :=
  map se_id (filter (fun r => P r && live r = true) (sessions d)).
Definition RevokeSession (c : Clock) (deviceSession reason : string) (d : AuthDb) : list string * AuthDb :=
  (live_ids (of_family deviceSession) d, revokeActiveFamily c deviceSession reason d).
Definition RevokeAllUserSessions (c : Clock) (user reason : string) (d : AuthDb) : list string * AuthDb :=
  (live_ids (of_user user) d, revokeActiveUserSessions c user reason d).
Definition window (session : string) (r : Session) : bool :=
  bool_decide (se_id r = session) && negb (bool_decide (se_acting_as_user_id r = None)).
Definition CloseImpersonationSession (c : Clock) (session reason : string) (d : AuthDb)
    : option instant * AuthDb :=
  (se_created_at <$> List.find (fun r => window session r && live r) (sessions d),
   revoke_where (window session) reason (timestamptz (db_now c)) d).
Definition DeleteOldSessions (before : instant) (d : AuthDb) : AuthDb :=
  set_sessions (filter (fun r => negb (se_created_at r <? before) = true)) d.

(** ** What a change of authority does to sessions (1_baseline.up.sql)

    A change of one row of the tables a session's authorization is read from, and what the
    functions of the triggers revoke for it, in the change's own transaction. *)
Inductive authorization_change : Type :=
| users_update (user old_status new_status : string)
| members_insert (m : Member)
| members_delete (m : Member)
| members_update (old new : Member)
| admins_insert (user role : string)
| admins_delete (user : string)
| admins_update (old_user old_role new_user new_role : string)
| devices_insert (m : MfaDevice)
| devices_delete (m : MfaDevice)
| devices_update (old new : MfaDevice).

(** org_id = org OR org_id IS NULL *)
Definition in_org_or_none (org : string) (r : Session) : bool :=
  bool_decide (se_org_id r = Some org) || bool_decide (se_org_id r = None).
Definition in_org (user org : string) (r : Session) : bool := of_user user r && in_org_or_none org r.
Definition verified (m : MfaDevice) : bool := negb (bool_decide (md_verified_at m = None)).

Definition invalidate_authorization_sessions (at_ : instant) (ch : authorization_change) (d : AuthDb)
    : AuthDb :=
  match ch with
  | users_update user old new =>
      if decide (new = old) then d
      else revoke_where (of_user user)
             (if decide (new = active) then "user_status_changed" else "user_not_active") at_ d
  | members_insert m =>
      revoke_where (fun r => of_user (om_user_id m) r && bool_decide (se_org_id r = None))
        "organization_membership_added" at_ d
  | members_delete m =>
      revoke_where (in_org (om_user_id m) (om_org_id m)) "organization_membership_revoked" at_ d
  | members_update old new =>
      let moved := negb (bool_decide (om_user_id new = om_user_id old))
                   || negb (bool_decide (om_org_id new = om_org_id old)) in
      if moved || negb (bool_decide (om_role new = om_role old)) then
        let d := revoke_where (in_org (om_user_id old) (om_org_id old)) "organization_membership_changed" at_ d in
        if moved then revoke_where (in_org (om_user_id new) (om_org_id new)) "organization_membership_changed" at_ d
        else d
      else d
  | admins_insert user _ => revoke_where (of_user user) "platform_role_changed" at_ d
  | admins_delete user => revoke_where (of_user user) "platform_role_changed" at_ d
  | admins_update old_user old_role new_user new_role =>
      if bool_decide (new_user = old_user) && bool_decide (new_role = old_role) then d
      else
        let d := if decide (new_user = old_user) then d
                 else revoke_where (of_user old_user) "platform_role_changed" at_ d in
        revoke_where (of_user new_user) "platform_role_changed" at_ d
  | devices_insert m =>
      if verified m then revoke_where (of_user (md_user_id m)) "mfa_enrollment_changed" at_ d else d
  | devices_delete m =>
      if verified m then revoke_where (of_user (md_user_id m)) "mfa_enrollment_changed" at_ d else d
  | devices_update old new =>
      if negb (bool_decide (md_user_id new = md_user_id old)) || negb (Bool.eqb (verified new) (verified old)) then
        let d := if verified old then revoke_where (of_user (md_user_id old)) "mfa_enrollment_changed" at_ d
                 else d in
        if verified new then revoke_where (of_user (md_user_id new)) "mfa_enrollment_changed" at_ d else d
      else d
  end.

(** The events of CREATE TRIGGER: AFTER DELETE OR UPDATE on organization_members, not INSERT. *)
Definition trigger_fires (ch : authorization_change) : bool :=
  match ch with members_insert _ => false | _ => true end.

Definition same_member (m n : Member) : bool :=
  bool_decide (om_org_id m = om_org_id n) && bool_decide (om_user_id m = om_user_id n).
(** The change itself. *)
Definition change_tables (ch : authorization_change) (d : AuthDb) : AuthDb :=
  let with_tables us ms ps ds :=
    {| sessions := sessions d; users := us; organization_members := ms; platform_admins := ps;
       mfa_devices := ds; role_assignments := role_assignments d; role_names := role_names d |} in
  let us := users d in let ms := organization_members d in
  let ps := platform_admins d in let ds := mfa_devices d in
  match ch with
  | users_update user _ new =>
      with_tables (alter (fun u => {| us_status := new; us_default_org_id := us_default_org_id u |}) user us) ms ps ds
  | members_insert m => with_tables us (ms ++ [m]) ps ds
  | members_delete m => with_tables us (filter (fun n => same_member m n = false) ms) ps ds
  | members_update old new => with_tables us (map (fun n => if same_member old n then new else n) ms) ps ds
  | admins_insert user role => with_tables us ms (<[user := role]> ps) ds
  | admins_delete user => with_tables us ms (delete user ps) ds
  | admins_update old_user _ new_user new_role => with_tables us ms (<[new_user := new_role]> (delete old_user ps)) ds
  | devices_insert m => with_tables us ms ps (ds ++ [m])
  | devices_delete m => with_tables us ms ps (filter (fun n => md_id n <> md_id m) ds)
  | devices_update old new => with_tables us ms ps (map (fun n => if decide (md_id n = md_id old) then new else n) ds)
  end.
Definition change_authorization (c : Clock) (ch : authorization_change) (d : AuthDb) : AuthDb :=
  let d := change_tables ch d in
  if trigger_fires ch then invalidate_authorization_sessions (timestamptz (db_now c)) ch d else d.

(** A change of a role assignment: the row before it and the row after it. *)
Definition invalidate_scoped_role_sessions (at_ : instant) (old new : option RoleAssignment) (d : AuthDb)
    : AuthDb :=
  let revoke a d := match a with
    | Some a => if bool_decide (as_subject_kind a = "principal") && negb (bool_decide (as_scope a = None))
                then match as_org_id a with
                     | Some org => revoke_where (in_org (as_subject_id a) org) "scoped_role_changed" at_ d
                     | None => d
                     end
                else d
    | None => d
    end in
  revoke new (revoke old d).
(** The row [old] becomes [new]; one is missing for an insert or a delete. *)
Definition change_scoped_role (c : Clock) (old new : option RoleAssignment) (d : AuthDb) : AuthDb :=
  invalidate_scoped_role_sessions (timestamptz (db_now c)) old new
    {| sessions := sessions d; users := users d; organization_members := organization_members d;
       platform_admins := platform_admins d; mfa_devices := mfa_devices d;
       role_assignments := filter (fun a => Some a <> old) (role_assignments d)
         ++ match new with Some a => [a] | None => [] end;
       role_names := role_names d |}.
