(* ===== verification/SessionTokens.v ===== *)
(** The tokens of a session: accounts/code/pkg/auth/ed25519/minter.go with the assurance and
    actor rules of pkg/auth it applies, and the sign-outs of pkg/business (auth.go,
    platform_admin.go, provider_signout.go).

    A token is its claims signed: signing, the random text of a refresh token and SHA-256
    are parameters.  What one issue draws (ids, the refresh token, the instant it is made)
    is a [Draw]. *)
From S2P Require Import Prelude RedisState Sessions.
Local Open Scope Z_scope.

(** ** Assurance (assurance.go) *)
Definition AssuranceLevelAAL1 : string := "aal1".
Definition AssuranceLevelAAL2 : string := "aal2".
Definition AuthenticationMethodFixture : string := "fixture".
Definition AuthenticationMethodOTP : string := "otp".
Definition AuthenticationMethodRecovery : string := "recovery".
Definition AuthenticationMethodWebAuthn : string := "webauthn".

Record Assurance : Type := {
  an_AuthenticationMethods : list string;
  an_AuthenticatedAt : instant;
  an_Level : string;
  an_MFAVerifiedAt : instant;
}.
Definition HasMethod (a : Assurance) (method : string) : bool :=
  contains_string (an_AuthenticationMethods a) method.
Definition HasMFAEvidence (a : Assurance) : bool :=
  if negb (bool_decide (an_Level a = AssuranceLevelAAL2)) || time_is_zero (an_MFAVerifiedAt a) then false
  else HasMethod a AuthenticationMethodOTP || HasMethod a AuthenticationMethodRecovery
       || HasMethod a AuthenticationMethodWebAuthn.

(** ** Identities and actors (identity.go) *)
Inductive Actor : Type := MkActor (subject : string) (act : option Actor).
Definition MaxActorChainDepth : nat := 10.
Fixpoint actor_chain (depth : nat) (actor : Actor) : option AuthErr :=
  match actor with
  | MkActor subject act =>
      if (MaxActorChainDepth <? S depth)%nat then Some (Failed "actor chain too deep")
      else if decide (subject = "") then Some (Failed "actor subject missing")
      else match act with Some next => actor_chain (S depth) next | None => None end
  end.
Definition ValidateActorChain (actor : option Actor) : option AuthErr :=
  match actor with Some a => actor_chain 0 a | None => None end.

Record Identity : Type := {
  id_UserID : string;
  id_OrgID : string;
  id_OrgRole : string;
  id_PlatformRole : string;
  id_SessionID : string;
  id_ActingAsUserID : string;
  id_Actor : option Actor;
  id_MFASatisfied : bool;
  id_AuthenticationMethods : list string;
  id_AuthenticatedAt : instant;
  id_AssuranceLevel : string;
  id_MFAVerifiedAt : instant;
  id_ScopedRoles : gmap string (list string);
  id_ScopedRolesTruncated : bool;
  id_DeviceInfo : gmap string string;
  id_IPAddress : string;
  id_ClientID : string;
  id_Resource : string;
  id_Email : string;
  id_DisplayName : string;
}.

Definition isMFAMethod (method : string) : bool :=
  bool_decide (method = AuthenticationMethodOTP) || bool_decide (method = AuthenticationMethodRecovery)
  || bool_decide (method = AuthenticationMethodWebAuthn).

Definition identityFromCurrentAuthorization (rec : SessionRecord) (a : RefreshAuthorization)
    (now : instant) (session : string) : result AuthErr Identity :=
  let assurance := {| an_AuthenticationMethods := sr_AuthenticationMethods rec;
                      an_AuthenticatedAt := sr_AuthenticatedAt rec;
                      an_Level := sr_AssuranceLevel rec; an_MFAVerifiedAt := sr_MFAVerifiedAt rec |} in
  let future := time_after (sr_MFAVerifiedAt rec) (time_add now minute) in
  if ra_MFAEnrolled a && (negb (sr_MFASatisfied rec) || negb (HasMFAEvidence assurance) || future)
  then Err (RejectRefresh RefreshRejectionMFAReauthentication)
  else
    let fixture := contains_string (sr_AuthenticationMethods rec) AuthenticationMethodFixture
                   && sr_MFASatisfied rec && HasMFAEvidence assurance && negb future in
    let reset := negb (ra_MFAEnrolled a) && negb fixture in
    Ok {| id_UserID := sr_UserID rec; id_OrgID := ra_OrgID a; id_OrgRole := ra_OrgRole a;
          id_PlatformRole := ra_PlatformRole a; id_SessionID := session;
          id_ActingAsUserID := uuid_Nil; id_Actor := None;
          id_MFASatisfied := if reset then true else sr_MFASatisfied rec;
          id_AuthenticationMethods :=
            if reset then filter (fun m => isMFAMethod m = false) (sr_AuthenticationMethods rec)
            else sr_AuthenticationMethods rec;
          id_AuthenticatedAt := sr_AuthenticatedAt rec;
          id_AssuranceLevel := if reset then AssuranceLevelAAL1 else sr_AssuranceLevel rec;
          id_MFAVerifiedAt := if reset then zero_time else sr_MFAVerifiedAt rec;
          id_ScopedRoles := ra_ScopedRoles a; id_ScopedRolesTruncated := ra_ScopedRolesTruncated a;
          id_DeviceInfo := sr_DeviceInfo rec; id_IPAddress := sr_IPAddress rec;
          id_ClientID := sr_ClientID rec; id_Resource := sr_Resource rec;
          id_Email := sr_Email rec; id_DisplayName := sr_DisplayName rec |}.

(** ** Access tokens *)
Record Config : Type := {
  cf_Issuer : string;
  cf_Audience : string;
  cf_AccessTokenTTL : duration;
  cf_ImpersonationTokenTTL : duration;
  cf_SessionPolicy : SessionPolicy;
  cf_ClockSkew : duration;
  cf_RevocationFailOpen : bool;
}.
(** The configuration with its defaults, and what is wrong with it. *)
Definition withDefaults (c : Config) : Config * option AuthErr :=
  let or_default x y := if x =? 0 then y else x in
  let or_text x y := if decide (x = "") then y else x in
  let policy := WithDefaults (cf_SessionPolicy c) in
  ({| cf_Issuer := or_text (cf_Issuer c) "saas-starter"; cf_Audience := or_text (cf_Audience c) "saas-starter";
      cf_AccessTokenTTL := or_default (cf_AccessTokenTTL c) (3 * minute);
      cf_ImpersonationTokenTTL := or_default (cf_ImpersonationTokenTTL c) (5 * minute);
      cf_SessionPolicy := policy; cf_ClockSkew := or_default (cf_ClockSkew c) (60 * second);
      cf_RevocationFailOpen := cf_RevocationFailOpen c |}, Validate policy).

(** [jwt.NewNumericDate]: whole seconds. *)
Definition NumericDate (t : instant) : instant := time_truncate t second.
Definition date_unless_zero (t : instant) : option instant :=
  if time_is_zero t then None else Some (NumericDate t).

Record accessClaims : Type := {
  ac_Issuer : string;
  ac_Subject : string;
  ac_Audience : list string;
  ac_IssuedAt : instant;
  ac_NotBefore : instant;
  ac_ExpiresAt : instant;
  ac_ID : string;
  ac_OrgID : string;
  ac_OrgRole : string;
  ac_PlatformRole : string;
  ac_ScopedRoles : gmap string (list string);
  ac_ScopedRolesTruncated : bool;
  ac_SessionID : string;
  ac_FamilyID : string;
  ac_AuthorizedParty : string;
  ac_Email : string;
  ac_Name : string;
  ac_ActingAsUserID : string;
  ac_Act : option Actor;
  ac_AuthenticationMethods : list string;
  ac_AuthenticationTime : option instant;
  ac_AssuranceLevel : string;
  ac_MFAVerifiedAt : option instant;
  ac_MFASatisfied : bool;
}.

Definition familyAccessClaim (family : string) : string := if is_Nil family then "" else family.
Definition accessTTL (cfg : Config) (identity : Identity) : duration :=
  let ttl := cf_AccessTokenTTL cfg in
  if negb (is_Nil (id_ActingAsUserID identity)) then
    let impTTL := cf_ImpersonationTokenTTL cfg in
    if (0 <? impTTL) && (impTTL <? ttl) then impTTL else ttl
  else ttl.

Definition access_claims (cfg : Config) (identity : Identity) (session family jti : string) (now : instant)
    : accessClaims :=
  let orgless := is_Nil (id_OrgID identity) in
  {| ac_Issuer := cf_Issuer cfg; ac_Subject := id_UserID identity;
     ac_Audience := cf_Audience cfg :: (if decide (id_Resource identity = "") then [] else [id_Resource identity]);
     ac_IssuedAt := NumericDate now; ac_NotBefore := NumericDate (time_add now (- second));
     ac_ExpiresAt := NumericDate (time_add now (accessTTL cfg identity)); ac_ID := jti;
     ac_OrgID := if orgless then "" else id_OrgID identity;
     ac_OrgRole := if orgless then "" else id_OrgRole identity;
     ac_PlatformRole := id_PlatformRole identity;
     ac_ScopedRoles := if orgless then ∅ else id_ScopedRoles identity;
     ac_ScopedRolesTruncated := if orgless then false else id_ScopedRolesTruncated identity;
     ac_SessionID := session; ac_FamilyID := familyAccessClaim family;
     ac_AuthorizedParty := id_ClientID identity; ac_Email := id_Email identity;
     ac_Name := id_DisplayName identity;
     ac_ActingAsUserID := if is_Nil (id_ActingAsUserID identity) then "" else id_ActingAsUserID identity;
     ac_Act := id_Actor identity;
     ac_AuthenticationMethods := id_AuthenticationMethods identity;
     ac_AuthenticationTime := date_unless_zero (id_AuthenticatedAt identity);
     ac_AssuranceLevel := id_AssuranceLevel identity;
     ac_MFAVerifiedAt := date_unless_zero (id_MFAVerifiedAt identity);
     ac_MFASatisfied := id_MFASatisfied identity |}.

Record TokenPair : Type := {
  tp_AccessToken : string;
  tp_RefreshToken : string;
  tp_AccessTokenExpiresAt : instant;
}.

(** What issuing one pair draws: the ids of a session and of a family, the token's id, the
    plain refresh token, and the instant of [prepareMint]; [dr_row] would be the id of a row
    without one. *)
Record Draw : Type := {
  dr_session : string;
  dr_family : string;
  dr_jti : string;
  dr_refresh : string;
  dr_row : string;
  dr_now : instant;
}.

Record Minter : Type := { mi_cfg : Config; mi_configErr : option AuthErr }.
Definition New (c : Config) : Minter :=
  let '(cfg, configErr) := withDefaults c in {| mi_cfg := cfg; mi_configErr := configErr |}.

Section Mint.
Context (sha256 : string -> string).
(** [SignedString] with the minter's key. *)
Context (sign : accessClaims -> result AuthErr string).

Definition hashRefresh (plaintext : string) : string := sha256 plaintext.

Definition signAccess (cfg : Config) (identity : Identity) (session family jti : string) (now : instant)
    : result AuthErr (string * instant) :=
  match ValidateActorChain (id_Actor identity) with
  | Some e => Err e
  | None =>
      signed ← sign (access_claims cfg identity session family jti now);
      Ok (signed, time_add now (accessTTL cfg identity))
  end.

(** An identity without a level is at the first one. *)
Definition leveled (identity : Identity) : Identity :=
  {| id_UserID := id_UserID identity; id_OrgID := id_OrgID identity;
     id_OrgRole := id_OrgRole identity; id_PlatformRole := id_PlatformRole identity;
     id_SessionID := id_SessionID identity; id_ActingAsUserID := id_ActingAsUserID identity;
     id_Actor := id_Actor identity; id_MFASatisfied := id_MFASatisfied identity;
     id_AuthenticationMethods := id_AuthenticationMethods identity;
     id_AuthenticatedAt := id_AuthenticatedAt identity; id_AssuranceLevel := if decide (id_AssuranceLevel identity = "") then AssuranceLevelAAL1
     else id_AssuranceLevel identity;
     id_MFAVerifiedAt := id_MFAVerifiedAt identity; id_ScopedRoles := id_ScopedRoles identity;
     id_ScopedRolesTruncated := id_ScopedRolesTruncated identity;
     id_DeviceInfo := id_DeviceInfo identity; id_IPAddress := id_IPAddress identity;
     id_ClientID := id_ClientID identity; id_Resource := id_Resource identity;
     id_Email := id_Email identity; id_DisplayName := id_DisplayName identity |}.
Definition or_new (id drawn : string) : string := if is_Nil id then drawn else id.
Definition prepareMint (m : Minter) (x : Draw) (identity : Identity) (family : string)
    : result AuthErr (TokenPair * SessionRecord) :=
  if is_Nil (id_UserID identity) then Err (Failed "ed25519minter: identity missing user id")
  else
    let cfg := mi_cfg m in
    let now := dr_now x in
    let session := or_new (id_SessionID identity) (dr_session x) in
    let family := or_new family (dr_family x) in
    let identity := leveled identity in
    '(access, accessExpiresAt) ← signAccess cfg identity session family (dr_jti x) now;
    let impersonation := negb (is_Nil (id_ActingAsUserID identity)) in
    let plain := if impersonation then "" else dr_refresh x in
    let hash := if impersonation then "" else hashRefresh (dr_refresh x) in
    let absolute := if impersonation then time_add accessExpiresAt (cf_ClockSkew cfg)
                    else time_add now (sp_AbsoluteLifetime (cf_SessionPolicy cfg)) in
    let idle := if impersonation then absolute
                else let idle := time_add now (sp_IdleTimeout (cf_SessionPolicy cfg)) in
                     if time_after idle absolute then absolute else idle in
    Ok ({| tp_AccessToken := access; tp_RefreshToken := plain; tp_AccessTokenExpiresAt := accessExpiresAt |},
        {| sr_ID := session; sr_UserID := id_UserID identity; sr_OrgID := id_OrgID identity;
           sr_OrgRole := id_OrgRole identity; sr_PlatformRole := id_PlatformRole identity;
           sr_Email := id_Email identity; sr_DisplayName := id_DisplayName identity;
           sr_MFASatisfied := id_MFASatisfied identity;
           sr_AuthenticationMethods := id_AuthenticationMethods identity;
           sr_AuthenticatedAt := id_AuthenticatedAt identity;
           sr_AssuranceLevel := id_AssuranceLevel identity;
           sr_MFAVerifiedAt := id_MFAVerifiedAt identity; sr_DeviceInfo := id_DeviceInfo identity;
           sr_IPAddress := id_IPAddress identity; sr_FamilyID := family;
           sr_ClientID := id_ClientID identity; sr_Resource := id_Resource identity;
           sr_ActingAsUserID := id_ActingAsUserID identity; sr_RefreshHash := hash;
           sr_IssuedAt := now; sr_LastActiveAt := now; sr_IdleExpiresAt := idle; sr_ExpiresAt := absolute;
           sr_RevokedAt := None; sr_RevokedReason := "" |}).

Definition Mint (m : Minter) (s : SessionStore) (c : Clock) (x : Draw) (identity : Identity) (d : AuthDb)
    : result AuthErr TokenPair * AuthDb :=
  match mi_configErr m with
  | Some _ => (Err (Failed "ed25519minter: invalid session policy"), d)
  | None =>
      match prepareMint m x identity uuid_Nil with
      | Err e => (Err e, d)
      | Ok (tokens, rec) =>
          match Insert s c (dr_row x) rec d with
          | (Ok _, d) => (Ok tokens, d)
          | (Err e, d) => (Err e, d)
          end
      end
  end.

(** *** Refresh *)
(** The successor keeps the family's start and end; its activity and idle expiry are new. *)
Definition continued (cfg : Config) (rec : SessionRecord) (now : instant) (next : SessionRecord)
    : SessionRecord :=
  let idle := time_add now (sp_IdleTimeout (cf_SessionPolicy cfg)) in
  {| sr_ID := sr_ID next; sr_UserID := sr_UserID next; sr_OrgID := sr_OrgID next;
     sr_OrgRole := sr_OrgRole next; sr_PlatformRole := sr_PlatformRole next; sr_Email := sr_Email next;
     sr_DisplayName := sr_DisplayName next; sr_MFASatisfied := sr_MFASatisfied next;
     sr_AuthenticationMethods := sr_AuthenticationMethods next;
     sr_AuthenticatedAt := sr_AuthenticatedAt next; sr_AssuranceLevel := sr_AssuranceLevel next;
     sr_MFAVerifiedAt := sr_MFAVerifiedAt next; sr_DeviceInfo := sr_DeviceInfo next;
     sr_IPAddress := sr_IPAddress next; sr_FamilyID := sr_FamilyID next;
     sr_ClientID := sr_ClientID next; sr_Resource := sr_Resource next;
     sr_ActingAsUserID := sr_ActingAsUserID next; sr_RefreshHash := sr_RefreshHash next;
     sr_IssuedAt := sr_IssuedAt rec; sr_LastActiveAt := now;
     sr_IdleExpiresAt := if time_after idle (sr_ExpiresAt rec) then sr_ExpiresAt rec else idle;
     sr_ExpiresAt := sr_ExpiresAt rec;
     sr_RevokedAt := sr_RevokedAt next; sr_RevokedReason := sr_RevokedReason next |}.

Definition refresh_replacement (m : Minter) (c : Clock) (x : Draw)
    (hash requiredClientID requiredResource : string)
    (rec : SessionRecord) (a : RefreshAuthorization) : result AuthErr (SessionRecord * TokenPair) :=
  if negb (bool_decide (sr_RefreshHash rec = hash)) then Err (RejectRefresh RefreshRejectionHashMismatch)
  else if negb (bool_decide (requiredClientID = "")) && negb (bool_decide (sr_ClientID rec = requiredClientID))
  then Err ErrRefreshRevoked
  else if negb (bool_decide (requiredResource = "")) && negb (bool_decide (sr_Resource rec = requiredResource))
  then Err ErrRefreshResourceMismatch
  else
    let now := go_now c in
    if negb (time_before now (sr_ExpiresAt rec)) then Err (RejectRefresh RefreshRejectionAbsoluteLifetime)
    else if negb (time_before now (sr_IdleExpiresAt rec)) then Err (RejectRefresh RefreshRejectionIdleTimeout)
    else
      identity ← identityFromCurrentAuthorization rec a now (dr_session x);
      '(tokens, next) ← prepareMint m x identity (sr_FamilyID rec);
      Ok (continued (mi_cfg m) rec now next, tokens).

Definition rotateRefresh (m : Minter) (c : Clock) (x : Draw)
    (refreshToken requiredClientID requiredResource : string) (d : AuthDb)
    : result AuthErr TokenPair * AuthDb :=
  match mi_configErr m with
  | Some _ => (Err (Failed "ed25519minter: invalid session policy"), d)
  | None =>
      let hash := hashRefresh refreshToken in
      match RotateRefresh c (dr_row x) hash (refresh_replacement m c x hash requiredClientID requiredResource) d with
      | (Ok tokens, d) => (Ok tokens, d)
      | (Err e, d) =>
          (Err (if is_ErrRefreshRevoked e || bool_decide (e = ErrRefreshReuse)
                   || bool_decide (e = ErrRefreshResourceMismatch)
                then e else Failed "ed25519minter: rotate refresh"), d)
      end
  end.
Definition VerifyRefresh (m : Minter) (c : Clock) (x : Draw) (refreshToken : string) (d : AuthDb)
    : result AuthErr TokenPair * AuthDb := rotateRefresh m c x refreshToken "" "" d.
Definition VerifyClientRefresh (m : Minter) (c : Clock) (x : Draw)
    (refreshToken clientID requiredResource : string) (d : AuthDb) : result AuthErr TokenPair * AuthDb :=
  if decide (clientID = "") then (Err (Failed "ed25519minter: client refresh names no client"), d)
  else rotateRefresh m c x refreshToken clientID requiredResource d.

(** *** Another organization, and a registered client *)
Definition SwitchOrganization (m : Minter) (c : Clock) (x : Draw) (user session org : string) (d : AuthDb)
    : result AuthErr (string * instant) * AuthDb :=
  match mi_configErr m with
  | Some _ => (Err (Failed "ed25519minter: invalid session policy"), d)
  | None =>
      if is_Nil user || is_Nil session || is_Nil org then (Err ErrSessionUnavailable, d)
      else match ExchangeOrganization c user session org (fun current a =>
               identity ← identityFromCurrentAuthorization current a (go_now c) (sr_ID current);
               signAccess (mi_cfg m) identity (sr_ID current) (sr_FamilyID current) (dr_jti x) (go_now c)) d with
      | (Ok issued, d) =>
          (if decide (issued.1 = "") then Err (Failed "organization exchange returned no access token")
           else Ok issued, d)
      | (Err e, d) =>
          (Err (if bool_decide (e = ErrSessionUnavailable) || bool_decide (e = ErrOrganizationAccessDenied)
                then e else Failed "ed25519minter: switch organization"), d)
      end
  end.

Definition for_client (clientID resource : string) (i : Identity) : Identity :=
  {| id_UserID := id_UserID i; id_OrgID := id_OrgID i; id_OrgRole := id_OrgRole i;
     id_PlatformRole := id_PlatformRole i; id_SessionID := id_SessionID i;
     id_ActingAsUserID := id_ActingAsUserID i; id_Actor := id_Actor i;
     id_MFASatisfied := id_MFASatisfied i; id_AuthenticationMethods := id_AuthenticationMethods i;
     id_AuthenticatedAt := id_AuthenticatedAt i; id_AssuranceLevel := id_AssuranceLevel i;
     id_MFAVerifiedAt := id_MFAVerifiedAt i; id_ScopedRoles := id_ScopedRoles i;
     id_ScopedRolesTruncated := id_ScopedRolesTruncated i; id_DeviceInfo := ∅; id_IPAddress := "";
     id_ClientID := clientID; id_Resource := resource; id_Email := id_Email i;
     id_DisplayName := id_DisplayName i |}.
Definition MintForClient (m : Minter) (s : SessionStore) (c : Clock) (x : Draw)
    (user authorizing clientID resource : string) (d : AuthDb) : result AuthErr TokenPair * AuthDb :=
  match mi_configErr m with
  | Some _ => (Err (Failed "ed25519minter: invalid session policy"), d)
  | None =>
      if decide (clientID = "") then (Err (Failed "ed25519minter: client session names no client"), d)
      else AuthorizeClientSession s c (dr_row x) user authorizing (fun current a =>
        identity ← identityFromCurrentAuthorization current a (go_now c) (dr_session x);
        '(tokens, next) ← prepareMint m x (for_client clientID resource identity) uuid_Nil;
        Ok (next, tokens)) d
  end.

(** ** Ending access *)
(** [auth.TokenRevoker] (revocation.go). *)
Class TokenRevoker (r : Type) : Type := {
  tr_Revoke : string -> duration -> instant -> r -> option StateErr * r;
  tr_IsRevoked : string -> instant -> r -> result StateErr bool * r;
  tr_RevokeSession : string -> duration -> instant -> r -> option StateErr * r;
  tr_IsSessionRevoked : string -> instant -> r -> result StateErr bool * r;
  tr_noop : bool;
}.
Record NoopTokenRevoker : Type := Noop {}.
#[export] Instance noop_TokenRevoker : TokenRevoker NoopTokenRevoker := {|
  tr_Revoke _ _ _ r := (None, r); tr_IsRevoked _ _ r := (Ok false, r);
  tr_RevokeSession _ _ _ r := (None, r); tr_IsSessionRevoked _ _ r := (Ok false, r);
  tr_noop := true;
|}.
(** The markers of pkg/redisstate. *)
#[export] Instance redis_TokenRevoker {st} `{State st} : TokenRevoker st := {|
  tr_Revoke := RedisState.Revoke; tr_IsRevoked := IsRevoked; tr_RevokeSession := RedisState.RevokeSession;
  tr_IsSessionRevoked := IsSessionRevoked; tr_noop := false;
|}.
End Mint.

Section SignOut.
Context (sha256 : string -> string).
Context {r : Type} `{TokenRevoker r}.
Variable m : Minter.

(** *** The revocation part of [VerifyAccess] *)
Inductive TokenErr : Type := ErrTokenRevoked | ErrRevocationUnavailable.
#[local] Instance TokenErr_eq_dec : EqDecision TokenErr.
Proof. solve_decision. Defined.

(** [None] is to go on. *)
Definition revocation_answer (answer : result StateErr bool) : option TokenErr :=
  match answer with
  | Err _ => if cf_RevocationFailOpen (mi_cfg m) then None else Some ErrRevocationUnavailable
  | Ok true => Some ErrTokenRevoked
  | Ok false => None
  end.
Fixpoint check_keys (keys : list string) (t : instant) (st : r) : option TokenErr * r :=
  match keys with
  | [] => (None, st)
  | key :: keys =>
      if decide (key = "") then check_keys keys t st
      else let '(answer, st) := tr_IsSessionRevoked key t st in
           match revocation_answer answer with
           | Some e => (Some e, st)
           | None => check_keys keys t st
           end
  end.
Definition access_refused (claims : accessClaims) (t : instant) (st : r) : option TokenErr * r :=
  let sessions := check_keys [ac_SessionID claims; ac_FamilyID claims] t in
  if decide (ac_ID claims = "") then sessions st
  else let '(answer, st) := tr_IsRevoked (ac_ID claims) t st in
       match revocation_answer answer with Some e => (Some e, st) | None => sessions st end.

(** *** Sign-out *)
Definition RevokeSessionAccess (session : string) (t : instant) (st : r) : option StateErr * r :=
  if decide (session = "") then (None, st)
  else tr_RevokeSession session (cf_AccessTokenTTL (mi_cfg m) + cf_ClockSkew (mi_cfg m)) t st.

(** The claims of the token, [None] when [VerifyAccess] refuses it. *)
Definition RevokeAccess (presented : option accessClaims) (t : instant) (st : r) : option StateErr * r :=
  match presented with
  | None => (None, st)
  | Some claims =>
      if decide (ac_ID claims = "") then (None, st)
      else
        let ttl := ac_ExpiresAt claims - t + cf_ClockSkew (mi_cfg m) in
        if ttl <=? 0 then (None, st) else tr_Revoke (ac_ID claims) ttl t st
  end.

Inductive SignOutErr : Type :=
| MarkerFailed (e : StateErr)
| ErrLogoutIncomplete (what : list string)
| NotRecorded.

(** [t]: when the marker is written, after the rows are revoked. *)
Definition Revoke (c : Clock) (refreshToken : string) (t : instant) (d : AuthDb) (st : r)
    : option SignOutErr * AuthDb * r :=
  match FindByRefreshHash (hashRefresh sha256 refreshToken) d with
  | Err _ => (None, d, st)
  | Ok rec =>
      let d := RevokeFamily c (sr_FamilyID rec) "logout" d in
      let '(e, st) := RevokeSessionAccess (sr_FamilyID rec) t st in
      (MarkerFailed <$> e, d, st)
  end.

(** pkg/business/auth.go; [t1], [t2] and [t3] are when the three revocations are made. *)
Definition Logout (c : Clock) (refreshToken accessToken sessionID : string)
    (presented : option accessClaims) (t1 t2 t3 : instant) (d : AuthDb) (st : r)
    : option SignOutErr * AuthDb * r :=
  let '(access, st) := if decide (accessToken = "") then (None, st) else RevokeAccess presented t1 st in
  let '(session, st) := if decide (sessionID = "") then (None, st) else RevokeSessionAccess sessionID t2 st in
  let incomplete :=
    match access with Some _ => ["the presented access token"] | None => [] end
    ++ match session with Some _ => ["the presented session's access tokens"] | None => [] end in
  match Revoke c refreshToken t3 d st with
  | (Some e, d, st) => (Some e, d, st)
  | (None, d, st) =>
      (if decide (incomplete = []) then None else Some (ErrLogoutIncomplete incomplete), d, st)
  end.

(** A marker per revoked row, best effort. *)
Fixpoint mark_sessions (ids : list string) (t : instant) (st : r) : r :=
  match ids with
  | [] => st
  | id :: ids => mark_sessions ids t (snd (RevokeSessionAccess id t st))
  end.
(** pkg/business/platform_admin.go, after the permission check; [audited] says whether the
    entry could be written. *)
Definition RevokeSession_admin (c : Clock) (audited : bool) (session reason : string) (t : instant)
    (d : AuthDb) (st : r) : option SignOutErr * AuthDb * r :=
  let reason := if decide (reason = "") then "revoked_by_admin" else reason in
  if negb audited then (Some NotRecorded, d, st)
  else
    let '(ids, d) := RevokeSession c session reason d in (None, d, mark_sessions ids t st).
(** pkg/business/provider_signout.go, once the token's subject is resolved to a user, if it is. *)
Definition BackchannelLogout (c : Clock) (user : option string) (t : instant) (d : AuthDb) (st : r)
    : nat * AuthDb * r :=
  match user with
  | None => (0%nat, d, st)
  | Some user =>
      let '(ids, d) := RevokeAllUserSessions c user "backchannel_logout" d in
      (length ids, d, mark_sessions ids t st)
  end.
End SignOut.
