(* ===== verification/SessionsProofs.v ===== *)
(** What every operation on sessions keeps: rows only end or are projected onto another
    organization, a successor continues its family, and a family has one live row. *)
From S2P Require Import Prelude Sessions SessionTokens.
Local Open Scope Z_scope.

(** ** Rows that evolve *)
(** The columns no statement changes. *)
Definition base (r : Session) :=
  (se_id r, se_user_id r, se_refresh_token_hash r, se_family_id r, se_created_at r, se_expires_at r,
   se_idle_expires_at r, se_last_active_at r, se_mfa_verified_at r, se_assurance_level r,
   se_acting_as_user_id r, se_client_id r, se_resource r).
Definition kept_row (r r' : Session) : Prop :=
  base r' = base r /\ (live r' = true -> live r = true) /\
  (live r = false -> se_revoked_reason r' = se_revoked_reason r).
#[export] Instance kept_row_preorder : PreOrder kept_row.
Proof.
  split; [done|]. intros r r' r'' (Hb & Hl & Hr) (Hb' & Hl' & Hr'). split_and!; [congruence|by auto|].
  intros Hd. destruct (live r') eqn:E; [by rewrite Hl in Hd|]. by rewrite Hr', Hr.
Qed.

Definition rows_kept (rows rows' : list Session) : Prop := Forall2 kept_row rows rows'.
#[export] Instance rows_kept_preorder : PreOrder rows_kept.
Proof.
  split; [intros rows; unfold rows_kept; induction rows; constructor; [reflexivity|done]|].
  intros rows rows' rows'' H. revert rows''. induction H as [|r r' rows rows' Hr _ IH]; intros rows'' H'; [done|].
  inversion H'; subst. constructor; [by etrans|]. by apply IH.
Qed.

Lemma rows_kept_map f rows : (forall r, kept_row r (f r)) -> rows_kept rows (map f rows).
Proof. intros Hf. unfold rows_kept. induction rows; constructor; auto. Qed.
Lemma live_revoked reason at_ r : live (revoked_row reason at_ r) = false.
Proof. done. Qed.
Lemma revoked_row_kept reason at_ r : live r = true -> kept_row r (revoked_row reason at_ r).
Proof. intros Hl. split_and!; [done|done|congruence]. Qed.
Lemma projected_row_kept a r : kept_row r (projected_row a r).
Proof. done. Qed.

Lemma revoke_rows_kept P reason at_ rows : rows_kept rows (revoke_rows P reason at_ rows).
Proof. apply rows_kept_map. intros r. case_match eqn:E; [|reflexivity].
  apply andb_true_iff in E as [_ E]. by apply revoked_row_kept.
Qed.
Lemma revoke_rows_live P reason at_ rows r : r ∈ revoke_rows P reason at_ rows -> live r = true ->
  r ∈ rows /\ P r = false.
Proof.
  unfold revoke_rows. intros Hr Hl. apply list_elem_of_fmap in Hr as (r0 & -> & Hin).
  destruct (P r0 && live r0) eqn:E; [by rewrite live_revoked in Hl|].
  rewrite Hl, andb_true_r in E. done.
Qed.

Lemma rows_kept_in rows rows' r' : rows_kept rows rows' -> r' ∈ rows' -> exists r, r ∈ rows /\ kept_row r r'.
Proof.
  intros H Hr. apply list_elem_of_lookup in Hr as [i Hi]. eapply Forall2_lookup_r in Hi as (r & Hr & Hk); [|done].
  exists r. split; [by eapply list_elem_of_lookup_2|done].
Qed.
Lemma rows_kept_base {A} (f : Session -> A) rows rows' :
  (forall r r', base r' = base r -> f r' = f r) -> rows_kept rows rows' -> map f rows' = map f rows.
Proof. intros Hf. induction 1 as [|r r' rows rows' (Hb & _) _ IH]; cbn; [done|]. by rewrite (Hf r r' Hb), IH. Qed.

(** ** Families *)
Lemma families_in P rows f : f ∈ families P rows <-> exists r, r ∈ rows /\ P r = true /\ se_family_id r = f.
Proof.
  unfold families. rewrite elem_of_remove_dups, list_elem_of_fmap. setoid_rewrite list_elem_of_filter.
  naive_solver.
Qed.
Lemma families_nodup P rows : NoDup (families P rows).
Proof. apply NoDup_remove_dups. Qed.
Lemma families_le P rows P' rows' : (forall f, f ∈ families P' rows' -> f ∈ families P rows) ->
  (length (families P' rows') <= length (families P rows))%nat.
Proof.
  intros H. apply submseteq_length, NoDup_submseteq; [apply families_nodup|exact H].
Qed.

Lemma base_eqs r r' : base r' = base r ->
  se_id r' = se_id r /\ se_user_id r' = se_user_id r /\ se_refresh_token_hash r' = se_refresh_token_hash r /\
  se_family_id r' = se_family_id r /\ se_acting_as_user_id r' = se_acting_as_user_id r /\
  se_client_id r' = se_client_id r.
Proof. unfold base. intros H. by simplify_eq. Qed.

Lemma active_device_kept user r r' : kept_row r r' -> active_device user r' = true -> active_device user r = true.
Proof.
  intros (Hb & Hl & _). destruct (base_eqs _ _ Hb) as (_ & Hu & _ & _ & Ha & Hc).
  unfold active_device, of_user. rewrite Hu, Ha, Hc, !andb_true_iff. naive_solver.
Qed.
Lemma families_kept user rows rows' f : rows_kept rows rows' ->
  f ∈ families (active_device user) rows' -> f ∈ families (active_device user) rows.
Proof.
  intros Hk. rewrite !families_in. intros (r' & Hr' & Hd & Hf).
  destruct (rows_kept_in _ _ _ Hk Hr') as (r & Hr & Hkr). exists r. split_and!; [done|by eapply active_device_kept|].
  destruct Hkr as [Hb _]. apply base_eqs in Hb. naive_solver.
Qed.

(** ** Admission *)
Lemma admit_spec policy c rec d d' : admitSession policy c rec d = Ok (tt, d') ->
  loadUserStatus (sr_UserID rec) d = Some active /\
  exists rows, rows_kept (sessions d) rows /\ d' = set_sessions (fun _ => rows) d /\
    (sr_ClientID rec = "" -> is_Nil (sr_ActingAsUserID rec) = true ->
     (length (families (active_device (sr_UserID rec)) rows) <= Z.to_nat (sp_MaxActiveDevices policy - 1))%nat).
Proof.
  unfold admitSession. destruct (loadUserStatus (sr_UserID rec) d) as [status|]; [|done].
  case_decide as Hstatus; [done|]. subst status.
  set (rows1 := revoke_rows (fun r => of_user (sr_UserID rec) r && _ r) _ _ _).
  assert (H1 : rows_kept (sessions d) rows1) by apply revoke_rows_kept.
  intros [= <-]. split; [done|]. eexists. split; [|split; [reflexivity|]].
  - etrans; [exact H1|]. case_decide; [apply revoke_rows_kept|]. case_match; apply revoke_rows_kept.
  - intros -> Hnil. rewrite decide_False by naive_solver. rewrite Hnil. cbn [negb].
    set (user := sr_UserID rec). set (max := sp_MaxActiveDevices policy).
    set (fams := map (fun f => (last_active (active_device user) rows1 f, f)) (families (active_device user) rows1)).
    transitivity (length (map snd (take (Z.to_nat (max - 1)) (merge_sort latest_first fams)))).
    2:{ rewrite length_map, length_take. lia. }
    apply submseteq_length, NoDup_submseteq; [apply families_nodup|].
    intros f Hf. apply families_in in Hf as (r & Hr & Hd & <-).
    assert (Hlive : live r = true /\ of_user user r = true).
    { unfold active_device in Hd. rewrite !andb_true_iff in Hd. naive_solver. }
    destruct Hlive as [Hlive Huser]. apply revoke_rows_live in Hr as [Hr Hkeep]; [|done].
    rewrite Huser in Hkeep. cbn [andb] in Hkeep. unfold mem in Hkeep. apply bool_decide_eq_false_1 in Hkeep.
    assert (Hin : se_family_id r ∈ map snd (merge_sort latest_first fams)).
    { rewrite merge_sort_Permutation. unfold fams. rewrite map_map. cbn. rewrite map_id.
      apply families_in. by exists r. }
    rewrite <- (take_drop (Z.to_nat (max - 1)) (merge_sort latest_first fams)), map_app in Hin.
    apply elem_of_app in Hin as [Hin|Hin]; [done|]. by destruct Hkeep.
Qed.

(** ** New rows *)
Lemma insert_spec rec d d' : insertSession rec d = Ok (tt, d') ->
  d' = set_sessions (fun rows => rows ++ [session_columns rec]) d /\
  row_checks (session_columns rec) = true /\
  (forall r, r ∈ sessions d -> se_id r <> sr_ID rec) /\
  (forall r h, r ∈ sessions d -> se_refresh_token_hash (session_columns rec) = Some h ->
     se_refresh_token_hash r <> Some h).
Proof.
  unfold insertSession. destruct (row_checks (session_columns rec)); [|done]. cbn [negb].
  destruct (existsb (same_key (session_columns rec)) (sessions d)) eqn:Hk; [done|].
  destruct (references_users d (session_columns rec)); [|done]. cbn [negb]. intros [= <-].
  assert (Hno : forall r, r ∈ sessions d -> same_key (session_columns rec) r = false).
  { intros r Hr. apply not_true_iff_false. intros Ht. apply not_true_iff_false in Hk. apply Hk.
    apply existsb_exists. exists r. split; [by apply list_elem_of_In|done]. }
  split_and!; [done|done| |].
  - intros r Hr He. specialize (Hno r Hr). unfold same_key in Hno. apply orb_false_iff in Hno as [Hid _].
    apply bool_decide_eq_false_1 in Hid. by apply Hid.
  - intros r h Hr Hh He. specialize (Hno r Hr). unfold same_key in Hno. apply orb_false_iff in Hno as [_ Hhash].
    rewrite Hh in Hhash. by apply bool_decide_eq_false_1 in Hhash.
Qed.

Lemma timestamptz_idem t : timestamptz (timestamptz t) = timestamptz t.
Proof. unfold timestamptz. by rewrite Z.div_mul. Qed.
Lemma timestamptz_bounds t : timestamptz t <= t < timestamptz t + 1000.
Proof.
  unfold timestamptz. pose proof (Z.div_mod t 1000 ltac:(done)). pose proof (Z.mod_pos_bound t 1000 ltac:(done)). lia.
Qed.
Lemma timestamptz_mono t u : t <= u -> timestamptz t <= timestamptz u.
Proof. intros H. unfold timestamptz. pose proof (Z.div_le_mono t u 1000). lia. Qed.

(** ** What minting and preparing a record fix *)
Section Mint.
Context (sha256 : string -> string) (sign : accessClaims -> result AuthErr string).

Lemma result_bind_ok {E A B} (r : result E A) (f : A -> result E B) y :
  r ≫= f = Ok y <-> exists x, r = Ok x /\ f x = Ok y.
Proof. destruct r as [x|e]; cbn; naive_solver. Qed.

Lemma prepareMint_spec m x identity family tokens rec :
  prepareMint sha256 sign m x identity family = Ok (tokens, rec) ->
  sr_FamilyID rec = or_new family (dr_family x) /\ sr_UserID rec = id_UserID identity /\
  sr_ClientID rec = id_ClientID identity /\ sr_Resource rec = id_Resource identity /\
  sr_ActingAsUserID rec = id_ActingAsUserID identity /\
  sr_RefreshHash rec = (if is_Nil (id_ActingAsUserID identity) then hashRefresh sha256 (dr_refresh x) else "") /\
  sr_MFAVerifiedAt rec = id_MFAVerifiedAt identity /\
  sr_AssuranceLevel rec = (if decide (id_AssuranceLevel identity = "") then AssuranceLevelAAL1
                           else id_AssuranceLevel identity) /\
  sr_IssuedAt rec = dr_now x /\
  (is_Nil (id_ActingAsUserID identity) = true ->
   sr_ExpiresAt rec = dr_now x + sp_AbsoluteLifetime (cf_SessionPolicy (mi_cfg m)) /\
   sr_IdleExpiresAt rec <= sr_ExpiresAt rec) /\
  signAccess sign (mi_cfg m) (leveled identity) (or_new (id_SessionID identity) (dr_session x))
    (or_new family (dr_family x)) (dr_jti x) (dr_now x)
  = Ok (tp_AccessToken tokens, tp_AccessTokenExpiresAt tokens) /\
  tp_RefreshToken tokens = (if is_Nil (id_ActingAsUserID identity) then dr_refresh x else "").
Proof.
  unfold prepareMint. destruct (is_Nil (id_UserID identity)); [done|]. intros H.
  apply result_bind_ok in H as ([access exp] & Hsign & H). simplify_eq/=.
  destruct (is_Nil (id_ActingAsUserID identity)); cbn; split_and!; try done; try (by intros).
  intros _. split; [done|].
  unfold time_after, time_add. case_match; bool_to_prop; lia.
Qed.
End Mint.

Lemma prepare_spec drawn now rec rec' : prepareSessionRecord drawn now rec = Ok rec' ->
  sr_FamilyID rec' = sr_FamilyID rec /\ sr_UserID rec' = sr_UserID rec /\
  sr_ClientID rec' = sr_ClientID rec /\ sr_Resource rec' = sr_Resource rec /\
  sr_ActingAsUserID rec' = sr_ActingAsUserID rec /\ sr_RefreshHash rec' = sr_RefreshHash rec /\
  sr_MFAVerifiedAt rec' = sr_MFAVerifiedAt rec /\
  sr_ExpiresAt rec' = sr_ExpiresAt rec /\ sr_IdleExpiresAt rec' = sr_IdleExpiresAt rec /\
  sr_AssuranceLevel rec' = (if decide (sr_AssuranceLevel rec = "") then AssuranceLevelAAL1
                            else sr_AssuranceLevel rec) /\
  (sr_IssuedAt rec' = sr_IssuedAt rec \/ (sr_IssuedAt rec = zero_time /\ sr_IssuedAt rec' = now)) /\
  (sr_RefreshHash rec <> "" <-> sr_ActingAsUserID rec = uuid_Nil) /\
  sr_FamilyID rec <> uuid_Nil.
Proof.
  unfold prepareSessionRecord. intros H. repeat (case_match; [done|]). simplify_eq/=.
  split_and!; try done.
  - destruct (time_is_zero (sr_IssuedAt rec)) eqn:E; [right|by left].
    unfold time_is_zero in E. apply Z.eqb_eq in E. done.
  - unfold is_Nil in *. rewrite ?andb_false_iff, ?negb_false_iff, ?bool_decide_eq_false, ?bool_decide_eq_true in *.
    naive_solver.
  - unfold is_Nil in *. by rewrite ?bool_decide_eq_false in *.
Qed.

(** A session row is coherent: its times are whole microseconds, its client has a name, it
    holds a refresh credential unless it is an impersonation window, and it does not outlast
    its sign-in. *)
Definition row_ok (lifetime : duration) (r : Session) : Prop :=
  timestamptz (se_created_at r) = se_created_at r /\
  timestamptz (se_expires_at r) = se_expires_at r /\
  (forall t, se_mfa_verified_at r = Some t -> timestamptz t = t) /\
  se_client_id r <> Some "" /\ se_resource r <> Some "" /\
  (se_refresh_token_hash r <> None <-> se_acting_as_user_id r = None) /\
  se_acting_as_user_id r <> Some uuid_Nil /\
  (se_acting_as_user_id r = None ->
   se_expires_at r < se_created_at r + lifetime + 1000 /\ se_idle_expires_at r <= se_expires_at r).

Lemma nilIfEmpty_named v : nilIfEmpty v <> Some "".
Proof. unfold nilIfEmpty. by case_decide; [|intros [= ->]]. Qed.
Lemma nil_default o : o <> Some "" -> nilIfEmpty (default "" o) = o.
Proof. unfold nilIfEmpty. intros H. destruct o as [v|]; cbn; case_decide; naive_solver. Qed.
Lemma nil_if_Nil_none id : nil_if_Nil id = None <-> id = uuid_Nil.
Proof. unfold nil_if_Nil, is_Nil. case_match; bool_to_prop; [|]; rewrite ?bool_decide_eq_true, ?bool_decide_eq_false in *; naive_solver. Qed.

Lemma session_columns_ok lifetime rec :
  (sr_RefreshHash rec <> "" <-> sr_ActingAsUserID rec = uuid_Nil) ->
  (sr_ActingAsUserID rec = uuid_Nil ->
   timestamptz (sr_ExpiresAt rec) < timestamptz (sr_IssuedAt rec) + lifetime + 1000 /\
   sr_IdleExpiresAt rec <= sr_ExpiresAt rec) ->
  row_ok lifetime (session_columns rec).
Proof.
  intros Hhash Hlife. unfold row_ok, session_columns. cbn. split_and!.
  - apply timestamptz_idem.
  - apply timestamptz_idem.
  - intros t. unfold nil_if_zero. case_match; [done|]. intros [= <-]. apply timestamptz_idem.
  - apply nilIfEmpty_named.
  - apply nilIfEmpty_named.
  - rewrite nil_if_Nil_none, <- Hhash. unfold nilIfEmpty. case_decide; cbn; naive_solver.
  - unfold nil_if_Nil, is_Nil. case_bool_decide; [done|]. naive_solver.
  - rewrite nil_if_Nil_none. intros Hn. destruct (Hlife Hn). split; [done|]. by apply timestamptz_mono.
Qed.

(** ** What an operation does to the sessions *)
Section Effects.
Context (sha256 : string -> string) (sign : accessClaims -> result AuthErr string).
Variable lifetime : duration.
Variable max : Z.

(** [new] goes on where [r] was: the same person, family, client, resource, start and end,
    and a second factor that is [r]'s or none. *)
Definition carries (r new : Session) : Prop :=
  se_user_id new = se_user_id r /\ se_family_id new = se_family_id r /\
  se_client_id new = se_client_id r /\ se_resource new = se_resource r /\
  se_created_at new = se_created_at r /\ se_expires_at new = se_expires_at r /\
  se_acting_as_user_id new = se_acting_as_user_id r /\
  (se_mfa_verified_at new = None \/ se_mfa_verified_at new = se_mfa_verified_at r) /\
  (se_assurance_level new = AssuranceLevelAAL1 \/ se_assurance_level new = se_assurance_level r).

(** The drawn family and the stored hash of the drawn token: a new row has no others. *)
Inductive effect (family hash : string) (rows : list Session) : list Session -> Prop :=
| effect_ends rows' : rows_kept rows rows' -> effect family hash rows rows'
| effect_deletes before :
    effect family hash rows (filter (fun r => negb (se_created_at r <? before) = true) rows)
| effect_continues rows' r new : r ∈ rows -> live r = true -> rows_kept rows rows' ->
    (forall r', r' ∈ rows' -> se_family_id r' = se_family_id r -> live r' = false) ->
    carries r new -> row_ok lifetime new -> live new = true ->
    se_refresh_token_hash new = Some hash ->
    (forall r', r' ∈ rows -> se_id r' <> se_id new) ->
    effect family hash rows (rows' ++ [new])
| effect_begins rows' new : rows_kept rows rows' ->
    se_family_id new = family -> row_ok lifetime new -> live new = true ->
    (se_refresh_token_hash new = None \/ se_refresh_token_hash new = Some hash) ->
    (forall r', r' ∈ rows -> se_id r' <> se_id new) ->
    (active_device (se_user_id new) new = true ->
     (length (families (active_device (se_user_id new)) rows') <= Z.to_nat (max - 1))%nat) ->
    effect family hash rows (rows' ++ [new]).

Lemma revoke_where_effect family hash P reason at_ d :
  effect family hash (sessions d) (sessions (revoke_where P reason at_ d)).
Proof. apply effect_ends, revoke_rows_kept. Qed.

Lemma revoke_live P reason at_ rows r : r ∈ revoke_rows P reason at_ rows -> P r = true ->
  (forall q, P (revoked_row (reason q) at_ q) = P q) -> live r = false.
Proof.
  intros Hr HP Hq. destruct (live r) eqn:Hl; [|done]. apply revoke_rows_live in Hr as [_ Hr]; [|done]. congruence.
Qed.

(** *** Sign-in *)
Lemma is_Nil_true id : is_Nil id = true <-> id = uuid_Nil.
Proof. unfold is_Nil. apply bool_decide_eq_true. Qed.

Lemma timestamptz_add t l : timestamptz (t + l) < timestamptz t + l + 1000.
Proof. pose proof (timestamptz_bounds t). pose proof (timestamptz_bounds (t + l)). lia. Qed.

(** A record of a new family as it is stored. *)
Lemma begun_row m x identity tokens rec drawn now rec' :
  lifetime = sp_AbsoluteLifetime (cf_SessionPolicy (mi_cfg m)) -> dr_now x <> zero_time ->
  prepareMint sha256 sign m x identity uuid_Nil = Ok (tokens, rec) ->
  prepareSessionRecord drawn now rec = Ok rec' ->
  row_ok lifetime (session_columns rec') /\ se_family_id (session_columns rec') = dr_family x /\
  (se_refresh_token_hash (session_columns rec') = None \/
   se_refresh_token_hash (session_columns rec') = Some (hex_encode (hashRefresh sha256 (dr_refresh x)))) /\
  sr_UserID rec' = id_UserID identity /\ sr_ClientID rec' = id_ClientID identity /\
  sr_ActingAsUserID rec' = id_ActingAsUserID identity.
Proof.
  intros -> Hnow Hm Hp. apply prepareMint_spec in Hm as (Hf & Hu & Hc & Hr & Ha & Hh & Hmfa & _ & Hi & Hx & _).
  apply prepare_spec in Hp as (Hf' & Hu' & Hc' & Hr' & Ha' & Hh' & Hmfa' & He' & Hid' & _ & Hi' & Hcred & _).
  destruct Hi' as [Hi'|[Hz _]]; [|congruence]. split_and!; try congruence.
  - apply session_columns_ok; [by rewrite Hh', Ha'|]. intros Hacting. rewrite Ha', Ha in Hacting.
    destruct Hx as [Hx Hidle]; [by apply is_Nil_true|]. rewrite He', Hid', Hi', Hx, Hi.
    split; [apply timestamptz_add|lia].
  - cbn. by rewrite Hf', Hf.
  - cbn. unfold nilIfEmpty. rewrite Hh', Hh. case_decide; [by left|]. right.
    by destruct (is_Nil (id_ActingAsUserID identity)).
Qed.

(** Admitting a record and inserting its row. *)
Lemma admitted_insert family hash s c rec d d' :
  (_ ← admitSession (ss_policy s) c rec; insertSession rec) d = Ok (tt, d') ->
  max = sp_MaxActiveDevices (ss_policy s) ->
  row_ok lifetime (session_columns rec) -> se_family_id (session_columns rec) = family ->
  (se_refresh_token_hash (session_columns rec) = None \/ se_refresh_token_hash (session_columns rec) = Some hash) ->
  effect family hash (sessions d) (sessions d').
Proof.
  intros H Hmax Hok Hf Hh. apply tx_bind_ok in H as ([] & d1 & Ha & Hi).
  apply admit_spec in Ha as (_ & rows & Hk & -> & Hdev).
  apply insert_spec in Hi as (-> & _ & Hid & _). cbn. apply effect_begins; [done|done|done|done|done| |].
  - intros r Hr. cbn. intros He. cbn in Hid.
    assert (Hids : map se_id rows = map se_id (sessions d)) by (apply rows_kept_base; [|done]; intros ? ? Hb; by apply base_eqs in Hb as (-> & _)).
    assert (Hin : sr_ID rec ∈ map se_id rows) by (rewrite Hids; apply list_elem_of_fmap; by exists r).
    apply list_elem_of_fmap in Hin as (r' & Hr' & Hin). by apply (Hid r').
  - cbn. intros Hact. rewrite Hmax. apply Hdev.
    + unfold active_device in Hact. rewrite !andb_true_iff, !bool_decide_eq_true in Hact.
      destruct Hact as [_ Hc]. cbn in Hc. unfold nilIfEmpty in Hc. by case_decide.
    + unfold active_device in Hact. rewrite !andb_true_iff, !bool_decide_eq_true in Hact.
      destruct Hact as [[_ Hc] _]. cbn in Hc. by apply is_Nil_true, nil_if_Nil_none.
Qed.

Lemma Mint_effect m s c x identity d :
  lifetime = sp_AbsoluteLifetime (cf_SessionPolicy (mi_cfg m)) -> max = sp_MaxActiveDevices (ss_policy s) ->
  dr_now x <> zero_time ->
  effect (dr_family x) (hex_encode (hashRefresh sha256 (dr_refresh x))) (sessions d)
    (sessions (snd (Mint sha256 sign m s c x identity d))).
Proof.
  intros Hl Hm Hnow. unfold Mint. destruct (mi_configErr m); [by apply effect_ends|].
  destruct (prepareMint _ _ _ _ _ _) as [[tokens rec]|] eqn:Hpm; [|by apply effect_ends].
  unfold Insert. destruct (ss_configErr s); [by apply effect_ends|].
  destruct (prepareSessionRecord _ _ _) as [rec'|] eqn:Hp; [|by apply effect_ends].
  destruct (begun_row _ _ _ _ _ _ _ _ Hl Hnow Hpm Hp) as (Hok & Hf & Hh & _).
  destruct (run_tx _ d) as [[[]|e] d'] eqn:Hrun; cbn [snd].
  - apply run_tx_commit in Hrun. by eapply admitted_insert.
  - apply run_tx_rollback in Hrun as ->. by apply effect_ends.
Qed.

(** *** Refresh *)
Lemma settle_ok {T} (m : tx AuthDb AuthErr (Committed T)) d v d' :
  settle m d = (Ok v, d') <-> m d = Ok (Done v, d').
Proof. unfold settle, run_tx. destruct (m d) as [[[v'|e] d1]|e]; naive_solver. Qed.
Lemma settle_rows {T} (m : tx AuthDb AuthErr (Committed T)) d :
  (forall e d', m d = Ok (Refused e, d') -> rows_kept (sessions d) (sessions d')) ->
  (exists v d', settle m d = (Ok v, d')) \/ rows_kept (sessions d) (sessions (snd (settle m d))).
Proof.
  intros H. unfold settle, run_tx. destruct (m d) as [[[v|e] d1]|e] eqn:E; cbn.
  - left. by do 2 eexists.
  - right. by apply (H e).
  - by right.
Qed.

Lemma rotate_done {T} c drawn hash (repl : _ -> _ -> result AuthErr (_ * T)) d kept d' :
  rotate c drawn hash repl d = Ok (Done kept, d') ->
  exists r a next0 next, List.find (has_hash (hex_encode hash)) (sessions d) = Some r /\
    loadUserStatus (se_user_id r) d = Some active /\ live r = true /\
    resolveRefreshAuthorization (scanSession hash r) d = Some a /\
    repl (scanSession hash r) a = Ok (next0, kept) /\
    prepareSessionRecord drawn (go_now c) next0 = Ok next /\
    validateRefreshReplacement (scanSession hash r) next a = Ok () /\
    insertSession next (revokeActiveFamily c (se_family_id r) "rotated" d) = Ok (tt, d').
Proof.
  unfold rotate, commit_refusal. destruct (List.find _ _) as [r|] eqn:Hf; [|done].
  destruct (loadUserStatus _ d) as [status|] eqn:Hs; [|done]. case_decide; [done|]. subst status.
  destruct (bool_decide (sr_RevokedAt (scanSession hash r) = None)) eqn:Hl; cbn [negb]; [|by case_decide].
  destruct (resolveRefreshAuthorization _ d) as [a|] eqn:Ha; [|done].
  destruct (repl _ a) as [[next0 kept0]|e] eqn:Hr; [|by case_match]. intros H.
  apply tx_bind_ok in H as (next & d1 & Hp & H). apply tx_bind_ok in H as ([] & d2 & Hv & H).
  apply tx_bind_ok in H as ([] & d3 & Hrev & H). apply tx_bind_ok in H as ([] & d4 & Hi & H).
  unfold tx_lift in Hp, Hv. destruct (prepareSessionRecord _ _ _) as [next1|] eqn:Hp1; [|done].
  destruct (validateRefreshReplacement _ _ _) as [[]|] eqn:Hv1; simplify_eq/=.
  cbv [mret tx_ret] in H. simplify_eq. exists r, a, next0, next. split_and!; done.
Qed.
Lemma rotate_refused {T} c drawn hash (repl : _ -> _ -> result AuthErr (_ * T)) d e d' :
  rotate c drawn hash repl d = Ok (Refused e, d') -> rows_kept (sessions d) (sessions d').
Proof.
  unfold rotate, commit_refusal. intros H.
  repeat (case_match; simplify_eq/=; try apply revoke_rows_kept).
  repeat (apply tx_bind_ok in H as (? & ? & ? & H)). by cbv [mret tx_ret] in H.
Qed.

Lemma replacement_spec current next a : validateRefreshReplacement current next a = Ok () ->
  sr_UserID next = sr_UserID current /\ sr_FamilyID next = sr_FamilyID current /\
  sr_ClientID next = sr_ClientID current /\ sr_Resource next = sr_Resource current /\
  sr_OrgID next = ra_OrgID a /\ sr_OrgRole next = ra_OrgRole a /\ sr_PlatformRole next = ra_PlatformRole a /\
  sr_IssuedAt next = sr_IssuedAt current /\ sr_ExpiresAt next = sr_ExpiresAt current /\
  sr_IdleExpiresAt next <= sr_ExpiresAt next.
Proof.
  unfold validateRefreshReplacement. intros H. repeat (case_match; [done|]). clear H.
  repeat match goal with
  | H : negb (bool_decide _) = false |- _ => apply negb_false_iff, bool_decide_eq_true_1 in H
  | H : _ || _ = false |- _ => apply orb_false_iff in H as [? ?]
  | H : negb (_ && _) = false |- _ => apply negb_false_iff in H
  | H : _ && _ = true |- _ => apply andb_true_iff in H as [? ?]
  | H : bool_decide _ = true |- _ => apply bool_decide_eq_true_1 in H
  | H : negb (_ =? _) = false |- _ => apply negb_false_iff, Z.eqb_eq in H
  | H : time_after _ _ = false |- _ => unfold time_after in H; apply Z.ltb_ge in H
  end.
  split_and!; done || lia.
Qed.

Lemma identity_spec rec a now session identity :
  identityFromCurrentAuthorization rec a now session = Ok identity ->
  id_UserID identity = sr_UserID rec /\ id_ActingAsUserID identity = uuid_Nil /\
  id_ClientID identity = sr_ClientID rec /\ id_Resource identity = sr_Resource rec /\
  id_OrgID identity = ra_OrgID a /\ id_OrgRole identity = ra_OrgRole a /\
  id_PlatformRole identity = ra_PlatformRole a /\ id_SessionID identity = session /\
  (id_MFAVerifiedAt identity = zero_time \/ id_MFAVerifiedAt identity = sr_MFAVerifiedAt rec) /\
  (id_AssuranceLevel identity = AssuranceLevelAAL1 \/ id_AssuranceLevel identity = sr_AssuranceLevel rec) /\
  (ra_MFAEnrolled a = true -> sr_MFASatisfied rec = true /\ id_AssuranceLevel identity = AssuranceLevelAAL2 /\
     id_MFAVerifiedAt identity = sr_MFAVerifiedAt rec /\ sr_MFAVerifiedAt rec <> zero_time).
Proof.
  unfold identityFromCurrentAuthorization. case_match eqn:E; [done|]. intros [= <-]. cbn.
  split_and!; try done.
  - case_match; [by left|by right].
  - case_match; [by left|by right].
  - intros He. rewrite He in E |- *. cbn in E |- *. rewrite !orb_false_iff, !negb_false_iff in E.
    destruct E as [[Hs Hm] _]. unfold HasMFAEvidence in Hm. cbn in Hm. case_match eqn:Hn; [done|].
    rewrite orb_false_iff, negb_false_iff, bool_decide_eq_true in Hn. destruct Hn as [Hl Hz].
    unfold time_is_zero in Hz. apply Z.eqb_neq in Hz. done.
Qed.

(** The row of a record that passed the checks on a successor of [r]. *)
Lemma successor_row r next :
  row_ok lifetime r -> se_acting_as_user_id r = None ->
  sr_UserID next = se_user_id r -> sr_FamilyID next = se_family_id r ->
  sr_ClientID next = default "" (se_client_id r) -> sr_Resource next = default "" (se_resource r) ->
  sr_IssuedAt next = se_created_at r -> sr_ExpiresAt next = se_expires_at r ->
  sr_IdleExpiresAt next <= sr_ExpiresAt next -> sr_ActingAsUserID next = uuid_Nil -> sr_RefreshHash next <> "" ->
  (sr_MFAVerifiedAt next = zero_time \/ sr_MFAVerifiedAt next = default zero_time (se_mfa_verified_at r)) ->
  (sr_AssuranceLevel next = AssuranceLevelAAL1 \/ sr_AssuranceLevel next = se_assurance_level r) ->
  carries r (session_columns next) /\ row_ok lifetime (session_columns next).
Proof.
  intros (Kc & Ke & Km & Kcl & Kres & _ & _ & Klife) Hacting Vu Vf Vc Vr Vi Ve Vidle Va Vh Vm Vl.
  destruct (Klife Hacting) as [Klife1 _]. split.
  - unfold carries, session_columns. cbn. rewrite Vu, Vf, Vc, Vr, Vi, Ve, Va, !nil_default by done.
    split_and!; try done. destruct Vm as [-> | ->]; [by left|].
    destruct (se_mfa_verified_at r) as [t|]; cbn; [|by left]. unfold nil_if_zero.
    case_match; [by left|right]. by rewrite Km.
  - apply session_columns_ok; [naive_solver|]. intros _. rewrite Ve, Vi, Ke, Kc. split; [done|lia].
Qed.

(** What the callback of a refresh answers for the row [r]. *)
Lemma replacement_ok m c x hash client resource r a next tokens :
  se_acting_as_user_id r = None -> se_family_id r <> uuid_Nil ->
  refresh_replacement sha256 sign m c x hash client resource (scanSession hash r) a = Ok (next, tokens) ->
  go_now c < se_expires_at r /\ go_now c < se_idle_expires_at r /\
  (client = "" \/ se_client_id r = Some client) /\ (resource = "" \/ se_resource r = Some resource) /\
  (exists identity, identityFromCurrentAuthorization (scanSession hash r) a (go_now c) (dr_session x) = Ok identity /\
     signAccess sign (mi_cfg m) (leveled identity) (or_new (dr_session x) (dr_session x)) (se_family_id r)
       (dr_jti x) (dr_now x) = Ok (tp_AccessToken tokens, tp_AccessTokenExpiresAt tokens)) /\
  tp_RefreshToken tokens = dr_refresh x /\
  sr_RefreshHash next = hashRefresh sha256 (dr_refresh x) /\ sr_ActingAsUserID next = uuid_Nil /\
  (sr_MFAVerifiedAt next = zero_time \/ sr_MFAVerifiedAt next = default zero_time (se_mfa_verified_at r)) /\
  (sr_AssuranceLevel next = AssuranceLevelAAL1 \/ sr_AssuranceLevel next = se_assurance_level r) /\
  sr_AssuranceLevel next <> "".
Proof.
  intros Hacting Hfam. unfold refresh_replacement. cbn [sr_RefreshHash scanSession].
  rewrite bool_decide_eq_true_2 by done. cbn [negb].
  destruct (negb (bool_decide (client = "")) && _) eqn:Hcl; [done|].
  destruct (negb (bool_decide (resource = "")) && _) eqn:Hres; [done|].
  destruct (negb (time_before _ (sr_ExpiresAt _))) eqn:Hx; [done|].
  destruct (negb (time_before _ (sr_IdleExpiresAt _))) eqn:Hidle; [done|]. intros Hr.
  apply result_bind_ok in Hr as (identity & Hid & Hr). apply result_bind_ok in Hr as ([tokens0 rec] & Hm & Hr).
  injection Hr as <- ->.
  pose proof (identity_spec _ _ _ _ _ Hid) as (Iu & Iact & Ic & Ir & _ & _ & _ & Is & Imfa & Ilev & _).
  apply prepareMint_spec in Hm as (_ & _ & _ & _ & Ma & Mh & Mmfa & Mlev & _ & _ & Msign & Mtok).
  assert (Hnil : is_Nil (id_ActingAsUserID identity) = true) by by apply is_Nil_true.
  assert (Hor : or_new (se_family_id r) (dr_family x) = se_family_id r).
  { unfold or_new. destruct (is_Nil (se_family_id r)) eqn:En; [|done]. by apply is_Nil_true in En. }
  rewrite Hnil in Mh, Mtok. cbn [scanSession sr_FamilyID] in Msign. rewrite Is, Hor in Msign.
  cbn in Imfa, Ilev. cbn [continued sr_RefreshHash sr_ActingAsUserID sr_MFAVerifiedAt sr_AssuranceLevel].
  assert (Hreq : forall o v, negb (bool_decide (v = "")) && negb (bool_decide (default "" o = v)) = false ->
    v = "" \/ o = Some v).
  { intros o v H. apply andb_false_iff in H as [H|H]; apply negb_false_iff, bool_decide_eq_true_1 in H; [by left|].
    destruct o as [w|]; cbn in H; subst; [by right|by left]. }
  unfold time_before in Hx, Hidle. apply negb_false_iff, Z.ltb_lt in Hx, Hidle.
  split_and!; try done; try congruence.
  - by apply Hreq.
  - by apply Hreq.
  - by exists identity.
  - rewrite Mlev. case_decide; [by left|]. done.
  - rewrite Mlev. by case_decide.
Qed.

(** A refresh that succeeds: [r] is the row the token names, [a] the authority it is given
    and [new] the successor. *)
Record refreshed (m : Minter) (c : Clock) (x : Draw) (token client resource : string) (d : AuthDb)
    (tokens : TokenPair) (d' : AuthDb) (r : Session) (a : RefreshAuthorization) (new : Session) : Prop := {
  rf_row : r ∈ sessions d;
  rf_live : live r = true;
  rf_hash : se_refresh_token_hash r = Some (hex_encode (hashRefresh sha256 token));
  rf_active : loadUserStatus (se_user_id r) d = Some active;
  rf_authorization : resolveRefreshAuthorization (scanSession (hashRefresh sha256 token) r) d = Some a;
  rf_absolute : go_now c < se_expires_at r;
  rf_idle : go_now c < se_idle_expires_at r;
  rf_client : client = "" \/ se_client_id r = Some client;
  rf_resource : resource = "" \/ se_resource r = Some resource;
  rf_identity : exists identity,
    identityFromCurrentAuthorization (scanSession (hashRefresh sha256 token) r) a (go_now c) (dr_session x)
      = Ok identity /\
    signAccess sign (mi_cfg m) (leveled identity) (or_new (dr_session x) (dr_session x)) (se_family_id r)
      (dr_jti x) (dr_now x) = Ok (tp_AccessToken tokens, tp_AccessTokenExpiresAt tokens);
  rf_token : tp_RefreshToken tokens = dr_refresh x;
  rf_sessions : sessions d' = sessions (revokeActiveFamily c (se_family_id r) "rotated" d) ++ [new];
  rf_carries : carries r new;
  rf_new_ok : row_ok lifetime new;
  rf_new_live : live new = true;
  rf_new_hash : se_refresh_token_hash new = Some (hex_encode (hashRefresh sha256 (dr_refresh x)));
  rf_new_id : forall r', r' ∈ sessions d -> se_id r' <> se_id new;
  rf_projected : se_org_id new = nil_if_Nil (ra_OrgID a) /\ se_org_role new = ra_OrgRole a /\
    se_platform_role new = ra_PlatformRole a;
}.

Lemma ids_kept rows rows' r : rows_kept rows rows' -> r ∈ rows -> exists r', r' ∈ rows' /\ se_id r' = se_id r.
Proof.
  intros Hk Hr. apply list_elem_of_lookup in Hr as [i Hi]. destruct (Forall2_lookup_l _ _ _ _ _ Hk Hi) as (r' & Hr' & [Hb _]).
  exists r'. split; [by eapply list_elem_of_lookup_2|]. by apply base_eqs in Hb as (-> & _).
Qed.

Lemma rotateRefresh_ok m c x token client resource d tokens d' :
  Forall (row_ok lifetime) (sessions d) ->
  rotateRefresh sha256 sign m c x token client resource d = (Ok tokens, d') ->
  exists r a new, refreshed m c x token client resource d tokens d' r a new.
Proof.
  intros Hrows. unfold rotateRefresh. destruct (mi_configErr m); [done|].
  set (hash := hashRefresh sha256 token). unfold RotateRefresh. case_decide as Hhash; [done|].
  destruct (settle _ d) as [[kept|e] d1] eqn:Hs; [|done]. intros [= -> ->].
  apply settle_ok, rotate_done in Hs as (r & a & next0 & next & Hf & Hst & Hl & Ha & Hr & Hp & Hv & Hi).
  apply List.find_some in Hf as [Hin Hh]. apply list_elem_of_In in Hin. unfold has_hash in Hh.
  apply bool_decide_eq_true_1 in Hh. rewrite Forall_forall in Hrows. pose proof (Hrows r Hin) as Hok.
  assert (Hacting : se_acting_as_user_id r = None).
  { destruct Hok as (_ & _ & _ & _ & _ & Hcred & _). apply Hcred. by rewrite Hh. }
  apply prepare_spec in Hp as (Pf & _ & _ & _ & Pa & Ph & Pmfa & _ & _ & Plev & _ & Pcred & Pfam).
  apply replacement_spec in Hv as (Vu & Vf & Vc & Vr & Vo & Vor & Vp & Vi & Ve & Vidle).
  assert (Hfam : se_family_id r <> uuid_Nil) by (cbn in Vf; congruence).
  apply replacement_ok in Hr as (Rx & Ri & Rc & Rr & Rid & Rt & Rh & Ra & Rm & Rl & Rne); [|done|done].
  destruct (successor_row r next) as [Hcont Hnew]; try done; try congruence.
  { rewrite Ph. by apply Pcred. }
  { rewrite Plev. by rewrite decide_False. }
  apply insert_spec in Hi as (-> & _ & Hids & _).
  exists r, a, (session_columns next). constructor; try done.
  - cbn. rewrite Ph. unfold nilIfEmpty. rewrite decide_False by by apply Pcred. cbn. by rewrite Rh.
  - intros r' Hr' He. destruct (ids_kept (sessions d) (sessions (revokeActiveFamily c (se_family_id r) "rotated" d)) r')
      as (r2 & Hr2 & He2); [apply revoke_rows_kept|done|]. apply (Hids r2 Hr2). by rewrite He2.
  - cbn. by rewrite Vo.
Qed.

Lemma rotated_over c family d r : r ∈ sessions (revokeActiveFamily c family "rotated" d) -> se_family_id r = family ->
  live r = false.
Proof.
  intros Hr Hf. eapply revoke_live; [exact Hr| |done]. unfold of_family. by apply bool_decide_eq_true_2.
Qed.
Lemma refreshed_effect m c x token client resource d tokens d' r a new family :
  refreshed m c x token client resource d tokens d' r a new ->
  effect family (hex_encode (hashRefresh sha256 (dr_refresh x))) (sessions d) (sessions d').
Proof.
  intros []. rewrite rf_sessions0. eapply effect_continues; try done; [apply revoke_rows_kept|].
  intros r' Hr' Hf. by eapply rotated_over.
Qed.

Lemma rotateRefresh_effect m c x token client resource d family :
  Forall (row_ok lifetime) (sessions d) ->
  effect family (hex_encode (hashRefresh sha256 (dr_refresh x))) (sessions d)
    (sessions (snd (rotateRefresh sha256 sign m c x token client resource d))).
Proof.
  intros Hrows. destruct (rotateRefresh sha256 sign m c x token client resource d) as [[tokens|e] d'] eqn:E.
  - edestruct rotateRefresh_ok as (r & a & new & H); [done|exact E|]. by eapply refreshed_effect.
  - apply effect_ends. unfold rotateRefresh, RotateRefresh in E. case_match; [by simplify_eq|].
    case_decide; [by simplify_eq/=|].
    destruct (settle_rows (rotate c (dr_row x) (hashRefresh sha256 token)
      (refresh_replacement sha256 sign m c x (hashRefresh sha256 token) client resource)) d)
      as [(v & d1 & Hs)|Hk]; [by intros; eapply rotate_refused| |].
    + by rewrite Hs in E.
    + destruct (settle _ d) as [[v|e1] d1]; by simplify_eq/=.
Qed.

(** *** Another organization, and a registered client *)
Lemma settle_effect {T} family hash (f : tx AuthDb AuthErr (Committed T)) d :
  (forall v d', f d = Ok (v, d') -> effect family hash (sessions d) (sessions d')) ->
  effect family hash (sessions d) (sessions (snd (settle f d))).
Proof.
  intros H. unfold settle, run_tx. destruct (f d) as [[[v|e] d1]|e] eqn:E; cbn; [by eapply H|by eapply H|].
  by apply effect_ends.
Qed.

Lemma exchange_kept {T} c user session target (issue : _ -> _ -> result AuthErr T) d v d' :
  exchange c user session target issue d = Ok (v, d') -> rows_kept (sessions d) (sessions d').
Proof.
  unfold exchange, commit_refusal. intros H.
  repeat (case_match; simplify_eq/=; try apply revoke_rows_kept).
  apply rows_kept_map. intros r. case_match; [apply projected_row_kept|reflexivity].
Qed.
Lemma SwitchOrganization_effect m c x user session org d family hash :
  effect family hash (sessions d) (sessions (snd (SwitchOrganization sign m c x user session org d))).
Proof.
  unfold SwitchOrganization. destruct (mi_configErr m); [by apply effect_ends|].
  destruct (is_Nil user || _ || _) eqn:Hn; [by apply effect_ends|]. unfold ExchangeOrganization. rewrite Hn.
  set (f := exchange _ _ _ _ _).
  pose proof (settle_effect family hash f d) as H0.
  destruct (settle f d) as [[issued|e] d1]; cbn in *; apply H0; intros; eapply effect_ends, exchange_kept; done.
Qed.

Lemma authorize_done {T} s c drawn user session (issue : _ -> _ -> result AuthErr (_ * T)) d v d' :
  authorize_client s c drawn user session issue d = Ok (v, d') ->
  rows_kept (sessions d) (sessions d') \/
  exists kept r a next0 next, v = Done kept /\ List.find (session_of session user) (sessions d) = Some r /\
    live r = true /\ loadUserStatus (se_user_id r) d = Some active /\
    go_now c < se_expires_at r /\ go_now c < se_idle_expires_at r /\
    resolveRefreshAuthorization (scanSession "" r) d = Some a /\
    issue (scanSession "" r) a = Ok (next0, kept) /\ prepareSessionRecord drawn (go_now c) next0 = Ok next /\
    sr_UserID next = se_user_id r /\ sr_FamilyID next <> se_family_id r /\
    (_ ← admitSession (ss_policy s) c next; insertSession next) d = Ok (tt, d').
Proof.
  unfold authorize_client, commit_refusal. destruct (List.find _ _) as [r|]; [|done].
  destruct (negb (bool_decide (sr_RevokedAt _ = None))) eqn:Hl; [done|].
  destruct (negb (is_Nil _)); [done|]. destruct (negb (bool_decide (sr_ClientID _ = ""))); [done|].
  destruct (loadUserStatus _ d) as [status|] eqn:Hs; [|done].
  case_decide as Hactive; [intros; simplify_eq; left; apply revoke_rows_kept|]. subst status.
  destruct (negb (time_before _ _) || _) eqn:Ht; [done|].
  destruct (resolveRefreshAuthorization _ d) as [a|] eqn:Hauth; [|done].
  destruct (issue _ a) as [[next0 kept]|] eqn:Hissue; [|by case_match]. intros Hrun.
  apply tx_bind_ok in Hrun as (next & d1 & Hp & Hrun). apply tx_bind_ok in Hrun as ([] & d2 & Hv & Hrun).
  apply tx_bind_ok in Hrun as ([] & d3 & Ha & Hrun). apply tx_bind_ok in Hrun as ([] & d4 & Hi & Hrun).
  unfold tx_lift in Hp, Hv. destruct (prepareSessionRecord _ _ _) as [next1|] eqn:Hp1; [|done]. simplify_eq/=.
  destruct (bool_decide (sr_UserID next = _)) eqn:Hu; [|done].
  destruct (bool_decide (sr_FamilyID next = _)) eqn:Hf; [done|]. destruct (bool_decide (sr_ClientID next = "")); [done|].
  simplify_eq/=. cbv [mret tx_ret] in Hrun. simplify_eq.
  apply bool_decide_eq_true_1 in Hu. apply bool_decide_eq_false_1 in Hf.
  apply orb_false_iff in Ht as [Hx Hidle]. unfold time_before in Hx, Hidle.
  apply negb_false_iff, Z.ltb_lt in Hx, Hidle. apply negb_false_iff in Hl.
  right. do 5 eexists. split_and!; try done.
  assert (admitSession (ss_policy s) c next d2 = Ok ((), d3)) as Ha'.
  { destruct (admitSession _ _ _ _) as [|[]]; done. }
  by rewrite (tx_bind_run _ _ _ _ _ Ha').
Qed.

Lemma MintForClient_effect m s c x user authorizing client resource d :
  lifetime = sp_AbsoluteLifetime (cf_SessionPolicy (mi_cfg m)) -> max = sp_MaxActiveDevices (ss_policy s) ->
  dr_now x <> zero_time ->
  effect (dr_family x) (hex_encode (hashRefresh sha256 (dr_refresh x))) (sessions d)
    (sessions (snd (MintForClient sha256 sign m s c x user authorizing client resource d))).
Proof.
  intros Hlife Hmax Hnow. unfold MintForClient. destruct (mi_configErr m); [by apply effect_ends|].
  case_decide; [by apply effect_ends|]. unfold AuthorizeClientSession. case_match; [by apply effect_ends|].
  apply settle_effect. intros v d' H1.
  apply authorize_done in H1 as [Hk|(kept & r & a & next0 & next & -> & _ & _ & _ & _ & _ & _ & Hr & Hp & _ & _ & Hrun)];
    [by apply effect_ends|].
  apply result_bind_ok in Hr as (identity & Hid & Hr). apply result_bind_ok in Hr as ([tokens rec] & Hm & Hr).
  injection Hr as -> ->.
  destruct (begun_row _ _ _ _ _ _ _ _ Hlife Hnow Hm Hp) as (Hok & Hf & Hh & _). by eapply admitted_insert.
Qed.
End Effects.
