(* ===== verification/SessionSystem.v ===== *)
(** The session store at work: the operations of pkg/auth, pkg/business and the triggers as
    steps of one system, what is always true of the sessions they make, and what follows a
    token through any number of them. *)
From S2P Require Import Prelude RedisState Sessions SessionTokens SessionsProofs.
Local Open Scope Z_scope.

Section System.
Context (sha256 : string -> string) (sign : accessClaims -> result AuthErr string).
Variable m : Minter.
Variable s : SessionStore.

(** What is done to the sessions: each is one transaction. *)
Inductive operation : Type :=
| SignIn (c : Clock) (x : Draw) (identity : Identity)
| Refresh (c : Clock) (x : Draw) (token client resource : string)
| Switch (c : Clock) (x : Draw) (user session org : string)
| ClientSignIn (c : Clock) (x : Draw) (user authorizing client resource : string)
| EndFamily (c : Clock) (family reason : string)
| EndUser (c : Clock) (user reason : string)
| EndWindow (c : Clock) (session reason : string)
| ChangeAuthority (c : Clock) (ch : authorization_change)
| ChangeScopedRole (c : Clock) (old new : option RoleAssignment)
| Prune (before : instant)
| AddUser (user : string) (u : User).

Definition perform (op : operation) (d : AuthDb) : AuthDb :=
  match op with
  | SignIn c x identity => snd (Mint sha256 sign m s c x identity d)
  | Refresh c x token client resource => snd (rotateRefresh sha256 sign m c x token client resource d)
  | Switch c x user session org => snd (SwitchOrganization sign m c x user session org d)
  | ClientSignIn c x user authorizing client resource =>
      snd (MintForClient sha256 sign m s c x user authorizing client resource d)
  | EndFamily c family reason => RevokeFamily c family reason d
  | EndUser c user reason => snd (RevokeAllUserSessions c user reason d)
  | EndWindow c session reason => snd (CloseImpersonationSession c session reason d)
  | ChangeAuthority c ch => change_authorization c ch d
  | ChangeScopedRole c old new => change_scoped_role c old new d
  | Prune before => DeleteOldSessions before d
  | AddUser user u => set_users (<[user := u]>) d
  end.

(** The draw of an operation. *)
Definition drawn (op : operation) : option Draw :=
  match op with
  | SignIn _ x _ | Refresh _ x _ _ _ | Switch _ x _ _ _ | ClientSignIn _ x _ _ _ _ => Some x
  | _ => None
  end.
Definition stored (token : string) : string := hex_encode (hashRefresh sha256 token).

(** The sessions, with the families and the stored hashes drawn so far: no draw repeats one,
    which is what random ids, random tokens and SHA-256 are for. *)
Record World : Type := { w_db : AuthDb; w_families : list string; w_hashes : list string }.
Definition fresh (op : operation) (w : World) : Prop :=
  match drawn op with
  | Some x => (dr_family x ∉ w_families w) /\ (stored (dr_refresh x) ∉ w_hashes w) /\ dr_now x <> zero_time
  | None => True
  end.
Definition after (op : operation) (w : World) : World :=
  {| w_db := perform op (w_db w);
     w_families := match drawn op with Some x => [dr_family x] | None => [] end ++ w_families w;
     w_hashes := match drawn op with Some x => [stored (dr_refresh x)] | None => [] end ++ w_hashes w |}.
Inductive step (w : World) : World -> Prop :=
| step_perform op : fresh op w -> step w (after op w).
Inductive initial : World -> Prop :=
| initial_world d : sessions d = [] -> initial {| w_db := d; w_families := []; w_hashes := [] |}.
Definition reachable (w : World) : Prop := exists w0, initial w0 /\ rtc step w0 w.

(** ** What a step does to the rows *)
Lemma invalidated_kept at_ ch d : rows_kept (sessions d) (sessions (invalidate_authorization_sessions at_ ch d)).
Proof.
  destruct ch; cbn [invalidate_authorization_sessions]; repeat case_match; try reflexivity;
    first [apply revoke_rows_kept | etrans; apply revoke_rows_kept].
Qed.
Lemma change_authorization_kept c ch d : rows_kept (sessions d) (sessions (change_authorization c ch d)).
Proof.
  assert (H : sessions (change_tables ch d) = sessions d) by by destruct ch.
  unfold change_authorization. case_match; rewrite <- H; [apply invalidated_kept|reflexivity].
Qed.
Lemma change_scoped_role_kept c old new d : rows_kept (sessions d) (sessions (change_scoped_role c old new d)).
Proof.
  unfold change_scoped_role, invalidate_scoped_role_sessions. repeat case_match; cbn; try reflexivity;
    first [apply revoke_rows_kept | etrans; apply revoke_rows_kept].
Qed.

Variable lifetime : duration.
Variable max : Z.
Hypothesis Hlifetime : lifetime = sp_AbsoluteLifetime (cf_SessionPolicy (mi_cfg m)).
Hypothesis Hmax : max = sp_MaxActiveDevices (ss_policy s).

Abbreviation effect := (effect lifetime max).

(** Rows end, or the old ones are deleted. *)
Inductive ended (rows : list Session) : list Session -> Prop :=
| ended_kept rows' : rows_kept rows rows' -> ended rows rows'
| ended_deleted before : ended rows (filter (fun r => negb (se_created_at r <? before) = true) rows).

Lemma perform_effect op w : fresh op w -> Forall (row_ok lifetime) (sessions (w_db w)) ->
  match drawn op with
  | Some x => effect (dr_family x) (stored (dr_refresh x)) (sessions (w_db w)) (sessions (perform op (w_db w)))
  | None => ended (sessions (w_db w)) (sessions (perform op (w_db w)))
  end.
Proof.
  unfold fresh. intros Hf Hrows.
  destruct op; cbn [drawn perform] in *; try (apply ended_kept; apply revoke_rows_kept).
  - destruct Hf as (_ & _ & Hnow). by apply Mint_effect.
  - by apply rotateRefresh_effect.
  - apply SwitchOrganization_effect.
  - destruct Hf as (_ & _ & Hnow). by apply MintForClient_effect.
  - apply ended_kept, change_authorization_kept.
  - apply ended_kept, change_scoped_role_kept.
  - apply ended_deleted.
  - by apply ended_kept.
Qed.

(** ** What is always true of the sessions *)
(** What the rows of one family share. *)
Definition shared (r : Session) :=
  (se_user_id r, se_client_id r, se_resource r, se_created_at r, se_expires_at r, se_acting_as_user_id r).
Record rows_ok (fams hashes : list string) (rows : list Session) : Prop := {
  ok_ids : NoDup (map se_id rows);
  ok_rows : Forall (row_ok lifetime) rows;
  ok_drawn : forall r, r ∈ rows -> se_family_id r ∈ fams /\
    (forall h, se_refresh_token_hash r = Some h -> h ∈ hashes);
  ok_hashes : forall r r', r ∈ rows -> r' ∈ rows -> se_refresh_token_hash r <> None ->
    se_refresh_token_hash r = se_refresh_token_hash r' -> se_id r = se_id r';
  ok_families : forall r r', r ∈ rows -> r' ∈ rows -> se_family_id r = se_family_id r' ->
    shared r = shared r' /\ (live r = true -> live r' = true -> se_id r = se_id r');
  ok_devices : forall user, (length (families (active_device user) rows) <= Z.to_nat max)%nat;
}.

Lemma kept_shared r r' : kept_row r r' -> shared r' = shared r /\ se_family_id r' = se_family_id r /\
  se_id r' = se_id r /\ se_refresh_token_hash r' = se_refresh_token_hash r.
Proof. intros (Hb & _). unfold base in Hb. unfold shared. split_and!; congruence. Qed.
Lemma kept_row_ok r r' : kept_row r r' -> row_ok lifetime r -> row_ok lifetime r'.
Proof.
  intros (Hb & _). unfold base in Hb. injection Hb as _ _ Hh _ Hc He Hi _ Hm _ Ha Hcl Hr.
  unfold row_ok. by rewrite Hh, Hc, He, Hi, Hm, Ha, Hcl, Hr.
Qed.

Lemma rows_ok_mono fams hashes fams' hashes' rows : fams ⊆ fams' -> hashes ⊆ hashes' ->
  rows_ok fams hashes rows -> rows_ok fams' hashes' rows.
Proof.
  intros Hf Hh []. constructor; try done. intros r Hr. destruct (ok_drawn0 r Hr) as [H1 H2].
  split; [by apply Hf|]. intros h E. by apply Hh, H2.
Qed.

Lemma rows_ok_kept fams hashes rows rows' : rows_kept rows rows' ->
  rows_ok fams hashes rows -> rows_ok fams hashes rows'.
Proof.
  intros Hk [].
  assert (Hin : forall r', r' ∈ rows' -> exists r, r ∈ rows /\ kept_row r r') by (intros; by eapply rows_kept_in).
  constructor.
  - rewrite (rows_kept_base se_id rows); [done| |done]. intros r r' Hb. by apply base_eqs in Hb as (-> & _).
  - apply Forall_forall. intros r' Hr'. destruct (Hin r' Hr') as (r & Hr & Hkr).
    rewrite Forall_forall in ok_rows0. by eapply kept_row_ok, ok_rows0.
  - intros r' Hr'. destruct (Hin r' Hr') as (r & Hr & (_ & -> & _ & ->)%kept_shared). by apply ok_drawn0.
  - intros r1 r2 H1 H2. destruct (Hin r1 H1) as (q1 & Hq1 & (_ & _ & -> & ->)%kept_shared).
    destruct (Hin r2 H2) as (q2 & Hq2 & (_ & _ & -> & ->)%kept_shared). by apply ok_hashes0.
  - intros r1 r2 H1 H2. destruct (Hin r1 H1) as (q1 & Hq1 & Hk1).
    destruct (Hin r2 H2) as (q2 & Hq2 & Hk2).
    pose proof (kept_shared _ _ Hk1) as (-> & -> & -> & _). pose proof (kept_shared _ _ Hk2) as (-> & -> & -> & _).
    intros Hf. destruct (ok_families0 q1 q2) as [Hs Hl]; [done..|]. split; [done|].
    intros L1 L2. apply Hl; [by apply Hk1|by apply Hk2].
  - intros user. etrans; [|apply (ok_devices0 user)]. apply families_le. intros f. by apply families_kept.
Qed.

Lemma rows_ok_filter fams hashes rows (P : Session -> Prop) `{!forall r, Decision (P r)} :
  rows_ok fams hashes rows -> rows_ok fams hashes (filter P rows).
Proof.
  intros []. assert (Hin : forall r, r ∈ filter P rows -> r ∈ rows) by (intros r [_ Hr]%list_elem_of_filter; done).
  constructor; [| |by eauto..|].
  - eapply sublist_NoDup; [exact ok_ids0|]. apply (fmap_sublist se_id), sublist_filter.
  - rewrite Forall_forall in ok_rows0 |- *. by eauto.
  - intros user. etrans; [|apply (ok_devices0 user)]. apply families_le. intros f. rewrite !families_in.
    intros (r & Hr & Hd). exists r. split; [by apply Hin|done].
Qed.

Lemma rows_ok_snoc fams hashes rows new : rows_ok fams hashes rows ->
  (forall r, r ∈ rows -> se_id r <> se_id new) -> row_ok lifetime new -> live new = true ->
  se_family_id new ∈ fams ->
  (forall h, se_refresh_token_hash new = Some h -> h ∈ hashes /\ forall r, r ∈ rows -> se_refresh_token_hash r <> Some h) ->
  (forall r, r ∈ rows -> se_family_id r = se_family_id new -> shared r = shared new /\ live r = false) ->
  (forall user, (length (families (active_device user) (rows ++ [new])) <= Z.to_nat max)%nat) ->
  rows_ok fams hashes (rows ++ [new]).
Proof.
  intros [] Hid Hok Hl Hf Hh Hfam Hdev. constructor; [| | | | |done].
  - rewrite map_app. apply NoDup_app. split_and!; [done| |apply NoDup_singleton].
    intros i Hi Hn. apply list_elem_of_fmap in Hi as (r & -> & Hr). cbn in Hn.
    apply list_elem_of_singleton in Hn. by apply (Hid r).
  - by apply Forall_app_2; [|constructor].
  - intros r [Hr|Hr%list_elem_of_singleton]%elem_of_app; [by apply ok_drawn0|]. subst r.
    split; [done|]. intros h E. by apply Hh.
  - intros r r' [Hr|Hr%list_elem_of_singleton]%elem_of_app [Hr'|Hr'%list_elem_of_singleton]%elem_of_app Hn E.
    + by apply ok_hashes0.
    + subst r'. destruct (se_refresh_token_hash r) as [h|] eqn:E2; [|done]. by destruct (proj2 (Hh h (eq_sym E)) r Hr).
    + subst r. destruct (se_refresh_token_hash new) as [h|] eqn:E2; [|done]. by destruct (proj2 (Hh h eq_refl) r' Hr').
    + by subst.
  - intros r r' [Hr|Hr%list_elem_of_singleton]%elem_of_app [Hr'|Hr'%list_elem_of_singleton]%elem_of_app E.
    + by apply ok_families0.
    + subst r'. destruct (Hfam r Hr E) as [-> Hd]. split; [done|congruence].
    + subst r. destruct (Hfam r' Hr' (eq_sym E)) as [-> Hd]. split; [done|congruence].
    + by subst.
Qed.

Lemma families_snoc P rows r : (length (families P (rows ++ [r])) <= S (length (families P rows)))%nat.
Proof.
  change (S (length (families P rows))) with (length (se_family_id r :: families P rows)).
  apply submseteq_length, NoDup_submseteq; [apply families_nodup|]. intros f. rewrite elem_of_cons, !families_in.
  intros (q & [Hq|Hq%list_elem_of_singleton]%elem_of_app & HP & <-); [right; eauto|left; by subst].
Qed.
Lemma active_device_carries user r new : carries r new -> live r = true -> live new = true ->
  active_device user new = active_device user r.
Proof.
  intros (Hu & _ & Hc & _ & _ & _ & Ha & _) Hl Hl'. unfold active_device, of_user. by rewrite Hu, Hc, Ha, Hl, Hl'.
Qed.

Lemma ended_rows_ok fams hashes rows rows' : ended rows rows' -> rows_ok fams hashes rows -> rows_ok fams hashes rows'.
Proof. intros []; [by apply rows_ok_kept|apply rows_ok_filter]. Qed.
Lemma effect_ok family hash fams hashes rows rows' : 1 <= max ->
  effect family hash rows rows' -> family ∉ fams -> hash ∉ hashes ->
  rows_ok fams hashes rows -> rows_ok (family :: fams) (hash :: hashes) rows'.
Proof.
  intros Hpos He Hfam Hhash Hok.
  assert (Hgrow : forall rows', rows_ok fams hashes rows' -> rows_ok (family :: fams) (hash :: hashes) rows').
  { intros rows''. apply rows_ok_mono; set_solver. }
  assert (Hnew : forall rows' h, rows_ok fams hashes rows' -> h = Some hash ->
    forall h', h = Some h' -> h' ∈ hash :: hashes /\ forall r, r ∈ rows' -> se_refresh_token_hash r <> Some h').
  { intros rows'' h Hok' -> h' [= <-]. split; [by left|]. intros r Hr E. by apply Hhash, (ok_drawn _ _ _ Hok' r). }
  destruct He as [rows' Hk|before|rows' r new Hr Hl Hk Hover Hc Hnok Hnl Hnh Hnid|rows' new Hk Hnf Hnok Hnl Hnh Hnid Hdev].
  - apply Hgrow. by eapply rows_ok_kept.
  - by apply Hgrow, rows_ok_filter.
  - pose proof (rows_ok_kept _ _ _ _ Hk Hok) as Hok'. apply rows_ok_snoc; try done; [by apply Hgrow| | | | |].
    + intros q Hq. destruct (rows_kept_in _ _ _ Hk Hq) as (q0 & Hq0 & (_ & _ & -> & _)%kept_shared). by apply Hnid.
    + destruct Hc as (_ & -> & _). right. by apply (ok_drawn _ _ _ Hok).
    + by apply Hnew.
    + intros q Hq. assert (Hcf : se_family_id new = se_family_id r) by apply Hc. rewrite Hcf. intros E.
      split; [|by apply Hover].
      destruct (rows_kept_in _ _ _ Hk Hq) as (q0 & Hq0 & (-> & Hf0 & _)%kept_shared).
      destruct (ok_families _ _ _ Hok q0 r) as [-> _]; [done|done|congruence|].
      unfold shared. destruct Hc as (-> & _ & -> & -> & -> & -> & -> & _). done.
    + intros user. etrans; [|apply (ok_devices _ _ _ Hok user)]. apply families_le. intros f.
      rewrite families_in. intros (q & [Hq|Hq%list_elem_of_singleton]%elem_of_app & Ha & Hf).
      * eapply families_kept; [exact Hk|]. apply families_in. by exists q.
      * subst q. apply families_in. exists r. rewrite (active_device_carries _ r) in Ha by done.
        split_and!; [done|done|]. rewrite <- Hf. symmetry. apply Hc.
  - pose proof (rows_ok_kept _ _ _ _ Hk Hok) as Hok'. apply rows_ok_snoc; try done; [by apply Hgrow| | | | |].
    + intros q Hq. destruct (rows_kept_in _ _ _ Hk Hq) as (q0 & Hq0 & (_ & _ & -> & _)%kept_shared). by apply Hnid.
    + rewrite Hnf. by left.
    + destruct Hnh as [E|E]; [by rewrite E|]. by apply Hnew.
    + intros q Hq. rewrite Hnf. intros E. destruct (ok_drawn _ _ _ Hok' q Hq) as [Hd _]. by rewrite E in Hd.
    + intros user. destruct (active_device user new) eqn:Ha.
      * assert (se_user_id new = user) as <-.
        { unfold active_device, of_user in Ha. rewrite !andb_true_iff, bool_decide_eq_true in Ha. apply Ha. }
        etrans; [apply families_snoc|]. specialize (Hdev Ha). lia.
      * etrans; [|apply (ok_devices _ _ _ Hok' user)]. apply families_le. intros f. rewrite !families_in.
        intros (q & [Hq|Hq%list_elem_of_singleton]%elem_of_app & HP & Hf); [by exists q|]. by subst; rewrite Ha in HP.
Qed.

Definition world_ok (w : World) : Prop := rows_ok (w_families w) (w_hashes w) (sessions (w_db w)).
Hypothesis Hpos : 1 <= max.
Lemma step_ok w w' : step w w' -> world_ok w -> world_ok w'.
Proof.
  intros [op Hf] Hok. pose proof (perform_effect op w Hf (ok_rows _ _ _ Hok)) as He. unfold world_ok, after, fresh in *.
  cbn [w_db w_families w_hashes]. destruct (drawn op) as [x|]; cbn [app].
  - destruct Hf as (H1 & H2 & _). by eapply effect_ok.
  - by eapply ended_rows_ok.
Qed.

Lemma steps_ok w w' : rtc step w w' -> world_ok w -> world_ok w'.
Proof. induction 1; eauto using step_ok. Qed.
Lemma reachable_ok w : reachable w -> world_ok w.
Proof.
  intros (w0 & [d Hd] & Hs). eapply steps_ok; [exact Hs|]. unfold world_ok. cbn. rewrite Hd.
  constructor; [constructor|constructor|by intros ? ?%not_elem_of_nil|by intros ? ? ?%not_elem_of_nil..|].
  intros user. cbn. lia.
Qed.

Lemma one_live_row w r r' : world_ok w -> r ∈ sessions (w_db w) -> r' ∈ sessions (w_db w) ->
  se_family_id r = se_family_id r' -> shared r = shared r' /\ (live r = true -> live r' = true -> r = r').
Proof.
  intros Hok Hr Hr' Hf. destruct (ok_families _ _ _ Hok r r') as [Hs Hl]; [done..|]. split; [done|]. intros L L'.
  eapply (NoDup_map_inj_in se_id); [apply (ok_ids _ _ _ Hok)|done|done|by apply Hl].
Qed.
Lemma same_hash_row w r r' : world_ok w -> r ∈ sessions (w_db w) -> r' ∈ sessions (w_db w) ->
  se_refresh_token_hash r <> None -> se_refresh_token_hash r = se_refresh_token_hash r' -> r = r'.
Proof.
  intros Hok Hr Hr' Hn E. eapply (NoDup_map_inj_in se_id); [apply (ok_ids _ _ _ Hok)|done|done|].
  by apply (ok_hashes _ _ _ Hok).
Qed.

(** ** Following rows through any number of steps *)
(** A property of rows that nothing takes away: not what ends a row, nor a successor with a
    new hash, nor a row of a new family. *)
Definition kept_by_steps (fams hashes : list string) (Q : Session -> Prop) : Prop :=
  (forall r r', kept_row r r' -> Q r -> Q r') /\
  (forall r new hash, live r = true -> live new = true -> carries r new -> se_refresh_token_hash new = Some hash ->
     hash ∉ hashes -> Q r -> Q new) /\
  (forall new, se_family_id new ∉ fams ->
     (forall hash, se_refresh_token_hash new = Some hash -> hash ∉ hashes) -> Q new).

Lemma kept_by_steps_mono fams hashes fams' hashes' Q : fams ⊆ fams' -> hashes ⊆ hashes' ->
  kept_by_steps fams hashes Q -> kept_by_steps fams' hashes' Q.
Proof.
  intros Hf Hh (H1 & H2 & H3). split_and!; [done| |].
  - intros r new hash Hl Hl' Hc Hn Hnot. eapply H2; [done|done|done|exact Hn|set_solver].
  - intros new Hn Hno. apply H3; [set_solver|]. intros hash E. specialize (Hno hash E). set_solver.
Qed.

Lemma effect_keeps family hash rows rows' fams hashes Q : effect family hash rows rows' ->
  family ∉ fams -> hash ∉ hashes -> kept_by_steps fams hashes Q ->
  (forall r, r ∈ rows -> Q r) -> forall r, r ∈ rows' -> Q r.
Proof.
  intros He Hfam Hhash (H1 & H2 & H3) HQ.
  assert (Hkept : forall rows', rows_kept rows rows' -> forall r, r ∈ rows' -> Q r).
  { intros rows'' Hk r Hr. destruct (rows_kept_in _ _ _ Hk Hr) as (r0 & Hr0 & Hkr). eauto. }
  destruct He as [rows' Hk|before|rows' r new Hr Hl Hk Hover Hc Hnok Hnl Hnh Hnid|rows' new Hk Hnf Hnok Hnl Hnh Hnid Hdev].
  - by apply Hkept.
  - intros r [_ Hr]%list_elem_of_filter. by apply HQ.
  - intros q [Hq|Hq%list_elem_of_singleton]%elem_of_app; [by eapply Hkept|]. subst q. eauto.
  - intros q [Hq|Hq%list_elem_of_singleton]%elem_of_app; [by eapply Hkept|]. subst q.
    apply H3; [by rewrite Hnf|]. intros hash' E. destruct Hnh as [E'|E']; congruence.
Qed.

Lemma steps_keep w w' Q : rtc step w w' -> world_ok w ->
  kept_by_steps (w_families w) (w_hashes w) Q ->
  (forall r, r ∈ sessions (w_db w) -> Q r) -> forall r, r ∈ sessions (w_db w') -> Q r.
Proof.
  induction 1 as [|w w1 w' Hs _ IH]; [done|]. intros Hok HQ Hall. apply IH; [by eapply step_ok| |].
  - destruct Hs as [op _]. eapply kept_by_steps_mono; [| |exact HQ]; cbn; set_solver.
  - destruct Hs as [op Hf]. pose proof (perform_effect op w Hf (ok_rows _ _ _ Hok)) as He.
    unfold fresh in Hf. cbn [after w_db]. destruct (drawn op) as [x|].
    + destruct Hf as (Hfam & Hhash & _). by eapply effect_keeps.
    + destruct HQ as (H1 & _ & _). destruct He as [rows' Hk|before].
      * intros r Hr. destruct (rows_kept_in _ _ _ Hk Hr) as (r0 & Hr0 & Hkr). eauto.
      * intros r [_ Hr]%list_elem_of_filter. by apply Hall.
Qed.

(** A family that is over stays over. *)
Lemma over_kept fams hashes family : family ∈ fams ->
  kept_by_steps fams hashes (fun r => se_family_id r = family -> live r = false).
Proof.
  intros Hf. split_and!.
  - intros r r' Hk H E. pose proof (kept_shared _ _ Hk) as (_ & Hfr & _). destruct (live r') eqn:L; [|done].
    destruct Hk as (_ & Hl & _). rewrite <- H; [symmetry; by apply Hl|congruence].
  - intros r new hash Hl _ (_ & Hfr & _) _ _ H E. rewrite H in Hl; [done|congruence].
  - intros new Hn _ E. congruence.
Qed.

(** A token that was rotated stays so. *)
Definition rotated_row (r : Session) : Prop := live r = false /\ se_revoked_reason r = Some "rotated".
Lemma spent_kept fams hashes h : h ∈ hashes ->
  kept_by_steps fams hashes (fun r => se_refresh_token_hash r = Some h -> rotated_row r).
Proof.
  intros Hh. split_and!.
  - intros r r' Hk H E. pose proof (kept_shared _ _ Hk) as (_ & _ & _ & Ehash).
    destruct H as [Hd Hr]; [congruence|]. destruct Hk as (_ & Hl & Hreason). split.
    + destruct (live r') eqn:L; [|done]. rewrite <- Hd. symmetry. by apply Hl.
    + by rewrite Hreason.
  - intros r new hash _ _ _ En Hnot _ E. congruence.
  - intros new _ Hn E. by destruct (Hn h E).
Qed.

(** What is live in a family goes on from what was live in it. *)
Lemma carries_trans r r' r'' : carries r r' -> carries r' r'' -> carries r r''.
Proof.
  unfold carries. intros (-> & -> & -> & -> & -> & -> & -> & Hm & Hl) (-> & -> & -> & -> & -> & -> & -> & Hm' & Hl').
  split_and!; try done; intuition congruence.
Qed.
Lemma kept_carries r r' : kept_row r r' -> carries r r'.
Proof. intros (Hb & _). unfold base in Hb. unfold carries. split_and!; try congruence; right; congruence. Qed.
Lemma followed_kept fams hashes r : se_family_id r ∈ fams ->
  kept_by_steps fams hashes (fun r' => se_family_id r' = se_family_id r -> live r' = true -> carries r r').
Proof.
  intros Hf. split_and!.
  - intros q q' Hk H E L. pose proof (kept_shared _ _ Hk) as (_ & Hfq & _). eapply carries_trans; [|by apply kept_carries].
    apply H; [congruence|]. by apply Hk.
  - intros q new hash Hl _ Hc _ _ H E _. eapply carries_trans; [|exact Hc]. apply H; [|done].
    destruct Hc as (_ & Hfq & _). congruence.
  - intros new Hn _ E. congruence.
Qed.
End System.
