(* ===== verification/SessionsTheorems.v ===== *)
(** What holds of every session the store ever keeps: one live refresh credential per family,
    a bounded number of devices, refreshes that widen nothing and carry the authority of the
    moment, replays and sign-outs after which nothing of the family answers. *)
From S2P Require Import Prelude RedisState RedisStateTheorems.
From S2P Require Import Sessions SessionTokens SessionsProofs SessionSystem.
Local Open Scope Z_scope.

Lemma Validate_devices p : Validate p = None -> 1 <= sp_MaxActiveDevices p.
Proof. unfold Validate. repeat (case_match; [done|]). intros _. bool_to_prop. lia. Qed.

(** Rows distinct by a key are no more than its values. *)
Lemma filter_families rows P :
  (forall r r', r ∈ rows -> r' ∈ rows -> P r = true -> P r' = true -> se_family_id r = se_family_id r' ->
    se_id r = se_id r') -> NoDup (map se_id rows) ->
  length (filter (fun r => P r = true) rows) = length (families P rows).
Proof.
  intros Hone Hids. unfold families.
  assert (Hn : NoDup (map se_family_id (filter (fun r => P r = true) rows))).
  { eapply (NoDup_map_finer se_id).
    - eapply sublist_NoDup; [exact Hids|]. apply (fmap_sublist se_id), sublist_filter.
    - intros r r' [H1 H2]%list_elem_of_filter [H3 H4]%list_elem_of_filter. auto. }
  rewrite <- (length_map se_family_id). apply Permutation_length, NoDup_Permutation; [done|apply NoDup_remove_dups|].
  intros f. by rewrite elem_of_remove_dups.
Qed.

Section Theorems.
Context (sha256 : string -> string) (sign : accessClaims -> result AuthErr string).
Variable m : Minter.
Variable s : SessionStore.
Abbreviation lifetime := (sp_AbsoluteLifetime (cf_SessionPolicy (mi_cfg m))).
Abbreviation max := (sp_MaxActiveDevices (ss_policy s)).
Abbreviation step := (step sha256 sign m s).
Abbreviation after := (after sha256 sign m s).
Abbreviation reachable := (reachable sha256 sign m s).

Lemma reachable_rows w : Validate (ss_policy s) = None -> reachable w -> world_ok lifetime max w.
Proof. intros Hv Hr. eapply reachable_ok; [done|done|by apply Validate_devices|done]. Qed.

(** C23. A family is one session: whatever was done to the store, two rows of one family belong
    to the same person, client and resource and began and end together, and at most one of
    them is live, so one refresh token at a time answers for a sign-in. *)
Theorem one_live_session_per_family w r r' :
  Validate (ss_policy s) = None -> reachable w ->
  r ∈ sessions (w_db w) -> r' ∈ sessions (w_db w) -> se_family_id r = se_family_id r' ->
  shared r = shared r' /\ (live r = true -> live r' = true -> r = r').
Proof.
  intros Hv Hw Hr Hr' Hf. by eapply one_live_row, Hf; first apply reachable_rows.
Qed.

(** C28. The number of devices is bounded: whatever was done to the store, a person never has
    more live device sessions than the policy allows. *)
Theorem devices_are_bounded w user :
  Validate (ss_policy s) = None -> reachable w ->
  Z.of_nat (length (filter (fun r => active_device user r = true) (sessions (w_db w)))) <= max.
Proof.
  intros Hv Hw. pose proof (reachable_rows w Hv Hw) as Hok. pose proof (Validate_devices _ Hv).
  rewrite filter_families; [|intros r r' Hr Hr' Ha Ha' E|apply (ok_ids _ _ _ _ _ Hok)].
  - pose proof (ok_devices _ _ _ _ _ Hok user). lia.
  - unfold active_device in Ha, Ha'. rewrite !andb_true_iff in Ha, Ha'.
    destruct (ok_families _ _ _ _ _ Hok r r') as [_ Hone]; [done..|]. apply Hone; tauto.
Qed.

(** C24. A refresh widens nothing: what is live in a family later than a live row of it belongs
    to the same person, client and resource, began and ends when that row does, within the
    lifetime of the policy, and has the second factor that row had or none: no refresh moves
    the end of a sign-in or raises its assurance. *)
Theorem refresh_widens_nothing w w' r r' :
  Validate (ss_policy s) = None -> reachable w -> rtc step w w' ->
  r ∈ sessions (w_db w) -> live r = true -> r' ∈ sessions (w_db w') -> live r' = true ->
  se_family_id r' = se_family_id r ->
  carries r r' /\
  (se_acting_as_user_id r = None -> se_expires_at r' < se_created_at r + lifetime + 1000).
Proof.
  intros Hv Hw Hs Hr Hl Hr' Hl' Hf. pose proof (reachable_rows w Hv Hw) as Hok.
  assert (Hc : carries r r').
  { eapply (steps_keep sha256 sign m s lifetime max eq_refl eq_refl (Validate_devices _ Hv) w w'
      (fun q => se_family_id q = se_family_id r -> live q = true -> carries r q)); try done.
    - apply followed_kept. by apply (ok_drawn _ _ _ _ _ Hok).
    - intros q Hq E L. destruct (one_live_row _ _ _ q r Hok) as [_ H]; [done..|]. rewrite H by done.
      unfold carries. tauto. }
  split; [done|]. intros Ha. destruct Hc as (_ & _ & _ & _ & _ & -> & _).
  pose proof (ok_rows _ _ _ _ _ Hok) as Hrows. rewrite Forall_forall in Hrows. by apply (Hrows r Hr).
Qed.

(** ** Replays *)
Lemma find_hash w h r : world_ok lifetime max w -> r ∈ sessions (w_db w) -> se_refresh_token_hash r = Some h ->
  List.find (has_hash h) (sessions (w_db w)) = Some r.
Proof.
  intros Hok Hr Hh. destruct (List.find _ _) as [q|] eqn:E.
  - apply List.find_some in E as [Hq Hqh]. apply list_elem_of_In in Hq. unfold has_hash in Hqh.
    apply bool_decide_eq_true_1 in Hqh. f_equal. eapply same_hash_row; [done|done|done|by rewrite Hqh|congruence].
  - apply list_elem_of_In in Hr. eapply List.find_none in E; [|exact Hr]. unfold has_hash in E.
    by apply bool_decide_eq_false_1 in E.
Qed.

Lemma user_over c user reason d q : q ∈ sessions (revokeActiveUserSessions c user reason d) ->
  se_user_id q = user -> live q = false.
Proof. intros Hq Hu. eapply revoke_live; [exact Hq| |done]. unfold of_user. by apply bool_decide_eq_true_2. Qed.
Lemma family_over c family reason d q : q ∈ sessions (revokeActiveFamily c family reason d) ->
  se_family_id q = family -> live q = false.
Proof. intros Hq Hf. eapply revoke_live; [exact Hq| |done]. unfold of_family. by apply bool_decide_eq_true_2. Qed.

Lemma rotate_settled m' c x token client resource d :
  mi_configErr m' = None -> hashRefresh sha256 token <> "" ->
  let r := settle (rotate c (dr_row x) (hashRefresh sha256 token)
             (refresh_replacement sha256 sign m' c x (hashRefresh sha256 token) client resource)) d in
  snd (rotateRefresh sha256 sign m' c x token client resource d) = snd r /\
  (forall e, fst r = Err e -> exists e', fst (rotateRefresh sha256 sign m' c x token client resource d) = Err e').
Proof.
  intros Hc Hh. unfold rotateRefresh, RotateRefresh. rewrite Hc, decide_False by done. cbn zeta.
  destruct (settle _ d) as [[v|e] d']; cbn; [done|]. split; [done|]. intros ? _. eauto.
Qed.
Lemma rotateRefresh_configured m' c x token client resource d tokens :
  fst (rotateRefresh sha256 sign m' c x token client resource d) = Ok tokens ->
  mi_configErr m' = None /\ hashRefresh sha256 token <> "".
Proof.
  unfold rotateRefresh, RotateRefresh. destruct (mi_configErr m'); [done|]. split; [done|]. intros E.
  by rewrite decide_True in H by done.
Qed.

(** A token whose row is over is not answered. *)
Lemma over_unanswered w q token c y client resource tokens :
  world_ok lifetime max w -> q ∈ sessions (w_db w) -> se_refresh_token_hash q = Some (stored sha256 token) ->
  live q = false -> fst (rotateRefresh sha256 sign m c y token client resource (w_db w)) <> Ok tokens.
Proof.
  intros Hok Hq Hh Hd Ha. destruct (rotateRefresh _ _ _ _ _ _ _ _ _) as [res d2] eqn:E. cbn in Ha. subst res.
  edestruct rotateRefresh_ok as (r & a & new & Href); [apply (ok_rows _ _ _ _ _ Hok)|exact E|]. destruct Href.
  assert (q = r) as -> by (eapply same_hash_row; [exact Hok|done|done|by rewrite Hh|by rewrite Hh]). congruence.
Qed.
(** A family that is over stays over. *)
Lemma stays_over w w' family : Validate (ss_policy s) = None -> world_ok lifetime max w -> family ∈ w_families w ->
  (forall q, q ∈ sessions (w_db w) -> se_family_id q = family -> live q = false) -> rtc step w w' ->
  forall q, q ∈ sessions (w_db w') -> se_family_id q = family -> live q = false.
Proof.
  intros Hv Hok Hf Hover Hs. pose proof (Validate_devices _ Hv) as Hpos.
  eapply (steps_keep sha256 sign m s lifetime max eq_refl eq_refl Hpos w w'
    (fun q => se_family_id q = family -> live q = false) Hs Hok); [by apply over_kept|done].
Qed.

(** The row of a rotated token, when it is presented again. *)
Lemma replayed w c x token client resource r status :
  world_ok lifetime max w -> mi_configErr m = None -> hashRefresh sha256 token <> "" ->
  r ∈ sessions (w_db w) -> se_refresh_token_hash r = Some (stored sha256 token) -> rotated_row r ->
  loadUserStatus (se_user_id r) (w_db w) = Some status ->
  exists reason, snd (rotateRefresh sha256 sign m c x token client resource (w_db w))
    = revokeActiveUserSessions c (se_user_id r) reason (w_db w).
Proof.
  intros Hok Hm Hne Hr Hh [Hd Hreason] Hs. destruct (rotate_settled m c x token client resource (w_db w) Hm Hne) as [-> _].
  unfold settle, run_tx, rotate, commit_refusal. rewrite (find_hash w _ r) by done. cbn [sr_UserID scanSession].
  rewrite Hs. case_decide; [by eexists|].
  unfold live in Hd. cbn [sr_RevokedAt scanSession]. rewrite Hd. cbn [negb sr_RevokedReason scanSession]. rewrite Hreason.
  cbn [default]. rewrite decide_False by naive_solver. by eexists.
Qed.

(** After a refresh the row of its token is rotated. *)
Lemma refresh_spends w c x token client resource tokens :
  world_ok lifetime max w -> fresh sha256 (Refresh c x token client resource) w ->
  fst (rotateRefresh sha256 sign m c x token client resource (w_db w)) = Ok tokens ->
  stored sha256 token ∈ w_hashes w /\
  forall q, q ∈ sessions (snd (rotateRefresh sha256 sign m c x token client resource (w_db w))) ->
    se_refresh_token_hash q = Some (stored sha256 token) -> rotated_row q.
Proof.
  intros Hok (_ & Hfresh & _) E. destruct (rotateRefresh _ _ _ _ _ _ _ _ _) as [res d'] eqn:Ha. cbn in E. subst res.
  edestruct rotateRefresh_ok as (r & a & new & Href); [apply (ok_rows _ _ _ _ _ Hok)|exact Ha|]. destruct Href.
  assert (Hin : stored sha256 token ∈ w_hashes w) by by apply (ok_drawn _ _ _ _ _ Hok r).
  split; [done|]. intros q Hq Hh. cbn [snd] in Hq. rewrite rf_sessions in Hq.
  apply elem_of_app in Hq as [Hq|Hq%list_elem_of_singleton].
  - cbn in Hq. apply list_elem_of_fmap in Hq as (q0 & -> & Hq0).
    assert (q0 = r) as ->.
    { eapply same_hash_row; [done|done|done| |]; destruct (of_family _ q0 && live q0); cbn in Hh; rewrite Hh;
        [done|done|exact (eq_sym rf_hash)|exact (eq_sym rf_hash)]. }
    unfold of_family. rewrite bool_decide_eq_true_2, rf_live by done. done.
  - subst q. unfold stored in *. congruence.
Qed.

(** C22. A refresh token answers once, and its replay ends everything: after a refresh with it,
    and whatever was done to the store since, no refresh with the same token succeeds, and
    when its row is still there every session of its owner is over. *)
Theorem a_replayed_token_ends_every_session w w' c x token client resource tokens c' x' client' resource' :
  Validate (ss_policy s) = None -> reachable w ->
  fresh sha256 (Refresh c x token client resource) w ->
  fst (rotateRefresh sha256 sign m c x token client resource (w_db w)) = Ok tokens ->
  rtc step (after (Refresh c x token client resource) w) w' ->
  let again := rotateRefresh sha256 sign m c' x' token client' resource' (w_db w') in
  (exists e, fst again = Err e) /\
  forall r, r ∈ sessions (w_db w') -> se_refresh_token_hash r = Some (stored sha256 token) ->
    is_Some (loadUserStatus (se_user_id r) (w_db w')) ->
    forall q, q ∈ sessions (snd again) -> se_user_id q = se_user_id r -> live q = false.
Proof.
  intros Hv Hw Hfresh Hok Hsteps again.
  pose proof (rotateRefresh_configured _ _ _ _ _ _ _ _ Hok) as [Hcfg Hne].
  pose proof (reachable_rows w Hv Hw) as Hw0. pose proof (Validate_devices _ Hv) as Hpos.
  assert (Hw1 : world_ok lifetime max (after (Refresh c x token client resource) w))
    by (eapply step_ok; [done|done|done|by constructor|done]).
  assert (Hw2 : world_ok lifetime max w') by (eapply steps_ok; done).
  assert (Hspent : forall r, r ∈ sessions (w_db w') -> se_refresh_token_hash r = Some (stored sha256 token) -> rotated_row r).
  { destruct (refresh_spends w c x token client resource tokens) as [Hin Hq]; [done..|].
    eapply (steps_keep sha256 sign m s lifetime max eq_refl eq_refl Hpos _ w'
      (fun r => se_refresh_token_hash r = Some (stored sha256 token) -> rotated_row r) Hsteps Hw1); [|exact Hq].
    apply spent_kept. cbn. by right. }
  split.
  - destruct (fst again) as [tokens'|e] eqn:E; [|eauto]. exfalso.
    destruct again as [res d'] eqn:Ha. cbn in E. subst res.
    edestruct rotateRefresh_ok as (r & a & new & Href); [apply (ok_rows _ _ _ _ _ Hw2)|exact Ha|]. destruct Href.
    destruct (Hspent r) as [Hd _]; [done..|]. congruence.
  - intros r Hr Hh [status Hs] q Hq Hu. destruct (replayed w' c' x' token client' resource' r status) as [reason E]; try done.
    { by apply Hspent. }
    fold again in E. rewrite E in Hq. by eapply user_over.
Qed.

(** ** The authority of the moment *)
Lemma global_fields user org role d :
  let a := resolveGlobalAuthorization user org role d in
  ra_OrgID a = org /\ ra_OrgRole a = role /\ ra_PlatformRole a = default "" (platform_admins d !! user) /\
  ra_MFAEnrolled a = mfa_enrolled user d /\ ra_ScopedRoles a = fst (resolveScopedRoles user org d).
Proof. unfold resolveGlobalAuthorization. by destruct (resolveScopedRoles user org d). Qed.

Lemma resolve_fields rec d a : resolveRefreshAuthorization rec d = Some a ->
  let user := sr_UserID rec in
  ra_PlatformRole a = default "" (platform_admins d !! user) /\ ra_MFAEnrolled a = mfa_enrolled user d /\
  ra_ScopedRoles a = fst (resolveScopedRoles user (ra_OrgID a) d) /\
  (is_Nil (ra_OrgID a) = true \/ exists mem, mem ∈ organization_members d /\ om_user_id mem = user /\
     om_org_id mem = ra_OrgID a /\ om_role mem = ra_OrgRole a).
Proof.
  unfold resolveRefreshAuthorization. set (user := sr_UserID rec). cbn zeta.
  assert (Hmem : forall mem, mem ∈ organization_members d -> om_user_id mem = user ->
    Some (resolveGlobalAuthorization user (om_org_id mem) (om_role mem) d) = Some a ->
    ra_PlatformRole a = default "" (platform_admins d !! user) /\ ra_MFAEnrolled a = mfa_enrolled user d /\
    ra_ScopedRoles a = fst (resolveScopedRoles user (ra_OrgID a) d) /\
    (is_Nil (ra_OrgID a) = true \/ exists mem, mem ∈ organization_members d /\ om_user_id mem = user /\
     om_org_id mem = ra_OrgID a /\ om_role mem = ra_OrgRole a)).
  { intros mem Hin Hu [= <-]. destruct (global_fields user (om_org_id mem) (om_role mem) d) as (-> & -> & -> & -> & ->).
    split_and!; try done. right. by exists mem. }
  case_match.
  - destruct (find_member _ _ _) as [mem|] eqn:E; [|done]. apply List.find_some in E as [Hin Hm].
    apply list_elem_of_In in Hin. unfold member_of in Hm. rewrite andb_true_iff, !bool_decide_eq_true in Hm.
    destruct Hm as [Hu _]. by apply Hmem.
  - destruct (newest_member _ _) as [mem|] eqn:E.
    + assert (Hin : mem ∈ filter (fun q => om_user_id q = user) (organization_members d)).
      { rewrite <- (merge_sort_Permutation joined_last). unfold newest_member in E.
        destruct (merge_sort joined_last _); [done|]. injection E as ->. by left. }
      apply list_elem_of_filter in Hin as [Hu Hin]. by apply Hmem.
    + intros [= <-]. destruct (global_fields user uuid_Nil "" d) as (-> & _ & -> & -> & ->). split_and!; try done. by left.
Qed.

Lemma identity_scoped rec a now session identity :
  identityFromCurrentAuthorization rec a now session = Ok identity ->
  id_ScopedRoles identity = ra_ScopedRoles a /\
  (ra_MFAEnrolled a = true -> id_MFASatisfied identity = sr_MFASatisfied rec).
Proof.
  unfold identityFromCurrentAuthorization. case_match; [done|]. intros [= <-]. cbn. split; [done|].
  intros Hm. by rewrite Hm.
Qed.

(** C26. A refreshed token carries the authority of the moment: its subject is an active user,
    its organization and role are a membership there is, its platform role and scoped roles are
    what the tables say now, and a user with a verified second factor gets a token only at the
    second level of assurance, with the moment it was proven. *)
Theorem refresh_carries_current_authority w c x token client resource tokens :
  Validate (ss_policy s) = None -> reachable w ->
  fst (rotateRefresh sha256 sign m c x token client resource (w_db w)) = Ok tokens ->
  exists claims, sign claims = Ok (tp_AccessToken tokens) /\
    let user := ac_Subject claims in
    loadUserStatus user (w_db w) = Some active /\
    (ac_OrgID claims = "" /\ ac_OrgRole claims = "" /\ ac_ScopedRoles claims = ∅ \/
     (exists mem, mem ∈ organization_members (w_db w) /\ om_user_id mem = user /\
        om_org_id mem = ac_OrgID claims /\ om_role mem = ac_OrgRole claims) /\
     ac_ScopedRoles claims = fst (resolveScopedRoles user (ac_OrgID claims) (w_db w))) /\
    ac_PlatformRole claims = default "" (platform_admins (w_db w) !! user) /\
    (mfa_enrolled user (w_db w) = true ->
     ac_AssuranceLevel claims = AssuranceLevelAAL2 /\ ac_MFASatisfied claims = true /\ ac_MFAVerifiedAt claims <> None).
Proof.
  intros Hv Hw E. pose proof (reachable_rows w Hv Hw) as Hok.
  destruct (rotateRefresh _ _ _ _ _ _ _ _ _) as [res d'] eqn:Ha. cbn in E. subst res.
  edestruct rotateRefresh_ok as (r & a & new & Href); [apply (ok_rows _ _ _ _ _ Hok)|exact Ha|]. destruct Href.
  destruct rf_identity as (identity & Hid & Hsign). unfold signAccess in Hsign.
  destruct (ValidateActorChain _); [done|]. apply result_bind_ok in Hsign as (access & Hsign & Htok).
  injection Htok as Htok _. subst access. eexists. split; [exact Hsign|].
  pose proof (identity_spec _ _ _ _ _ Hid) as (Iu & _ & _ & _ & Io & Irole & Ip & _ & _ & _ & Imfa).
  apply identity_scoped in Hid. apply resolve_fields in rf_authorization as (Rp & Rm & Rs & Ro).
  cbn [access_claims leveled ac_Subject ac_OrgID ac_OrgRole ac_ScopedRoles ac_PlatformRole ac_AssuranceLevel
    ac_MFASatisfied ac_MFAVerifiedAt id_UserID id_OrgID id_OrgRole id_PlatformRole id_ScopedRoles].
  cbn [scanSession sr_UserID sr_MFASatisfied] in *. destruct Hid as [Is Isat].
  rewrite Iu, Io, Irole, Ip, Is, Rp, Rs. split_and!; [done| |done|].
  - destruct (is_Nil (ra_OrgID a)) eqn:En; [by left|right]. split; [|done]. by destruct Ro.
  - intros Hm. rewrite <- Rm in Hm. destruct (Imfa Hm) as (Hs & Hl & Ht & Hz). split_and!.
    + unfold leveled. cbn. by rewrite Hl.
    + cbn. by rewrite Isat.
    + cbn. rewrite Ht. unfold date_unless_zero, time_is_zero. by rewrite (proj2 (Z.eqb_neq _ _) Hz).
Qed.

(** ** Refusals *)
(** A session that may not go on: over, idle, without its membership, or without the second
    factor its person has since enrolled. *)
Definition lapsed (c : Clock) (hash : string) (r : Session) (d : AuthDb) : Prop :=
  se_expires_at r <= go_now c \/ se_idle_expires_at r <= go_now c \/
  resolveRefreshAuthorization (scanSession hash r) d = None \/
  (mfa_enrolled (se_user_id r) d = true /\ (se_mfa_satisfied r = false \/ se_mfa_verified_at r = None)).

Lemma identity_needs_evidence rec a now session :
  ra_MFAEnrolled a = true -> sr_MFASatisfied rec = false \/ sr_MFAVerifiedAt rec = zero_time ->
  identityFromCurrentAuthorization rec a now session = Err (RejectRefresh RefreshRejectionMFAReauthentication).
Proof.
  intros Hm Hev. unfold identityFromCurrentAuthorization. rewrite Hm. cbn [andb].
  assert (negb (sr_MFASatisfied rec) || negb (HasMFAEvidence
    {| an_AuthenticationMethods := sr_AuthenticationMethods rec; an_AuthenticatedAt := sr_AuthenticatedAt rec;
       an_Level := sr_AssuranceLevel rec; an_MFAVerifiedAt := sr_MFAVerifiedAt rec |}) = true) as ->; [|done].
  destruct Hev as [-> | Hz]; [done|]. unfold HasMFAEvidence, time_is_zero. cbn. rewrite Hz, Z.eqb_refl, orb_true_r.
  by rewrite orb_true_r.
Qed.

Lemma lapsed_rejected c x hash r a d :
  resolveRefreshAuthorization (scanSession hash r) d = Some a -> lapsed c hash r d ->
  exists reason, refresh_replacement sha256 sign m c x hash "" "" (scanSession hash r) a = Err (RejectRefresh reason).
Proof.
  intros Ha Hl. unfold refresh_replacement. cbn [sr_RefreshHash sr_ExpiresAt sr_IdleExpiresAt scanSession].
  rewrite bool_decide_eq_true_2 by done. cbn [negb andb].
  rewrite bool_decide_eq_true_2 by done. cbn [negb andb]. unfold time_before.
  destruct (Z.ltb_spec (go_now c) (se_expires_at r)); cbn [negb]; [|by eexists].
  destruct (Z.ltb_spec (go_now c) (se_idle_expires_at r)); cbn [negb]; [|by eexists].
  destruct Hl as [Hl|[Hl|[Hl|[He Hev]]]]; [lia|lia|congruence|].
  apply resolve_fields in Ha as (_ & Hm & _). cbn [scanSession sr_UserID] in Hm. rewrite He in Hm.
  rewrite identity_needs_evidence; [by eexists|done|]. cbn. destruct Hev as [Hev|Hev]; [by left|right; by rewrite Hev].
Qed.

(** C27. A session that lapsed is over for good: a refresh of one that is past its end, idle for
    too long, without the membership it is for or without a second factor its person has
    enrolled is refused, and from then on nothing of its family is live again. *)
Theorem a_lapsed_session_ends_its_family w w' c x token r q :
  Validate (ss_policy s) = None -> reachable w -> fresh sha256 (Refresh c x token "" "") w ->
  mi_configErr m = None -> hashRefresh sha256 token <> "" ->
  r ∈ sessions (w_db w) -> se_refresh_token_hash r = Some (stored sha256 token) -> live r = true ->
  loadUserStatus (se_user_id r) (w_db w) = Some active -> lapsed c (hashRefresh sha256 token) r (w_db w) ->
  rtc step (after (Refresh c x token "" "") w) w' -> q ∈ sessions (w_db w') -> se_family_id q = se_family_id r ->
  fst (VerifyRefresh sha256 sign m c x token (w_db w)) = Err ErrRefreshRevoked /\ live q = false.
Proof.
  intros Hv Hw Hf Hcfg Hne Hr Hh Hl Hu Hlapsed Hs Hq Hfq. pose proof (reachable_rows w Hv Hw) as Hok.
  pose proof (Validate_devices _ Hv) as Hpos.
  assert (Hrot : exists reason, rotateRefresh sha256 sign m c x token "" "" (w_db w)
    = (Err ErrRefreshRevoked, revokeActiveFamily c (se_family_id r) reason (w_db w))).
  { unfold rotateRefresh, RotateRefresh. rewrite Hcfg, decide_False by done.
    unfold settle, run_tx, rotate, commit_refusal. rewrite (find_hash w _ r) by done. cbn [sr_UserID scanSession].
    rewrite Hu, decide_False by naive_solver. unfold live in Hl. cbn [sr_RevokedAt scanSession]. rewrite Hl. cbn [negb].
    destruct (resolveRefreshAuthorization _ _) as [a|] eqn:Ha; [|by eexists].
    destruct (lapsed_rejected c x _ r a _ Ha Hlapsed) as [reason ->]. by eexists. }
  destruct Hrot as [reason Hrot]. unfold VerifyRefresh. rewrite Hrot. split; [done|].
  eapply (stays_over _ w' (se_family_id r) Hv); [| | |exact Hs|done|done].
  - by eapply step_ok; [..|constructor|].
  - cbn. right. by apply (ok_drawn _ _ _ _ _ Hok).
  - cbn [after w_db perform]. rewrite Hrot. intros q' Hq' E. by eapply family_over.
Qed.

(** ** Signing out *)
Section SignOut.
Context {st : Type} `{State st, !StateLaws st}.

Definition access_life : duration := cf_AccessTokenTTL (mi_cfg m) + cf_ClockSkew (mi_cfg m).
Lemma accessTTL_le identity : accessTTL (mi_cfg m) identity <= cf_AccessTokenTTL (mi_cfg m).
Proof. unfold accessTTL. repeat case_match; bool_to_prop; lia. Qed.

Lemma RevokeSession_marks sid ttl t (x : st) :
  sid <> "" -> 0 < ttl -> fst (RedisState.RevokeSession sid ttl t x) = None ->
  marked (sessionRevokerPrefix +:+ sid) (t + ttl) (snd (RedisState.RevokeSession sid ttl t x)).
Proof.
  intros Hj Httl. unfold RedisState.RevokeSession. rewrite bool_decide_false by done.
  destruct (Z.leb_spec ttl 0); [lia|]. simpl orb. cbv iota. intros Hr.
  destruct (set_stores _ _ _ _ _ Httl Hr) as (e & He & _ & Ha).
  exists e. split; [done|]. by eapply armed_outlives.
Qed.
Lemma present_marked k until k' t (x : st) : marked k until x -> t <= until - millisecond ->
  marked k until (snd (present k' t x)).
Proof.
  intros Hm Ht. assert (snd (present k' t x) = snd (Get k' t x)) as ->.
  { unfold present. by destruct (Get k' t x) as [[|[]] ?]. }
  apply (marker_step_marked k until (t, x) (t, snd (Get k' t x))); [|done|done]. left. apply others_get.
Qed.

(** A fail-closed check refuses what bears a marked family. *)
Lemma marked_refused claims family until t (x : st) :
  cf_RevocationFailOpen (mi_cfg m) = false -> family <> "" -> ac_FamilyID claims = family ->
  marked (sessionRevokerPrefix +:+ family) until x -> t <= until - millisecond ->
  fst (access_refused m claims t x) <> None.
Proof.
  intros Hopen Hne Hf Hm Ht.
  assert (Hanswer : forall r, r <> Ok false -> revocation_answer m r <> None).
  { unfold revocation_answer. intros [[]|e] Hr; rewrite ?Hopen; done. }
  assert (Hfam : forall x : st, marked (sessionRevokerPrefix +:+ family) until x -> fst (check_keys m [family] t x) <> None).
  { intros y Hy. cbn. rewrite decide_False by done. unfold IsSessionRevoked. rewrite decide_False by done.
    pose proof (marked_present _ _ t y Hy Ht) as Hp. destruct (present _ t y) as [answer y'].
    specialize (Hanswer answer Hp). destruct (revocation_answer m answer); [|done]. by cbn. }
  assert (Hkeys : forall x : st, marked (sessionRevokerPrefix +:+ family) until x ->
    fst (check_keys m [ac_SessionID claims; family] t x) <> None).
  { intros y Hy. change (check_keys m [ac_SessionID claims; family] t y) with
      (if decide (ac_SessionID claims = "") then check_keys m [family] t y
       else let '(answer, y) := tr_IsSessionRevoked (ac_SessionID claims) t y in
            match revocation_answer m answer with Some e => (Some e, y) | None => check_keys m [family] t y end).
    case_decide as Hsid; [by apply Hfam|]. cbn [tr_IsSessionRevoked redis_TokenRevoker]. unfold IsSessionRevoked.
    rewrite decide_False by done. pose proof (present_marked _ _ (sessionRevokerPrefix +:+ ac_SessionID claims) t y Hy Ht) as Hy'.
    destruct (present _ t y) as [answer y']. case_match; [done|]. by apply Hfam. }
  unfold access_refused. rewrite Hf. case_decide as Hjti; [by apply Hkeys|].
  cbn [tr_IsRevoked redis_TokenRevoker]. unfold IsRevoked. rewrite decide_False by done.
  pose proof (present_marked _ _ (tokenRevokerPrefix +:+ ac_ID claims) t x Hm Ht) as Hx.
  destruct (present _ t x) as [answer x']. case_match; [done|]. by apply Hkeys.
Qed.

(** A sign-out that answers success ended the rows of the token's family and marked it. *)
Lemma Logout_done c token accessToken sid presented t1 t2 t3 d (x : st) r d' x' :
  Logout sha256 m c token accessToken sid presented t1 t2 t3 d x = (None, d', x') ->
  FindByRefreshHash (hashRefresh sha256 token) d = Ok r -> sr_FamilyID r <> "" -> 0 < access_life ->
  d' = RevokeFamily c (sr_FamilyID r) "logout" d /\
  marked (sessionRevokerPrefix +:+ sr_FamilyID r) (t3 + access_life) x'.
Proof.
  unfold Logout. destruct (if decide (accessToken = "") then _ else _) as [e1 x1].
  destruct (if decide (sid = "") then _ else _) as [e2 x2]. intros HL Hfind Hne Hpos.
  unfold Revoke in HL. rewrite Hfind in HL. unfold RevokeSessionAccess in HL. rewrite decide_False in HL by done.
  fold access_life in HL. cbn [tr_RevokeSession redis_TokenRevoker] in HL.
  pose proof (RevokeSession_marks (sr_FamilyID r) access_life t3 x2 Hne Hpos) as Hm.
  destruct (RedisState.RevokeSession (sr_FamilyID r) access_life t3 x2) as [e3 x3]. destruct e3; cbn in HL; [done|].
  injection HL as _ <- <-. split; [done|]. by apply Hm.
Qed.

(** C25. Signing out is final, where the access check fails closed and the markers are in a
    shared Redis that keeps its laws, not the no-op revoker: once a sign-out answers success,
    whatever whole transactions follow on the sessions, no refresh token of the signed-out
    family is answered; and whatever else is done to the markers, every access token of the
    family made at least a millisecond before the sign-out is refused for as long as its
    signature would be accepted, the allowed clock skew included.  A rotation in progress
    while the family is revoked is not a whole transaction after it: at READ COMMITTED its
    successor survives, which the findings record. *)
Theorem sign_out_is_final w c token accessToken sid presented t1 t2 t3 (x : st) r d' x' :
  Validate (ss_policy s) = None -> reachable w -> cf_RevocationFailOpen (mi_cfg m) = false -> 0 < access_life ->
  FindByRefreshHash (hashRefresh sha256 token) (w_db w) = Ok r ->
  sr_FamilyID r <> "" -> sr_FamilyID r <> uuid_Nil ->
  Logout sha256 m c token accessToken sid presented t1 t2 t3 (w_db w) x = (None, d', x') ->
  (forall w' q token', rtc step {| w_db := d'; w_families := w_families w; w_hashes := w_hashes w |} w' ->
     q ∈ sessions (w_db w') -> se_family_id q = sr_FamilyID r -> se_refresh_token_hash q = Some (stored sha256 token') ->
     forall c' y client resource tokens,
       fst (rotateRefresh sha256 sign m c' y token' client resource (w_db w')) <> Ok tokens) /\
  (forall identity session jti made t x2,
     made + millisecond <= t3 ->
     rtc (marker_step (sessionRevokerPrefix +:+ sr_FamilyID r) (t3 + access_life)) (t3, x') (t, x2) ->
     let claims := access_claims (mi_cfg m) identity session (sr_FamilyID r) jti made in
     t <= ac_ExpiresAt claims + cf_ClockSkew (mi_cfg m) ->
     fst (access_refused m claims t x2) <> None).
Proof.
  intros Hv Hw Hopen Hpos Hfind Hne Hnil HL. destruct (Logout_done _ _ _ _ _ _ _ _ _ _ _ _ _ HL Hfind Hne Hpos) as [-> Hm].
  pose proof (reachable_rows w Hv Hw) as Hok. pose proof (Validate_devices _ Hv) as Hdev.
  assert (Hrow : exists r0, r0 ∈ sessions (w_db w) /\ se_family_id r0 = sr_FamilyID r).
  { unfold FindByRefreshHash in Hfind. destruct (List.find _ _) as [r0|] eqn:E; [|done]. injection Hfind as <-.
    apply List.find_some in E as [E _]. exists r0. split; [by apply list_elem_of_In|done]. }
  destruct Hrow as (r0 & Hr0 & Hf0). split.
  - intros w' q token' Hs Hq Hfq Hhash c' y client resource tokens Ha.
    assert (Hw1 : world_ok lifetime max {| w_db := RevokeFamily c (sr_FamilyID r) "logout" (w_db w);
      w_families := w_families w; w_hashes := w_hashes w |}).
    { eapply (step_ok sha256 sign m s lifetime max eq_refl eq_refl Hdev w _ (step_perform _ _ _ _ w (EndFamily c (sr_FamilyID r) "logout") I) Hok). }
    assert (Hw2 : world_ok lifetime max w') by by eapply (steps_ok sha256 sign m s lifetime max eq_refl eq_refl Hdev).
    eapply over_unanswered; [exact Hw2|exact Hq|exact Hhash| |exact Ha].
    eapply (stays_over _ w' (sr_FamilyID r) Hv Hw1); [| |exact Hs|done|done].
    + cbn. rewrite <- Hf0. by apply (ok_drawn _ _ _ _ _ Hok).
    + intros q' Hq' E. by eapply family_over.
  - intros identity session jti made t x2 Hmade Hs claims Ht.
    assert (Hend : t <= t3 + access_life - millisecond).
    { unfold access_life. pose proof (accessTTL_le identity).
      assert (ac_ExpiresAt claims <= made + accessTTL (mi_cfg m) identity); [|lia].
      subst claims. cbn. unfold NumericDate, time_add.
      by apply (time_truncate_bounds (made + accessTTL (mi_cfg m) identity) second). }
    eapply marked_refused; [done|exact Hne| |eapply (marker_steps_marked _ _ _ _ Hs); done|exact Hend].
    cbn. unfold familyAccessClaim, is_Nil. by rewrite bool_decide_eq_false_2.
Qed.
End SignOut.
End Theorems.

(** ** A store at work

    One person signs in, refreshes, and signs out, with the default policy; the hash is the
    identity and a signature is the token's id. *)
Module SessionRun.
Definition t0 : instant := 1700000000 * second.
Definition sha (text : string) : string := text.
Definition signed (claims : accessClaims) : result AuthErr string := Ok (ac_ID claims).
Definition cfg : Config :=
  {| cf_Issuer := ""; cf_Audience := ""; cf_AccessTokenTTL := 0; cf_ImpersonationTokenTTL := 0;
     cf_SessionPolicy := {| sp_AbsoluteLifetime := 0; sp_IdleTimeout := 0; sp_MaxActiveDevices := 0 |};
     cf_ClockSkew := 0; cf_RevocationFailOpen := false |}.
Definition m : Minter := New cfg.
Definition s : SessionStore := NewSessionStore None.
Definition at_ (t : instant) : Clock := {| db_now := t; go_now := t |}.
Definition draw (n : string) (t : instant) : Draw :=
  {| dr_session := "session-" +:+ n; dr_family := "family-" +:+ n; dr_jti := "jti-" +:+ n;
     dr_refresh := "refresh-" +:+ n; dr_row := "row-" +:+ n; dr_now := t |}.
Definition ada : Identity :=
  {| id_UserID := "ada"; id_OrgID := "acme"; id_OrgRole := "member"; id_PlatformRole := "";
     id_SessionID := uuid_Nil; id_ActingAsUserID := uuid_Nil; id_Actor := None; id_MFASatisfied := true;
     id_AuthenticationMethods := ["password"]; id_AuthenticatedAt := t0; id_AssuranceLevel := "";
     id_MFAVerifiedAt := zero_time; id_ScopedRoles := ∅; id_ScopedRolesTruncated := false;
     id_DeviceInfo := ∅; id_IPAddress := "10.0.0.1"; id_ClientID := ""; id_Resource := "";
     id_Email := "ada@acme.test"; id_DisplayName := "Ada" |}.
Definition d0 : AuthDb :=
  {| sessions := []; users := {["ada" := {| us_status := active; us_default_org_id := None |}]};
     organization_members := [{| om_org_id := "acme"; om_user_id := "ada"; om_role := "owner"; om_joined_at := t0 |}];
     platform_admins := ∅; mfa_devices := []; role_assignments := []; role_names := ∅ |}.
Definition w0 : World := {| w_db := d0; w_families := []; w_hashes := [] |}.

Definition sign_in : operation := SignIn (at_ t0) (draw "1" t0) ada.
Definition w1 : World := after sha signed m s sign_in w0.
Definition refresh : operation := Refresh (at_ (t0 + hour)) (draw "2" (t0 + hour)) "refresh-1" "" "".
Definition w2 : World := after sha signed m s refresh w1.

(** The refreshed row has the role the person has now. *)
Example signed_in : map (fun r => (se_id r, live r)) (sessions (w_db w1)) = [("session-1", true)].
Proof. by vm_compute. Qed.
Example refreshed_once : map (fun r => (se_id r, live r, se_org_role r)) (sessions (w_db w2))
  = [("session-1", false, "member"); ("session-2", true, "owner")].
Proof. by vm_compute. Qed.
Example replayed_once :
  let '(answer, d) := rotateRefresh sha signed m (at_ (t0 + 2 * hour)) (draw "3" t0) "refresh-1" "" "" (w_db w2) in
  answer = Err ErrRefreshReuse /\ map live (sessions d) = [false; false].
Proof. by vm_compute. Qed.

(** Ending a device from the administration marks the sessions that are live, not the family:
    the access token of the sign-in, still good for a minute, survives it when the session was
    refreshed in between, and a sign-out would have refused it. *)
Example older_token_survives_admin :
  let '(_, d) := rotateRefresh sha signed m (at_ (t0 + minute)) (draw "2" (t0 + minute)) "refresh-1" "" "" (w_db w1) in
  let claims := access_claims (mi_cfg m) ada "session-1" "family-1" "jti-1" t0 in
  let now := t0 + 2 * minute in
  let '(ended, killed, marks) := RevokeSession_admin m (at_ now) true "family-1" "" now d (∅ : memoryState) in
  let '(out, over, marks') := Revoke sha m (at_ now) "refresh-2" now d (∅ : memoryState) in
  now < ac_ExpiresAt claims /\ map live (sessions killed) = [false; false] /\
  fst (access_refused m claims now marks) = None /\ fst (access_refused m claims now marks') <> None.
Proof. by vm_compute. Qed.
Lemma fresh_sign_in : fresh sha sign_in w0.
Proof. split_and!; [set_solver|set_solver|done]. Qed.
Lemma fresh_refresh : fresh sha refresh w1.
Proof. split_and!; [| |done]; apply (bool_decide_unpack _); by vm_compute. Qed.
Lemma valid : Validate (ss_policy s) = None.
Proof. done. Qed.
Lemma reach_signed_in : reachable sha signed m s w1.
Proof. exists w0. split; [by constructor|]. apply rtc_once. constructor. exact fresh_sign_in. Qed.
Lemma run_refresh : rtc (step sha signed m s) w1 w2.
Proof. apply rtc_once. constructor. exact fresh_refresh. Qed.
Lemma reach_refreshed : reachable sha signed m s w2.
Proof. destruct reach_signed_in as (w & Hi & Hs). exists w. split; [done|]. etrans; [exact Hs|exact run_refresh]. Qed.

Definition blank : Session :=
  {| se_id := ""; se_user_id := ""; se_refresh_token_hash := None; se_family_id := ""; se_device_info := ∅;
     se_ip_address := None; se_created_at := 0; se_last_active_at := 0; se_idle_expires_at := 0; se_expires_at := 0;
     se_revoked_at := None; se_revoked_reason := None; se_org_id := None; se_org_role := ""; se_platform_role := "";
     se_mfa_satisfied := false; se_authentication_methods := []; se_auth_time := None; se_assurance_level := "";
     se_mfa_verified_at := None; se_email := None; se_display_name := None; se_acting_as_user_id := None;
     se_client_id := None; se_resource := None |}.
Definition row (w : World) (i : nat) : Session := nth i (sessions (w_db w)) blank.
Lemma row_in w i : (i < length (sessions (w_db w)))%nat -> row w i ∈ sessions (w_db w).
Proof. intros H. apply list_elem_of_In. by apply nth_In. Qed.
Ltac by_run := first [apply row_in; apply Nat.ltb_lt; by vm_compute | by vm_compute | done].

Lemma one_live_session_per_family_witness :
  shared (row w2 0) = shared (row w2 1) /\ (live (row w2 0) = true -> live (row w2 1) = true -> row w2 0 = row w2 1).
Proof. apply (one_live_session_per_family sha signed m s w2); [exact valid|exact reach_refreshed|by_run..]. Defined.

Lemma devices_are_bounded_witness :
  Z.of_nat (length (filter (fun r => active_device "ada" r = true) (sessions (w_db w2))))
    <= sp_MaxActiveDevices (ss_policy s).
Proof. apply (devices_are_bounded sha signed m s w2); [exact valid|exact reach_refreshed]. Defined.

Lemma refresh_widens_nothing_witness :
  carries (row w1 0) (row w2 1) /\
  (se_acting_as_user_id (row w1 0) = None ->
   se_expires_at (row w2 1) < se_created_at (row w1 0) + sp_AbsoluteLifetime (cf_SessionPolicy (mi_cfg m)) + 1000).
Proof.
  apply (refresh_widens_nothing sha signed m s w1 w2); [exact valid|exact reach_signed_in|exact run_refresh|by_run..].
Defined.

Definition issued : TokenPair :=
  {| tp_AccessToken := "jti-2"; tp_RefreshToken := "refresh-2"; tp_AccessTokenExpiresAt := t0 + hour + 3 * minute |}.
Lemma refreshes : fst (rotateRefresh sha signed m (at_ (t0 + hour)) (draw "2" (t0 + hour)) "refresh-1" "" "" (w_db w1))
  = Ok issued.
Proof. by vm_compute. Qed.

Lemma a_replayed_token_ends_every_session_witness :
  Forall (fun q => se_user_id q = "ada" -> live q = false)
    (sessions (snd (rotateRefresh sha signed m (at_ t0) (draw "3" t0) "refresh-1" "" "" (w_db w2)))).
Proof.
  apply Forall_forall.
  intros q. destruct (a_replayed_token_ends_every_session sha signed m s w1 w2 (at_ (t0 + hour)) (draw "2" (t0 + hour))
    "refresh-1" "" "" issued (at_ t0) (draw "3" t0) "" "" valid reach_signed_in fresh_refresh refreshes) as [_ H]; [done|].
  assert (Hu : se_user_id (row w2 0) = "ada") by by vm_compute.
  rewrite <- Hu. apply (H (row w2 0)); [by_run|by vm_compute|by eexists; vm_compute].
Defined.

Lemma refresh_carries_current_authority_witness :
  exists claims, signed claims = Ok "jti-2" /\ loadUserStatus (ac_Subject claims) (w_db w1) = Some active.
Proof.
  edestruct (refresh_carries_current_authority sha signed m s w1) as (claims & Hsign & Hs & _);
    [exact valid|exact reach_signed_in|exact refreshes|]. by exists claims.
Defined.

(** A week and a second later. *)
Definition late : operation := Refresh (at_ (t0 + 7 * 24 * hour + second)) (draw "3" t0) "refresh-2" "" "".
Lemma fresh_late : fresh sha late w2.
Proof. split_and!; [| |done]; apply (bool_decide_unpack _); by vm_compute. Qed.
Lemma a_lapsed_session_ends_its_family_witness :
  fst (VerifyRefresh sha signed m (at_ (t0 + 7 * 24 * hour + second)) (draw "3" t0) "refresh-2" (w_db w2))
    = Err ErrRefreshRevoked /\ live (row (after sha signed m s late w2) 1) = false.
Proof.
  apply (a_lapsed_session_ends_its_family sha signed m s w2 (after sha signed m s late w2)
    (at_ (t0 + 7 * 24 * hour + second)) (draw "3" t0) "refresh-2" (row w2 1) (row (after sha signed m s late w2) 1)
    valid reach_refreshed fresh_late); try by_run.
  left. apply Z.leb_le. by vm_compute.
Defined.

Definition leaves : instant := t0 + 2 * hour.
Definition found : SessionRecord := scanSession "refresh-2" (row w2 1).
Definition marks : memoryState := snd (RedisState.RevokeSession "family-1" (4 * minute) leaves ∅).
Definition over : AuthDb := RevokeFamily (at_ leaves) "family-1" "logout" (w_db w2).
Definition theirs : accessClaims := access_claims (mi_cfg m) ada "session-2" (sr_FamilyID found) "jti-2" (leaves - second).
Lemma finds : FindByRefreshHash (hashRefresh sha "refresh-2") (w_db w2) = Ok found.
Proof. by vm_compute. Qed.
Lemma signs_out :
  Logout sha m (at_ leaves) "refresh-2" "" "" None t0 t0 leaves (w_db w2) (∅ : memoryState) = (None, over, marks).
Proof. unfold Logout, Revoke. rewrite finds. reflexivity. Qed.
Lemma sign_out_is_final_witness : fst (access_refused m theirs leaves marks) <> None.
Proof.
  assert (Hf : sr_FamilyID found <> "" /\ sr_FamilyID found <> uuid_Nil) by by vm_compute.
  destruct (sign_out_is_final sha signed m s w2 (at_ leaves) "refresh-2" "" "" None t0 t0 leaves ∅ found over marks
    valid reach_refreshed eq_refl ltac:(done) finds (proj1 Hf) (proj2 Hf) signs_out) as [_ H].
  apply (H ada "session-2" "jti-2" (leaves - second)); [by vm_compute|reflexivity|by vm_compute].
Defined.
End SessionRun.
